(* ===== verification/_CoqProject ===== *)
-Q . S2P
Prelude.v
GoStd.v
Kube.v
Fake.v
Skipper.v
Api.v
Memory.v
DeepCopy.v
Webhook.v
NamespaceQuota.v
ProjectOrganization.v
NamespaceMetadata.v
ReservedObjects.v
PodMutators.v
Schema.v
Quantity.v
Ratio.v
Limits.v
RatioValidator.v
Effects.v
Workqueue.v
Drain.v
Workers.v
GroupSync.v
GroupController.v
OrgRBAC.v
RbacController.v
UserSync.v
UserController.v
Transformers.v
UsageProfile.v
ApplyController.v
ApplyConverge.v
ProfilePipeline.v
LegacyQuota.v
LegacyController.v
ZoneVersion.v
Labels.v
Config.v
Shutdown.v
CommandLine.v
Main.v
NamespaceAdmission.v
NamespaceAccess.v
ZoneController.v
Scheme.v
