(* ===== verification/Prelude.v ===== *)
(** * The APPUiO Cloud Agent: a verification library

    The agent runs in a Kubernetes cluster whose namespaces belong to organizations.  It answers
    admission requests (webhooks) and reconciles objects (controllers), some of them between the
    cluster and a second one, the control API.  This library translates the Go sources under
    [src/] into definitions and proves what each part does, and what parts do together.

    ** The parts and the files that model them

    - [src/main.go], [src/whoami/], [src/controllers/clustersource/]: [CommandLine] (the flags and
      how the arguments are parsed into them) and [Main].  [main] is the start of the agent, a
      sequence of steps on the manager that may exit; [agent] is the process from its arguments
      on; [webhook_Handle] passes a request to the webhook registered for it.  [Shutdown] is its
      end: the two goroutines that run the managers, the wait for their results and the exit code,
      as a step relation.
    - [src/config.go]: [Config]; [src/limits/]: [Limits]; [src/validate/]: [Labels].
    - [src/api/v1/]: [Api] (the types, as values) and [DeepCopy] (the generated deep copies, on the
      structs, pointers and slices of [Memory]); [Scheme] holds the registration of the types, from
      the package's variables to the [init] of [main.go], and the helper of the tests that reads it
      ([src/testutils/]).
    - [src/skipper/]: [Skipper].  Who is exempt from a webhook; every webhook but the one about
      ratios asks a skipper first.
    - [src/webhooks/]: [Webhook] (shared helpers), [NamespaceQuota], [ProjectOrganization],
      [NamespaceMetadata], [ReservedObjects] (reserved quotas and limit ranges, cloudscale load
      balancers), [PodMutators] (node selector, active deadline), [RatioValidator]; [Schema] holds
      the types of the objects that are patched.
    - [src/ratio/]: [Quantity] (decimals and quantities) and [Ratio] (the ratio, the fetcher).
    - [src/controllers/]: [RatioValidator] (ratio events), [GroupSync], [OrgRBAC], [UserSync] (user
      attributes and usage profile synchronization), [Transformers] and [UsageProfile] (usage
      profile application), [LegacyQuota], [ZoneVersion].  These files hold the reconcilers, one
      run at a time.  [GroupController], [RbacController], [UserController] (both controllers of
      [UserSync]), [ApplyController], [LegacyController] and [ZoneController] hold the
      [SetupWithManager] methods, what a controller watches, and what it achieves over all its
      runs; [ApplyConverge] holds what the controller of usage profiles does when nothing fails, and
      [ProfilePipeline] two controllers that work on the same objects.
    - Parts together: [NamespaceAdmission] (the controllers that copy the control API, and the two
      webhooks that read the copies), [NamespaceAccess] (the controllers of groups and of role
      bindings).
    - Shared: [Prelude] (notation, automation, lists and maps), [GoStd] (the functions of Go's
      standard library the sources use), [Kube] (JSON, requests and responses, the interfaces of
      the libraries), [Fake] (an implementation of these interfaces), [Effects] (programs that
      call an API server, and their runs), [Workqueue] (watches, the queue of a controller, and
      what follows for a controller from the promises of its reconciler), [Drain] (controllers on
      a cluster without faults, and when their queues get empty), [Workers] (controllers one call at
      a time, and two in one process).

    ** How the code is translated

    A struct is a record, an interface a class, a method a definition named after its type and
    name.  Errors are the left side of a sum ([try .. <- .. catch .. => .. ;; ..] is the check of
    an error followed by a return), a panic is [None] or an outcome of its own.  A handler is a
    function from the request to the response; what it reads from the cluster ([ClientGet],
    [ClientList]) does not change during the request.  A reconciler is a program ([Effects.prog])
    of calls, because it writes: [exec] relates a program to its complete runs, and [reach] to
    every state it passes through, where calls may fail, a failed write may have happened, and
    other clients may act in between; a state that is reached is what a crash leaves behind.
    A controller ([Workqueue.controller_step]) is a reconciler with a queue: its watches put
    requests into the queue when what they watch changes, at any time and also by the reconciler's
    own writes, a request that fails goes back, and a restart puts all objects into the queue.
    A loop over a Go map visits its entries in an order that is an oracle ([RangeOracle]), so the
    theorems hold for every order; the oracle is the same in all runs of a reconciler.  Maps from strings are [gmap]s; where the code tells nil from
    empty, the map or list is an option.

    Code that is not under [src/] is a class of operations (for example [AdmissionLib],
    [LabelsLib], [InfDec], [FinalizerLib]) and, where a theorem needs it, a class of laws that
    state what the documentation promises ([AdmissionLaws], ...).  [Fake.Fake], [FakeDec] and a
    few examples next to their use implement these classes and prove the laws, so every theorem
    that has hypotheses is applied, in a lemma named after it with [_witness], to a concrete
    input.

    ** What the theorems show

    - Decisions: each webhook allows exactly the requests its specification describes, errors of
      the cluster and of decoding included ([quota_decision], [organization_decision],
      [metadata_decision], [reserved_decision], [cloudscale_decision], [deadline_decision]); the
      patches it answers with have the intended effect when they are applied
      ([organization_label], [node_selector_effect], [node_selector_idempotent]), and they apply
      and keep the object well-typed ([patches_well_typed]); who is exempt
      is exactly who is configured ([PrivilegedUserSkipper_sound_complete]).
    - Safety over time: the quota bounds the namespaces of an organization when namespaces are
      admitted, created and deleted in any order ([quota_bounded]), up to the requests in flight,
      which can use up exactly that much ([quota_race]); a group that exists is protected by the finalizer of its upstream object in
      every state the deletion passes through ([group_finalizer_protects]); an object that one
      usage profile owns is never written for another ([profile_conflict_safe]).
    - Results of reconciliations ([group_sync], [rbac_bindings], [legacy_quotas],
      [user_default_organization], [reconcile_events]) and of the functions they call
      ([Transform_overrides], [set_content_spec], [extractOpenShiftVersion_spec]); what is written
      to the zones of the control API, also by a run that fails halfway ([zone_versions]).
    - Controllers over time: whatever happened before, when the queue of a controller is empty,
      everything it is responsible for is in order ([groups_in_order], [users_in_order],
      [profiles_in_order], [bindings_in_order], [quotas_in_order], [resources_in_place], and, as far
      as others leave alone what it does not watch, [zones_in_order]).  They are
      instances of [Workqueue.always_at_rest], which needs of a reconciler and its watches the
      class [Level]: a run that succeeds leaves its request in order, and whatever puts a request
      out of order puts it into the queue.  On a cluster without faults, the class [Drain.Settles]
      is enough for the queue to get empty after at most two runs per request
      ([groups_converge], [users_converge], [profiles_converge], [bindings_converge],
      [quotas_converge]).  The controller of usage profiles starts watches as it goes along, which
      wake up other profiles, so that the queue may grow; the class [Drain.Quiesces] is enough for
      it to get empty after finitely many runs ([resources_converge]).  [apply_window] shows where
      the statement about usage profiles needs that others leave alone what is not yet watched, and
      [apply_event_lost] where it needs that no namespace changes while the profiles cannot be
      listed.
    - Controllers together: when the controllers that copy and apply usage profiles both rest,
      what the control API says is in the namespaces, however their calls were interleaved
      ([upstream_in_place]).  It follows from the statements about each, because a worker that
      makes its calls one at a time refines [controller_step] ([Workers.worker_refines]).  When
      the controllers of groups and of role bindings rest, exactly the members of an organization,
      as the control API has them, have the default role in its namespaces ([namespace_access]).
    - Controllers and webhooks together: what the webhooks decide about a namespace, in terms of
      the control API of which the controllers keep copies ([namespace_admission]).  Both this and
      [namespace_access] leave out the organizations of leaked groups ([not_leaked]), which
      [group_leak] is about.
    - Arithmetic: the requests recorded are the exact rational totals, whatever the order
      ([Record_totals], [FetchRatios_groups]), the ratio is their quotient up to a rounding that
      is bounded ([Ratio_rounding]), and the comparison with a limit is exact ([Below_spec]).
    - Types: the scheme that the agent builds before [main] gives its own types their kinds, whatever
      the other packages add to it ([agent_kinds]).
    - The whole agent: when it starts and when it exits ([main_outcome]), which requests its
      webhooks skip ([main_exempts], [main_projects_checked]), that the objects the legacy
      controller may write are those users may not change ([legacy_objects_reserved]); that it
      ends when either manager ends or a signal arrives, and with which exit code
      ([shutdown_terminates], [shutdown_exit]); that any values of its flags can be given on the
      command line, and what happens to those that are not ([flags_roundtrip], [flags_default],
      [agent_needs_zone]).
    - Memory: a deep copy has the value of the original, shares no memory with it and leaves it as
      it is ([list_deep_copy]).

    ** Bounds and simplifications

    - [int] has 64 bits ([strconv.Atoi] fails outside of that range); counts of namespaces are
      unbounded integers.  Replicas are 32-bit values, read as integers.  No definition uses fuel:
      every loop is structural, or a fold over a list; the one run without an obvious end, of a
      controller that empties its queue ([Drain.drain]), takes fuel, and enough fuel is
      [Drain.rank], or, where requests wake up others, exists by induction on what is out of order
      and then on the queue ([Drain.drain_quiesces]).
    - Strings are sequences of bytes; [strconv.Quote] is exact for printable ASCII, and leaves
      other bytes, which only occur in messages, as they are.
    - Times are integers.  Contexts, logging and metrics are left out; the messages of responses,
      errors and events are kept.  Structs are values outside of [DeepCopy], and copying one is the
      identity there.
    - Events are sent in order; an event never fails.
    - A queue is a set of requests: it holds a request once, and forgets the order and the delays.
      A watch compares the objects before and after a step, and does not miss a change.  The
      theorems about usage profiles are about an agent whose [Watch] calls succeed and a cluster in
      which an object keeps the kind it was created with.  Whether the handler of namespace events
      can list the profiles is part of the state ([as_ListError]) and may change at any time; they
      are about clusters in which no namespace changes while it cannot.
    - A loop over a map has the same order in every run of a reconciler, which may differ between
      the loops of one run.  A theorem about one run holds for every order, and so does one about
      what is in order when a queue is empty; that it gets empty is said of one order at a time.

    ** What is not modelled

    [SetupWithManager] of the ratio controller only calls the builder of the library; there is
    nothing that the controller keeps in order, since all it does is record events.  Logging and
    metrics have no effect on what the agent does.  Of the flags that libraries declare it is only
    modelled that they are taken from the arguments.  [src/tools.go] pins the versions of build
    tools and is part of no build.

    ** Order of the work

    The data, the skippers and the webhooks came first, then the ratio with its arithmetic, then
    the reconcilers on top of [Effects], then [Main], then the controllers on top of [Workqueue],
    [Drain] and [Shutdown], then the parts together, [DeepCopy] and [CommandLine], and last
    [ApplyConverge] and [Scheme]. *)
From stdpp Require Export prelude gmap strings sorting pretty.
From Stdlib Require Export ZArith Lia Ascii.

Declare Scope go_scope.
Delimit Scope go_scope with go.
Open Scope go_scope.

(** Go's early return: [x, err := e; if err != nil { return r }; k]. *)
Notation "'try' x <- e 'catch' err => r ;; k" :=
  (match e with inl err => r | inr x => k end)
  (at level 100, x pattern, e at next level, err name, r at next level,
   right associativity) : go_scope.

(** The read [m[k]] of a Go [map[string]string]: the zero value when the key is absent. *)
Definition map_get (m : gmap string string) (k : string) : string :=
  default "" (m !! k).

(** The order in which a [range] loop visits a map.  Go leaves it unspecified and lets it
    differ between two loops over the same map, so it is an oracle: the first argument
    numbers the loop, and all that is known is that the loop visits every entry once. *)
Class RangeOracle := {
  range_map : nat -> forall {V : Type}, gmap string V -> list (string * V);
  range_map_perm : forall n V (m : gmap string V), range_map n m ≡ₚ map_to_list m;
}.

(** ** Automation

    [agent] is the hint database of the development.  [case_all] splits every [match] of the
    goal, [case_in] those of a hypothesis. *)
Create HintDb agent.
Create Rewrite HintDb agent.

Ltac case_all := repeat (case_match; simplify_eq/=).
Ltac case_in H := repeat (case_match; simplify_eq/=); try (discriminate H).
Ltac go_solve := simplify_eq/=; try done; eauto with agent.

(** ** Lists *)

Lemma existsb_elem {A} (f : A -> bool) (l : list A) :
  existsb f l = true <-> exists x, x ∈ l /\ f x = true.
Proof. rewrite existsb_exists. by setoid_rewrite list_elem_of_In. Qed.

Lemma existsb_none {A} (f : A -> bool) (l : list A) :
  existsb f l = false <-> forall x, x ∈ l -> f x = false.
Proof.
  rewrite <- not_true_iff_false, existsb_elem. split.
  - intros H x Hx. destruct (f x) eqn:E; [|done]. exfalso. eauto.
  - intros H (x & Hx & E). rewrite (H x Hx) in E. done.
Qed.

Lemma list_find_first {A} (P : A -> Prop) `{!forall x, Decision (P x)} l i x :
  list_find P l = Some (i, x) ->
  l !! i = Some x /\ P x /\ forall j y, l !! j = Some y -> (j < i)%nat -> ~ P y.
Proof. by intros ?%list_find_Some. Qed.

Lemma exists_elem_cons {A} (P : A -> Prop) x l :
  ~ P x -> (exists y, y ∈ x :: l /\ P y) <-> exists y, y ∈ l /\ P y.
Proof.
  intros Hx. setoid_rewrite elem_of_cons. split.
  - intros (y & [->|Hy] & HP); [done|eauto].
  - intros (y & Hy & HP). eauto.
Qed.

Lemma imap_pair_snd {A} (l : list A) : (imap pair l).*2 = l.
Proof.
  apply list_eq. intros i. rewrite list_lookup_fmap, list_lookup_imap. by destruct (l !! i).
Qed.

(** What the elements contribute does not overlap if it tells the elements apart. *)
Lemma NoDup_bind_proj {A B C} (f : A -> list B) (h : A -> C) (g : B -> C) l :
  (forall x, x ∈ l -> NoDup (f x)) -> (forall x y, x ∈ l -> y ∈ f x -> g y = h x) ->
  NoDup (h <$> l) -> NoDup (l ≫= f).
Proof.
  intros Hf Hg. induction l as [|x l IH]; [constructor|]. rewrite fmap_cons, NoDup_cons.
  intros [Hx Hnd]. simpl. apply NoDup_app. split; [apply Hf; left|]. split.
  - intros y Hy (z & Hy' & Hz)%list_elem_of_bind. apply Hx, list_elem_of_fmap. exists z.
    split; [|done]. rewrite <- (Hg x y), <- (Hg z y); [done|by right|done|left|done].
  - apply IH; [intros; apply Hf|intros; apply Hg|done]; try done; by right.
Qed.

(** Elements that a projection tells apart are the same if it is. *)
Lemma NoDup_fmap_eq {A B} (f : A -> B) l x y :
  NoDup (f <$> l) -> x ∈ l -> y ∈ l -> f x = f y -> x = y.
Proof.
  induction l as [|z l IH]; [by intros _ ?%not_elem_of_nil|]. rewrite fmap_cons, NoDup_cons, !elem_of_cons.
  intros [Hz Hl] [->|Hx] [->|Hy] E; [done|..|by apply IH]; destruct Hz.
  - rewrite E. by apply list_elem_of_fmap_2.
  - rewrite <- E. by apply list_elem_of_fmap_2.
Qed.

Lemma range_map_elem `{RangeOracle} n {V} (m : gmap string V) k v :
  (k, v) ∈ range_map n m <-> m !! k = Some v.
Proof. rewrite range_map_perm. apply elem_of_map_to_list. Qed.

Lemma range_map_NoDup_keys `{RangeOracle} n {V} (m : gmap string V) :
  NoDup (range_map n m).*1.
Proof. rewrite range_map_perm. apply NoDup_fst_map_to_list. Qed.

#[export] Hint Resolve range_map_NoDup_keys : agent.
#[export] Hint Rewrite @range_map_elem : agent.

(** ** Maps read with Go's zero value *)

Lemma map_get_nonempty m k v :
  map_get m k = v -> v <> "" -> m !! k = Some v.
Proof. unfold map_get. destruct (m !! k) as [w|] eqn:E; simpl; [by intros -> | by intros <-]. Qed.

Lemma map_get_insert m k v : map_get (<[k := v]> m) k = v.
Proof. unfold map_get. by rewrite lookup_insert_eq. Qed.

Lemma map_get_insert_ne m k k' v : k <> k' -> map_get (<[k := v]> m) k' = map_get m k'.
Proof. intros. unfold map_get. by rewrite lookup_insert_ne. Qed.

#[export] Hint Resolve map_get_nonempty : agent.
#[export] Hint Rewrite map_get_insert : agent.

(** ** Bounds *)

(** What holds from some number on for each element of a finite set holds from one number on. *)
Lemma set_bound `{Countable A} (X : gset A) (P : A -> nat -> Prop) :
  (forall x, x ∈ X -> exists n, forall m, n <= m -> P x m) ->
  exists n, forall x m, x ∈ X -> n <= m -> P x m.
Proof.
  induction X as [|x X Hx IH] using set_ind_L; intros Hall.
  - exists 0. by intros x m Hx%elem_of_empty.
  - destruct IH as [n1 H1]; [intros y Hy; apply Hall, elem_of_union; by right|].
    destruct (Hall x) as [n2 H2]; [apply elem_of_union; left; by apply elem_of_singleton|].
    exists (n1 `max` n2). intros y m [->%elem_of_singleton|Hy]%elem_of_union Hm; [apply H2|apply H1]; try done; lia.
Qed.
