(* ===== verification/GoStd.v ===== *)
(** * The Go standard library, as far as the agent uses it

    Packages [strings], [strconv], [slices] and [errors].  A Go string is a sequence of
    bytes and so is a Rocq [string]; the functions below work on bytes as Go's do.  [Quote]
    writes bytes from 128 up unchanged, which is what Go does with printable UTF-8. *)
From S2P Require Import Prelude.

#[local] Set Warnings "-register-all".

Module strings.
Definition HasPrefix (s prefix : string) : bool := String.prefix prefix s.

(** [s[n:]] *)
Fixpoint drop (n : nat) (s : string) : string :=
  match n, s with
  | O, _ => s
  | S n, String _ s => drop n s
  | S _, "" => ""
  end.

Definition TrimPrefix (s prefix : string) : string :=
  if HasPrefix s prefix then drop (String.length prefix) s else s.

(** [Cut]: the text before and after the first [sep], and whether there is one. *)
Fixpoint Cut (s sep : string) : string * string * bool :=
  if HasPrefix s sep then ("", drop (String.length sep) s, true)
  else match s with
       | "" => ("", "", false)
       | String c s' => let '(b, a, ok) := Cut s' sep in (String c b, a, ok)
       end.

Definition Contains (s sub : string) : bool := (Cut s sub).2.

(** [TrimSuffix]: recursion on [s], dropping the suffix when that is all that is left. *)
Fixpoint TrimSuffix (s suffix : string) : string :=
  if decide (s = suffix) then ""
  else match s with
       | "" => ""
       | String c s' => String c (TrimSuffix s' suffix)
       end.

(** [strings.ContainsRune(s, c)] for an ASCII rune. *)
Fixpoint ContainsRune (s : string) (c : ascii) : bool :=
  match s with
  | "" => false
  | String c' s' => if decide (c' = c) then true else ContainsRune s' c
  end.

(** [strings.Split(s, sep)] for a separator of one byte. *)
Fixpoint Split (s : string) (sep : ascii) : list string :=
  match s with
  | "" => [""]
  | String c s' =>
      if decide (c = sep) then "" :: Split s' sep
      else match Split s' sep with
           | h :: t => String c h :: t
           | [] => [String c ""]
           end
  end.

(** [strings.SplitN(s, sep, n)]: at most [n] pieces. *)
Fixpoint SplitN (s sep : string) (n : nat) : list string :=
  match n with
  | O => []
  | S O => [s]
  | S n' => let '(b, a, ok) := Cut s sep in if ok then b :: SplitN a sep n' else [s]
  end.

(** [strings.ReplaceAll(s, old, new)] for an [old] of one byte. *)
Fixpoint ReplaceAll (s : string) (old : ascii) (new : string) : string :=
  match s with
  | "" => ""
  | String c s' => (if decide (c = old) then new else String c "") +:+ ReplaceAll s' old new
  end.

Fixpoint Join (elems : list string) (sep : string) : string :=
  match elems with
  | [] => ""
  | [e] => e
  | e :: elems' => e +:+ sep +:+ Join elems' sep
  end.
End strings.

(** ** Errors

    A Go [error] is an interface value.  [ErrorVar] is a package-level variable made by
    [errors.New], identified by its name as Go identifies it by its address; [WrapError] is
    [fmt.Errorf] with a [%w]; [StatusError] is an error of the Kubernetes API; [MultiError]
    is an error of [multierr]. *)
Inductive num_err := ErrSyntax | ErrRange.

Inductive status_reason := ReasonNotFound | ReasonConflict | ReasonInternalError | ReasonUnknown.

Inductive error :=
| ErrorString (s : string)
| ErrorVar (name s : string)
| WrapError (before : string) (e : error) (after : string)
| NumError (fn num : string) (e : num_err)
| StatusError (reason : status_reason) (message : string)
| MultiError (es : list error).

(** ** [strconv] *)
Module strconv.
Definition ParseBool (str : string) : error + bool :=
  if bool_decide (str ∈ ["1"; "t"; "T"; "true"; "TRUE"; "True"]) then inr true
  else if bool_decide (str ∈ ["0"; "f"; "F"; "false"; "FALSE"; "False"]) then inr false
  else inl (NumError "ParseBool" str ErrSyntax).

Definition digit (c : ascii) : option Z :=
  let n := Z.of_N (N_of_ascii c) in
  if (48 <=? n)%Z && (n <=? 57)%Z then Some (n - 48)%Z else None.

(** The digit loop of [ParseUint] in base 10, on 64 bits. *)
Fixpoint parse_uint (n : Z) (s : string) : num_err + Z :=
  match s with
  | "" => inr n
  | String c s' =>
      match digit c with
      | None => inl ErrSyntax
      | Some d =>
          let n1 := (n * 10 + d)%Z in
          if (2 ^ 64 <=? n1)%Z then inl ErrRange else parse_uint n1 s'
      end
  end.

(** [int] is 64 bits wide on every platform the agent is built for. *)
Definition max_int : Z := (2 ^ 63 - 1)%Z.
Definition min_int : Z := (- 2 ^ 63)%Z.

Definition parse_digits (s : string) : num_err + Z :=
  match s with "" => inl ErrSyntax | _ => parse_uint 0 s end.

Definition Atoi (s : string) : error + Z :=
  let '(neg, body) :=
    match s with
    | String "-" s' => (true, s')
    | String "+" s' => (false, s')
    | _ => (false, s)
    end in
  match parse_digits body with
  | inl e => inl (NumError "Atoi" s e)
  | inr n =>
      let v := if neg : bool then (- n)%Z else n in
      if (min_int <=? v)%Z && (v <=? max_int)%Z then inr v
      else inl (NumError "Atoi" s ErrRange)
  end.

(** A letter in lower case; other bytes change in ways that do not matter here. *)
Definition lower (c : ascii) : Z := Z.lor (Z.of_N (N_of_ascii c)) 32.

Definition digit_value (c : ascii) : option Z :=
  match digit c with
  | Some d => Some d
  | None => if (97 <=? lower c)%Z && (lower c <=? 122)%Z then Some (lower c - 87)%Z else None
  end.

(** The digit loop of [ParseUint] when the base follows from the text: the number, and whether
    there was an underscore. *)
Fixpoint parse_based (base n : Z) (underscores : bool) (s : string) : num_err + (Z * bool) :=
  match s with
  | "" => inr (n, underscores)
  | String c s' =>
      if bool_decide (c = "_"%char) then parse_based base n true s' else
      match digit_value c with
      | None => inl ErrSyntax
      | Some d =>
          if (base <=? d)%Z then inl ErrSyntax else
          let n1 := (n * base + d)%Z in
          if (2 ^ 64 <=? n1)%Z then inl ErrRange else parse_based base n1 underscores s'
      end
  end.

(** The base, and the digits after the prefix that names it. *)
Definition base_of (s : string) : Z * string :=
  match s with
  | String "0" (String p ((String _ _) as rest)) =>
      if (lower p =? 98)%Z then (2%Z, rest) else
      if (lower p =? 111)%Z then (8%Z, rest) else
      if (lower p =? 120)%Z then (16%Z, rest) else (8%Z, String p rest)
  | String "0" rest => (8%Z, rest)
  | _ => (10%Z, s)
  end.

(** [underscoreOK]: underscores separate digits, or a digit from the prefix.  The state is what
    was before: the start, a digit, an underscore, or something else. *)
Inductive underscore_state := AtStart | AfterDigit | AfterUnderscore | AfterOther.

Fixpoint underscores_separate (hex : bool) (st : underscore_state) (s : string) : bool :=
  match s with
  | "" => match st with AfterUnderscore => false | _ => true end
  | String c s' =>
      let is_digit := match digit c with Some _ => true | None => false end ||
                      hex && (97 <=? lower c)%Z && (lower c <=? 102)%Z in
      if is_digit then underscores_separate hex AfterDigit s' else
      if bool_decide (c = "_"%char)
      then match st with AfterDigit => underscores_separate hex AfterUnderscore s' | _ => false end
      else match st with AfterUnderscore => false | _ => underscores_separate hex AfterOther s' end
  end.

Definition underscoreOK (s : string) : bool :=
  let s := match s with String "-" s' | String "+" s' => s' | _ => s end in
  match s with
  | String "0" (String p rest) =>
      if (lower p =? 98)%Z || (lower p =? 111)%Z || (lower p =? 120)%Z
      then underscores_separate (lower p =? 120)%Z AfterDigit rest
      else underscores_separate false AtStart s
  | _ => underscores_separate false AtStart s
  end.

(** [ParseUint(s, 0, 64)]. *)
Definition ParseUint0 (s : string) : num_err + Z :=
  match s with
  | "" => inl ErrSyntax
  | _ =>
      let '(base, digits) := base_of s in
      match parse_based base 0 false digits with
      | inl e => inl e
      | inr (n, underscores) =>
          if underscores && negb (underscoreOK s) then inl ErrSyntax else inr n
      end
  end.

(** [ParseInt(s, 0, 64)]. *)
Definition ParseInt0 (s : string) : error + Z :=
  let '(neg, body) :=
    match s with
    | String "-" s' => (true, s')
    | String "+" s' => (false, s')
    | _ => (false, s)
    end in
  match ParseUint0 body with
  | inl e => inl (NumError "ParseInt" s e)
  | inr n =>
      let v := if neg : bool then (- n)%Z else n in
      if (min_int <=? v)%Z && (v <=? max_int)%Z then inr v
      else inl (NumError "ParseInt" s ErrRange)
  end.

Definition hex (n : N) : string :=
  match n with
  | 0 => "0" | 1 => "1" | 2 => "2" | 3 => "3" | 4 => "4" | 5 => "5" | 6 => "6" | 7 => "7"
  | 8 => "8" | 9 => "9" | 10 => "a" | 11 => "b" | 12 => "c" | 13 => "d" | 14 => "e"
  | _ => "f"
  end%N.

Definition quote_char (c : ascii) : string :=
  let n := N_of_ascii c in
  match n with
  | 34 => String "\" (String c "")
  | 92 => "\\"
  | 7 => "\a" | 8 => "\b" | 12 => "\f" | 10 => "\n" | 13 => "\r" | 9 => "\t" | 11 => "\v"
  | _ => if (n <? 32)%N || (n =? 127)%N
         then "\x" +:+ hex (n / 16) +:+ hex (n mod 16)
         else String c ""
  end%N.

Fixpoint quote_body (s : string) : string :=
  match s with "" => "" | String c s' => quote_char c +:+ quote_body s' end.

(** [%q] *)
Definition Quote (s : string) : string :=
  String (ascii_of_N 34) (quote_body s +:+ String (ascii_of_N 34) "").
End strconv.

(** ** [errors] *)
Module errors.
Definition num_err_text (e : num_err) : string :=
  match e with ErrSyntax => "invalid syntax" | ErrRange => "value out of range" end.

(** [err.Error()] *)
Fixpoint Error (e : error) : string :=
  match e with
  | ErrorString s | ErrorVar _ s => s
  | WrapError b e a => b +:+ Error e +:+ a
  | NumError fn num k =>
      "strconv." +:+ fn +:+ ": parsing " +:+ strconv.Quote num +:+ ": " +:+ num_err_text k
  | StatusError _ m => m
  | MultiError es => strings.Join (map Error es) "; "
  end.

(** [errors.Is(err, v)] for a package-level variable [v]: the chain of wrapped errors. *)
Fixpoint Is (e : error) (name : string) : bool :=
  match e with
  | ErrorVar n _ => bool_decide (n = name)
  | WrapError _ e _ => Is e name
  | MultiError es => existsb (fun e => Is e name) es
  | _ => false
  end.
End errors.

(** ** [slices] *)
Module slices.
Definition Contains (l : list string) (x : string) : bool := bool_decide (x ∈ l).
Definition ContainsFunc {A} (l : list A) (f : A -> bool) : bool := existsb f l.
Definition Sort (l : list string) : list string := merge_sort String.le l.
End slices.

(** ** [fmt]: the [%s] verb on slices and maps of strings; maps are printed in key order. *)
Module fmt.
Definition Sprint_strings (l : list string) : string := "[" +:+ strings.Join l " " +:+ "]".
Definition Sprint_map (m : gmap string string) : string :=
  "map[" +:+ strings.Join
    ((fun k => k +:+ ":" +:+ map_get m k) <$> slices.Sort (map_to_list m).*1) " " +:+ "]".
End fmt.

(** ** Lemmas *)
Create Rewrite HintDb gostr.

Lemma string_app_nil_r s : s +:+ "" = s.
Proof. induction s; simpl; [done|]. unfold String.append; fold String.append. by rewrite IHs. Qed.

Lemma string_app_assoc (s1 s2 s3 : string) : (s1 +:+ s2) +:+ s3 = s1 +:+ (s2 +:+ s3).
Proof. induction s1; [done|]. unfold String.append; fold String.append. by rewrite IHs1. Qed.

Lemma string_app_cons c s1 s2 : String c s1 +:+ s2 = String c (s1 +:+ s2).
Proof. done. Qed.

Lemma string_app_nil_l s : "" +:+ s = s.
Proof. done. Qed.

#[export] Hint Rewrite string_app_nil_r string_app_assoc string_app_cons string_app_nil_l : gostr.

Lemma HasPrefix_cons c d s p :
  strings.HasPrefix (String c s) (String d p) = bool_decide (c = d) && strings.HasPrefix s p.
Proof.
  unfold strings.HasPrefix; simpl. destruct (ascii_dec d c) as [->|].
  - by rewrite bool_decide_eq_true_2.
  - by rewrite bool_decide_eq_false_2.
Qed.

Lemma HasPrefix_nil s : strings.HasPrefix s "" = true.
Proof. by destruct s. Qed.

Lemma HasPrefix_spec s p : strings.HasPrefix s p = true <-> exists s', s = p +:+ s'.
Proof.
  revert s. induction p as [|c p IH]; intros s.
  - rewrite HasPrefix_nil. split; [by exists s | done].
  - destruct s as [|d s]; [split; [done | by intros (s' & ?)]|].
    rewrite HasPrefix_cons, andb_true_iff, bool_decide_eq_true, IH. split.
    + intros (-> & s' & ->). by exists s'.
    + intros (s2 & E). rewrite string_app_cons in E. injection E as -> ->. eauto.
Qed.

Lemma HasPrefix_app p s : strings.HasPrefix (p +:+ s) p = true.
Proof. apply HasPrefix_spec. eauto. Qed.

Lemma drop_app p s : strings.drop (String.length p) (p +:+ s) = s.
Proof. induction p; [done|]. apply IHp. Qed.

Lemma HasPrefix_drop s p :
  strings.HasPrefix s p = true -> s = p +:+ strings.drop (String.length p) s.
Proof. intros (s' & ->)%HasPrefix_spec. by rewrite drop_app. Qed.

Lemma TrimPrefix_app p s : strings.TrimPrefix (p +:+ s) p = s.
Proof. unfold strings.TrimPrefix. by rewrite HasPrefix_app, drop_app. Qed.

#[export] Hint Rewrite HasPrefix_app TrimPrefix_app drop_app : gostr.

Lemma Cut_unfold s sep :
  strings.Cut s sep =
  if strings.HasPrefix s sep then ("", strings.drop (String.length sep) s, true)
  else match s with
       | "" => ("", "", false)
       | String c s' => let '(b, a, ok) := strings.Cut s' sep in (String c b, a, ok)
       end.
Proof. by destruct s. Qed.

(** The cut of a text that has the separator gives the text back. *)
Lemma Cut_true s sep b a :
  strings.Cut s sep = (b, a, true) -> s = b +:+ sep +:+ a.
Proof.
  revert b a. induction s as [|c s IH]; intros b a; rewrite Cut_unfold;
    destruct (strings.HasPrefix _ sep) eqn:E; intros H; simplify_eq.
  - by apply HasPrefix_drop.
  - by apply HasPrefix_drop.
  - destruct (strings.Cut s sep) as [[b' a'] ok] eqn:E'. simplify_eq.
    rewrite string_app_cons. f_equal. by apply IH.
Qed.

Lemma Cut_false s sep b a : strings.Cut s sep = (b, a, false) -> b = s /\ a = "".
Proof.
  revert b a. induction s as [|c s IH]; intros b a; rewrite Cut_unfold;
    destruct (strings.HasPrefix _ sep) eqn:E; intros H; simplify_eq; [done|].
  destruct (strings.Cut s sep) as [[b' a'] ok] eqn:E'. simplify_eq.
  destruct (IH _ _ eq_refl) as [-> ->]. done.
Qed.

(** A separator that does not occur in the first part is cut at its first occurrence. *)
Lemma Cut_app_char b a (c : ascii) :
  strings.ContainsRune b c = false ->
  strings.Cut (b +:+ String c a) (String c "") = (b, a, true).
Proof.
  induction b as [|d b IH]; intros H; rewrite Cut_unfold.
  - rewrite string_app_nil_l, HasPrefix_cons, bool_decide_eq_true_2, HasPrefix_nil by done. done.
  - simpl in H. case_decide; [done|].
    rewrite string_app_cons, HasPrefix_cons, bool_decide_eq_false_2 by done. simpl.
    by rewrite (IH H).
Qed.

Lemma ContainsRune_app s1 s2 c :
  strings.ContainsRune (s1 +:+ s2) c = strings.ContainsRune s1 c || strings.ContainsRune s2 c.
Proof. induction s1; [done|]. rewrite string_app_cons. simpl. by case_decide. Qed.

#[export] Hint Rewrite ContainsRune_app : gostr.

Lemma Contains_char s (c : ascii) : strings.Contains s (String c "") = strings.ContainsRune s c.
Proof.
  unfold strings.Contains. induction s as [|d s IH]; [done|]. rewrite Cut_unfold, HasPrefix_cons.
  simpl. case_bool_decide as Hd; case_decide as Hd'; simplify_eq; simpl; [by rewrite HasPrefix_nil|].
  by destruct (strings.Cut s (String c "")) as [[b a] ok].
Qed.

(** ** [Split] *)

Lemma Split_nonempty s c : strings.Split s c <> [].
Proof. destruct s; simpl; [done|]. case_decide; [done|]. by destruct (strings.Split s c). Qed.

Lemma Split_Join s c : strings.Join (strings.Split s c) (String c "") = s.
Proof.
  induction s as [|d s IH]; simpl; [done|].
  pose proof (Split_nonempty s c) as Hne. destruct (strings.Split s c) as [|h t] eqn:E; [done|].
  case_decide as Hd.
  - subst d. transitivity (String c (strings.Join (h :: t) (String c ""))); [done|]. by rewrite IH.
  - rewrite <- IH. by destruct t.
Qed.

Lemma Split_no_sep s c x : x ∈ strings.Split s c -> strings.ContainsRune x c = false.
Proof.
  revert x. induction s as [|d s IH]; intros x; simpl.
  - by intros ->%list_elem_of_singleton.
  - case_decide as Hd; [intros [->|?]%elem_of_cons; auto|].
    pose proof (Split_nonempty s c) as Hne.
    destruct (strings.Split s c) as [|h t] eqn:E; [done|].
    intros [->|?]%elem_of_cons.
    + simpl. rewrite decide_False by done. apply IH. left.
    + apply IH. by right.
Qed.

Lemma Split_single s c : strings.ContainsRune s c = false -> strings.Split s c = [s].
Proof.
  induction s as [|d s IH]; simpl; intros H; [done|].
  case_decide; [done|]. by rewrite IH.
Qed.

Lemma Split_app_sep s1 s2 c :
  strings.Split (s1 +:+ String c s2) c = strings.Split s1 c ++ strings.Split s2 c.
Proof.
  induction s1 as [|d s1 IH].
  - rewrite string_app_nil_l. simpl. by rewrite decide_True.
  - rewrite string_app_cons. simpl. case_decide; [by rewrite IH|]. rewrite IH.
    by destruct (strings.Split s1 c) eqn:E; [apply Split_nonempty in E|].
Qed.

(** A text with a separator has at least two pieces. *)
Lemma Split_two s c :
  strings.ContainsRune s c = true -> exists a b rest, strings.Split s c = a :: b :: rest.
Proof.
  induction s as [|d s IH]; simpl; intros H; [done|]. case_decide.
  - pose proof (Split_nonempty s c). destruct (strings.Split s c); [done|]. eauto.
  - destruct (IH H) as (a & b & rest & ->). eauto.
Qed.

(** ** [ReplaceAll] *)

Lemma ReplaceAll_app s1 s2 c n :
  strings.ReplaceAll (s1 +:+ s2) c n = strings.ReplaceAll s1 c n +:+ strings.ReplaceAll s2 c n.
Proof.
  induction s1 as [|d s1 IH]; [done|].
  by rewrite string_app_cons; simpl; rewrite IH, string_app_assoc.
Qed.

Lemma ReplaceAll_absent s c n : strings.ContainsRune s c = false -> strings.ReplaceAll s c n = s.
Proof. induction s as [|d s IH]; simpl; intros H; [done|]. case_decide; [done|]. by rewrite IH. Qed.

Lemma ReplaceAll_removes s c n :
  strings.ContainsRune n c = false -> strings.ContainsRune (strings.ReplaceAll s c n) c = false.
Proof.
  intros Hn. induction s as [|d s IH]; simpl; [done|]. rewrite ContainsRune_app, IH.
  case_decide; simpl; [by rewrite Hn|]. by rewrite decide_False.
Qed.

(** ** [slices] *)

Lemma slices_Contains_spec l x : slices.Contains l x = true <-> x ∈ l.
Proof. apply bool_decide_eq_true. Qed.

Lemma Sort_perm l : slices.Sort l ≡ₚ l.
Proof. apply merge_sort_Permutation. Qed.

Lemma Sort_sorted l : StronglySorted String.le (slices.Sort l).
Proof. apply StronglySorted_merge_sort; apply _. Qed.

(** Sorting depends on the elements only, not on their order. *)
Lemma Sort_unique l1 l2 : l1 ≡ₚ l2 -> slices.Sort l1 = slices.Sort l2.
Proof.
  intros H. eapply (StronglySorted_unique String.le); [apply Sort_sorted..|].
  by rewrite !Sort_perm.
Qed.

#[export] Hint Resolve Sort_perm Sort_sorted Sort_unique : agent.

(** ** [strconv] *)

Lemma parse_uint_bound n s v :
  (0 <= n < 2 ^ 64)%Z -> strconv.parse_uint n s = inr v -> (0 <= v < 2 ^ 64)%Z.
Proof.
  revert n. induction s as [|c s IH]; simpl; intros n Hn H; [by simplify_eq|].
  destruct (strconv.digit c) as [d|] eqn:Ed; [|done].
  destruct (Z.leb_spec (2 ^ 64) (n * 10 + d)); [done|].
  eapply IH; [|done]. unfold strconv.digit in Ed. case_match; [|done]. simplify_eq. lia.
Qed.

(** [Atoi] never returns a value outside a machine [int]. *)
Lemma Atoi_bounds s v :
  strconv.Atoi s = inr v -> (strconv.min_int <= v <= strconv.max_int)%Z.
Proof.
  unfold strconv.Atoi. intros H.
  match type of H with context [let '(_, _) := ?p in _] => destruct p as [neg body] end.
  destruct (strconv.parse_digits body); [done|].
  match type of H with context [if ?b then inr _ else _] => destruct b eqn:E end; [|done].
  simplify_eq. apply andb_true_iff in E as [?%Z.leb_le ?%Z.leb_le]. done.
Qed.

#[export] Hint Resolve Atoi_bounds : agent.

(** Parsing the decimal text of an [int] gives it back. *)
Lemma digit_value_char d : (d < 10)%N -> strconv.digit_value (pretty_N_char d) = Some (Z.of_N d).
Proof.
  intros Hd. assert (d = 0 \/ d = 1 \/ d = 2 \/ d = 3 \/ d = 4 \/ d = 5 \/ d = 6 \/ d = 7 \/ d = 8 \/ d = 9)%N
    as Hcases by lia. naive_solver.
Qed.

Lemma pretty_char_plain d :
  pretty_N_char d <> "_"%char /\ pretty_N_char d <> "-"%char /\ pretty_N_char d <> "+"%char.
Proof. unfold pretty_N_char. by repeat case_match. Qed.

Lemma parse_based_pretty x u s :
  (Z.of_N x < 2 ^ 64)%Z ->
  strconv.parse_based 10 0 u (pretty_N_go x s) = strconv.parse_based 10 (Z.of_N x) u s.
Proof.
  revert s. induction (N.lt_wf_0 x) as [x _ IH]; intros s Hx.
  destruct (decide (0 < x)%N) as [Hpos|]; [|by assert (x = 0)%N as -> by lia].
  rewrite pretty_N_go_step by done. rewrite IH; [|by apply N.div_lt|].
  2:{ pose proof (N.Div0.div_le_upper_bound x 10 x). lia. }
  cbn [strconv.parse_based]. rewrite bool_decide_eq_false_2 by apply pretty_char_plain.
  pose proof (N.mod_lt x 10 ltac:(done)) as Hm. rewrite digit_value_char by done.
  pose proof (N.div_mod x 10 ltac:(done)) as Hdm.
  destruct (Z.leb_spec 10 (Z.of_N (x mod 10))); [lia|]. cbv zeta.
  assert (Z.of_N (x / 10) * 10 + Z.of_N (x mod 10) = Z.of_N x)%Z as -> by lia.
  by destruct (Z.leb_spec (2 ^ 64) (Z.of_N x)); [lia|].
Qed.

(** The text of a positive number starts with a digit other than zero. *)
Lemma pretty_N_go_head x s : (0 < x)%N -> exists d rest, (0 < d < 10)%N /\ pretty_N_go x s = String (pretty_N_char d) rest.
Proof.
  revert s. induction (N.lt_wf_0 x) as [x _ IH]; intros s Hx.
  rewrite pretty_N_go_step by done. destruct (decide (x < 10)%N) as [Hlt|Hge].
  - rewrite (N.div_small x 10) by done. rewrite (N.mod_small x 10) by done. rewrite pretty_N_go_0.
    exists x, s. split; [lia|done].
  - apply IH; [by apply N.div_lt|]. apply N.div_str_pos. lia.
Qed.

Lemma base_of_pretty d rest : (0 < d < 10)%N -> strconv.base_of (String (pretty_N_char d) rest) = (10%Z, String (pretty_N_char d) rest).
Proof.
  intros Hd. assert (d = 1 \/ d = 2 \/ d = 3 \/ d = 4 \/ d = 5 \/ d = 6 \/ d = 7 \/ d = 8 \/ d = 9)%N as Hc by lia.
  naive_solver.
Qed.

Lemma ParseUint0_pretty x : (Z.of_N x < 2 ^ 64)%Z -> strconv.ParseUint0 (pretty x) = inr (Z.of_N x).
Proof.
  intros Hx. unfold pretty, pretty_N. case_decide as H0; [by subst|].
  pose proof (parse_based_pretty x false "" Hx) as Hp.
  destruct (pretty_N_go_head x "") as (d & rest & Hd & E); [lia|]. rewrite E in *.
  unfold strconv.ParseUint0. rewrite base_of_pretty by done. by rewrite Hp.
Qed.

Lemma ParseInt0_pretty (n : Z) :
  (strconv.min_int <= n <= strconv.max_int)%Z -> strconv.ParseInt0 (pretty n) = inr n.
Proof.
  unfold strconv.min_int, strconv.max_int. intros Hn.
  assert (Hpos : forall p, pretty (Z.pos p) = pretty (N.pos p)) by done.
  assert (Hneg : forall p, pretty (Z.neg p) = String "-" (pretty (N.pos p))) by done.
  unfold strconv.ParseInt0, strconv.min_int, strconv.max_int. destruct n as [|p|p]; [done|..].
  - rewrite Hpos. pose proof (ParseUint0_pretty (N.pos p)) as Hu.
    unfold pretty, pretty_N in *. rewrite decide_False in * by done.
    destruct (pretty_N_go_head (N.pos p) "") as (d & rest & Hd & E); [done|]. rewrite E in *.
    destruct (pretty_char_plain d) as (_ & Hm & Hp).
    assert (match String (pretty_N_char d) rest with
      | String "-" s' => (true, s') | String "+" s' => (false, s')
      | _ => (false, String (pretty_N_char d) rest) end = (false, String (pretty_N_char d) rest)) as ->.
    { assert (d = 1 \/ d = 2 \/ d = 3 \/ d = 4 \/ d = 5 \/ d = 6 \/ d = 7 \/ d = 8 \/ d = 9)%N as Hc by lia.
      naive_solver. }
    rewrite Hu by lia. cbv zeta. change (Z.of_N (N.pos p)) with (Z.pos p).
    rewrite !(proj2 (Z.leb_le _ _)) by lia. done.
  - rewrite Hneg. rewrite ParseUint0_pretty by lia. cbv zeta. change (- Z.of_N (N.pos p))%Z with (Z.neg p).
    rewrite !(proj2 (Z.leb_le _ _)) by lia. done.
Qed.
