(* ===== verification/Kube.v ===== *)
(** * Kubernetes: the data the agent sees and the libraries it calls

    The agent calls controller-runtime, apimachinery, multierr, a wildcard matcher and the
    API server, none of which is part of this repository.  Each is an interface here: a
    class of operations, and a class of the laws its documentation states.  A theorem that
    needs a law takes the law class as a hypothesis; [Fake] has instances of all of them. *)
From S2P Require Import Prelude GoStd.

#[local] Set Warnings "-register-all".

(** ** JSON values and RFC 6902 patches

    An [unstructured.Unstructured] is a JSON tree, and so is the value of a patch operation. *)
Inductive json :=
| JNull
| JBool (b : bool)
| JInt (n : Z)
| JFloat (repr : string)
| JStr (s : string)
| JArr (l : list json)
| JObj (o : gmap string json).

#[export] Instance json_eq_dec : EqDecision json.
Proof.
  refine (fix go (j1 j2 : json) {struct j1} := let _ : EqDecision json := @go in
    match j1, j2 with
    | JNull, JNull => left eq_refl
    | JBool b1, JBool b2 => cast_if (decide (b1 = b2))
    | JInt n1, JInt n2 => cast_if (decide (n1 = n2))
    | JFloat r1, JFloat r2 => cast_if (decide (r1 = r2))
    | JStr s1, JStr s2 => cast_if (decide (s1 = s2))
    | JArr l1, JArr l2 => cast_if (decide (l1 = l2))
    | JObj o1, JObj o2 => cast_if (decide (o1 = o2))
    | _, _ => right _
    end); congruence.
Defined.

(** The value at a path of object members. *)
Fixpoint json_path (p : list string) (j : json) : option json :=
  match p, j with
  | [], _ => Some j
  | k :: p', JObj o => o !! k ≫= json_path p'
  | _ :: _, _ => None
  end.

(** A Go [map[string]string] as JSON. *)
Definition json_of_map (m : gmap string string) : json := JObj (JStr <$> m).

(** Its inverse. *)
Definition map_of_json (j : json) : option (gmap string string) :=
  match j with
  | JObj o =>
      let m := omap (fun v => match v with JStr s => Some s | _ => None end) o in
      if decide (json_of_map m = j) then Some m else None
  | _ => None
  end.

Lemma map_of_json_Some j m : map_of_json j = Some m -> j = json_of_map m.
Proof. destruct j; simpl; try done. destruct (decide _); [by intros [= <-]|done]. Qed.

Lemma map_of_json_of_map m : map_of_json (json_of_map m) = Some m.
Proof.
  simpl. assert (omap (fun v => match v with JStr s => Some s | _ => None end) (JStr <$> m) = m) as ->.
  { apply map_eq. intros k. rewrite lookup_omap, lookup_fmap. by destruct (m !! k). }
  by rewrite decide_True.
Qed.

(** [jsonpatch.Operation]. *)
Record Operation := {
  op_Operation : string;
  op_Path : string;
  op_Value : json;
}.

(** RFC 6901, section 4: [~1] stands for [/] and [~0] for [~]. *)
Fixpoint unescape_segment (s : string) : string :=
  match s with
  | String "~" (String "1" s') => String "/" (unescape_segment s')
  | String "~" (String "0" s') => String "~" (unescape_segment s')
  | String c s' => String c (unescape_segment s')
  | "" => ""
  end.

Definition parse_pointer (p : string) : option (list string) :=
  match p with
  | "" => Some []
  | String "/" s => Some (map unescape_segment (strings.Split s "/"))
  | _ => None
  end.

(** RFC 6902, section 4.1, for targets that are members of objects: the parent object must
    exist, and an existing member is replaced. *)
Fixpoint json_add (p : list string) (v : json) (j : json) : option json :=
  match p, j with
  | [], _ => Some v
  | [k], JObj o => Some (JObj (<[k := v]> o))
  | k :: p', JObj o => c ← o !! k; c' ← json_add p' v c; Some (JObj (<[k := c']> o))
  | _ :: _, _ => None
  end.

Definition apply_op (op : Operation) (j : json) : option json :=
  if bool_decide (op_Operation op = "add")
  then p ← parse_pointer (op_Path op); json_add p (op_Value op) j
  else None.

Fixpoint apply_patch (ops : list Operation) (j : json) : option json :=
  match ops with
  | [] => Some j
  | op :: ops' => apply_op op j ≫= apply_patch ops'
  end.

(** ** Admission requests and responses *)
Record UserInfo := { Username : string; Groups : list string }.

Record GroupVersionKind := { gvk_Group : string; gvk_Version : string; gvk_Kind : string }.

#[export] Instance GroupVersionKind_eq_dec : EqDecision GroupVersionKind.
Proof. solve_decision. Defined.

Inductive AdmissionOperation := Create | Update | Delete | Connect.

#[export] Instance AdmissionOperation_eq_dec : EqDecision AdmissionOperation.
Proof. solve_decision. Defined.

Record AdmissionRequest := {
  req_Kind : GroupVersionKind;
  req_Name : string;
  req_Namespace : string;
  req_Operation : AdmissionOperation;
  req_UserInfo : UserInfo;
  req_Object : string;      (** the raw bytes *)
  req_OldObject : string;   (** the raw bytes, empty when there is no old object *)
}.

Record Status := { status_Code : Z; status_Message : string }.

Record AdmissionResponse := {
  resp_Allowed : bool;
  resp_Result : option Status;
  resp_Patches : list Operation;
  resp_Warnings : list string;
}.

(** controller-runtime's constructors of responses. *)
Class AdmissionLib := {
  admission_Allowed : string -> AdmissionResponse;
  admission_Denied : string -> AdmissionResponse;
  admission_Errored : Z -> error -> AdmissionResponse;
  admission_Patched : string -> list Operation -> AdmissionResponse;
}.

Class AdmissionLaws `{AdmissionLib} : Prop := {
  admission_Allowed_allowed m : resp_Allowed (admission_Allowed m) = true;
  admission_Allowed_patches m : resp_Patches (admission_Allowed m) = [];
  admission_Denied_denied m : resp_Allowed (admission_Denied m) = false;
  admission_Errored_denied c e : resp_Allowed (admission_Errored c e) = false;
  admission_Patched_allowed m ops : resp_Allowed (admission_Patched m ops) = true;
  admission_Patched_patches m ops : resp_Patches (admission_Patched m ops) = ops;
}.

#[export] Hint Rewrite @admission_Allowed_allowed @admission_Allowed_patches
  @admission_Denied_denied @admission_Errored_denied @admission_Patched_allowed
  @admission_Patched_patches using done : agent.
#[export] Hint Resolve admission_Allowed_allowed admission_Denied_denied admission_Errored_denied
  admission_Patched_allowed : agent.

(** [admission.Decoder], per type decoded into. *)
Class Decoder (T : Type) := {
  Decode : AdmissionRequest -> error + T;
  DecodeRaw : string -> error + T;
}.

(** [http.Status...] *)
Definition StatusBadRequest : Z := 400.
Definition StatusNotFound : Z := 404.
Definition StatusUnprocessableEntity : Z := 422.
Definition StatusInternalServerError : Z := 500.

(** ** Reading the cluster *)
Record ObjectKey := { key_Namespace : string; key_Name : string }.

#[export] Instance ObjectKey_eq_dec : EqDecision ObjectKey.
Proof. solve_decision. Defined.
#[export] Instance ObjectKey_countable : Countable ObjectKey :=
  inj_countable' (fun k => (key_Namespace k, key_Name k))
    (fun '(ns, n) => {| key_Namespace := ns; key_Name := n |}) ltac:(by intros []).

Definition name_key (name : string) : ObjectKey := {| key_Namespace := ""; key_Name := name |}.

Inductive ListOption :=
| InNamespace (ns : string)
| MatchingLabels (m : gmap string string)
| HasLabels (ls : list string).

(** [client.Reader], per type read.  Within one request the answers are fixed. *)
Class ClientGet (T : Type) := client_Get : ObjectKey -> error + T.
Class ClientList (T : Type) := client_List : list ListOption -> error + list T.

(** ** Errors *)
Class ApiErrors := {
  apierrors_IsNotFound : error -> bool;
  client_IgnoreNotFound : option error -> option error;
}.

Class ApiErrorsLaws `{ApiErrors} : Prop := {
  IgnoreNotFound_spec o :
    client_IgnoreNotFound o =
    match o with
    | Some e => if apierrors_IsNotFound e then None else Some e
    | None => None
    end;
}.

(** [multierr.Combine]: nil exactly when every error is nil. *)
Class Multierr := multierr_Combine : list (option error) -> option error.

Class MultierrLaws `{Multierr} : Prop :=
  multierr_Combine_nil l : multierr_Combine l = None <-> Forall (fun e => e = None) l.

(** ** Matching *)

(** [wildcard.Match(pattern, name)] of minio, where [*] and [?] are wildcards. *)
Class Wildcard := wildcard_Match : string -> string -> bool.

Class WildcardLaws `{Wildcard} : Prop :=
  wildcard_Match_literal p s :
    strings.ContainsRune p "*" = false -> strings.ContainsRune p "?" = false ->
    wildcard_Match p s = bool_decide (p = s).

(** Package [k8s.io/apimachinery/pkg/labels].  A [Selector] is what it matches;
    [labels_Parse] returns no selector when it returns an error, but
    [ConvertSelectorToLabelsMap] returns a map beside an error. *)
Abbreviation Selector := (gmap string string -> bool).

Class LabelsLib := {
  labels_Set_String : gmap string string -> string;
  labels_ConvertSelector : string -> gmap string string * option error;
  labels_Parse : string -> error + Selector;
}.

(** The result of [ConvertSelectorToLabelsMap] where the map beside an error is dropped. *)
Definition labels_ConvertSelectorToLabelsMap `{LabelsLib} (s : string)
    : error + gmap string string :=
  match labels_ConvertSelector s with (_, Some err) => inl err | (m, None) => inr m end.

(** A label set is written as a selector that [ConvertSelectorToLabelsMap] reads back, and
    that [Parse] reads as the selector of its supersets. *)
Class LabelsLaws `{LabelsLib} (valid : gmap string string -> Prop) : Prop := {
  labels_String_Convert m :
    valid m -> labels_ConvertSelectorToLabelsMap (labels_Set_String m) = inr m;
  labels_String_Parse m :
    valid m -> exists sel, labels_Parse (labels_Set_String m) = inr sel /\
    forall m', sel m' = true <-> m ⊆ m';
}.

(** [sets.List] of apimachinery's string sets: the elements in order. *)
Class SetsLib := sets_List : gset string -> list string.

Class SetsLaws `{SetsLib} : Prop := sets_List_spec s : sets_List s = slices.Sort (elements s).

(** ** Unstructured objects *)
Class UnstructuredLib := {
  u_GetKind : json -> string;
  u_GetLabels : json -> gmap string string;
  u_GetAnnotations : json -> gmap string string;
  (** the value, whether it was found, the error *)
  u_NestedString : json -> list string -> string * bool * option error;
  u_NestedStringMap : json -> list string -> gmap string string * bool * option error;
}.

Class UnstructuredLaws `{UnstructuredLib} : Prop := {
  (** [NestedStringMap] finds exactly the maps of strings, and never both finds and fails *)
  NestedStringMap_found j p m e :
    u_NestedStringMap j p = (m, true, e) -> json_path p j = Some (json_of_map m) /\ e = None;
  NestedStringMap_complete j p m :
    json_path p j = Some (json_of_map m) -> u_NestedStringMap j p = (m, true, None);
  (** the accessors are [NestedStringMap] without the flags; they are empty when it fails *)
  GetLabels_spec j :
    u_GetLabels j =
    match u_NestedStringMap j ["metadata"; "labels"] with (m, true, _) => m | _ => ∅ end;
  GetAnnotations_spec j :
    u_GetAnnotations j =
    match u_NestedStringMap j ["metadata"; "annotations"] with (m, true, _) => m | _ => ∅ end;
}.

(** ** Objects of the cluster *)
Record Namespace := {
  ns_Name : string;
  ns_Labels : gmap string string;
  ns_Annotations : gmap string string;
  ns_DeletionTimestamp : option Z;
}.

#[export] Instance Namespace_eq_dec : EqDecision Namespace.
Proof. solve_decision. Defined.

(** The namespaces that a list request selects. *)
Definition list_option_matches (opt : ListOption) (ns : Namespace) : Prop :=
  match opt with
  | InNamespace _ => True
  | MatchingLabels m => m ⊆ ns_Labels ns
  | HasLabels ls => Forall (fun l => is_Some (ns_Labels ns !! l)) ls
  end.

#[export] Instance list_option_matches_dec opt ns : Decision (list_option_matches opt ns).
Proof. destruct opt; simpl; apply _. Defined.

(** ** Lemmas *)

Lemma json_path_obj o k p : json_path (k :: p) (JObj o) = o !! k ≫= json_path p.
Proof. done. Qed.

Lemma json_path_app p q j : json_path (p ++ q) j = json_path p j ≫= json_path q.
Proof.
  revert j. induction p as [|k p IH]; intros j; [done|]. simpl.
  destruct j as [| | | | | |o]; try done. destruct (o !! k); simpl; [apply IH | done].
Qed.

(** Adding a member of an existing object. *)
Lemma json_add_member p k v j o :
  json_path p j = Some (JObj o) ->
  exists j', json_add (p ++ [k]) v j = Some j' /\ json_path p j' = Some (JObj (<[k := v]> o)).
Proof.
  revert j. induction p as [|k' p IH]; intros j H; simpl in H; [simplify_eq/=; eauto|].
  destruct j as [| | | | | |o']; simplify_eq. simpl in H.
  destruct (o' !! k') as [c|] eqn:Ek; [|done]. simpl in H.
  destruct (IH c H) as (c' & Hadd & Hpath).
  exists (JObj (<[k' := c']> o')). split.
  - simpl. destruct (p ++ [k]) eqn:E; [by destruct p|]. rewrite Ek. cbn [mbind option_bind]. by rewrite Hadd.
  - simpl. by rewrite lookup_insert_eq.
Qed.

(** Adding a value leaves every path alone that neither leads to the target nor starts there. *)
Lemma json_add_other p v j j' q :
  json_add p v j = Some j' -> ~ p `prefix_of` q -> ~ q `prefix_of` p ->
  json_path q j' = json_path q j.
Proof.
  revert j j' q. induction p as [|k p IH]; intros j j' q H Hp Hq.
  { destruct Hp. apply prefix_nil. }
  destruct q as [|k' q]; [destruct Hq; apply prefix_nil|].
  destruct j as [| | | | | |o]; simpl in H; try by destruct p.
  destruct (decide (k = k')) as [<-|Hk].
  - destruct p as [|k2 p]; [by destruct Hp; exists q|].
    apply bind_Some in H as (c & Ec & (c' & Ea & H)%bind_Some). simplify_eq.
    rewrite !json_path_obj, lookup_insert_eq, Ec. apply (IH c c' q); [done|..].
    + intros ?. by apply Hp, prefix_cons.
    + intros ?. by apply Hq, prefix_cons.
  - destruct p as [|k2 p].
    + simplify_eq. rewrite !json_path_obj. by rewrite lookup_insert_ne.
    + apply bind_Some in H as (c & _ & (c' & _ & H)%bind_Some). simplify_eq.
      rewrite !json_path_obj. by rewrite lookup_insert_ne.
Qed.

Lemma apply_patch_app ops1 ops2 j :
  apply_patch (ops1 ++ ops2) j = apply_patch ops1 j ≫= apply_patch ops2.
Proof.
  revert j. induction ops1 as [|op ops1 IH]; intros j; simpl; [done|].
  destruct (apply_op op j); simpl; [apply IH | done].
Qed.

Lemma errors_or_none (l : list (option error)) :
  (exists e, Some e ∈ l) \/ Forall (fun e => e = None) l.
Proof.
  induction l as [|[e|] l [(e' & IH)|IH]]; [by right | left; exists e'; by right | left; exists e; by left
    | left; exists e'; by right | right; by constructor].
Qed.

Section multierr.
Context `{MultierrLaws}.

Lemma Combine_nil : multierr_Combine [] = None.
Proof. by apply multierr_Combine_nil. Qed.

Lemma combine_none l : Forall (fun e => e = None) l -> multierr_Combine (filter is_Some l) = None.
Proof.
  intros Hl. apply multierr_Combine_nil, Forall_forall. rewrite Forall_forall in Hl.
  by intros e [_ He]%list_elem_of_filter; apply Hl.
Qed.

Lemma Combine_some l e : multierr_Combine l = Some e -> exists e', Some e' ∈ l.
Proof.
  intros E. destruct (errors_or_none l) as [|Hn]; [done|].
  apply multierr_Combine_nil in Hn. congruence.
Qed.

Lemma Combine_error e l : Some e ∈ l -> exists e', multierr_Combine l = Some e'.
Proof.
  intros Hin. destruct (multierr_Combine l) as [e'|] eqn:E; [eauto|].
  apply multierr_Combine_nil in E. rewrite Forall_forall in E. by apply E in Hin.
Qed.
End multierr.

(** ** Reading and patching maps of strings *)
Section unstructured.
Context `{UnstructuredLaws}.

Lemma NestedStringMap_iff j p m :
  (exists e, u_NestedStringMap j p = (m, true, e)) <-> json_path p j = Some (json_of_map m).
Proof.
  split.
  - intros (e & E). by apply NestedStringMap_found in E as [].
  - intros E. exists None. by apply NestedStringMap_complete.
Qed.

Lemma GetLabels_path j m :
  json_path ["metadata"; "labels"] j = Some (json_of_map m) -> u_GetLabels j = m.
Proof. intros E. rewrite GetLabels_spec. by rewrite (NestedStringMap_complete _ _ _ E). Qed.

(** Objects without metadata have neither labels nor annotations. *)
Lemma GetLabels_empty : u_GetLabels (JObj ∅) = ∅.
Proof.
  rewrite GetLabels_spec. destruct (u_NestedStringMap _ _) as [[m []] e] eqn:E; [|done].
  by apply NestedStringMap_found in E as [].
Qed.

Lemma GetAnnotations_empty : u_GetAnnotations (JObj ∅) = ∅.
Proof.
  rewrite GetAnnotations_spec. destruct (u_NestedStringMap _ _) as [[m []] e] eqn:E; [|done].
  by apply NestedStringMap_found in E as [].
Qed.
End unstructured.

(** Adding one entry to a map of strings inside an object, or adding the whole map. *)
Lemma json_add_entry p k v j m :
  json_path p j = Some (json_of_map m) ->
  exists j', json_add (p ++ [k]) (JStr v) j = Some j' /\
    json_path p j' = Some (json_of_map (<[k := v]> m)).
Proof.
  intros E. destruct (json_add_member p k (JStr v) j _ E) as (j' & ? & ?).
  exists j'. split; [done|]. unfold json_of_map. by rewrite fmap_insert.
Qed.

Lemma json_add_map p k m j o :
  json_path p j = Some (JObj o) ->
  exists j', json_add (p ++ [k]) (json_of_map m) j = Some j' /\
    json_path (p ++ [k]) j' = Some (json_of_map m).
Proof.
  intros E. destruct (json_add_member p k (json_of_map m) j _ E) as (j' & ? & E').
  exists j'. split; [done|]. rewrite json_path_app, E'. simpl. by rewrite lookup_insert_eq.
Qed.

Lemma apply_op_add path p v j :
  parse_pointer path = Some p ->
  apply_op {| op_Operation := "add"; op_Path := path; op_Value := v |} j = json_add p v j.
Proof. intros E. unfold apply_op. simpl. by rewrite E. Qed.

Lemma apply_patch_single op j : apply_patch [op] j = apply_op op j.
Proof. simpl. by destruct (apply_op op j). Qed.
