(* ===== verification/Fake.v ===== *)
(** * Instances of the library interfaces

    Concrete functions that satisfy the laws of [Kube].  They show that the laws can hold
    together; the witnesses of the theorems are evaluated with them. *)
From S2P Require Import Prelude GoStd Kube.

Module Fake.

(** Maps are visited in the order of [map_to_list]. *)
Definition fake_range : RangeOracle := {|
  range_map := fun _ V m => map_to_list m;
  range_map_perm := fun _ V m => reflexivity (map_to_list m);
|}.

(** Responses as controller-runtime builds them. *)
Definition fake_response (allowed : bool) (code : Z) (msg : string) (ops : list Operation) :
    AdmissionResponse := {|
  resp_Allowed := allowed;
  resp_Result := Some {| status_Code := code; status_Message := msg |};
  resp_Patches := ops;
  resp_Warnings := [];
|}.

Definition fake_admission : AdmissionLib := {|
  admission_Allowed := fun m => fake_response true 200 m [];
  admission_Denied := fun m => fake_response false 403 m [];
  admission_Errored := fun c e => fake_response false c (errors.Error e) [];
  admission_Patched := fun m ops => fake_response true 200 m ops;
|}.

Definition fake_IsNotFound (e : error) : bool :=
  match e with StatusError ReasonNotFound _ => true | _ => false end.

Definition fake_apierrors : ApiErrors := {|
  apierrors_IsNotFound := fake_IsNotFound;
  client_IgnoreNotFound := fun o =>
    match o with
    | Some e => if fake_IsNotFound e then None else Some e
    | None => None
    end;
|}.

(** One error is returned as it is, several are collected. *)
Definition fake_multierr : Multierr := fun l =>
  match omap id l with [] => None | [e] => Some e | es => Some (MultiError es) end.

(** Wildcard matching: a star matches any text, a question mark any byte. *)
Fixpoint fake_match (p : string) : string -> bool :=
  match p with
  | "" => fun s => bool_decide (s = "")
  | String "*" p' =>
      fix star (s : string) : bool :=
        fake_match p' s || match s with "" => false | String _ s' => star s' end
  | String c p' => fun s =>
      match s with
      | "" => false
      | String d s' => (bool_decide (c = d) || bool_decide (c = "?"%char)) && fake_match p' s'
      end
  end.

Definition fake_wildcard : Wildcard := fake_match.

(** Selectors of the form [k1=v1,k2=v2]. *)
Definition fake_String (m : gmap string string) : string :=
  strings.Join (slices.Sort ((fun '(k, v) => k +:+ "=" +:+ v) <$> map_to_list m)) ",".

Definition fake_requirement (s : string) : option (string * string) :=
  let '(k, v, ok) := strings.Cut s "=" in if ok then Some (k, v) else None.

Definition fake_Convert (s : string) : error + gmap string string :=
  if bool_decide (s = "") then inr ∅
  else match mapM fake_requirement (strings.Split s ",") with
       | Some l => inr (list_to_map l)
       | None => inl (ErrorString "invalid selector")
       end.

Definition fake_labels : LabelsLib := {|
  labels_Set_String := fake_String;
  labels_ConvertSelector := fun s =>
    match fake_Convert s with inl e => (∅, Some e) | inr m => (m, None) end;
  labels_Parse := fun s =>
    match fake_Convert s with
    | inl e => inl e
    | inr m => inr (fun m' => bool_decide (m ⊆ m'))
    end;
|}.

Definition fake_valid (m : gmap string string) : Prop :=
  m ∈ [∅; {["class" := "plus"]}; {["class" := "plus"; "zone" := "a"]} : gmap string string].

(** Unstructured objects. *)
Definition json_string (j : json) : option string :=
  match j with JStr s => Some s | _ => None end.

Definition json_is_string (j : json) : bool := bool_decide (is_Some (json_string j)).

Definition fake_NestedStringMap (j : json) (p : list string)
    : gmap string string * bool * option error :=
  match json_path p j with
  | Some (JObj o) =>
      if forallb json_is_string (map_to_list o).*2 then (omap json_string o, true, None)
      else (∅, false, Some (ErrorString "accessor error"))
  | Some _ => (∅, false, Some (ErrorString "accessor error"))
  | None => (∅, false, None)
  end.

Definition fake_unstructured : UnstructuredLib := {|
  u_GetKind := fun j => match json_path ["kind"] j with Some (JStr s) => s | _ => "" end;
  u_GetLabels := fun j =>
    match fake_NestedStringMap j ["metadata"; "labels"] with (m, true, _) => m | _ => ∅ end;
  u_GetAnnotations := fun j =>
    match fake_NestedStringMap j ["metadata"; "annotations"] with (m, true, _) => m | _ => ∅ end;
  u_NestedString := fun j p =>
    match json_path p j with
    | Some (JStr s) => (s, true, None)
    | Some _ => ("", false, Some (ErrorString "accessor error"))
    | None => ("", false, None)
    end;
  u_NestedStringMap := fake_NestedStringMap;
|}.

Definition fake_sets : SetsLib := fun s => slices.Sort (elements s).

(** ** The laws *)

Lemma fake_admission_laws : @AdmissionLaws fake_admission.
Proof. by split. Qed.

Lemma fake_apierrors_laws : @ApiErrorsLaws fake_apierrors.
Proof. by split. Qed.

Lemma fake_multierr_laws : @MultierrLaws fake_multierr.
Proof.
  intros l. unfold multierr_Combine, fake_multierr. split.
  - intros H. destruct (omap id l) as [|e [|]] eqn:E; [|done..].
    apply Forall_forall. intros [e|] Hin; [|done]. exfalso.
    assert (e ∈ omap id l) as Hel by (apply list_elem_of_omap; eauto).
    rewrite E in Hel. by apply not_elem_of_nil in Hel.
  - induction 1 as [|o l -> _ IH]; [done|]. simpl. done.
Qed.

Lemma fake_match_char c p d s :
  c <> "*"%char ->
  fake_match (String c p) (String d s) =
  (bool_decide (c = d) || bool_decide (c = "?"%char)) && fake_match p s.
Proof. intros Hc. destruct c as [[] [] [] [] [] [] [] []]; done. Qed.

Lemma fake_match_char_nil c p : c <> "*"%char -> fake_match (String c p) "" = false.
Proof. intros Hc. destruct c as [[] [] [] [] [] [] [] []]; done. Qed.

Lemma fake_wildcard_laws : @WildcardLaws fake_wildcard.
Proof.
  intros p s. unfold wildcard_Match, fake_wildcard. revert s.
  induction p as [|c p IH]; intros s; [intros _ _; simpl; by apply bool_decide_ext|].
  simpl strings.ContainsRune. intros H1 H2.
  destruct (decide (c = "*"%char)) as [|Hs]; [done|].
  destruct (decide (c = "?"%char)) as [|Hq]; [done|].
  destruct s as [|d s]; [by rewrite fake_match_char_nil, bool_decide_eq_false_2|].
  rewrite fake_match_char, (bool_decide_eq_false_2 (c = "?"%char)), orb_false_r, IH by done.
  rewrite <- bool_decide_and. apply bool_decide_ext. naive_solver.
Qed.

Lemma fake_labels_laws : @LabelsLaws fake_labels fake_valid.
Proof.
  assert (forall m, fake_valid m -> fake_Convert (fake_String m) = inr m) as HC.
  { intros m Hm. unfold fake_valid in Hm.
    repeat apply elem_of_cons in Hm as [->|Hm]; [by vm_compute..|by apply not_elem_of_nil in Hm]. }
  split; intros m Hm; [unfold labels_ConvertSelectorToLabelsMap; simpl; by rewrite (HC m Hm)|].
  simpl. rewrite (HC m Hm).
  eexists. split; [done|]. intros m'. apply bool_decide_eq_true.
Qed.

Lemma omap_json_string (o : gmap string json) :
  forallb json_is_string (map_to_list o).*2 = true -> o = JStr <$> omap json_string o.
Proof.
  intros H. apply map_eq. intros k. rewrite lookup_fmap, lookup_omap.
  destruct (o !! k) as [j|] eqn:E; [|done]. simpl.
  rewrite forallb_forall in H. assert (json_is_string j = true) as Hj.
  { apply H. apply list_elem_of_In, list_elem_of_fmap. exists (k, j).
    by rewrite elem_of_map_to_list. }
  apply bool_decide_eq_true in Hj as [s Hs]. destruct j; by simplify_eq/=.
Qed.

Lemma omap_json_string_fmap (m : gmap string string) :
  forallb json_is_string (map_to_list (JStr <$> m)).*2 = true /\ omap json_string (JStr <$> m) = m.
Proof.
  split.
  - apply forallb_forall. intros j Hj%list_elem_of_In.
    apply list_elem_of_fmap in Hj as ([k j'] & -> & Hj%elem_of_map_to_list).
    rewrite lookup_fmap in Hj. simpl. by apply fmap_Some in Hj as (? & _ & ->).
  - apply map_eq. intros k. rewrite lookup_omap, lookup_fmap. by destruct (m !! k).
Qed.

Lemma fake_unstructured_laws : @UnstructuredLaws fake_unstructured.
Proof.
  split; [| |done..].
  - intros j p m e. simpl. unfold fake_NestedStringMap, json_of_map.
    destruct (json_path p j) as [[]|]; try done.
    destruct (forallb _ _) eqn:E; [|done]. intros [= <- <-].
    by rewrite <- (omap_json_string o E).
  - intros j p m H. simpl. unfold fake_NestedStringMap. rewrite H. unfold json_of_map.
    by destruct (omap_json_string_fmap m) as [-> ->].
Qed.

Lemma fake_sets_laws : @SetsLaws fake_sets.
Proof. done. Qed.

#[export] Existing Instances fake_sets fake_sets_laws.
#[export] Existing Instances fake_range fake_admission fake_apierrors fake_multierr
  fake_wildcard fake_labels fake_unstructured fake_admission_laws fake_apierrors_laws
  fake_multierr_laws fake_wildcard_laws fake_labels_laws fake_unstructured_laws.

End Fake.
