(* ===== verification/Skipper.v ===== *)
(** * Skippers: who is exempt from the admission webhooks

    Packages [skipper] and [skipper/userinfo]: the static skipper, the combination of
    skippers, and the skipper of privileged users, groups and cluster roles. *)
From S2P Require Import Prelude GoStd Kube.

(** ** [skipper/skipper.go] *)

(** A value of the interface type [Skipper] is its method; [IsSkipper] is the relation
    "implements", and [to_Skipper] the conversion of an implementation to the interface. *)
Definition Skipper := AdmissionRequest -> bool * option error.

Class IsSkipper (S : Type) := Skip : S -> Skipper.

Definition to_Skipper {S} `{IsSkipper S} (s : S) : Skipper := Skip s.

Record StaticSkipper := { ShouldSkip : bool }.

#[export] Instance StaticSkipper_Skip : IsSkipper StaticSkipper :=
  fun s _ => (ShouldSkip s, None).

Record multiSkipper := { ms_skipper : list Skipper }.

(** The loop of [multiSkipper.Skip]. *)
Fixpoint multi_Skip (l : list Skipper) : Skipper := fun req =>
  match l with
  | [] => (false, None)
  | sk :: l' =>
      let '(skip, err) := sk req in
      match err with
      | Some _ => (skip, err)
      | None => if skip : bool then (true, None) else multi_Skip l' req
      end
  end.

#[export] Instance multiSkipper_Skip : IsSkipper multiSkipper :=
  fun s => multi_Skip (ms_skipper s).

Definition NewMultiSkipper (skipper : list Skipper) : Skipper :=
  to_Skipper {| ms_skipper := skipper |}.

(** ** [skipper/userinfo/userinfo.go] *)
Definition ServiceAccountKind : string := "ServiceAccount".
Definition UserKind : string := "User".
Definition GroupKind : string := "Group".

Record Subject := { subj_Kind : string; subj_Name : string; subj_Namespace : string }.
Record RoleRef := { ref_Kind : string; ref_Name : string }.
Record ClusterRoleBinding := { crb_Subjects : list Subject; crb_RoleRef : RoleRef }.

Definition saPrefix : string := "system:serviceaccount:".
Definition clusterRoleKind : string := "ClusterRole".

Definition matchSubject (subject : Subject) (userInfo : UserInfo) : bool :=
  if bool_decide (subj_Kind subject = ServiceAccountKind) then
    bool_decide (Username userInfo =
      saPrefix +:+ subj_Namespace subject +:+ ":" +:+ subj_Name subject)
  else if bool_decide (subj_Kind subject = UserKind) then
    bool_decide (Username userInfo = subj_Name subject)
  else if bool_decide (subj_Kind subject = GroupKind) then
    existsb (fun group => bool_decide (subj_Name subject = group)) (Groups userInfo)
  else false.

Definition clusterRoleRefs (clusterroleBindings : list ClusterRoleBinding) (userInfo : UserInfo)
    : list string :=
  crb ← clusterroleBindings;
  subject ← crb_Subjects crb;
  if bool_decide (ref_Kind (crb_RoleRef crb) = clusterRoleKind) && matchSubject subject userInfo
  then [ref_Name (crb_RoleRef crb)] else [].

Section userinfo.
Context `{ClientList ClusterRoleBinding}.

Definition listClusterRoleBindings : error + list ClusterRoleBinding := client_List [].

Definition ClusterRoleRefsForUser (user : UserInfo) : error + list string :=
  try crbs <- listClusterRoleBindings catch err =>
    inl (ErrorString ("failed to list clusterrolebindings: " +:+ errors.Error err));;
  inr (clusterRoleRefs crbs user).
End userinfo.

(** ** [skipper/privileged_user.go] *)
Record PrivilegedUserSkipper := {
  PrivilegedGroups : list string;
  PrivilegedUsers : list string;
  PrivilegedClusterRoles : list string;
}.

Section privileged.
Context `{Wildcard} `{ClientList ClusterRoleBinding}.

(** The nested loops over patterns and candidates. *)
Definition any_match (patterns candidates : list string) : bool :=
  existsb (fun p => existsb (fun c => wildcard_Match p c) candidates) patterns.

#[export] Instance PrivilegedUserSkipper_Skip : IsSkipper PrivilegedUserSkipper := fun s req =>
  let user := req_UserInfo req in
  if existsb (fun pu => wildcard_Match pu (Username user)) (PrivilegedUsers s)
  then (true, None)
  else if any_match (PrivilegedGroups s) (Groups user) then (true, None)
  else try clusterroles <- ClusterRoleRefsForUser user catch err => (false, Some err);;
    if any_match (PrivilegedClusterRoles s) clusterroles then (true, None)
    else (false, None).
End privileged.

(** ** Specification: what privilege means *)

(** The roles a user holds through bindings of cluster roles. *)
Definition holds_cluster_role (crbs : list ClusterRoleBinding) (u : UserInfo) (role : string) : Prop :=
  exists crb subject, crb ∈ crbs /\ subject ∈ crb_Subjects crb /\
    crb_RoleRef crb = {| ref_Kind := clusterRoleKind; ref_Name := role |} /\
    matchSubject subject u = true.

Section privileged_spec.
Context `{Wildcard}.
Implicit Types (s : PrivilegedUserSkipper) (req : AdmissionRequest).

(** The user or one of the groups matches a configured pattern. *)
Definition privileged_by_name s req : Prop :=
  (exists pu, pu ∈ PrivilegedUsers s /\ wildcard_Match pu (Username (req_UserInfo req)) = true) \/
  (exists pg ug, pg ∈ PrivilegedGroups s /\ ug ∈ Groups (req_UserInfo req) /\
     wildcard_Match pg ug = true).

(** A role matching a configured pattern is bound to the user by a ClusterRoleBinding. *)
Definition privileged_by_role s req (crbs : list ClusterRoleBinding) : Prop :=
  exists pcr role, pcr ∈ PrivilegedClusterRoles s /\ wildcard_Match pcr role = true /\
    holds_cluster_role crbs (req_UserInfo req) role.
End privileged_spec.

(** A skipper decides a request when it answers "skip" or fails. *)
Definition decides (req : AdmissionRequest) (sk : Skipper) : Prop := sk req <> (false, None).

#[export] Instance decides_dec req sk : Decision (decides req sk).
Proof.
  unfold decides. destruct (sk req) as [[] [e|]]; [left; done.. | right; tauto].
Defined.

(** ** Lemmas *)

Lemma multi_Skip_cons sk l req :
  multi_Skip (sk :: l) req = if decide (decides req sk) then sk req else multi_Skip l req.
Proof.
  simpl. case_decide as Hd; unfold decides in Hd; destruct (sk req) as [[] [e|]]; try done;
    by destruct Hd.
Qed.

Lemma multi_Skip_app l1 l2 req :
  multi_Skip (l1 ++ l2) req =
  if decide (decides req (multi_Skip l1)) then multi_Skip l1 req else multi_Skip l2 req.
Proof.
  induction l1 as [|sk l1 IH]; [by rewrite decide_False by (intros []; done)|].
  rewrite <- app_comm_cons, !multi_Skip_cons, IH. unfold decides in *.
  destruct (decide (multi_Skip (sk :: l1) req <> _)) as [Hd|Hd]; rewrite multi_Skip_cons in Hd;
    unfold decides in Hd; repeat case_decide; tauto.
Qed.

Lemma clusterRoleRefs_elem crbs u role :
  role ∈ clusterRoleRefs crbs u <-> holds_cluster_role crbs u role.
Proof.
  unfold clusterRoleRefs, holds_cluster_role. rewrite list_elem_of_bind. split.
  - intros (crb & (subject & Hrole & Hs)%list_elem_of_bind & Hcrb).
    case_match eqn:E; [|by apply not_elem_of_nil in Hrole].
    apply andb_true_iff in E as [Ek%bool_decide_eq_true Em].
    apply list_elem_of_singleton in Hrole as ->.
    exists crb, subject. repeat split; try done. destruct (crb_RoleRef crb); simpl in *. by subst.
  - intros (crb & subject & Hcrb & Hs & Href & Em). exists crb. split; [|done].
    apply list_elem_of_bind. exists subject. split; [|done].
    rewrite Href, Em, bool_decide_eq_true_2 by done. simpl. apply list_elem_of_here.
Qed.

Lemma any_match_spec `{Wildcard} ps cs :
  any_match ps cs = true <-> exists p c, p ∈ ps /\ c ∈ cs /\ wildcard_Match p c = true.
Proof.
  unfold any_match. rewrite existsb_elem. setoid_rewrite existsb_elem. naive_solver.
Qed.

#[export] Hint Rewrite clusterRoleRefs_elem @any_match_spec : agent.

Lemma string_app_inj_l (s s1 s2 : string) : s +:+ s1 = s +:+ s2 -> s1 = s2.
Proof. apply (inj (String.app s)). Qed.

(** A text is split at a separator that the first part does not contain in one way only. *)
Lemma string_sep_inj b1 b2 a1 a2 (c : ascii) :
  strings.ContainsRune b1 c = false -> strings.ContainsRune b2 c = false ->
  b1 +:+ String c a1 = b2 +:+ String c a2 -> b1 = b2 /\ a1 = a2.
Proof.
  intros H1 H2 E. pose proof (Cut_app_char b1 a1 c H1) as C1.
  pose proof (Cut_app_char b2 a2 c H2) as C2. rewrite E, C2 in C1. by simplify_eq.
Qed.

Lemma matchSubject_service_account ns n u :
  matchSubject {| subj_Kind := ServiceAccountKind; subj_Name := n; subj_Namespace := ns |} u =
  bool_decide (Username u = saPrefix +:+ ns +:+ ":" +:+ n).
Proof. done. Qed.

(** ** Properties *)

(** Combining skippers gives the answer of the first skipper that decides: the
    skippers before it say neither "skip" nor an error; when none decides, nothing is skipped. *)
Theorem multiSkipper_first (l : list Skipper) (req : AdmissionRequest) :
  NewMultiSkipper l req =
  match list_find (decides req) l with Some (_, sk) => sk req | None => (false, None) end.
Proof.
  unfold NewMultiSkipper, to_Skipper, Skip, multiSkipper_Skip. simpl.
  induction l as [|sk l IH]; [done|]. rewrite multi_Skip_cons. simpl.
  case_decide; [done|]. rewrite IH. by destruct (list_find (decides req) l) as [[]|].
Qed.

(** A combination of skippers nested in another one can be flattened. *)
Theorem multiSkipper_flatten (l1 l2 l3 : list Skipper) (req : AdmissionRequest) :
  NewMultiSkipper (l1 ++ NewMultiSkipper l2 :: l3) req = NewMultiSkipper (l1 ++ l2 ++ l3) req.
Proof.
  unfold NewMultiSkipper, to_Skipper, Skip, multiSkipper_Skip. simpl.
  rewrite !multi_Skip_app. case_decide; [done|]. rewrite multi_Skip_cons. by case_decide.
Qed.

Section privileged_properties.
Context `{Wildcard} `{ClientList ClusterRoleBinding}.
Implicit Types (s : PrivilegedUserSkipper) (req : AdmissionRequest).

Lemma privileged_by_name_spec s req :
  existsb (fun pu => wildcard_Match pu (Username (req_UserInfo req))) (PrivilegedUsers s)
  || any_match (PrivilegedGroups s) (Groups (req_UserInfo req)) = true
  <-> privileged_by_name s req.
Proof. unfold privileged_by_name. by rewrite orb_true_iff, existsb_elem, any_match_spec. Qed.

Lemma PrivilegedUser_Skip_unfold s req :
  Skip s req =
  if existsb (fun pu => wildcard_Match pu (Username (req_UserInfo req))) (PrivilegedUsers s)
     || any_match (PrivilegedGroups s) (Groups (req_UserInfo req))
  then (true, None)
  else match listClusterRoleBindings with
       | inl err => (false, Some (ErrorString
                      ("failed to list clusterrolebindings: " +:+ errors.Error err)))
       | inr crbs => (any_match (PrivilegedClusterRoles s)
                        (clusterRoleRefs crbs (req_UserInfo req)), None)
       end.
Proof.
  unfold Skip, PrivilegedUserSkipper_Skip, ClusterRoleRefsForUser.
  destruct (existsb _ _); [done|]. simpl. destruct (any_match _ (Groups _)); [done|].
  destruct listClusterRoleBindings; [done|]. by destruct (any_match _ _).
Qed.

(** C25: the skipper of privileged users skips a request exactly when the user's name or one
    of the groups matches a configured pattern, or the cluster role bindings could be read
    and one of them binds a matching cluster role to the user; role bindings never count. *)
Theorem PrivilegedUserSkipper_sound_complete s req :
  Skip s req = (true, None) <->
  privileged_by_name s req \/
  exists crbs, client_List [] = inr crbs /\ privileged_by_role s req crbs.
Proof.
  rewrite PrivilegedUser_Skip_unfold, <- privileged_by_name_spec.
  destruct (existsb _ _ || any_match _ _); [naive_solver|].
  unfold listClusterRoleBindings, privileged_by_role. setoid_rewrite <- clusterRoleRefs_elem.
  destruct (client_List []) as [err|crbs]; [naive_solver|].
  split.
  - intros [= Hm]. right. exists crbs. split; [done|].
    apply any_match_spec in Hm. naive_solver.
  - intros [|(? & [= <-] & pcr & role & ? & ? & ?)]; [done|].
    f_equal. apply any_match_spec. eauto.
Qed.

(** The skipper fails exactly when the names do not decide and the bindings cannot be
    read, and then it does not skip: an unreadable cluster never grants privilege. *)
Theorem PrivilegedUserSkipper_error s req :
  (exists skip e, Skip s req = (skip, Some e)) <->
  ~ privileged_by_name s req /\
  (exists err, client_List (T := ClusterRoleBinding) [] = inl err) /\
  (Skip s req).1 = false.
Proof.
  rewrite PrivilegedUser_Skip_unfold, <- privileged_by_name_spec.
  unfold listClusterRoleBindings.
  destruct (existsb _ _ || any_match _ _); [naive_solver|].
  destruct (client_List []) as [err|crbs]; naive_solver.
Qed.
End privileged_properties.

(** A service account subject matches the user name of that one account only: subjects
    of service accounts that match the same user are the same account, as long as their
    namespaces contain no colon (which Kubernetes names never do). *)
Theorem matchSubject_service_account_unique (ns1 n1 ns2 n2 : string) (u : UserInfo) :
  strings.ContainsRune ns1 ":" = false -> strings.ContainsRune ns2 ":" = false ->
  matchSubject {| subj_Kind := ServiceAccountKind; subj_Name := n1; subj_Namespace := ns1 |} u = true ->
  matchSubject {| subj_Kind := ServiceAccountKind; subj_Name := n2; subj_Namespace := ns2 |} u = true ->
  ns1 = ns2 /\ n1 = n2.
Proof.
  intros Hc1 Hc2. rewrite !matchSubject_service_account. intros M1 M2.
  apply bool_decide_eq_true in M1, M2. rewrite M1 in M2.
  apply string_app_inj_l in M2. rewrite !string_app_cons, !string_app_nil_l in M2.
  by apply string_sep_inj in M2.
Qed.

Lemma matchSubject_service_account_unique_witness :
  let s := {| subj_Kind := ServiceAccountKind; subj_Name := "builder"; subj_Namespace := "ci" |} in
  let u := {| Username := "system:serviceaccount:ci:builder"; Groups := [] |} in
  matchSubject s u = true /\ ("ci" = "ci" /\ "builder" = "builder").
Proof.
  simpl. split; [reflexivity|].
  apply (matchSubject_service_account_unique "ci" "builder" "ci" "builder"
    {| Username := "system:serviceaccount:ci:builder"; Groups := [] |}); reflexivity.
Defined.
