(* ===== verification/Api.v ===== *)
(** * The API objects the agent reads and writes

    The agent's own [ZoneUsageProfile] (package [api/v1]), and of the objects of other APIs
    the fields that the agent uses. *)
From S2P Require Import Prelude GoStd Kube.

(** [controlv1.UsageProfileSpec]: resources are raw JSON objects by name. *)
Record UsageProfileSpec := {
  NamespaceCount : Z;
  Resources : gmap string json;
}.

(** ** [api/v1/zoneusageprofile_types.go] *)
Record ZoneUsageProfileSpec := { UpstreamSpec : UsageProfileSpec }.

Record ZoneUsageProfile := {
  zup_Name : string;
  zup_Spec : ZoneUsageProfileSpec;
}.

#[export] Instance UsageProfileSpec_eq_dec : EqDecision UsageProfileSpec.
Proof. solve_decision. Defined.
#[export] Instance ZoneUsageProfileSpec_eq_dec : EqDecision ZoneUsageProfileSpec.
Proof. solve_decision. Defined.
#[export] Instance ZoneUsageProfile_eq_dec : EqDecision ZoneUsageProfile.
Proof. solve_decision. Defined.

Record ZoneUsageProfileList := { zupl_Items : list ZoneUsageProfile }.

(** ** Objects of OpenShift and Kubernetes *)

(** A user's annotations may be a nil map, which the agent tests for. *)
Record User := {
  user_Name : string;
  user_Annotations : option (gmap string string);
}.

Record Group := {
  group_Name : string;
  group_Users : list string;
}.

Record ConfigMap := { cm_Data : gmap string string }.

(** Reading a map that may be nil gives the zero value. *)
Definition nilmap_get (m : option (gmap string string)) (k : string) : string :=
  match m with Some m => map_get m k | None => "" end.
