(* ===== verification/Memory.v ===== *)
(** * Memory (api/v1/zoneusageprofile_types.go)

    The structs of the package as they are in memory, with pointers to cells, to fields and to
    elements of slices, and programs that read, write and allocate.  [denotes] says what a struct
    stands for, and [wrote] what a program may have changed. *)
From S2P Require Import Prelude GoStd Kube.

(** ** Memory *)
Definition loc : Type := positive.

Record TypeMeta := { tm_Kind : string; tm_APIVersion : string }.

(** A slice that is not nil. *)
Record slice := { sl_array : loc; sl_offset : nat; sl_len : nat }.

(** What the code relies on in other packages: the structs [metav1.ObjectMeta], [metav1.ListMeta]
    and [controlv1.UsageProfileSpec], what their references point to, and their zero values. *)
Class Packages := {
  ObjectMeta : Type;
  ListMeta : Type;
  UsageProfileSpec_ : Type;
  Other : Type;
  ObjectMeta_zero : ObjectMeta;
  ListMeta_zero : ListMeta;
  UsageProfileSpec_zero : UsageProfileSpec_;
}.

Section memory.
Context `{Packages}.

(** *** The structs of the package, as they are in memory (zoneusageprofile_types.go) *)
Record SpecStruct := { s_UpstreamSpec : UsageProfileSpec_ }.

Record StatusStruct := {}.

Record ProfileStruct := {
  p_TypeMeta : TypeMeta;
  p_ObjectMeta : ObjectMeta;
  p_Spec : SpecStruct;
  p_Status : StatusStruct;
}.

Record ListStruct := {
  l_TypeMeta : TypeMeta;
  l_ListMeta : ListMeta;
  l_Items : option slice;
}.

Inductive cell :=
| ProfileCell (p : ProfileStruct)
| ListCell (l : ListStruct)
| SpecCell (s : SpecStruct)
| StatusCell (s : StatusStruct)
| ArrayCell (items : list ProfileStruct)
| OtherCell (x : Other).

Abbreviation heap := (gmap loc cell).

(** *** Pointers: a cell, and where in the cell *)
Record ptr {A : Type} := {
  pt_base : loc;
  pt_get : cell -> option A;
  pt_put : A -> cell -> option cell;
}.
#[global] Arguments ptr : clear implicits.

Definition load {A} (p : ptr A) (h : heap) : option A := h !! pt_base p ≫= pt_get p.

Definition store {A} (p : ptr A) (a : A) (h : heap) : option heap :=
  c ← h !! pt_base p; c' ← pt_put p a c; Some (<[pt_base p := c']> h).

(** A pointer to a whole cell. *)
Definition cell_at {A} (get : cell -> option A) (put : A -> cell) (l : loc) : ptr A := {|
  pt_base := l; pt_get := get; pt_put := fun a c => (fun _ => put a) <$> get c |}.

Definition profile_at : loc -> ptr ProfileStruct :=
  cell_at (fun c => match c with ProfileCell p => Some p | _ => None end) ProfileCell.

Definition list_at : loc -> ptr ListStruct :=
  cell_at (fun c => match c with ListCell l => Some l | _ => None end) ListCell.

Definition spec_at : loc -> ptr SpecStruct :=
  cell_at (fun c => match c with SpecCell s => Some s | _ => None end) SpecCell.

Definition status_at : loc -> ptr StatusStruct :=
  cell_at (fun c => match c with StatusCell s => Some s | _ => None end) StatusCell.

(** [&s[i]]. *)
Definition item_at (s : slice) (i : nat) : ptr ProfileStruct := {|
  pt_base := sl_array s;
  pt_get := fun c =>
    match c with
    | ArrayCell items => if decide (i < sl_len s) then items !! (sl_offset s + i) else None
    | _ => None
    end;
  pt_put := fun p c =>
    match c with
    | ArrayCell items =>
        if decide (i < sl_len s /\ is_Some (items !! (sl_offset s + i)))
        then Some (ArrayCell (<[sl_offset s + i := p]> items)) else None
    | _ => None
    end |}.

(** [&p.f]. *)
Definition field {A B} (get : A -> B) (put : B -> A -> A) (p : ptr A) : ptr B := {|
  pt_base := pt_base p;
  pt_get := fun c => get <$> pt_get p c;
  pt_put := fun b c => a ← pt_get p c; pt_put p (put b a) c |}.

Definition set_TypeMeta (t : TypeMeta) (p : ProfileStruct) : ProfileStruct := {|
  p_TypeMeta := t; p_ObjectMeta := p_ObjectMeta p; p_Spec := p_Spec p; p_Status := p_Status p |}.
Definition set_ObjectMeta (m : ObjectMeta) (p : ProfileStruct) : ProfileStruct := {|
  p_TypeMeta := p_TypeMeta p; p_ObjectMeta := m; p_Spec := p_Spec p; p_Status := p_Status p |}.
Definition set_Spec (s : SpecStruct) (p : ProfileStruct) : ProfileStruct := {|
  p_TypeMeta := p_TypeMeta p; p_ObjectMeta := p_ObjectMeta p; p_Spec := s; p_Status := p_Status p |}.
Definition set_Status (s : StatusStruct) (p : ProfileStruct) : ProfileStruct := {|
  p_TypeMeta := p_TypeMeta p; p_ObjectMeta := p_ObjectMeta p; p_Spec := p_Spec p; p_Status := s |}.
Definition set_UpstreamSpec (u : UsageProfileSpec_) (s : SpecStruct) : SpecStruct := {|
  s_UpstreamSpec := u |}.
Definition set_list_TypeMeta (t : TypeMeta) (l : ListStruct) : ListStruct := {|
  l_TypeMeta := t; l_ListMeta := l_ListMeta l; l_Items := l_Items l |}.
Definition set_ListMeta (m : ListMeta) (l : ListStruct) : ListStruct := {|
  l_TypeMeta := l_TypeMeta l; l_ListMeta := m; l_Items := l_Items l |}.
Definition set_Items (s : option slice) (l : ListStruct) : ListStruct := {|
  l_TypeMeta := l_TypeMeta l; l_ListMeta := l_ListMeta l; l_Items := s |}.

(** *** Programs on the memory; [None] is a panic *)
Definition mem (A : Type) : Type := heap -> option (A * heap).

#[global] Instance mem_ret : MRet mem := fun A a h => Some (a, h).
#[global] Instance mem_bind : MBind mem := fun A B f p h => '(a, h') ← p h; f a h'.

Definition read {A} (p : ptr A) : mem A := fun h => a ← load p h; Some (a, h).
Definition write {A} (p : ptr A) (a : A) : mem unit := fun h => h' ← store p a h; Some (tt, h').

(** [*out = *in]. *)
Definition assign {A} (out inp : ptr A) : mem unit := a ← read inp; write out a.

(** [new] and [make]. *)
Definition alloc (c : cell) : mem loc := fun h =>
  let l := fresh (dom h) in Some (l, <[l := c]> h).

Definition spec_zero : SpecStruct := {| s_UpstreamSpec := UsageProfileSpec_zero |}.
Definition status_zero : StatusStruct := Build_StatusStruct.
Definition profile_zero : ProfileStruct := {|
  p_TypeMeta := {| tm_Kind := ""; tm_APIVersion := "" |}; p_ObjectMeta := ObjectMeta_zero;
  p_Spec := spec_zero; p_Status := status_zero |}.
Definition list_zero : ListStruct := {|
  l_TypeMeta := {| tm_Kind := ""; tm_APIVersion := "" |}; l_ListMeta := ListMeta_zero; l_Items := None |}.

Definition make_items (n : nat) : mem slice :=
  l ← alloc (ArrayCell (replicate n profile_zero));
  mret {| sl_array := l; sl_offset := 0; sl_len := n |}.
End memory.

Abbreviation heap := (gmap loc cell).

(** A deep copy of a struct of another package: the struct it makes and the memory it allocates. *)
Class DeepCopier `{Packages} (A : Type) := deep_copy : A -> heap -> A * heap.

(** [in.f.DeepCopyInto(&out.f)]. *)
Definition copy_into `{DeepCopier A} (inp out : ptr A) : mem unit := fun h =>
  a ← load inp h; let '(a', h') := deep_copy a h in h'' ← store out a' h'; Some (tt, h'').

(** ** What a struct stands for

    [denotes h a v]: in the memory [h] the struct [a] stands for the value [v], which has no
    references; [reach h a] are the cells that this depends on. *)
Class Denotation `{Packages} (A V : Type) := {
  denotes : heap -> A -> V -> Prop;
  reach : heap -> A -> gset loc;
}.

Definition agree_on `{Packages} (ls : gset loc) (h h' : heap) : Prop := forall l, l ∈ ls -> h' !! l = h !! l.

Class DenotationLaws `{Packages} (A V : Type) `{!Denotation A V} : Prop := {
  reach_dom h a v : denotes h a v -> reach h a ⊆ dom h;
  denotes_agree h h' a v :
    denotes h a v -> agree_on (reach h a) h h' -> denotes h' a v /\ reach h' a = reach h a;
}.

(** What a deep copy promises: an equal value in new memory. *)
Class CopierLaws `{Packages} (A V : Type) `{!Denotation A V} `{!DeepCopier A} : Prop :=
  deep_copy_new h a v : denotes h a v ->
    let '(a', h') := deep_copy a h in h ⊆ h' /\ denotes h' a' v /\ reach h' a' ## dom h.

(** ** Lemmas: pointers *)
Section pointers.
Context `{Packages}.

(** What is put can be got, and the last put wins. *)
Class Lens {A} (p : ptr A) : Prop := {
  put_get c a b : pt_get p c = Some a -> exists c', pt_put p b c = Some c' /\ pt_get p c' = Some b;
  put_put c b c' d : pt_put p b c = Some c' -> pt_put p d c' = pt_put p d c;
  put_there c b c' : pt_put p b c = Some c' -> is_Some (pt_get p c);
}.

#[global] Instance item_lens s i : Lens (item_at s i).
Proof.
  split.
  - intros [] a b; cbn [pt_get pt_put item_at]; try done. case_decide as Hi; [|done]. intros Ha.
    rewrite decide_True by (by split; [|eexists]). eexists. split; [done|]. cbn [pt_get item_at].
    apply list_lookup_insert_eq. by eapply lookup_lt_Some.
  - intros [] b c' d; cbn [pt_get pt_put item_at]; try done. case_decide as Hi; [|done]. intros [= <-].
    destruct Hi as [Hi Hs]. rewrite decide_True.
    + by rewrite list_insert_insert_eq.
    + split; [done|]. apply lookup_lt_is_Some. rewrite length_insert. by apply lookup_lt_is_Some.
  - intros [] b c'; cbn [pt_get pt_put item_at]; try done. case_decide as Hi; [|done].
    destruct Hi as [Hi Hs]. intros _. by rewrite ?decide_True by done.
Qed.

Lemma cell_lens {A} (get : cell -> option A) put l :
  (forall a, get (put a) = Some a) -> Lens (cell_at get put l).
Proof.
  intros Hget. split; simpl.
  - intros c a b ->. simpl. by eexists.
  - intros c b c' d. destruct (get c) eqn:E; [|done]. simpl. intros [= <-]. by rewrite Hget.
  - intros c b c'. by destruct (get c).
Qed.

Lemma field_lens {A B} (get : A -> B) put (p : ptr A) `{!Lens p} :
  (forall a b, get (put b a) = b) -> (forall a b d, put d (put b a) = put d a) -> Lens (field get put p).
Proof.
  intros Hget Hput. split; simpl.
  - intros c b d. destruct (pt_get p c) as [a|] eqn:E; [|done]. intros _. simpl.
    destruct (put_get c a (put d a) E) as (c' & Hp & Hg). exists c'. split; [done|].
    by rewrite Hg; simpl; rewrite Hget.
  - intros c b c' d. destruct (pt_get p c) as [a|] eqn:E; [|done]. simpl. intros Hc.
    destruct (put_get c a (put b a) E) as (c2 & Hc2 & Hg). assert (c2 = c') as -> by congruence.
    rewrite Hg. simpl. rewrite Hput. by eapply put_put.
  - intros c b c'. destruct (pt_get p c); [|done]. by eexists.
Qed.

(** The memory after a write of [a] to [p]; what did not exist before may be anything. *)
Record wrote {A} (p : ptr A) (a : A) (h h' : heap) : Prop := {
  wrote_cell : exists c c', h !! pt_base p = Some c /\ pt_put p a c = Some c' /\ h' !! pt_base p = Some c';
  wrote_other l : l ∈ dom h -> l <> pt_base p -> h' !! l = h !! l;
}.

Lemma wrote_dom {A} (p : ptr A) a h h' : wrote p a h h' -> dom h ⊆ dom h'.
Proof.
  intros [(c & c' & _ & _ & Hc) Ho] l Hl. apply elem_of_dom.
  destruct (decide (l = pt_base p)) as [->|Hne]; [by eexists|]. rewrite Ho by done. by apply elem_of_dom.
Qed.

Lemma wrote_load {A} (p : ptr A) `{!Lens p} a h h' : wrote p a h h' -> load p h' = Some a.
Proof.
  intros [(c & c' & _ & Hp & Hc) _]. unfold load. rewrite Hc. simpl.
  destruct (put_there c a c' Hp) as [b Hb]. destruct (put_get c b a Hb) as (c2 & ? & ?). congruence.
Qed.

Lemma wrote_base {A} (p : ptr A) a h h' : wrote p a h h' -> pt_base p ∈ dom h.
Proof. intros [(c & c' & Hc & _) _]. by eapply elem_of_dom_2. Qed.

Lemma wrote_trans {A} (p : ptr A) `{!Lens p} a b h h1 h2 :
  wrote p a h h1 -> wrote p b h1 h2 -> wrote p b h h2.
Proof.
  intros H1 H2. pose proof (wrote_dom _ _ _ _ H1) as Hd.
  destruct H1 as [(c & c' & Hc & Hp & Hc') Ho1], H2 as [(d & d' & Hdc & Hq & Hd') Ho2]. split.
  - exists c, d'. split_and!; [done| |done]. simplify_eq. by rewrite <- (put_put c a c' b Hp).
  - intros l Hl Hne. by rewrite Ho2, Ho1 by auto.
Qed.

Lemma wrote_field {A B} (get : A -> B) put (p : ptr A) a b h h' :
  load p h = Some a -> wrote (field get put p) b h h' -> wrote p (put b a) h h'.
Proof.
  unfold load. intros Hl [(c & c' & Hc & Hp & Hc') Ho]. simpl in *. split; [|done].
  rewrite Hc in Hl. simpl in Hl. rewrite Hl in Hp. by exists c, c'.
Qed.

Lemma wrote_alloc {A} (p : ptr A) a h h' l c :
  wrote p a h h' -> l ∉ dom h' -> wrote p a h (<[l := c]> h').
Proof.
  intros Hw Hl. pose proof (wrote_dom _ _ _ _ Hw) as Hd. pose proof (wrote_base _ _ _ _ Hw) as Hb.
  destruct Hw as [(d & d' & Hc & Hp & Hc') Ho]. split.
  - exists d, d'. split_and!; [done..|]. rewrite lookup_insert_ne; [done|]. intros ->. auto.
  - intros l' Hl' Hne. rewrite lookup_insert_ne; [by apply Ho|]. intros ->. auto.
Qed.

Lemma store_wrote {A} (p : ptr A) `{!Lens p} a b h :
  load p h = Some b -> exists h', store p a h = Some h' /\ wrote p a h h' /\ dom h' = dom h.
Proof.
  unfold load, store. destruct (h !! pt_base p) as [c|] eqn:Hc; [|done]. simpl. intros Hg.
  destruct (put_get c b a Hg) as (c' & Hp & _). rewrite Hp. simpl. eexists. split; [done|].
  split; [split|].
  - exists c, c'. by rewrite lookup_insert_eq.
  - intros l _ Hne. by rewrite lookup_insert_ne.
  - apply dom_insert_lookup_L. by eexists.
Qed.

Lemma load_dom {A} (p : ptr A) a h : load p h = Some a -> pt_base p ∈ dom h.
Proof. unfold load. intros (c & Hc & _)%bind_Some. by eapply elem_of_dom_2. Qed.

Lemma load_field {A B} (get : A -> B) put (p : ptr A) a h :
  load p h = Some a -> load (field get put p) h = Some (get a).
Proof. unfold load. simpl. destruct (h !! pt_base p); simpl; [|done]. by intros ->. Qed.

Lemma wrote_load_other {A B} (p : ptr A) (q : ptr B) a b h h' :
  wrote p a h h' -> pt_base q <> pt_base p -> load q h = Some b -> load q h' = Some b.
Proof.
  intros Hw Hne Hq. pose proof (load_dom _ _ _ Hq) as Hd. unfold load in *.
  by rewrite (wrote_other _ _ _ _ Hw) by done.
Qed.

(** What does not depend on the cell that was written is as before. *)
Lemma wrote_denotes {A B V} `{!Denotation B V} `{!DenotationLaws B V} (p : ptr A) a (b : B) v h h' :
  wrote p a h h' -> denotes h b v -> pt_base p ∉ reach h b -> denotes h' b v /\ reach h' b = reach h b.
Proof.
  intros Hw Hd Hp. apply denotes_agree; [done|]. intros l Hl.
  apply (wrote_other _ _ _ _ Hw); [by eapply reach_dom|]. by intros ->.
Qed.
End pointers.

(** ** Lemmas: agreement *)
Section agreement.
Context `{Packages}.

Lemma agree_union ls1 ls2 h h' : agree_on (ls1 ∪ ls2) h h' -> agree_on ls1 h h' /\ agree_on ls2 h h'.
Proof. intros Ha. split; intros l Hl; apply Ha; set_solver. Qed.

Lemma load_agree {A} (p : ptr A) h h' : agree_on {[pt_base p]} h h' -> load p h' = load p h.
Proof. intros Ha. unfold load. by rewrite Ha by set_solver. Qed.

End agreement.
