(* ===== verification/DeepCopy.v ===== *)
(** * The deep copies of the agent's objects (api/v1/zz_generated.deepcopy.go)

    Objects that are read from a cache are shared, so whoever changes one has to change a copy.
    The generated methods make these copies.  What matters is aliasing, so here the memory of the
    program is explicit: pointers, interior pointers to fields and to elements of slices, and the
    references inside of the structs of other packages. *)
From S2P Require Import Prelude GoStd Kube Memory.

(** ** The generated methods *)
Section methods.
Context `{Packages} `{!DeepCopier ObjectMeta} `{!DeepCopier ListMeta} `{!DeepCopier UsageProfileSpec_}.

Definition ZoneUsageProfileStatus_DeepCopyInto (inp out : ptr StatusStruct) : mem unit := assign out inp.

Definition ZoneUsageProfileStatus_DeepCopy (inp : option (ptr StatusStruct))
    : mem (option (ptr StatusStruct)) :=
  match inp with
  | None => mret None
  | Some inp =>
      l ← alloc (StatusCell status_zero);
      _ ← ZoneUsageProfileStatus_DeepCopyInto inp (status_at l);
      mret (Some (status_at l))
  end.

Definition ZoneUsageProfileSpec_DeepCopyInto (inp out : ptr SpecStruct) : mem unit :=
  _ ← assign out inp;
  copy_into (field s_UpstreamSpec set_UpstreamSpec inp) (field s_UpstreamSpec set_UpstreamSpec out).

Definition ZoneUsageProfileSpec_DeepCopy (inp : option (ptr SpecStruct)) : mem (option (ptr SpecStruct)) :=
  match inp with
  | None => mret None
  | Some inp =>
      l ← alloc (SpecCell spec_zero);
      _ ← ZoneUsageProfileSpec_DeepCopyInto inp (spec_at l);
      mret (Some (spec_at l))
  end.

Definition ZoneUsageProfile_DeepCopyInto (inp out : ptr ProfileStruct) : mem unit :=
  _ ← assign out inp;
  _ ← assign (field p_TypeMeta set_TypeMeta out) (field p_TypeMeta set_TypeMeta inp);
  _ ← copy_into (field p_ObjectMeta set_ObjectMeta inp) (field p_ObjectMeta set_ObjectMeta out);
  _ ← ZoneUsageProfileSpec_DeepCopyInto (field p_Spec set_Spec inp) (field p_Spec set_Spec out);
  assign (field p_Status set_Status out) (field p_Status set_Status inp).

Definition ZoneUsageProfile_DeepCopy (inp : option (ptr ProfileStruct)) : mem (option (ptr ProfileStruct)) :=
  match inp with
  | None => mret None
  | Some inp =>
      l ← alloc (ProfileCell profile_zero);
      _ ← ZoneUsageProfile_DeepCopyInto inp (profile_at l);
      mret (Some (profile_at l))
  end.

(** An element of a slice that is a variable; [None] for a nil slice. *)
Definition element (p : ptr (option slice)) (i : nat) : mem (ptr ProfileStruct) := fun h =>
  s ← load p h; s ← s; Some (item_at s i, h).

(** The loop over the items. *)
Fixpoint copy_items (inp out : ptr (option slice)) (indices : list nat) : mem unit :=
  match indices with
  | [] => mret tt
  | i :: indices =>
      x ← element inp i;
      y ← element out i;
      _ ← ZoneUsageProfile_DeepCopyInto x y;
      copy_items inp out indices
  end.

Definition ZoneUsageProfileList_DeepCopyInto (inp out : ptr ListStruct) : mem unit :=
  _ ← assign out inp;
  _ ← assign (field l_TypeMeta set_list_TypeMeta out) (field l_TypeMeta set_list_TypeMeta inp);
  _ ← copy_into (field l_ListMeta set_ListMeta inp) (field l_ListMeta set_ListMeta out);
  let inp := field l_Items set_Items inp in
  let out := field l_Items set_Items out in
  items ← read inp;
  match items with
  | None => mret tt
  | Some s =>
      s' ← make_items (sl_len s);
      _ ← write out (Some s');
      copy_items inp out (seq 0 (sl_len s))
  end.

Definition ZoneUsageProfileList_DeepCopy (inp : option (ptr ListStruct)) : mem (option (ptr ListStruct)) :=
  match inp with
  | None => mret None
  | Some inp =>
      l ← alloc (ListCell list_zero);
      _ ← ZoneUsageProfileList_DeepCopyInto inp (list_at l);
      mret (Some (list_at l))
  end.

(** The values of the interface [runtime.Object]; nil is [None]. *)
Inductive Object := ProfileObject (p : ptr ProfileStruct) | ListObject (p : ptr ListStruct).

Definition ZoneUsageProfile_DeepCopyObject (inp : option (ptr ProfileStruct)) : mem (option Object) :=
  c ← ZoneUsageProfile_DeepCopy inp; mret (ProfileObject <$> c).

Definition ZoneUsageProfileList_DeepCopyObject (inp : option (ptr ListStruct)) : mem (option Object) :=
  c ← ZoneUsageProfileList_DeepCopy inp; mret (ListObject <$> c).
End methods.

(** ** What the structs of the package stand for *)
Section denotations.
Context `{Packages} {VM VL VU : Type}.
Context `{!Denotation ObjectMeta VM} `{!Denotation ListMeta VL} `{!Denotation UsageProfileSpec_ VU}.

#[global] Instance spec_denotation : Denotation SpecStruct VU := {
  denotes h s v := denotes h (s_UpstreamSpec s) v;
  reach h s := reach h (s_UpstreamSpec s);
}.

#[global] Instance profile_denotation : Denotation ProfileStruct (TypeMeta * VM * VU) := {
  denotes h p v := p_TypeMeta p = v.1.1 /\ denotes h (p_ObjectMeta p) v.1.2 /\ denotes h (p_Spec p) v.2;
  reach h p := reach h (p_ObjectMeta p) ∪ reach h (p_Spec p);
}.

(** The elements of a slice. *)
Definition elements_of (h : heap) (s : slice) : list ProfileStruct :=
  match h !! sl_array s with
  | Some (ArrayCell items) => take (sl_len s) (drop (sl_offset s) items)
  | _ => []
  end.

#[global] Instance slice_denotation : Denotation (option slice) (option (list (TypeMeta * VM * VU))) := {
  denotes h s v :=
    match s, v with
    | None, None => True
    | Some s, Some vs =>
        length (elements_of h s) = sl_len s /\ is_Some (h !! sl_array s) /\
        Forall2 (denotes h) (elements_of h s) vs
    | _, _ => False
    end;
  reach h s :=
    match s with
    | None => ∅
    | Some s => {[sl_array s]} ∪ ⋃ (reach h <$> elements_of h s)
    end;
}.

#[global] Instance list_denotation
    : Denotation ListStruct (TypeMeta * VL * option (list (TypeMeta * VM * VU))) := {
  denotes h l v := l_TypeMeta l = v.1.1 /\ denotes h (l_ListMeta l) v.1.2 /\ denotes h (l_Items l) v.2;
  reach h l := reach h (l_ListMeta l) ∪ reach h (l_Items l);
}.

(** A pointer stands for what it points to. *)
#[global] Instance ptr_denotation `{!Denotation A V} : Denotation (ptr A) V := {
  denotes h p v := exists a, load p h = Some a /\ denotes h a v;
  reach h p := {[pt_base p]} ∪ match load p h with Some a => reach h a | None => ∅ end;
}.
End denotations.

(** ** Lemmas: values *)
Section values.
Context `{Packages} {VM VL VU : Type}.
Context `{!Denotation ObjectMeta VM} `{!Denotation ListMeta VL} `{!Denotation UsageProfileSpec_ VU}.
Context `{!DenotationLaws ObjectMeta VM} `{!DenotationLaws ListMeta VL}.
Context `{!DenotationLaws UsageProfileSpec_ VU}.

Lemma elements_agree h h' s ls :
  agree_on ({[sl_array s]} ∪ ls) h h' -> elements_of h' s = elements_of h s.
Proof. intros Ha. unfold elements_of. by rewrite Ha by set_solver. Qed.

#[global] Instance spec_laws : DenotationLaws SpecStruct VU.
Proof.
  split; [intros h s v Hd; exact (reach_dom h (s_UpstreamSpec s) v Hd)|].
  intros h h' s v Hd Ha. exact (denotes_agree h h' (s_UpstreamSpec s) v Hd Ha).
Qed.

#[global] Instance profile_laws : DenotationLaws ProfileStruct (TypeMeta * VM * VU).
Proof.
  split.
  - intros h p v (_ & Hm%reach_dom & Hs%reach_dom). cbn [reach profile_denotation]. set_solver.
  - intros h h' p v (Ht & Hm & Hs) [Am As]%agree_union. cbn [reach denotes profile_denotation].
    destruct (denotes_agree _ _ _ _ Hm Am) as [? ->], (denotes_agree _ _ _ _ Hs As) as [? ->]. done.
Qed.

Lemma union_reach h h' (l : list ProfileStruct) vs :
  Forall2 (denotes h) l vs -> agree_on (⋃ (reach h <$> l)) h h' ->
  Forall2 (denotes h') l vs /\ reach h' <$> l = reach h <$> l.
Proof.
  induction 1 as [|p v l vs Hp _ IH]; [done|]. rewrite !fmap_cons. intros [Ap Al]%agree_union.
  destruct (IH Al) as [Hl Hr], (denotes_agree _ _ _ _ Hp Ap) as [? Hr'].
  split; [by constructor|]. by f_equal.
Qed.

Lemma union_reach_dom h (l : list ProfileStruct) vs :
  Forall2 (denotes h) l vs -> ⋃ (reach h <$> l) ⊆ dom h.
Proof.
  induction 1 as [|p v l vs Hp%reach_dom _ IH]; [set_solver|]. rewrite fmap_cons. cbn [union_list foldr].
  set_solver.
Qed.

#[global] Instance slice_laws : DenotationLaws (option slice) (option (list (TypeMeta * VM * VU))).
Proof.
  split.
  - intros h [s|] [vs|]; simpl; try done. intros (_ & Ha%elem_of_dom & Hd%union_reach_dom). set_solver.
  - intros h h' [s|] [vs|]; cbn [reach denotes slice_denotation]; try done. intros (Hlen & Ha & Hd) Hag.
    rewrite (elements_agree _ _ _ _ Hag). apply agree_union in Hag as [A1 A2].
    destruct (union_reach _ _ _ _ Hd A2) as [? Hr]. rewrite Hr, (A1 (sl_array s)) by set_solver. done.
Qed.

#[global] Instance list_laws :
  DenotationLaws ListStruct (TypeMeta * VL * option (list (TypeMeta * VM * VU))).
Proof.
  split.
  - intros h p v (_ & Hm%reach_dom & Hs%reach_dom). cbn [reach list_denotation]. set_solver.
  - intros h h' p v (Ht & Hm & Hs) [Am As]%agree_union. cbn [reach denotes list_denotation].
    destruct (denotes_agree _ _ _ _ Hm Am) as [? ->], (denotes_agree _ _ _ _ Hs As) as [? ->]. done.
Qed.

#[global] Instance ptr_laws `{!Denotation A V} `{!DenotationLaws A V} : DenotationLaws (ptr A) V.
Proof.
  split.
  - intros h p v (a & Hl & Hd%reach_dom). cbn [reach ptr_denotation]. rewrite Hl.
    apply load_dom in Hl. set_solver.
  - intros h h' p v (a & Hl & Hd) [A1 A2]%agree_union. rewrite Hl in A2.
    cbn [reach denotes ptr_denotation]. rewrite (load_agree _ _ _ A1), Hl.
    destruct (denotes_agree _ _ _ _ Hd A2) as [? ->]. eauto.
Qed.
End values.

(** ** Lemmas: copies *)
Section copies.
Context `{Packages} {VM VL VU : Type}.
Context `{!Denotation ObjectMeta VM} `{!Denotation ListMeta VL} `{!Denotation UsageProfileSpec_ VU}.
Context `{!DenotationLaws ObjectMeta VM} `{!DenotationLaws ListMeta VL}.
Context `{!DenotationLaws UsageProfileSpec_ VU}.
Context `{!DeepCopier ObjectMeta} `{!DeepCopier ListMeta} `{!DeepCopier UsageProfileSpec_}.
Context `{!CopierLaws ObjectMeta VM} `{!CopierLaws ListMeta VL} `{!CopierLaws UsageProfileSpec_ VU}.

(** The program makes, in new memory, a copy of what the value [v] is, and writes it to [out]. *)
Definition copies_to {A V} `{!Denotation A V} (m : mem unit) (out : ptr A) (v : V) (h : heap) : Prop :=
  exists a' h', m h = Some (tt, h') /\ wrote out a' h h' /\ denotes h' a' v /\ reach h' a' ## dom h.

(** The two pointers of a copy: different cells, and the target is not a part of the source. *)
Record apart {A V} `{!Denotation A V} (inp out : ptr A) (a b : A) (v : V) (h : heap) : Prop := {
  apart_in : load inp h = Some a;
  apart_denotes : denotes h a v;
  apart_out : load out h = Some b;
  apart_base : pt_base inp <> pt_base out;
  apart_reach : pt_base out ∉ reach h a;
}.

Lemma mem_run {A B} (m : mem A) (f : A -> mem B) h a h' : m h = Some (a, h') -> (m ≫= f) h = f a h'.
Proof. intros E. unfold mbind, mem_bind. by rewrite E. Qed.

Lemma assign_run {A} (inp out : ptr A) `{!Lens out} a b h :
  load inp h = Some a -> load out h = Some b ->
  exists h', assign out inp h = Some (tt, h') /\ wrote out a h h' /\ dom h' = dom h.
Proof.
  intros Hi Ho. destruct (store_wrote out a b h Ho) as (h' & Hs & Hw & Hd). exists h'. split; [|done].
  unfold assign. rewrite (mem_run _ _ _ a h); unfold read, write; rewrite ?Hi, ?Hs; done.
Qed.

Lemma wrote_weaken {A} (p : ptr A) a h h1 h2 :
  h ⊆ h1 -> pt_base p ∈ dom h -> wrote p a h1 h2 -> wrote p a h h2.
Proof.
  intros Hsub [c0 Hc0]%elem_of_dom [(c & c' & Hc & Hp & Hc') Ho]. pose proof (lookup_weaken _ _ _ _ Hc0 Hsub). split.
  - exists c, c'. split_and!; [congruence|done..].
  - intros l [d Hl]%elem_of_dom Hne. pose proof (lookup_weaken _ _ _ _ Hl Hsub) as Hl1.
    rewrite Ho; [congruence|by eapply elem_of_dom_2|done].
Qed.

Lemma load_weaken {A} (p : ptr A) a h h' : h ⊆ h' -> load p h = Some a -> load p h' = Some a.
Proof.
  unfold load. intros Hs (c & Hc & Hg)%bind_Some. by rewrite (lookup_weaken _ _ _ _ Hc Hs).
Qed.

Lemma copy_into_copies {A V} `{!Denotation A V} `{!DenotationLaws A V} `{!DeepCopier A} `{!CopierLaws A V}
    (inp out : ptr A) `{!Lens out} a b v h :
  apart inp out a b v h -> copies_to (copy_into inp out) out v h.
Proof.
  intros [Hi Hd Ho Hb Hr]. unfold copies_to, copy_into. rewrite Hi. simpl.
  pose proof (deep_copy_new h a v Hd) as Hn. destruct (deep_copy a h) as [a' h1].
  destruct Hn as (Hsub & Hd' & Hnew). pose proof (load_weaken out b h h1 Hsub Ho) as Ho1.
  destruct (store_wrote out a' b h1 Ho1) as (h2 & Hs & Hw & _). exists a', h2. rewrite Hs.
  pose proof (load_dom _ _ _ Ho) as Hbase.
  destruct (wrote_denotes out a' a' v h1 h2 Hw Hd') as [? ->]; [set_solver|].
  split_and!; [done|by eapply wrote_weaken|done|done].
Qed.

(** After a write to the target the source is as before. *)
Lemma apart_wrote {A V} `{!Denotation A V} `{!DenotationLaws A V} (inp out : ptr A) `{!Lens out} a b c v h h' :
  apart inp out a b v h -> wrote out c h h' -> apart inp out a c v h'.
Proof.
  intros [Hi Hd Ho Hb Hr] Hw. destruct (wrote_denotes out c a v h h' Hw Hd Hr) as [? Hr'].
  split; [by eapply wrote_load_other|done|by eapply wrote_load|done|by rewrite Hr'].
Qed.

(** A field is copied while the rest of the target stays as it is. *)
Lemma field_copies {A B V} `{!Denotation B V} (get : A -> B) put (m : mem unit) (out : ptr A) `{!Lens out} c v h :
  load out h = Some c -> copies_to m (field get put out) v h ->
  exists b' h', m h = Some (tt, h') /\ wrote out (put b' c) h h' /\ denotes h' b' v /\ reach h' b' ## dom h.
Proof.
  intros Ho (b' & h' & Hm & Hw & Hd & Hr). exists b', h'. split_and!; [done| |done..].
  by eapply wrote_field.
Qed.

#[local] Instance spec_field_lens (p : ptr SpecStruct) `{!Lens p} : Lens (field s_UpstreamSpec set_UpstreamSpec p).
Proof. by apply field_lens. Qed.

Lemma spec_copies (inp out : ptr SpecStruct) `{!Lens out} a b v h :
  apart inp out a b v h -> copies_to (ZoneUsageProfileSpec_DeepCopyInto inp out) out v h.
Proof.
  intros Ha. destruct (assign_run inp out a b h) as (h1 & Hs & Hw & Hdom); [by destruct Ha..|].
  pose proof (apart_wrote _ _ _ _ _ _ _ _ Ha Hw) as Ha1.
  destruct (field_copies s_UpstreamSpec set_UpstreamSpec
    (copy_into (field s_UpstreamSpec set_UpstreamSpec inp) (field s_UpstreamSpec set_UpstreamSpec out))
    out a v h1) as (u' & h2 & Hm & Hw2 & Hd2 & Hr2); [by destruct Ha1| |].
  { apply (copy_into_copies _ _ (s_UpstreamSpec a) (s_UpstreamSpec a)). destruct Ha1 as [Hi Hd Ho Hb Hr].
    split; [by apply load_field|exact Hd|by apply load_field|exact Hb|exact Hr]. }
  exists (set_UpstreamSpec u' a), h2. split_and!.
  - unfold ZoneUsageProfileSpec_DeepCopyInto. by rewrite (mem_run _ _ _ _ _ Hs).
  - by eapply wrote_trans.
  - exact Hd2.
  - by rewrite Hdom in Hr2.
Qed.

Lemma profile_field_lenses (p : ptr ProfileStruct) `{!Lens p} :
  Lens (field p_TypeMeta set_TypeMeta p) /\ Lens (field p_ObjectMeta set_ObjectMeta p) /\
  Lens (field p_Spec set_Spec p) /\ Lens (field p_Status set_Status p).
Proof. split_and!; by apply field_lens. Qed.

(** An assignment of a field that has the value already. *)
Lemma assign_field {A B} (get : A -> B) put (inp out : ptr A) `{!Lens out} `{!Lens (field get put out)} a b h :
  load inp h = Some a -> load out h = Some b -> put (get a) b = b ->
  exists h', assign (field get put out) (field get put inp) h = Some (tt, h') /\
    wrote out b h h' /\ dom h' = dom h.
Proof.
  intros Hi Ho Hput.
  destruct (assign_run (field get put inp) (field get put out) (get a) (get b) h) as (h' & Hs & Hw & Hd);
    [by apply load_field..|]. exists h'. split_and!; [done| |done].
  apply (wrote_field _ _ _ b) in Hw; [|done]. by rewrite Hput in Hw.
Qed.

Lemma profile_copies (inp out : ptr ProfileStruct) `{!Lens out} a b v h :
  apart inp out a b v h -> copies_to (ZoneUsageProfile_DeepCopyInto inp out) out v h.
Proof.
  intros Ha. destruct (profile_field_lenses out) as (L1 & L2 & L3 & L4).
  destruct (assign_run inp out a b h) as (h1 & Hs1 & Hw1 & Hdom1); [by destruct Ha..|].
  pose proof (apart_wrote _ _ _ _ _ _ _ _ Ha Hw1) as Ha1. destruct Ha1 as [Hi1 Hd1 Ho1 Hb Hr1] eqn:E1. clear E1.
  (* the type *)
  destruct (assign_field p_TypeMeta set_TypeMeta inp out a a h1) as (h2 & Hs2 & Hw2 & Hdom2); [done..|by destruct a|].
  pose proof (apart_wrote _ _ _ _ _ _ _ _ Ha1 Hw2) as Ha2.
  (* the metadata *)
  destruct (field_copies p_ObjectMeta set_ObjectMeta
    (copy_into (field p_ObjectMeta set_ObjectMeta inp) (field p_ObjectMeta set_ObjectMeta out))
    out a v.1.2 h2) as (m & h3 & Hs3 & Hw3 & Hdm3 & Hrm3); [by destruct Ha2| |].
  { apply (copy_into_copies _ _ (p_ObjectMeta a) (p_ObjectMeta a)).
    destruct Ha2 as [Hi2 Hd2 Ho2 _ Hr2]. destruct Hd2 as (_ & Hm & _). cbn [reach profile_denotation] in Hr2.
    split; [by apply load_field|exact Hm|by apply load_field|exact Hb|set_solver]. }
  pose proof (apart_wrote _ _ _ _ _ _ _ _ Ha2 Hw3) as Ha3.
  (* the spec *)
  destruct (field_copies p_Spec set_Spec
    (ZoneUsageProfileSpec_DeepCopyInto (field p_Spec set_Spec inp) (field p_Spec set_Spec out))
    out (set_ObjectMeta m a) v.2 h3) as (s & h4 & Hs4 & Hw4 & Hds4 & Hrs4); [by destruct Ha3| |].
  { apply (spec_copies _ _ (p_Spec a) (p_Spec a)).
    destruct Ha3 as [Hi3 Hd3 Ho3 _ Hr3]. destruct Hd3 as (_ & _ & Hs). cbn [reach profile_denotation] in Hr3.
    split; [by apply load_field|exact Hs|by apply (load_field p_Spec set_Spec) in Ho3|exact Hb|set_solver]. }
  pose proof (apart_wrote _ _ _ _ _ _ _ _ Ha3 Hw4) as Ha4.
  (* the status *)
  destruct (assign_field p_Status set_Status inp out a (set_Spec s (set_ObjectMeta m a)) h4)
    as (h5 & Hs5 & Hw5 & Hdom5); [by destruct Ha4..|done|].
  (* together *)
  pose proof (wrote_trans _ _ _ _ _ _ Hw4 Hw5) as Hw45.
  pose proof (wrote_trans _ _ _ _ _ _ Hw3 Hw45) as Hw35.
  pose proof (wrote_trans _ _ _ _ _ _ (wrote_trans _ _ _ _ _ _ Hw1 Hw2) Hw35) as Hw.
  rewrite Hdom2, Hdom1 in Hrm3.
  assert (Hsub : dom h ⊆ dom h3) by (rewrite <- Hdom1, <- Hdom2; by eapply wrote_dom).
  assert (Hbase : pt_base out ∈ dom h) by (by eapply wrote_base).
  destruct (wrote_denotes out _ m v.1.2 h3 h5 Hw45 Hdm3) as [Hdm Hrm]; [set_solver|].
  destruct (wrote_denotes out _ s v.2 h4 h5 Hw5 Hds4) as [Hds Hrs]; [set_solver|].
  exists (set_Spec s (set_ObjectMeta m a)), h5. split_and!.
  - unfold ZoneUsageProfile_DeepCopyInto.
    by rewrite (mem_run _ _ _ _ _ Hs1), (mem_run _ _ _ _ _ Hs2), (mem_run _ _ _ _ _ Hs3), (mem_run _ _ _ _ _ Hs4).
  - exact Hw.
  - split_and!; [apply Hd1|exact Hdm|exact Hds].
  - change (reach h5 m ∪ reach h5 s ## dom h). rewrite Hrm, Hrs. set_solver.
Qed.

Lemma load_item h s i p : elements_of h s !! i = Some p <-> load (item_at s i) h = Some p.
Proof.
  unfold elements_of, load. cbn [pt_base pt_get item_at].
  destruct (h !! sl_array s) as [[| | | |items|]|]; simpl; try (by rewrite lookup_nil).
  case_decide as Hi; [|split; [|done]; intros Hp%lookup_lt_Some; rewrite length_take in Hp; lia].
  by rewrite lookup_take_lt, lookup_drop by done.
Qed.

(** *** The loop *)
Section loop.
Context (inp out : ptr (option slice)) (s s' : slice) (h0 : heap) (vs : list (TypeMeta * VM * VU)).
Abbreviation n := (sl_len s).
Context (Hinp : load inp h0 = Some (Some s)) (Hout : load out h0 = Some (Some s')).
Context (Hnew : sl_offset s' = 0 /\ sl_len s' = n) (Harrays : sl_array s <> sl_array s').
Context (Hbases : pt_base inp <> sl_array s' /\ pt_base out <> sl_array s').
Context (Helems : length (elements_of h0 s) = n) (Hvalues : Forall2 (denotes h0) (elements_of h0 s) vs).
Context (Hreach : sl_array s' ∉ ⋃ (reach h0 <$> elements_of h0 s)).

(** After [k] iterations. *)
Record progress (k : nat) (h : heap) : Prop := {
  progress_old l : l ∈ dom h0 -> l <> sl_array s' -> h !! l = h0 !! l;
  progress_items : exists items, h !! sl_array s' = Some (ArrayCell items) /\ length items = n /\
    forall j, j < k -> exists q v, items !! j = Some q /\ vs !! j = Some v /\ denotes h q v /\ reach h q ## dom h0;
}.

Context (Harray : exists items, h0 !! sl_array s' = Some (ArrayCell items) /\ length items = n).

Lemma progress_dom k h : progress k h -> dom h0 ⊆ dom h.
Proof using Type.
  intros [Ho (items & Hi & _)] l Hl. destruct (decide (l = sl_array s')) as [->|Hne]; [by eapply elem_of_dom_2|].
  apply elem_of_dom. rewrite Ho by done. by apply elem_of_dom.
Qed.

Lemma progress_load {A} (p : ptr A) a k h :
  progress k h -> pt_base p <> sl_array s' -> load p h0 = Some a -> load p h = Some a.
Proof using Type.
  intros Hp Hne Hl. rewrite <- Hl. apply load_agree. intros l ->%elem_of_singleton.
  apply (progress_old _ _ Hp); [by eapply load_dom|done].
Qed.

(** The next element and its place. *)
Lemma progress_apart k h : progress k h -> k < n ->
  exists p q v, vs !! k = Some v /\ apart (item_at s k) (item_at s' k) p q v h.
Proof using All.
  intros Hp Hk. destruct (lookup_lt_is_Some_2 (elements_of h0 s) k) as [p Hpk]; [by rewrite Helems|].
  destruct (Forall2_lookup_l _ _ _ _ _ Hvalues Hpk) as (v & Hv & Hd).
  destruct (progress_items _ _ Hp) as (items & Hi & Hlen & _).
  destruct (lookup_lt_is_Some_2 items k) as [q Hq]; [by rewrite Hlen|].
  assert (Hr : sl_array s' ∉ reach h0 p).
  { intros Hin. apply Hreach, elem_of_union_list. exists (reach h0 p). split; [|done].
    apply list_elem_of_fmap. exists p. split; [done|]. by eapply list_elem_of_lookup_2. }
  destruct (denotes_agree h0 h p v Hd) as [Hd' Hr'].
  { intros l Hl. apply (progress_old _ _ Hp); [exact (reach_dom h0 p v Hd l Hl)|]. by intros ->. }
  exists p, q, v. split; [done|]. split.
  - eapply progress_load; [done|exact Harrays|by apply load_item].
  - exact Hd'.
  - apply load_item. unfold elements_of. rewrite Hi. destruct Hnew as [-> ->].
    by rewrite lookup_take_lt, lookup_drop by done.
  - exact Harrays.
  - by rewrite Hr'.
Qed.

Lemma progress_step k h : progress k h -> k < n ->
  exists h', ZoneUsageProfile_DeepCopyInto (item_at s k) (item_at s' k) h = Some (tt, h') /\ progress (S k) h'.
Proof using All.
  intros Hp Hk. destruct (progress_apart k h Hp Hk) as (p & q & v & Hv & Ha).
  destruct (profile_copies _ _ _ _ _ _ Ha) as (q' & h' & Hs & Hw & Hd & Hr).
  exists h'. split; [done|]. pose proof (progress_dom _ _ Hp) as Hdom.
  destruct (progress_items _ _ Hp) as (items & Hi & Hlen & Hdone). split.
  - intros l Hl Hne. rewrite (wrote_other _ _ _ _ Hw); [by apply (progress_old _ _ Hp)|by apply Hdom|done].
  - destruct (wrote_cell _ _ _ _ Hw) as (c & c' & Hc & Hput & Hc'). cbn [pt_base item_at] in Hc, Hc'.
    rewrite Hi in Hc. injection Hc as <-. cbn [pt_put item_at] in Hput. case_decide as Hin; [|done].
    injection Hput as <-. destruct Hnew as [Hoff _]. rewrite Hoff in *. cbn [Nat.add] in *.
    exists (<[k := q']> items). split_and!; [done|by rewrite length_insert|].
    intros j Hj. destruct (decide (j = k)) as [->|Hne].
    + exists q', v. rewrite list_lookup_insert_eq by lia. split_and!; [done..|]. set_solver.
    + destruct (Hdone j) as (qj & vj & Hqj & Hvj & Hdj & Hrj); [lia|].
      assert (Hnot : pt_base (item_at s' k) ∉ reach h qj).
      { intros Hbad. apply (Hrj (sl_array s')); [exact Hbad|]. destruct Harray as (i0 & Hi0 & _). by eapply elem_of_dom_2. }
      destruct (wrote_denotes _ _ qj vj h h' Hw Hdj Hnot) as [? Hrj'].
      exists qj, vj. rewrite list_lookup_insert_ne by done. rewrite Hrj'. done.
Qed.

Lemma copy_items_progress m k h : progress k h -> k + m = n ->
  exists h', copy_items inp out (seq k m) h = Some (tt, h') /\ progress n h'.
Proof using All.
  revert k h. induction m as [|m IH]; intros k h Hp Hk; simpl.
  { exists h. split; [done|]. by replace n with k by lia. }
  destruct (progress_step k h Hp) as (h1 & Hs & Hp1); [lia|]. destruct Hbases as [Hb1 Hb2].
  pose proof (progress_load _ _ _ _ Hp Hb1 Hinp) as Hi. pose proof (progress_load _ _ _ _ Hp Hb2 Hout) as Ho.
  rewrite (mem_run _ _ _ (item_at s k) h) by (unfold element; by rewrite Hi).
  rewrite (mem_run _ _ _ (item_at s' k) h) by (unfold element; by rewrite Ho).
  rewrite (mem_run _ _ _ _ _ Hs). apply IH; [done|lia].
Qed.

(** At the end the new slice stands for the elements. *)
Lemma progress_denotes h : progress n h ->
  denotes h (Some s') (Some vs) /\ reach h (Some s') ## dom h0 ∖ {[sl_array s']}.
Proof using All.
  intros [_ (items & Hi & Hlen & Hdone)]. destruct Hnew as [Hoff Hlen'].
  assert (Hel : elements_of h s' = items).
  { unfold elements_of. rewrite Hi, Hoff, Hlen', drop_0. apply take_ge. lia. }
  pose proof (Forall2_length _ _ _ Hvalues) as Hvs. cbn [denotes reach slice_denotation].
  rewrite Hel. split.
  - split_and!; [by rewrite Hlen'|by eexists|]. apply Forall2_same_length_lookup_2; [lia|].
    intros j q v Hq Hv. destruct (Hdone j) as (q' & v' & ? & ? & ? & _); [|by simplify_eq].
    apply lookup_lt_Some in Hq. lia.
  - assert (⋃ (reach h <$> items) ## dom h0); [|set_solver].
    intros l (X & (q & -> & [j Hq]%list_elem_of_lookup)%list_elem_of_fmap & Hl)%elem_of_union_list.
    destruct (Hdone j) as (q' & v' & ? & _ & _ & Hdis); [|simplify_eq; by apply Hdis].
    apply lookup_lt_Some in Hq. lia.
Qed.

Lemma copy_items_copied :
  exists h, copy_items inp out (seq 0 n) h0 = Some (tt, h) /\
    (forall l, l ∈ dom h0 -> l <> sl_array s' -> h !! l = h0 !! l) /\
    denotes h (Some s') (Some vs) /\ reach h (Some s') ## dom h0 ∖ {[sl_array s']}.
Proof using All.
  destruct (copy_items_progress n 0 h0) as (h & Hs & Hp); [|done|].
  { split; [done|]. destruct Harray as (items & Hi & Hlen). exists items. split_and!; [done..|lia]. }
  exists h. split; [done|]. split; [apply (progress_old _ _ Hp)|]. by apply progress_denotes.
Qed.
End loop.

(** *** Lists *)
Lemma apart_alloc {A V} `{!Denotation A V} `{!DenotationLaws A V} (inp out : ptr A) a b v h l c :
  apart inp out a b v h -> l ∉ dom h -> apart inp out a b v (<[l := c]> h).
Proof.
  intros [Hi Hd Ho Hb Hr] Hl. assert (Hsub : h ⊆ <[l := c]> h) by (by apply insert_subseteq, not_elem_of_dom).
  destruct (denotes_agree h (<[l := c]> h) a v Hd) as [? Hr'].
  { intros l' Hl'. rewrite lookup_insert_ne; [done|]. intros <-. by apply Hl, (reach_dom h a v Hd). }
  split; [by eapply load_weaken|done|by eapply load_weaken|done|by rewrite Hr'].
Qed.

Lemma wrote_elsewhere {A} (p : ptr A) a h h1 h2 l' :
  wrote p a h h1 -> l' ∉ dom h -> (forall l, l ∈ dom h1 -> l <> l' -> h2 !! l = h1 !! l) -> wrote p a h h2.
Proof.
  intros Hw Hl' H12. pose proof (wrote_dom _ _ _ _ Hw) as Hd. pose proof (wrote_base _ _ _ _ Hw) as Hb.
  assert (pt_base p <> l') by (by intros <-). destruct Hw as [(c & c' & Hc & Hp & Hc') Ho]. split.
  - exists c, c'. split_and!; [done..|]. rewrite H12; [done|by eapply elem_of_dom_2|done].
  - intros l Hl Hne. rewrite H12; [by apply Ho|by apply Hd|by intros ->].
Qed.

Lemma list_field_lenses (p : ptr ListStruct) `{!Lens p} :
  Lens (field l_TypeMeta set_list_TypeMeta p) /\ Lens (field l_ListMeta set_ListMeta p) /\
  Lens (field l_Items set_Items p).
Proof. split_and!; by apply field_lens. Qed.

Abbreviation list_value := (TypeMeta * VL * option (list (TypeMeta * VM * VU)))%type.

(** The items of a list, when the rest has been copied. *)
Lemma items_copied (inp out : ptr ListStruct) `{!Lens out} a b (v : list_value) s h :
  apart inp out a b v h -> l_Items a = Some s ->
  exists s' h', (s' ← make_items (sl_len s); _ ← write (field l_Items set_Items out) (Some s');
      copy_items (field l_Items set_Items inp) (field l_Items set_Items out) (seq 0 (sl_len s))) h
    = Some (tt, h') /\
    wrote out (set_Items (Some s') b) h h' /\ denotes h' (Some s') v.2 /\ reach h' (Some s') ## dom h.
Proof.
  intros Ha Hs. destruct (list_field_lenses out) as (_ & _ & L3).
  set (l' := fresh (dom h)). assert (Hl' : l' ∉ dom h) by apply is_fresh.
  set (s' := {| sl_array := l'; sl_offset := 0; sl_len := sl_len s |}).
  set (h1 := <[l' := ArrayCell (replicate (sl_len s) profile_zero)]> h).
  pose proof (apart_alloc _ _ _ _ _ _ l' (ArrayCell (replicate (sl_len s) profile_zero)) Ha Hl') as Ha1. fold h1 in Ha1.
  destruct (store_wrote (field l_Items set_Items out) (Some s') (l_Items b) h1) as (h2 & Hst & Hw & Hdom2);
    [by apply load_field, Ha1|].
  apply (wrote_field _ _ _ b) in Hw; [|apply Ha1]. pose proof (apart_wrote _ _ _ _ _ _ _ _ Ha1 Hw) as Ha2.
  assert (Hdoms : dom h2 = {[l']} ∪ dom h) by (by rewrite Hdom2; unfold h1; rewrite dom_insert_L).
  pose proof (load_dom _ _ _ (apart_in _ _ _ _ _ _ Ha)) as Hbi.
  pose proof (load_dom _ _ _ (apart_out _ _ _ _ _ _ Ha)) as Hbo.
  destruct Ha as [_ (_ & _ & Hd) _ _ Hr], Ha2 as [Hi2 (_ & _ & Hd2) Ho2 _ _]. rewrite Hs in Hd, Hd2.
  cbn [reach list_denotation] in Hr. rewrite Hs in Hr.
  destruct v as [tv [vs|]]; [|done]. cbn [snd] in *. pose proof (reach_dom _ _ _ Hd) as Hrd.
  assert (Hreq : reach h2 (Some s) = reach h (Some s)).
  { apply (denotes_agree _ h2) in Hd as [_ ->]; [done|]. intros l Hl.
    rewrite (wrote_other _ _ _ _ Hw); [unfold h1; rewrite lookup_insert_ne; [done|]| |].
    - intros <-. by apply Hl', Hrd.
    - unfold h1. rewrite dom_insert_L. set_solver.
    - intros ->. apply Hr, elem_of_union_r, Hl. }
  assert (Hnot : l' ∉ reach h2 (Some s)) by (rewrite Hreq; intros Hbad; by apply Hl', Hrd).
  cbn [reach slice_denotation] in Hnot. apply not_elem_of_union in Hnot as [Harr Hnot].
  apply not_elem_of_singleton in Harr. destruct Hd2 as (Hlen & _ & Hvs).
  assert (Harray : h2 !! l' = Some (ArrayCell (replicate (sl_len s) profile_zero))).
  { rewrite (wrote_other _ _ _ _ Hw); [apply lookup_insert_eq|unfold h1; rewrite dom_insert_L; set_solver|].
    intros Heq. by rewrite <- Heq in Hbo. }
  destruct (copy_items_copied (field l_Items set_Items inp) (field l_Items set_Items out) s s' h2 vs)
    as (h3 & Hrun & Hold & Hden & Hdis); try done.
  { rewrite <- Hs. by apply load_field. }
  { change (Some s') with (l_Items (set_Items (Some s') b)). by apply load_field. }
  { split; cbn; intros Heq; [by rewrite Heq in Hbi|by rewrite Heq in Hbo]. }
  { eexists. split; [exact Harray|apply length_replicate]. }
  exists s', h3. split_and!; [|..|set_solver]; [..|exact Hden].
  - rewrite (mem_run _ _ h s' h1) by done.
    rewrite (mem_run _ _ h1 tt h2) by (by unfold write; rewrite Hst). exact Hrun.
  - apply (wrote_elsewhere _ _ _ h2 _ l'); [|done|exact Hold].
    eapply wrote_weaken; [|done|exact Hw]. by apply insert_subseteq, not_elem_of_dom.
Qed.

Lemma list_copies (inp out : ptr ListStruct) `{!Lens out} a b (v : list_value) h :
  apart inp out a b v h -> copies_to (ZoneUsageProfileList_DeepCopyInto inp out) out v h.
Proof.
  intros Ha. destruct (list_field_lenses out) as (L1 & L2 & L3).
  destruct (assign_run inp out a b h) as (h1 & Hs1 & Hw1 & Hdom1); [by destruct Ha..|].
  pose proof (apart_wrote _ _ _ _ _ _ _ _ Ha Hw1) as Ha1.
  (* the type *)
  destruct (assign_field l_TypeMeta set_list_TypeMeta inp out a a h1) as (h2 & Hs2 & Hw2 & Hdom2);
    [by destruct Ha1..|by destruct a|].
  pose proof (apart_wrote _ _ _ _ _ _ _ _ Ha1 Hw2) as Ha2.
  (* the metadata *)
  destruct (field_copies l_ListMeta set_ListMeta
    (copy_into (field l_ListMeta set_ListMeta inp) (field l_ListMeta set_ListMeta out))
    out a v.1.2 h2) as (m & h3 & Hs3 & Hw3 & Hdm3 & Hrm3); [by destruct Ha2| |].
  { apply (copy_into_copies _ _ (l_ListMeta a) (l_ListMeta a)).
    destruct Ha2 as [Hi2 Hd2 Ho2 Hb Hr2]. destruct Hd2 as (_ & Hm & _). cbn [reach list_denotation] in Hr2.
    split; [by apply load_field|exact Hm|by apply load_field|exact Hb|set_solver]. }
  pose proof (apart_wrote _ _ _ _ _ _ _ _ Ha2 Hw3) as Ha3.
  pose proof (wrote_trans _ _ _ _ _ _ (wrote_trans _ _ _ _ _ _ Hw1 Hw2) Hw3) as Hw.
  rewrite Hdom2, Hdom1 in Hrm3. pose proof (wrote_base _ _ _ _ Hw) as Hbase.
  pose proof (wrote_dom _ _ _ _ Hw) as Hsub.
  assert (Hrun : forall f, (_ ← assign out inp;
    _ ← assign (field l_TypeMeta set_list_TypeMeta out) (field l_TypeMeta set_list_TypeMeta inp);
    _ ← copy_into (field l_ListMeta set_ListMeta inp) (field l_ListMeta set_ListMeta out);
    items ← read (field l_Items set_Items inp); f items) h = f (l_Items a) h3 :> option (unit * heap)).
  { intros f. rewrite (mem_run _ _ _ _ _ Hs1), (mem_run _ _ _ _ _ Hs2), (mem_run _ _ _ _ _ Hs3).
    apply mem_run. unfold read. by rewrite (load_field _ set_Items _ _ _ (apart_in _ _ _ _ _ _ Ha3)). }
  unfold copies_to, ZoneUsageProfileList_DeepCopyInto. setoid_rewrite Hrun.
  destruct (apart_denotes _ _ _ _ _ _ Ha3) as (Ht & _ & Hitems).
  destruct (l_Items a) as [s|] eqn:Es.
  - destruct (items_copied inp out a (set_ListMeta m a) v s h3 Ha3 Es) as (s' & h4 & -> & Hw4 & Hds & Hrs).
    destruct (wrote_denotes out _ m v.1.2 h3 h4 Hw4 Hdm3) as [Hdm Hrm]; [set_solver|].
    exists (set_Items (Some s') (set_ListMeta m a)), h4. split_and!; [done|by eapply wrote_trans| |].
    + split_and!; [exact Ht|exact Hdm|exact Hds].
    + change (reach h4 m ∪ reach h4 (Some s') ## dom h). rewrite Hrm. set_solver.
  - exists (set_ListMeta m a), h3. split_and!; [done|done| |].
    + split_and!; [exact Ht|exact Hdm3|]. cbn [l_Items set_ListMeta]. by rewrite Es.
    + change (reach h3 m ∪ reach h3 (l_Items a) ## dom h). rewrite Es. cbn [reach slice_denotation]. set_solver.
Qed.

(** *** [DeepCopy] *)

(** What a copy is: an equal value in new cells, while the memory that existed is as it was; so
    that whatever is written to the one leaves the other alone. *)
Definition deep_copied {A V} `{!Denotation A V} (m : mem (option (ptr A))) (inp : ptr A) (v : V)
    (h : heap) : Prop :=
  exists out h', m h = Some (Some out, h') /\ h ⊆ h' /\ denotes h' out v /\ reach h' out ## dom h.

Lemma new_copied {A V} `{!Denotation A V} `{!DenotationLaws A V} (at_ : loc -> ptr A) (c : cell) b
    (into : ptr A -> ptr A -> mem unit) (inp : ptr A) v h :
  (forall l, Lens (at_ l)) -> (forall l, pt_base (at_ l) = l) ->
  (forall l h, load (at_ l) (<[l := c]> h) = Some b) ->
  (forall out a b h, Lens out -> apart inp out a b v h -> copies_to (into inp out) out v h) ->
  denotes h inp v ->
  deep_copied (l ← alloc c; _ ← into inp (at_ l); mret (Some (at_ l))) inp v h.
Proof.
  intros Hlens Hbase Hload Hinto (a & Hi & Hd). set (l := fresh (dom h)).
  assert (Hl : l ∉ dom h) by apply is_fresh. set (h1 := <[l := c]> h).
  assert (Hsub : h ⊆ h1) by (by apply insert_subseteq, not_elem_of_dom).
  assert (Ha : apart inp (at_ l) a b v h1).
  { destruct (denotes_agree h h1 a v Hd) as [Hd1 Hr1].
    { intros l' Hl'. unfold h1. rewrite lookup_insert_ne; [done|]. intros <-. by apply Hl, (reach_dom h a v Hd). }
    split; [by eapply load_weaken|done|apply Hload| |]; rewrite Hbase.
    - intros <-. by apply Hl, (load_dom _ _ _ Hi).
    - rewrite Hr1. intros Hin. by apply Hl, (reach_dom h a v Hd). }
  destruct (Hinto _ _ _ _ (Hlens l) Ha) as (a' & h2 & Hm & Hw & Hd2 & Hr2).
  pose proof (wrote_load _ _ _ _ Hw) as Hl2.
  exists (at_ l), h2. split_and!.
  - rewrite (mem_run _ _ h l h1) by done. by rewrite (mem_run _ _ _ _ _ Hm).
  - apply map_subseteq_spec. intros l' x Hx. rewrite (wrote_other _ _ _ _ Hw); rewrite ?Hbase.
    + eapply lookup_weaken; [exact Hx|done].
    + unfold h1. rewrite dom_insert_L. apply elem_of_union_r. by eapply elem_of_dom_2.
    + intros ->. by apply Hl, (elem_of_dom_2 _ _ _ Hx).
  - by exists a'.
  - cbn [reach ptr_denotation]. rewrite Hl2, Hbase. unfold h1 in Hr2. rewrite dom_insert_L in Hr2. set_solver.
Qed.

Lemma profile_copied (inp : ptr ProfileStruct) v h :
  denotes h inp v -> deep_copied (ZoneUsageProfile_DeepCopy (Some inp)) inp v h.
Proof.
  apply (new_copied profile_at _ profile_zero); [intros l; by apply cell_lens|done| |].
  - intros l h'. unfold load. cbn [pt_base profile_at cell_at]. by rewrite lookup_insert_eq.
  - intros out a b h' Hlens Ha. by eapply profile_copies.
Qed.

Lemma list_copied (inp : ptr ListStruct) (v : list_value) h :
  denotes h inp v -> deep_copied (ZoneUsageProfileList_DeepCopy (Some inp)) inp v h.
Proof.
  apply (new_copied list_at _ list_zero); [intros l; by apply cell_lens|done| |].
  - intros l h'. unfold load. cbn [pt_base list_at cell_at]. by rewrite lookup_insert_eq.
  - intros out a b h' Hlens Ha. by eapply list_copies.
Qed.

Lemma spec_copied (inp : ptr SpecStruct) v h :
  denotes h inp v -> deep_copied (ZoneUsageProfileSpec_DeepCopy (Some inp)) inp v h.
Proof.
  apply (new_copied spec_at _ spec_zero); [intros l; by apply cell_lens|done| |].
  - intros l h'. unfold load. cbn [pt_base spec_at cell_at]. by rewrite lookup_insert_eq.
  - intros out a b h' Hlens Ha. by eapply spec_copies.
Qed.

(** Writes to the copy do not reach the original, and the other way round. *)
Definition independent {A V} `{!Denotation A V} (inp out : ptr A) (v : V) (h h' : heap) : Prop :=
  (forall h2, (forall l, l ∉ reach h' out -> h2 !! l = h' !! l) -> denotes h2 inp v) /\
  (forall h2, (forall l, l ∉ dom h -> h2 !! l = h' !! l) -> denotes h2 out v).

Lemma copy_independent {A V} `{!Denotation A V} `{!DenotationLaws A V} (inp out : ptr A) v h h' :
  denotes h inp v -> h ⊆ h' -> denotes h' out v -> reach h' out ## dom h -> independent inp out v h h'.
Proof.
  intros Hi Hsub Ho Hr. split; intros h2 H2.
  - apply (denotes_agree h h2 inp v Hi). intros l Hl. pose proof (reach_dom h inp v Hi l Hl) as Hd.
    rewrite H2 by set_solver. apply elem_of_dom in Hd as [c Hc]. rewrite Hc. by eapply lookup_weaken.
  - apply (denotes_agree h' h2 out v Ho). intros l Hl. apply H2. set_solver.
Qed.
End copies.

(** ** Properties *)
Section properties.
Context `{Packages} {VM VL VU : Type}.
Context `{!Denotation ObjectMeta VM} `{!Denotation ListMeta VL} `{!Denotation UsageProfileSpec_ VU}.
Context `{!DenotationLaws ObjectMeta VM} `{!DenotationLaws ListMeta VL}.
Context `{!DenotationLaws UsageProfileSpec_ VU}.
Context `{!DeepCopier ObjectMeta} `{!DeepCopier ListMeta} `{!DeepCopier UsageProfileSpec_}.
Context `{!CopierLaws ObjectMeta VM} `{!CopierLaws ListMeta VL} `{!CopierLaws UsageProfileSpec_ VU}.

(** C38: a deep copy of a list of profiles does not panic, leaves all memory that exists as it is, and
    returns a list with the same value (of its metadata, and of the metadata and specification of
    every item, in order) such that no write to the copy, to its items or to what they refer to
    changes the original, and no write to the original changes the copy. *)
Theorem list_deep_copy (inp : ptr ListStruct) (v : TypeMeta * VL * option (list (TypeMeta * VM * VU))) h :
  denotes h inp v -> exists out h',
    ZoneUsageProfileList_DeepCopyObject (Some inp) h = Some (Some (ListObject out), h') /\
    h ⊆ h' /\ denotes h' out v /\ independent inp out v h h'.
Proof.
  intros Hd. destruct (list_copied inp v h Hd) as (out & h' & Hrun & Hsub & Hd' & Hr).
  exists out, h'. split_and!; [|done|done|by apply copy_independent].
  unfold ZoneUsageProfileList_DeepCopyObject. by rewrite (mem_run _ _ _ _ _ Hrun).
Qed.

(** The same for a profile. *)
Theorem profile_deep_copy (inp : ptr ProfileStruct) (v : TypeMeta * VM * VU) h :
  denotes h inp v -> exists out h',
    ZoneUsageProfile_DeepCopyObject (Some inp) h = Some (Some (ProfileObject out), h') /\
    h ⊆ h' /\ denotes h' out v /\ independent inp out v h h'.
Proof.
  intros Hd. destruct (profile_copied inp v h Hd) as (out & h' & Hrun & Hsub & Hd' & Hr).
  exists out, h'. split_and!; [|done|done|by apply copy_independent].
  unfold ZoneUsageProfile_DeepCopyObject. by rewrite (mem_run _ _ _ _ _ Hrun).
Qed.

(** The copy of a nil pointer is nil, also as an object. *)
Theorem nil_deep_copy h :
  ZoneUsageProfileList_DeepCopyObject None h = Some (None, h) /\
  ZoneUsageProfile_DeepCopyObject None h = Some (None, h) /\
  ZoneUsageProfileSpec_DeepCopy None h = Some (None, h) /\
  ZoneUsageProfileStatus_DeepCopy None h = Some (None, h).
Proof. done. Qed.
End properties.

(** ** The theorem on an example: metadata and specifications are references to maps *)
#[local] Instance dc_packages : Packages := {|
  ObjectMeta := option loc; ListMeta := option loc; UsageProfileSpec_ := option loc;
  Other := gmap string string; ObjectMeta_zero := None; ListMeta_zero := None;
  UsageProfileSpec_zero := None |}.

#[local] Instance dc_denotation : Denotation (option loc) (option (gmap string string)) := {
  denotes h r v :=
    match r, v with
    | None, None => True
    | Some l, Some m => h !! l = Some (OtherCell m)
    | _, _ => False
    end;
  reach h r := match r with Some l => {[l]} | None => ∅ end;
}.

#[local] Instance dc_laws : DenotationLaws (option loc) (option (gmap string string)).
Proof.
  split.
  - intros h [l|] [m|]; simpl; try done. intros Hl l' ->%elem_of_singleton. by eapply elem_of_dom_2.
  - intros h h' [l|] [m|]; simpl; try done. intros Hl Ha. by rewrite Ha by set_solver.
Qed.

#[local] Instance dc_copier : DeepCopier (option loc) := fun r h =>
  match r ≫= (fun l => h !! l) with
  | Some c => let l := fresh (dom h) in (Some l, <[l := c]> h)
  | None => (None, h)
  end.

#[local] Instance dc_copier_laws : CopierLaws (option loc) (option (gmap string string)).
Proof.
  intros h [l|] [m|]; unfold deep_copy, dc_copier; simpl; try done.
  intros ->. simpl. pose proof (is_fresh (dom h)) as Hf. split_and!; [|apply lookup_insert_eq|set_solver].
  by apply insert_subseteq, not_elem_of_dom.
Qed.

Definition dc_heap : heap := {[
  1%positive := ListCell {| l_TypeMeta := {| tm_Kind := "List"; tm_APIVersion := "v1" |};
    l_ListMeta := None; l_Items := Some {| sl_array := 2%positive; sl_offset := 1; sl_len := 1 |} |};
  2%positive := ArrayCell [profile_zero; {| p_TypeMeta := {| tm_Kind := "ZoneUsageProfile"; tm_APIVersion := "v1" |};
    p_ObjectMeta := Some 3%positive; p_Spec := {| s_UpstreamSpec := Some 3%positive |};
    p_Status := status_zero |}];
  3%positive := OtherCell {["name" := "default"]} ]}.

(** The item, whose two references are to the same map. *)
Definition dc_item : TypeMeta * option (gmap string string) * option (gmap string string) :=
  ({| tm_Kind := "ZoneUsageProfile"; tm_APIVersion := "v1" |}, Some {["name" := "default"]}, Some {["name" := "default"]}).

Lemma list_deep_copy_witness :
  exists out h', ZoneUsageProfileList_DeepCopyObject (Some (list_at 1%positive)) dc_heap = Some (Some (ListObject out), h') /\
    denotes h' out ({| tm_Kind := "List"; tm_APIVersion := "v1" |}, None, Some [dc_item]).
Proof.
  destruct (list_deep_copy (list_at 1%positive) ({| tm_Kind := "List"; tm_APIVersion := "v1" |}, None, Some [dc_item]) dc_heap)
    as (out & h' & Hrun & _ & Hd & _).
  - eexists. split; [reflexivity|]. split; [done|]. split; [done|].
    split; [reflexivity|]. split; [by eexists|]. apply Forall2_cons. split; [|by apply Forall2_nil]. by split_and!.
  - by exists out, h'.
Defined.
