(* ===== verification/Webhook.v ===== *)
(** * What the admission webhooks share

    The logging of responses, and the construction of JSON patches: escaping of JSON pointer
    segments, with the round trip to the pointer's parsed form. *)
From S2P Require Import Prelude GoStd Kube Api.

(** ** [logAdmissionResponse] (namespace_quota_validator.go)

    The message that is logged, and the response, which is returned as it is. *)
Definition logAdmissionResponse (res : AdmissionResponse) : (string * string) * AdmissionResponse :=
  let rmsg := match resp_Result res with
              | Some r => status_Message r
              | None => "<not given>"
              end in
  let msg := if resp_Allowed res then "allowed" else "denied" in
  ((msg, rmsg), res).

(** ** [escapeJSONPointerSegment] (pod_node_selector_mutator.go) *)
Definition escapeJSONPointerSegment (s : string) : string :=
  strings.ReplaceAll (strings.ReplaceAll s "~" "~0") "/" "~1".

(** ** Lemmas *)

Lemma escape_cons c s :
  escapeJSONPointerSegment (String c s) =
  (if decide (c = "~"%char) then "~0" else if decide (c = "/"%char) then "~1" else String c "")
  +:+ escapeJSONPointerSegment s.
Proof.
  unfold escapeJSONPointerSegment. simpl. rewrite ReplaceAll_app.
  destruct (decide (c = "~"%char)) as [->|]; [done|]. simpl.
  by destruct (decide (c = "/"%char)).
Qed.

Lemma unescape_other c s :
  c <> "~"%char -> unescape_segment (String c s) = String c (unescape_segment s).
Proof. intros Hc. destruct c as [[] [] [] [] [] [] [] []]; done. Qed.

Lemma unescape_escape s : unescape_segment (escapeJSONPointerSegment s) = s.
Proof.
  induction s as [|c s IH]; [done|]. rewrite escape_cons. repeat case_decide; subst.
  - rewrite !string_app_cons, string_app_nil_l. simpl. by rewrite IH.
  - rewrite !string_app_cons, string_app_nil_l. simpl. by rewrite IH.
  - rewrite !string_app_cons, string_app_nil_l, unescape_other by done. by rewrite IH.
Qed.

Lemma escape_no_slash s : strings.ContainsRune (escapeJSONPointerSegment s) "/" = false.
Proof. by apply ReplaceAll_removes. Qed.

(** The pointer made of plain segments and one escaped segment. *)
Lemma parse_pointer_escaped (p k : string) :
  parse_pointer (String "/" (p +:+ String "/" (escapeJSONPointerSegment k))) =
  Some (map unescape_segment (strings.Split p "/") ++ [k]).
Proof.
  simpl. rewrite Split_app_sep, map_app, (Split_single _ _ (escape_no_slash k)).
  simpl. by rewrite unescape_escape.
Qed.

#[export] Hint Rewrite unescape_escape escape_no_slash : gostr.

(** ** Properties *)

(** Logging a response never changes it, and logs "allowed" for an allowed response only. *)
Theorem logAdmissionResponse_transparent (res : AdmissionResponse) :
  (logAdmissionResponse res).2 = res /\
  ((logAdmissionResponse res).1.1 = "allowed" <-> resp_Allowed res = true).
Proof. split; [done|]. simpl. by destruct (resp_Allowed res). Qed.

(** Escaping a segment and parsing the pointer it is put into gives the segment back, for
    every label key; the segment never adds a level to the pointer. *)
Theorem escapeJSONPointerSegment_roundtrip (s : string) :
  parse_pointer (String "/" (escapeJSONPointerSegment s)) = Some [s].
Proof.
  simpl. rewrite (Split_single _ _ (escape_no_slash s)). simpl. by rewrite unescape_escape.
Qed.
