(* ===== verification/NamespaceQuota.v ===== *)
(** * The namespace quota (webhooks/namespace_quota_validator.go)

    The webhook that limits how many namespaces an organization may have, the specification
    of its decision, and the bound on the number of namespaces when namespaces are created,
    admitted and deleted in any order. *)
From S2P Require Import Prelude GoStd Kube Fake Skipper Api Webhook.

Record NamespaceQuotaValidator := {
  nq_Skipper : Skipper;
  nq_SkipValidateQuota : bool;
  nq_OrganizationLabel : string;
  nq_UserDefaultOrganizationAnnotation : string;
  nq_SelectedProfile : string;
  nq_QuotaOverrideNamespace : string;
  nq_EnableLegacyNamespaceQuota : bool;
  nq_LegacyNamespaceQuota : Z;
}.

Section handler.
Context `{AdmissionLib} `{ApiErrors} `{UnstructuredLib} `{Decoder json}.
Context `{ClientGet User} `{ClientGet ZoneUsageProfile} `{ClientGet ConfigMap}.
Context {LN : ClientList Namespace}.

(** The organization: from the label of a namespace object, else the user's default.  The
    left side is a response that ends the request. *)
Definition NamespaceQuotaValidator_organization (v : NamespaceQuotaValidator)
    (req : AdmissionRequest) (rawObject : json) : AdmissionResponse + string :=
  let labelled :=
    if bool_decide (u_GetKind rawObject = "Namespace") then
      match u_NestedString rawObject ["metadata"; "labels"; nq_OrganizationLabel v] with
      | (_, _, Some err) => inl (admission_Errored StatusInternalServerError err)
      | (on, _, None) => inr on
      end
    else inr "" in
  try organizationName <- labelled catch resp => inl resp;;
  if bool_decide (organizationName = "") then
    try user <- client_Get (T := User) (name_key (Username (req_UserInfo req)))
      catch err => inl (admission_Errored StatusInternalServerError err);;
    let don := nilmap_get (user_Annotations user) (nq_UserDefaultOrganizationAnnotation v) in
    if bool_decide (don = "")
    then inl (admission_Denied
      "There is no organization label and the user has no default organization set.")
    else inr don
  else inr organizationName.

(** The limit before overrides. *)
Definition NamespaceQuotaValidator_base_limit (v : NamespaceQuotaValidator)
    : AdmissionResponse + Z :=
  if nq_EnableLegacyNamespaceQuota v then inr (nq_LegacyNamespaceQuota v)
  else if bool_decide (nq_SelectedProfile v = "")
  then inl (admission_Denied "No ZoneUsageProfile selected")
  else try profile <- client_Get (T := ZoneUsageProfile) (name_key (nq_SelectedProfile v))
    catch err => inl (admission_Errored StatusInternalServerError err);;
    inr (NamespaceCount (UpstreamSpec (zup_Spec profile))).

(** The override of the organization, if there is one. *)
Definition NamespaceQuotaValidator_override (v : NamespaceQuotaValidator)
    (organizationName : string) (nsCountLimit : Z) : AdmissionResponse + Z :=
  match client_Get (T := ConfigMap) {| key_Namespace := nq_QuotaOverrideNamespace v;
                                       key_Name := "override-" +:+ organizationName |} with
  | inr overrideCM =>
      let q := map_get (cm_Data overrideCM) "namespaceQuota" in
      if bool_decide (q = "") then inr nsCountLimit
      else try n <- strconv.Atoi q
        catch err => inl (admission_Errored StatusInternalServerError err);; inr n
  | inl err =>
      if apierrors_IsNotFound err then inr nsCountLimit
      else inl (admission_Errored StatusInternalServerError err)
  end.

Definition NamespaceQuotaValidator_handle (v : NamespaceQuotaValidator) (req : AdmissionRequest)
    : AdmissionResponse :=
  match nq_Skipper v req with
  | (_, Some err) => admission_Errored StatusInternalServerError err
  | (true, None) => admission_Allowed "skipped"
  | (false, None) =>
    try rawObject <- Decode (T := json) req
      catch err => admission_Errored StatusBadRequest err;;
    try organizationName <- NamespaceQuotaValidator_organization v req rawObject
      catch resp => resp;;
    if nq_SkipValidateQuota v then admission_Allowed "skipped quota validation" else
    try base <- NamespaceQuotaValidator_base_limit v catch resp => resp;;
    try nsCountLimit <- NamespaceQuotaValidator_override v organizationName base
      catch resp => resp;;
    try nsList <- client_List (T := Namespace)
        [MatchingLabels {[nq_OrganizationLabel v := organizationName]}]
      catch err => admission_Errored StatusInternalServerError err;;
    if (nsCountLimit <=? Z.of_nat (length nsList))%Z
    then admission_Denied ("You cannot create more than " +:+ pretty nsCountLimit +:+
      " namespaces for organization " +:+ strconv.Quote organizationName +:+
      ". Please contact support to have your quota raised.")
    else admission_Allowed "allowed"
  end.

Definition NamespaceQuotaValidator_Handle (v : NamespaceQuotaValidator) (req : AdmissionRequest) :=
  logAdmissionResponse (NamespaceQuotaValidator_handle v req).

(** ** Specification *)

(** The organization that a request counts for. *)
Inductive quota_organization (v : NamespaceQuotaValidator) (req : AdmissionRequest) (raw : json)
    : string -> Prop :=
| org_from_label org found :
    u_GetKind raw = "Namespace" ->
    u_NestedString raw ["metadata"; "labels"; nq_OrganizationLabel v] = (org, found, None) ->
    org <> "" -> quota_organization v req raw org
| org_from_user user org :
    (u_GetKind raw = "Namespace" ->
      exists found, u_NestedString raw ["metadata"; "labels"; nq_OrganizationLabel v]
        = ("", found, None)) ->
    client_Get (name_key (Username (req_UserInfo req))) = inr user ->
    nilmap_get (user_Annotations user) (nq_UserDefaultOrganizationAnnotation v) = org ->
    org <> "" -> quota_organization v req raw org.

(** The limit without an override: the legacy quota, or that of the selected profile. *)
Inductive quota_base (v : NamespaceQuotaValidator) : Z -> Prop :=
| base_legacy :
    nq_EnableLegacyNamespaceQuota v = true -> quota_base v (nq_LegacyNamespaceQuota v)
| base_profile profile :
    nq_EnableLegacyNamespaceQuota v = false -> nq_SelectedProfile v <> "" ->
    client_Get (name_key (nq_SelectedProfile v)) = inr profile ->
    quota_base v (NamespaceCount (UpstreamSpec (zup_Spec profile))).

(** The limit in force: an override config map wins over the base; no config map, or one
    without the key, leaves the base. *)
Inductive quota_limit (v : NamespaceQuotaValidator) (org : string) : Z -> Prop :=
| limit_override base cm n :
    quota_base v base ->
    client_Get {| key_Namespace := nq_QuotaOverrideNamespace v; key_Name := "override-" +:+ org |}
      = inr cm ->
    map_get (cm_Data cm) "namespaceQuota" <> "" ->
    strconv.Atoi (map_get (cm_Data cm) "namespaceQuota") = inr n -> quota_limit v org n
| limit_no_override base cm :
    quota_base v base ->
    client_Get {| key_Namespace := nq_QuotaOverrideNamespace v; key_Name := "override-" +:+ org |}
      = inr cm ->
    map_get (cm_Data cm) "namespaceQuota" = "" -> quota_limit v org base
| limit_no_configmap base err :
    quota_base v base ->
    client_Get (T := ConfigMap)
      {| key_Namespace := nq_QuotaOverrideNamespace v; key_Name := "override-" +:+ org |} = inl err ->
    apierrors_IsNotFound err = true -> quota_limit v org base.

End handler.

(** ** Namespaces being created, admitted and deleted

    The cluster answers a list request with the namespaces that match its options.  A request
    is admitted at one moment and its namespace appears at a later one, so several admitted
    namespaces may be in flight; [k] bounds how many.  Requests that the skipper exempts are
    admitted as well; the state remembers which namespaces were admitted in this way. *)
Definition cluster_list (nss : list Namespace) : ClientList Namespace := fun opts =>
  inr (filter (fun ns => Forall (fun opt => list_option_matches opt ns) opts) nss).

Record quota_state := {
  q_namespaces : list Namespace;
  q_pending : list Namespace;
  q_exempt : list Namespace;
}.

Section dynamics.
Context `{AdmissionLib} `{ApiErrors} `{UnstructuredLib} `{Decoder json}.
Context `{ClientGet User} `{ClientGet ZoneUsageProfile} `{ClientGet ConfigMap}.

Inductive quota_step (v : NamespaceQuotaValidator) (k : nat) : quota_state -> quota_state -> Prop :=
| step_admit nss pending exempt req raw org ns :
    (length pending < k)%nat ->
    nq_Skipper v req = (false, None) -> Decode req = inr raw ->
    quota_organization v req raw org -> ns_Labels ns !! nq_OrganizationLabel v = Some org ->
    resp_Allowed (NamespaceQuotaValidator_handle (LN := cluster_list nss) v req) = true ->
    quota_step v k {| q_namespaces := nss; q_pending := pending; q_exempt := exempt |}
                   {| q_namespaces := nss; q_pending := ns :: pending; q_exempt := exempt |}
| step_exempt nss pending exempt req ns :
    (length pending < k)%nat -> nq_Skipper v req = (true, None) ->
    resp_Allowed (NamespaceQuotaValidator_handle (LN := cluster_list nss) v req) = true ->
    quota_step v k {| q_namespaces := nss; q_pending := pending; q_exempt := exempt |}
                   {| q_namespaces := nss; q_pending := ns :: pending; q_exempt := ns :: exempt |}
| step_commit nss p1 ns p2 exempt :
    quota_step v k {| q_namespaces := nss; q_pending := p1 ++ ns :: p2; q_exempt := exempt |}
                   {| q_namespaces := ns :: nss; q_pending := p1 ++ p2; q_exempt := exempt |}
| step_reject nss p1 ns p2 exempt :
    quota_step v k {| q_namespaces := nss; q_pending := p1 ++ ns :: p2; q_exempt := exempt |}
                   {| q_namespaces := nss; q_pending := p1 ++ p2; q_exempt := exempt |}
| step_delete l1 ns l2 pending exempt :
    quota_step v k {| q_namespaces := l1 ++ ns :: l2; q_pending := pending; q_exempt := exempt |}
                   {| q_namespaces := l1 ++ l2; q_pending := pending; q_exempt := exempt |}.

(** The namespaces of an organization. *)
Definition org_count (label org : string) (l : list Namespace) : nat :=
  length (filter (fun ns => ns_Labels ns !! label = Some org) l).
End dynamics.

(** ** An example cluster

    The organization [acme] has two namespaces, its profile allows three and an override five. *)
Definition ex_namespace (name org : string) : Namespace := {|
  ns_Name := name; ns_Labels := {["organization" := org]};
  ns_Annotations := ∅; ns_DeletionTimestamp := None |}.

Definition ex_object : json :=
  JObj {["kind" := JStr "Namespace";
         "metadata" := JObj {["labels" := JObj {["organization" := JStr "acme"]}]}]}.

Definition ex_decoder : Decoder json := {|
  Decode := fun _ => inr ex_object; DecodeRaw := fun _ => inr ex_object |}.

Definition ex_users : ClientGet User := fun k =>
  inr {| user_Name := key_Name k; user_Annotations := None |}.

Definition ex_profiles : ClientGet ZoneUsageProfile := fun k =>
  inr {| zup_Name := key_Name k;
         zup_Spec := {| UpstreamSpec := {| NamespaceCount := 3; Resources := ∅ |} |} |}.

Definition ex_configmaps : ClientGet ConfigMap := fun k =>
  if bool_decide (key_Name k = "override-acme")
  then inr {| cm_Data := {["namespaceQuota" := "5"]} |}
  else inl (StatusError ReasonNotFound "not found").

Definition ex_namespaces : list Namespace := [ex_namespace "a" "acme"; ex_namespace "b" "acme"].

Definition ex_validator : NamespaceQuotaValidator := {|
  nq_Skipper := fun _ => (false, None);
  nq_SkipValidateQuota := false;
  nq_OrganizationLabel := "organization";
  nq_UserDefaultOrganizationAnnotation := "default-organization";
  nq_SelectedProfile := "default";
  nq_QuotaOverrideNamespace := "appuio-cloud";
  nq_EnableLegacyNamespaceQuota := false;
  nq_LegacyNamespaceQuota := 0;
|}.

Definition ex_request : AdmissionRequest := {|
  req_Kind := {| gvk_Group := ""; gvk_Version := "v1"; gvk_Kind := "Namespace" |};
  req_Name := "c"; req_Namespace := "c"; req_Operation := Create;
  req_UserInfo := {| Username := "alice"; Groups := [] |};
  req_Object := "{}"; req_OldObject := "";
|}.

(** ** Lemmas *)
Section lemmas.
Context `{AdmissionLib} `{ApiErrors} `{UnstructuredLib} `{Decoder json}.
Context `{ClientGet User} `{ClientGet ZoneUsageProfile} `{ClientGet ConfigMap}.


Lemma organization_spec v req raw org :
  NamespaceQuotaValidator_organization v req raw = inr org <-> quota_organization v req raw org.
Proof.
  unfold NamespaceQuotaValidator_organization. split.
  - intros E. destruct (bool_decide (u_GetKind raw = _)) eqn:Ek.
    + apply bool_decide_eq_true in Ek.
      destruct (u_NestedString raw _) as [[on found] [e|]] eqn:En; [done|].
      case_bool_decide; [|simplify_eq; by eapply org_from_label].
      destruct (client_Get _) as [|user] eqn:Eu; [done|]. case_bool_decide; simplify_eq.
      eapply org_from_user; eauto.
    + apply bool_decide_eq_false in Ek. rewrite bool_decide_eq_true_2 in E by done.
      destruct (client_Get _) as [|user] eqn:Eu; [done|]. case_bool_decide; simplify_eq.
      by eapply org_from_user.
  - intros [? found Hk Hn Ho|user ? Hk Hu Hd Ho].
    + rewrite (bool_decide_eq_true_2 _ Hk), Hn. by rewrite bool_decide_eq_false_2.
    + destruct (bool_decide (u_GetKind raw = _)) eqn:Ek.
      * apply bool_decide_eq_true in Ek. destruct (Hk Ek) as [found ->].
        rewrite bool_decide_eq_true_2, Hu, Hd by done. by rewrite bool_decide_eq_false_2.
      * rewrite bool_decide_eq_true_2, Hu, Hd by done. by rewrite bool_decide_eq_false_2.
Qed.

Lemma base_limit_spec v base :
  NamespaceQuotaValidator_base_limit v = inr base <-> quota_base v base.
Proof.
  unfold NamespaceQuotaValidator_base_limit. split.
  - intros E. destruct (nq_EnableLegacyNamespaceQuota v) eqn:El; [simplify_eq; by constructor|].
    case_bool_decide; [done|]. destruct (client_Get _) eqn:Eg; simplify_eq. by constructor.
  - intros [->|profile -> Hp ->]; [done|]. by rewrite bool_decide_eq_false_2.
Qed.

Lemma override_spec v org base limit :
  quota_base v base -> NamespaceQuotaValidator_override v org base = inr limit ->
  quota_limit v org limit.
Proof.
  intros Hb. unfold NamespaceQuotaValidator_override. destruct (client_Get _) as [err|cm] eqn:Eg.
  - destruct (apierrors_IsNotFound err) eqn:En; intros; simplify_eq. by eapply limit_no_configmap.
  - case_bool_decide as Hq; intros; simplify_eq; [by eapply limit_no_override|].
    destruct (strconv.Atoi _) eqn:Ea; simplify_eq. by eapply limit_override.
Qed.

Lemma limit_spec v org limit :
  quota_limit v org limit <->
  exists base, NamespaceQuotaValidator_base_limit v = inr base /\
    NamespaceQuotaValidator_override v org base = inr limit.
Proof.
  split; [|intros (base & ?%base_limit_spec & ?); by eapply override_spec].
  unfold NamespaceQuotaValidator_override.
  intros [base cm n Hb Hg Hq Ha|base cm Hb Hg Hq|base err Hb Hg Hn];
    exists base; rewrite (base_limit_spec v base), Hg; split; try done.
  - by rewrite bool_decide_eq_false_2, Ha.
  - by rewrite bool_decide_eq_true_2.
  - by rewrite Hn.
Qed.

Lemma quota_limit_functional v org l1 l2 : quota_limit v org l1 -> quota_limit v org l2 -> l1 = l2.
Proof. intros (b1 & E1 & O1)%limit_spec (b2 & E2 & O2)%limit_spec. congruence. Qed.

Lemma quota_organization_functional v req raw o1 o2 :
  quota_organization v req raw o1 -> quota_organization v req raw o2 -> o1 = o2.
Proof. intros E1%organization_spec E2%organization_spec. congruence. Qed.
End lemmas.

Lemma cluster_list_count label org nss :
  exists l, cluster_list nss [MatchingLabels {[label := org]}] = inr l /\
    length l = org_count label org nss.
Proof.
  eexists. split; [done|]. unfold org_count. f_equal. apply list_filter_iff. intros ns.
  rewrite Forall_singleton. simpl. apply map_singleton_subseteq_l.
Qed.

Lemma org_count_app label org l1 l2 :
  org_count label org (l1 ++ l2) = (org_count label org l1 + org_count label org l2)%nat.
Proof. unfold org_count. by rewrite filter_app, length_app. Qed.

Lemma org_count_nil label org : org_count label org [] = 0%nat.
Proof. done. Qed.

Lemma org_count_cons label org ns l :
  org_count label org (ns :: l) =
  ((if decide (ns_Labels ns !! label = Some org) then 1 else 0) + org_count label org l)%nat.
Proof. unfold org_count. rewrite filter_cons. by case_decide. Qed.

Lemma org_count_le label org l : (org_count label org l <= length l)%nat.
Proof. apply length_filter. Qed.

Lemma org_count_reverse label org l : org_count label org (reverse l) = org_count label org l.
Proof. unfold org_count. by rewrite reverse_Permutation. Qed.

(** A suffix with any smaller number of namespaces of the organization. *)
Lemma org_count_suffix label org l n :
  (n <= org_count label org l)%nat -> exists l1 l2, l = l1 ++ l2 /\ org_count label org l2 = n.
Proof.
  induction l as [|ns l IH]; intros Hn.
  { exists [], []. split; [done|]. unfold org_count in *. simpl in *. lia. }
  destruct (decide (n = org_count label org (ns :: l))) as [->|Hne]; [by exists [], (ns :: l)|].
  destruct IH as (l1 & l2 & -> & Hl2); [rewrite org_count_cons in *; case_decide; lia|].
  by exists (ns :: l1), l2.
Qed.

(** Every response that ends a request early is a denial. *)
Create HintDb denials.
Ltac denied E := exfalso; revert E; apply not_true_iff_false; eauto with agent denials.

Section denials.
Context `{AdmissionLaws} `{ApiErrors} `{UnstructuredLib} `{Decoder json}.
Context `{ClientGet User} `{ClientGet ZoneUsageProfile} `{ClientGet ConfigMap}.

Lemma organization_denies v req raw resp :
  NamespaceQuotaValidator_organization v req raw = inl resp -> resp_Allowed resp = false.
Proof. unfold NamespaceQuotaValidator_organization. intros; repeat case_match; simplify_eq; auto with agent. Qed.

Lemma base_limit_denies v resp :
  NamespaceQuotaValidator_base_limit v = inl resp -> resp_Allowed resp = false.
Proof. unfold NamespaceQuotaValidator_base_limit. intros; repeat case_match; simplify_eq; auto with agent. Qed.

Lemma override_denies v org base resp :
  NamespaceQuotaValidator_override v org base = inl resp -> resp_Allowed resp = false.
Proof. unfold NamespaceQuotaValidator_override. intros; repeat case_match; simplify_eq; auto with agent. Qed.
End denials.

#[export] Hint Resolve organization_denies base_limit_denies override_denies : denials.

(** ** Properties *)
Section properties.
Context `{AdmissionLaws} `{ApiErrors} `{UnstructuredLib} `{Decoder json}.
Context `{ClientGet User} `{ClientGet ZoneUsageProfile} `{ClientGet ConfigMap}.

(** The decision, for one request. *)
Lemma quota_allowed {LN : ClientList Namespace} v req :
  nq_Skipper v req = (false, None) -> nq_SkipValidateQuota v = false ->
  resp_Allowed (NamespaceQuotaValidator_handle v req) = true <->
  exists raw org limit nsl,
    Decode req = inr raw /\ quota_organization v req raw org /\ quota_limit v org limit /\
    client_List [MatchingLabels {[nq_OrganizationLabel v := org]}] = inr nsl /\
    (Z.of_nat (length nsl) < limit)%Z.
Proof.
  intros Hs Hv. unfold NamespaceQuotaValidator_handle. rewrite Hs, Hv.
  setoid_rewrite <- organization_spec. setoid_rewrite limit_spec. split.
  - intros E. destruct (Decode req) as [|raw]; [denied E|].
    destruct (NamespaceQuotaValidator_organization v req raw) as [|org] eqn:Eo; [denied E|].
    destruct (NamespaceQuotaValidator_base_limit v) as [|base] eqn:Eb; [denied E|].
    destruct (NamespaceQuotaValidator_override v org base) as [|limit] eqn:El; [denied E|].
    destruct (client_List _) as [|nsl] eqn:Ens; [denied E|].
    destruct (Z.leb_spec limit (Z.of_nat (length nsl))); [denied E|]. naive_solver.
  - intros (raw & org & limit & nsl & -> & -> & (base & -> & ->) & -> & Hlt).
    destruct (Z.leb_spec limit (Z.of_nat (length nsl))); [lia|]. by autorewrite with agent.
Qed.

(** With quota validation switched off, a request that is not exempt is allowed exactly
    when its object can be decoded and it has an organization; no limit is consulted. *)
Lemma quota_skip_validation {LN : ClientList Namespace} v req :
  nq_Skipper v req = (false, None) -> nq_SkipValidateQuota v = true ->
  resp_Allowed (NamespaceQuotaValidator_handle v req) = true <->
  exists raw org, Decode req = inr raw /\ quota_organization v req raw org.
Proof.
  intros Hs Hv. unfold NamespaceQuotaValidator_handle. rewrite Hs, Hv.
  setoid_rewrite <- organization_spec. split.
  - intros E. destruct (Decode req) as [|raw]; [denied E|].
    destruct (NamespaceQuotaValidator_organization v req raw) as [|org] eqn:Eo; [denied E|].
    eauto.
  - intros (raw & org & -> & ->). auto with agent.
Qed.

(** C3: a request that is not exempt is allowed exactly when its object can be decoded, its
    organization is known and, unless the quota is configured not to be validated, a limit is in
    force for that organization, its namespaces can be listed, and there are fewer of them than
    the limit; every failure on the way denies. *)
Theorem quota_decision {LN : ClientList Namespace} v req :
  nq_Skipper v req = (false, None) ->
  resp_Allowed (NamespaceQuotaValidator_handle v req) = true <->
  exists raw org,
    Decode req = inr raw /\ quota_organization v req raw org /\
    (nq_SkipValidateQuota v = true \/
     exists limit nsl, quota_limit v org limit /\
       client_List [MatchingLabels {[nq_OrganizationLabel v := org]}] = inr nsl /\
       (Z.of_nat (length nsl) < limit)%Z).
Proof.
  intros Hs. destruct (nq_SkipValidateQuota v) eqn:Hv.
  - rewrite quota_skip_validation by done. naive_solver.
  - rewrite quota_allowed by done. naive_solver.
Qed.

(** *** The bound *)

(** The namespaces of an organization that exist or are in flight. *)
Definition total v (org : string) (s : quota_state) : Z :=
  Z.of_nat (org_count (nq_OrganizationLabel v) org (q_namespaces s) +
            org_count (nq_OrganizationLabel v) org (q_pending s)).

(** Those of them, deleted ones included, that were admitted by exemption. *)
Definition exempted v (org : string) (s : quota_state) : Z :=
  Z.of_nat (org_count (nq_OrganizationLabel v) org (q_exempt s)).

(** The handler admits below the limit only. *)
Lemma admitted_below v req raw org limit nss :
  nq_Skipper v req = (false, None) -> nq_SkipValidateQuota v = false -> Decode req = inr raw ->
  quota_organization v req raw org -> quota_limit v org limit ->
  resp_Allowed (NamespaceQuotaValidator_handle (LN := cluster_list nss) v req) = true <->
  (Z.of_nat (org_count (nq_OrganizationLabel v) org nss) < limit)%Z.
Proof.
  intros Hs Hv Hd Ho Hl. destruct (cluster_list_count (nq_OrganizationLabel v) org nss) as (l & Hl1 & Hl2).
  rewrite quota_allowed by done. split.
  - intros (raw' & org' & limit' & nsl & Hd' & Ho' & Hl' & Hls & Hlt).
    rewrite Hd in Hd'. simplify_eq. rewrite (quota_organization_functional _ _ _ _ _ Ho' Ho) in *.
    rewrite (quota_limit_functional _ _ _ _ Hl' Hl) in *.
    unfold client_List in Hls. rewrite Hl1 in Hls. simplify_eq. lia.
  - intros Hlt. exists raw, org, limit, l. split_and!; [done..|]. lia.
Qed.

Lemma quota_step_bounded v k org limit s s' :
  nq_SkipValidateQuota v = false -> quota_limit v org limit -> quota_step v k s s' ->
  (exempted v org s <= exempted v org s')%Z /\
  (total v org s' <= Z.max (total v org s) (limit + Z.of_nat k - 1) + (exempted v org s' - exempted v org s))%Z.
Proof.
  intros Hv Hl Hstep. unfold total, exempted.
  destruct Hstep as [nss pending exempt req raw org' ns Hk Hs Hd Ho Hns Ha|nss pending exempt req ns Hk Hs Ha| | |];
    simpl; rewrite ?org_count_app, ?org_count_cons; [|repeat case_decide; lia..].
  split; [lia|]. case_decide as Hdec; [|lia]. rewrite Hns in Hdec. simplify_eq.
  apply (admitted_below v req raw org limit nss) in Ha; [|done..].
  pose proof (org_count_le (nq_OrganizationLabel v) org pending). lia.
Qed.

Lemma quota_steps_bounded v k org limit s s' :
  nq_SkipValidateQuota v = false -> quota_limit v org limit -> rtc (quota_step v k) s s' ->
  (exempted v org s <= exempted v org s')%Z /\
  (total v org s' <= Z.max (total v org s) (limit + Z.of_nat k - 1) + (exempted v org s' - exempted v org s))%Z.
Proof.
  intros Hv Hl. induction 1 as [|s s1 s2 Hstep _ IH]; [lia|].
  pose proof (quota_step_bounded v k org limit s s1 Hv Hl Hstep). lia.
Qed.

(** C4: if the quota is configured to be validated, the limit of an organization stays the same,
    namespaces do not change their organization, and at most [k] admitted creations are in flight
    at a time, then the number of its namespaces that exist or are in flight exceeds the larger of
    what it was at the start and the limit plus [k - 1] by no more than the number of namespaces
    that exempted requesters added since, whatever the order of admissions, creations, rejections
    and deletions. *)
Theorem quota_bounded v k org limit (s s' : quota_state) :
  nq_SkipValidateQuota v = false -> quota_limit v org limit ->
  rtc (quota_step v k) s s' ->
  (total v org s' <= Z.max (total v org s) (limit + Z.of_nat k - 1) + (exempted v org s' - exempted v org s))%Z.
Proof. intros Hv Hl Hr. by apply (quota_steps_bounded v k org limit s s' Hv Hl Hr). Qed.

(** *** The bound is exact *)

(** A namespace of the organization. *)
Definition new_namespace v (org : string) (n : nat) : Namespace := {|
  ns_Name := org +:+ "-" +:+ pretty n; ns_Labels := {[nq_OrganizationLabel v := org]};
  ns_Annotations := ∅; ns_DeletionTimestamp := None |}.

Definition new_namespaces v org (n : nat) : list Namespace := new_namespace v org <$> seq 0 n.

Lemma new_namespaces_count v org n : org_count (nq_OrganizationLabel v) org (new_namespaces v org n) = n.
Proof.
  unfold new_namespaces. transitivity (length (seq 0 n)); [|apply length_seq]. induction (seq 0 n) as [|i l IH]; [done|].
  rewrite fmap_cons, org_count_cons, IH. by rewrite decide_True by apply lookup_singleton_eq.
Qed.

(** Requests are admitted while others are in flight, and then all namespaces are created. *)
Lemma admit_many v k nss exempt req raw org limit pending :
  nq_Skipper v req = (false, None) -> nq_SkipValidateQuota v = false -> Decode req = inr raw ->
  quota_organization v req raw org -> quota_limit v org limit ->
  (Z.of_nat (org_count (nq_OrganizationLabel v) org nss) < limit)%Z ->
  (length pending <= k)%nat ->
  Forall (fun ns => ns_Labels ns !! nq_OrganizationLabel v = Some org) pending ->
  rtc (quota_step v k) {| q_namespaces := nss; q_pending := []; q_exempt := exempt |}
    {| q_namespaces := nss; q_pending := pending; q_exempt := exempt |}.
Proof.
  intros Hs Hv Hd Ho Hl Hlt. induction pending as [|ns pending IH]; intros Hk Hall; [done|].
  apply Forall_cons in Hall as [Hns Hall]. simpl in Hk. eapply rtc_r; [apply IH; [lia|done]|].
  eapply step_admit; [lia|done..|]. by apply (admitted_below v req raw org limit nss).
Qed.

Lemma commit_all v k nss exempt pending :
  rtc (quota_step v k) {| q_namespaces := nss; q_pending := pending; q_exempt := exempt |}
    {| q_namespaces := reverse pending ++ nss; q_pending := []; q_exempt := exempt |}.
Proof.
  revert nss. induction pending as [|ns pending IH]; intros nss; [done|].
  eapply rtc_l; [apply (step_commit v k nss [] ns pending)|].
  rewrite reverse_cons, <- app_assoc. apply IH.
Qed.

Lemma delete_first v k l nss pending exempt :
  rtc (quota_step v k) {| q_namespaces := l ++ nss; q_pending := pending; q_exempt := exempt |}
    {| q_namespaces := nss; q_pending := pending; q_exempt := exempt |}.
Proof.
  induction l as [|ns l IH]; [done|]. eapply rtc_l; [apply (step_delete v k [] ns (l ++ nss))|]. exact IH.
Qed.

(** C33: the quota is exceeded by the requests in flight, and by no more: if the quota is configured
    to be validated, an organization that is one namespace below its limit and has no creation in
    flight can get to [n] namespaces, by requests that are not exempt and while at most [k] admitted
    creations are in flight, its limit stays the same and namespaces keep their organization, exactly
    if [n] is less than [k] above the limit, because admission counts the namespaces that exist and
    not those that it has already admitted. *)
Theorem quota_race v k req raw org limit nss n :
  nq_Skipper v req = (false, None) -> nq_SkipValidateQuota v = false -> Decode req = inr raw ->
  quota_organization v req raw org -> quota_limit v org limit -> (0 < k)%nat ->
  Z.of_nat (org_count (nq_OrganizationLabel v) org nss) = (limit - 1)%Z ->
  (exists s', rtc (quota_step v k) {| q_namespaces := nss; q_pending := []; q_exempt := [] |} s' /\
     q_exempt s' = [] /\ org_count (nq_OrganizationLabel v) org (q_namespaces s') = n) <->
  (Z.of_nat n <= limit + Z.of_nat k - 1)%Z.
Proof.
  intros Hs Hv Hd Ho Hl Hk Hc. split.
  - intros (s' & Hr & He & Hn). apply (quota_steps_bounded _ _ org limit) in Hr as [_ Hb]; [|done..].
    revert Hb. unfold total, exempted. simpl. rewrite He, !org_count_nil. lia.
  - intros Hn. destruct (decide (n <= org_count (nq_OrganizationLabel v) org nss)) as [Hle|Hgt].
    + destruct (org_count_suffix (nq_OrganizationLabel v) org nss n Hle) as (l1 & l2 & -> & Hl2).
      exists {| q_namespaces := l2; q_pending := []; q_exempt := [] |}. by split_and!; [apply delete_first|..].
    + set (c := org_count (nq_OrganizationLabel v) org nss) in *. set (new := new_namespaces v org (n - c)).
      exists {| q_namespaces := reverse new ++ nss; q_pending := []; q_exempt := [] |}. split_and!; [|done|].
      * etrans; [|apply commit_all]. eapply admit_many; [done..|lia| |].
        -- unfold new, new_namespaces. rewrite length_fmap, length_seq. lia.
        -- apply Forall_fmap, Forall_forall. intros i _. simpl. apply lookup_singleton_eq.
      * simpl. rewrite org_count_app, org_count_reverse. unfold new. rewrite new_namespaces_count. lia.
Qed.

End properties.

(** ** The theorems on the example cluster *)
Import Fake.
#[local] Existing Instances ex_decoder ex_users ex_profiles ex_configmaps.

Lemma ex_organization : quota_organization ex_validator ex_request ex_object "acme".
Proof. apply (org_from_label _ _ _ "acme" true); by vm_compute. Qed.

Lemma ex_limit : quota_limit ex_validator "acme" 5.
Proof.
  eapply limit_override; [|reflexivity|by vm_compute|by vm_compute].
  by eapply (base_profile ex_validator).
Qed.

Lemma quota_decision_witness :
  resp_Allowed (NamespaceQuotaValidator_handle (LN := cluster_list ex_namespaces)
    ex_validator ex_request) = true.
Proof.
  refine (proj2 (quota_decision (LN := cluster_list ex_namespaces) ex_validator ex_request
    eq_refl) _).
  exists ex_object, "acme". split; [reflexivity|]. split; [exact ex_organization|]. right.
  exists 5%Z, ex_namespaces. repeat split. exact ex_limit.
Defined.

Lemma quota_skip_validation_witness :
  let v := {| nq_Skipper := fun _ => (false, None); nq_SkipValidateQuota := true;
              nq_OrganizationLabel := "organization"; nq_UserDefaultOrganizationAnnotation := "";
              nq_SelectedProfile := ""; nq_QuotaOverrideNamespace := "";
              nq_EnableLegacyNamespaceQuota := false; nq_LegacyNamespaceQuota := 0 |} in
  resp_Allowed (NamespaceQuotaValidator_handle (LN := cluster_list []) v ex_request) = true.
Proof.
  intros v. refine (proj2 (quota_skip_validation (LN := cluster_list []) v ex_request
    eq_refl eq_refl) _).
  exists ex_object, "acme". split; [reflexivity|].
  apply (org_from_label _ _ _ "acme" true); by vm_compute.
Defined.

(** One admission, starting from four of five namespaces. *)
Definition ex_four : list Namespace := [ex_namespace "a" "acme"; ex_namespace "b" "acme";
  ex_namespace "c" "acme"; ex_namespace "d" "acme"].

Lemma quota_bounded_witness :
  let s' := {| q_namespaces := ex_four; q_pending := [ex_namespace "e" "acme"]; q_exempt := [] |} in
  (total ex_validator "acme" s' <= 5)%Z.
Proof.
  intros s'. refine (quota_bounded ex_validator 1 "acme" 5
    {| q_namespaces := ex_four; q_pending := []; q_exempt := [] |} s' eq_refl ex_limit _).
  apply rtc_once, (step_admit ex_validator 1 ex_four [] [] ex_request ex_object "acme");
    [simpl; lia|reflexivity|reflexivity|exact ex_organization|reflexivity|by vm_compute].
Defined.

(** With two creations in flight at a time an organization that may have five namespaces gets six,
    and cannot get seven. *)
Lemma quota_race_witness :
  (exists s', rtc (quota_step ex_validator 2) {| q_namespaces := ex_four; q_pending := []; q_exempt := [] |} s' /\
    q_exempt s' = [] /\ org_count "organization" "acme" (q_namespaces s') = 6%nat) /\
  ~ (exists s', rtc (quota_step ex_validator 2) {| q_namespaces := ex_four; q_pending := []; q_exempt := [] |} s' /\
    q_exempt s' = [] /\ org_count "organization" "acme" (q_namespaces s') = 7%nat).
Proof.
  pose proof (fun n => quota_race ex_validator 2 ex_request ex_object "acme" 5 ex_four n eq_refl eq_refl
    eq_refl ex_organization ex_limit ltac:(lia) eq_refl) as Hrace.
  split; [apply Hrace; lia|]. intros H%Hrace. lia.
Defined.
