(* ===== verification/ProjectOrganization.v ===== *)
(** * The organization of namespaces and projects
    (webhooks/namespace_project_organization_mutator.go)

    The webhook that adds the organization label to namespaces and projects and denies those
    whose requester does not belong to the organization. *)
From S2P Require Import Prelude GoStd Kube Fake Skipper Api Webhook.

Record NamespaceProjectOrganizationMutator := {
  npo_Skipper : Skipper;
  npo_OrganizationLabel : string;
  npo_UserDefaultOrganizationAnnotation : string;
}.

Definition OpenShiftProjectRequesterAnnotation : string := "openshift.io/requester".

Section handler.
Context `{AdmissionLib} `{ApiErrors} `{UnstructuredLib} `{Decoder json}.
Context `{ClientGet User} `{ClientGet Group} `{ClientGet Namespace}.
Implicit Types (m : NamespaceProjectOrganizationMutator) (req : AdmissionRequest).

(** A JSON patch operation that adds the organization label with value [org]. *)
Definition orgLabelPatch m (objToPatch : json) (org : string) : Operation :=
  match u_NestedStringMap objToPatch ["metadata"; "labels"] with
  | (_, true, _) =>
      {| op_Operation := "add";
         op_Path := "/" +:+ strings.Join
           ["metadata"; "labels"; escapeJSONPointerSegment (npo_OrganizationLabel m)] "/";
         op_Value := JStr org |}
  | (_, false, _) =>
      {| op_Operation := "add";
         op_Path := "/metadata/labels";
         op_Value := json_of_map {[npo_OrganizationLabel m := org]} |}
  end.

(** [Get] leaves the zero value when the group is not found. *)
Definition get_group_or_zero (org : string) : error + Group :=
  match client_Get (T := Group) (name_key org) with
  | inr group => inr group
  | inl err => match client_IgnoreNotFound (Some err) with
               | Some e => inl err
               | None => inr {| group_Name := ""; group_Users := [] |}
               end
  end.

Definition handleUserRequested m (userName : string) (rawObject : json) : AdmissionResponse :=
  try user <- client_Get (T := User) (name_key userName) catch err =>
    admission_Errored StatusInternalServerError
      (WrapError ("failed to get user " +:+ userName +:+ ": ") err "");;
  let labelled := map_get (u_GetLabels rawObject) (npo_OrganizationLabel m) in
  let defaultOrgAdded := bool_decide (labelled = "") in
  let org := if defaultOrgAdded
             then nilmap_get (user_Annotations user) (npo_UserDefaultOrganizationAnnotation m)
             else labelled in
  if bool_decide (org = "")
  then admission_Denied "No organization label found and no default organization set" else
  try group <- get_group_or_zero org catch err =>
    admission_Errored StatusInternalServerError (WrapError "failed to get group: " err "");;
  if negb (slices.Contains (group_Users group) userName)
  then admission_Denied "Requester is not a member of the organization" else
  if defaultOrgAdded
  then admission_Patched "added default organization" [orgLabelPatch m rawObject org]
  else admission_Allowed "Requester is member of organization".

Definition handleServiceAccountNamespace m req (rawObject : json) : AdmissionResponse :=
  let username := Username (req_UserInfo req) in
  match strings.Split username ":" with
  | [_; _; nsName; _] =>
    try ns <- client_Get (T := Namespace) (name_key nsName) catch err =>
      admission_Errored StatusInternalServerError
        (WrapError ("failed to get namespace " +:+ nsName +:+ " for service account " +:+
                    username +:+ ": ") err "");;
    let nsOrg := map_get (ns_Labels ns) (npo_OrganizationLabel m) in
    if bool_decide (nsOrg = "")
    then admission_Denied "No organization label found for the service accounts namespace" else
    let requestedOrg := map_get (u_GetLabels rawObject) (npo_OrganizationLabel m) in
    if negb (bool_decide (requestedOrg = "")) && negb (bool_decide (requestedOrg = nsOrg))
    then admission_Denied
      "Service accounts are not allowed to use organizations other than the one of their namespace."
    else if bool_decide (requestedOrg = "")
    then admission_Patched "added organization label" [orgLabelPatch m rawObject nsOrg]
    else admission_Allowed "service account may use the organization of its namespace"
  | _ => admission_Errored StatusUnprocessableEntity
      (ErrorString ("invalid service account name: " +:+ username +:+ ", expected 4 segments"))
  end.

Definition handleProject m (rawObject : json) : AdmissionResponse :=
  let userName := map_get (u_GetAnnotations rawObject) OpenShiftProjectRequesterAnnotation in
  if bool_decide (userName = "")
  then admission_Allowed "Skipped: no requester annotation found"
  else if strings.HasPrefix userName "system:serviceaccount:"
  then admission_Denied "Service accounts are not allowed to create projects"
  else handleUserRequested m userName rawObject.

Definition handleNamespace m req (rawObject : json) : AdmissionResponse :=
  if strings.HasPrefix (Username (req_UserInfo req)) "system:serviceaccount:"
  then handleServiceAccountNamespace m req rawObject
  else handleUserRequested m (Username (req_UserInfo req)) rawObject.

Definition is_project req : bool := bool_decide (gvk_Kind (req_Kind req) = "Project").

Definition NamespaceProjectOrganizationMutator_handle m req : AdmissionResponse :=
  match npo_Skipper m req with
  | (_, Some err) => admission_Errored StatusInternalServerError
                       (WrapError "error while checking skipper: " err "")
  | (skip, None) =>
    if skip && negb (is_project req) then admission_Allowed "skipped" else
    try rawObject <- Decode (T := json) req catch err =>
      admission_Errored StatusBadRequest
        (WrapError "failed to decode object from request: " err "");;
    if is_project req then handleProject m rawObject
    else handleNamespace m req rawObject
  end.

Definition NamespaceProjectOrganizationMutator_Handle m req :=
  logAdmissionResponse (NamespaceProjectOrganizationMutator_handle m req).

(** ** Specification *)

(** Who asks for the object, and the organization the object names itself. *)
Definition requester req (rawObject : json) : string :=
  if is_project req then map_get (u_GetAnnotations rawObject) OpenShiftProjectRequesterAnnotation
  else Username (req_UserInfo req).

Definition requested_org m (rawObject : json) : string :=
  map_get (u_GetLabels rawObject) (npo_OrganizationLabel m).

Definition is_service_account (name : string) : bool :=
  strings.HasPrefix name "system:serviceaccount:".

(** The requester may create the object in the organization [org]. *)
Inductive authorized m req (rawObject : json) : string -> Prop :=
| auth_member user group org :
    is_service_account (requester req rawObject) = false ->
    client_Get (name_key (requester req rawObject)) = inr user ->
    (requested_org m rawObject = org \/
     requested_org m rawObject = "" /\
     nilmap_get (user_Annotations user) (npo_UserDefaultOrganizationAnnotation m) = org) ->
    org <> "" -> client_Get (name_key org) = inr group ->
    requester req rawObject ∈ group_Users group ->
    authorized m req rawObject org
| auth_service_account a b nsName c ns org :
    is_project req = false -> is_service_account (requester req rawObject) = true ->
    strings.Split (requester req rawObject) ":" = [a; b; nsName; c] ->
    client_Get (name_key nsName) = inr ns ->
    map_get (ns_Labels ns) (npo_OrganizationLabel m) = org -> org <> "" ->
    (requested_org m rawObject = org \/ requested_org m rawObject = "") ->
    authorized m req rawObject org.
End handler.

(** ** An example cluster

    [alice] is a member of [acme], which is her default organization, and the namespace [ci]
    belongs to [acme]. *)
Definition po_metadata : gmap string json :=
  {["labels" := JObj {["env" := JStr "prod"]};
    "annotations" := JObj {[OpenShiftProjectRequesterAnnotation := JStr "mallory"]}]}.

Definition po_object : json := JObj {["metadata" := JObj po_metadata]}.

Definition po_decoder : Decoder json := {|
  Decode := fun _ => inr po_object; DecodeRaw := fun _ => inr po_object |}.

Definition po_users : ClientGet User := fun k =>
  inr {| user_Name := key_Name k; user_Annotations := Some {["default-organization" := "acme"]} |}.

Definition po_groups : ClientGet Group := fun k =>
  if bool_decide (key_Name k = "acme")
  then inr {| group_Name := "acme"; group_Users := ["alice"] |}
  else inl (StatusError ReasonNotFound "not found").

Definition po_namespaces : ClientGet Namespace := fun k =>
  inr {| ns_Name := key_Name k; ns_Labels := {["organization" := "acme"]};
         ns_Annotations := ∅; ns_DeletionTimestamp := None |}.

Definition po_mutator (skip : bool) : NamespaceProjectOrganizationMutator := {|
  npo_Skipper := fun _ => (skip, None);
  npo_OrganizationLabel := "organization";
  npo_UserDefaultOrganizationAnnotation := "default-organization";
|}.

Definition po_request (kind user : string) : AdmissionRequest := {|
  req_Kind := {| gvk_Group := ""; gvk_Version := "v1"; gvk_Kind := kind |};
  req_Name := "c"; req_Namespace := "c"; req_Operation := Create;
  req_UserInfo := {| Username := user; Groups := [] |};
  req_Object := "{}"; req_OldObject := "";
|}.

(** ** Lemmas *)

Lemma Split_service_account ns name :
  strings.ContainsRune ns ":" = false -> strings.ContainsRune name ":" = false ->
  strings.Split ("system:serviceaccount:" +:+ ns +:+ ":" +:+ name) ":" =
  ["system"; "serviceaccount"; ns; name].
Proof.
  intros Hns Hname. change ("system:serviceaccount:" +:+ ns +:+ ":" +:+ name) with
    ("system" +:+ String ":" ("serviceaccount" +:+ String ":" (ns +:+ String ":" name))).
  by rewrite !Split_app_sep, !Split_single.
Qed.

Section lemmas.
Context `{AdmissionLaws} `{ApiErrorsLaws} `{UnstructuredLaws} `{Decoder json}.
Context `{ClientGet User} `{ClientGet Group} `{ClientGet Namespace}.
Implicit Types (m : NamespaceProjectOrganizationMutator) (req : AdmissionRequest).

(** Applying the patch sets the label and keeps the others. *)
Lemma orgLabelPatch_correct m raw org md :
  json_path ["metadata"] raw = Some (JObj md) ->
  exists patched, apply_patch [orgLabelPatch m raw org] raw = Some patched /\
    u_GetLabels patched = <[npo_OrganizationLabel m := org]> (u_GetLabels raw).
Proof.
  intros Hmd. rewrite apply_patch_single. unfold orgLabelPatch.
  destruct (u_NestedStringMap raw _) as [[ls []] e] eqn:E.
  - pose proof (NestedStringMap_found _ _ _ _ E) as [Hp _].
    destruct (json_add_entry _ (npo_OrganizationLabel m) org _ _ Hp) as (j' & Ha & Hp').
    exists j'. rewrite (apply_op_add _ ["metadata"; "labels"; npo_OrganizationLabel m]).
    + split; [done|]. rewrite (GetLabels_path _ _ Hp'), (GetLabels_path _ _ Hp). done.
    + apply (parse_pointer_escaped "metadata/labels").
  - destruct (json_add_map ["metadata"] "labels" {[npo_OrganizationLabel m := org]} _ _ Hmd)
      as (j' & Ha & Hp').
    exists j'. rewrite (apply_op_add _ ["metadata"; "labels"]) by done. split; [done|].
    rewrite (GetLabels_path _ _ Hp'), GetLabels_spec, E. done.
Qed.

(** Reading a group that does not exist gives a group without users. *)
Lemma get_group_or_zero_users org group u :
  get_group_or_zero org = inr group -> u ∈ group_Users group ->
  client_Get (name_key org) = inr group.
Proof.
  unfold get_group_or_zero. destruct (client_Get _) as [err|g] eqn:E; [|congruence].
  destruct (client_IgnoreNotFound _); [done|]. intros [= <-] Hin. by apply not_elem_of_nil in Hin.
Qed.

Lemma get_group_or_zero_found org group :
  client_Get (name_key org) = inr group -> get_group_or_zero org = inr group.
Proof. unfold get_group_or_zero. by intros ->. Qed.

(** The responses to a request made by a user. *)
Lemma handleUserRequested_allowed m req raw :
  is_service_account (requester req raw) = false ->
  resp_Allowed (handleUserRequested m (requester req raw) raw) = true ->
  exists org, authorized m req raw org /\
    (requested_org m raw = org /\
       resp_Patches (handleUserRequested m (requester req raw) raw) = [] \/
     requested_org m raw = "" /\
       resp_Patches (handleUserRequested m (requester req raw) raw) = [orgLabelPatch m raw org]).
Proof.
  intros Hsa. unfold handleUserRequested. fold (requested_org m raw).
  destruct (client_Get _) as [|user] eqn:Eu; [by rewrite admission_Errored_denied|].
  set (org := if bool_decide (requested_org m raw = "")
    then nilmap_get (user_Annotations user) (npo_UserDefaultOrganizationAnnotation m)
    else requested_org m raw).
  destruct (bool_decide (org = "")) eqn:Eo; [by rewrite admission_Denied_denied|].
  apply bool_decide_eq_false in Eo.
  destruct (get_group_or_zero org) as [|group] eqn:Eg; [by rewrite admission_Errored_denied|].
  destruct (slices.Contains _ _) eqn:Ec; simpl; [|by rewrite admission_Denied_denied].
  apply slices_Contains_spec in Ec. pose proof (get_group_or_zero_users _ _ _ Eg Ec) as Hg.
  intros _. exists org. subst org. case_bool_decide as Hd.
  - rewrite admission_Patched_patches. split; [|by right].
    by apply (auth_member _ _ _ user group); try done; right.
  - rewrite admission_Allowed_patches. split; [|by left].
    by apply (auth_member _ _ _ user group); try done; left.
Qed.

Lemma handleUserRequested_complete m req raw org :
  authorized m req raw org -> is_service_account (requester req raw) = false ->
  resp_Allowed (handleUserRequested m (requester req raw) raw) = true.
Proof.
  intros [user group org' _ Hu Ho Hne Hg Hin|? ? ? ? ? ? _ Hsa]; [|congruence]. intros _. clear org.
  rename org' into org.
  unfold handleUserRequested. fold (requested_org m raw). rewrite Hu.
  assert ((if bool_decide (requested_org m raw = "")
    then nilmap_get (user_Annotations user) (npo_UserDefaultOrganizationAnnotation m)
    else requested_org m raw) = org) as ->.
  { destruct Ho as [Ho|[Ho <-]]; [by rewrite bool_decide_eq_false_2; congruence|].
    by rewrite bool_decide_eq_true_2. }
  rewrite bool_decide_eq_false_2, (get_group_or_zero_found _ _ Hg) by done.
  rewrite (proj2 (slices_Contains_spec _ _) Hin). simpl. case_bool_decide; auto with agent.
Qed.

(** The responses to a request made by a service account. *)
Lemma handleServiceAccount_allowed m req raw :
  is_project req = false -> is_service_account (Username (req_UserInfo req)) = true ->
  resp_Allowed (handleServiceAccountNamespace m req raw) = true ->
  exists org, authorized m req raw org /\
    (requested_org m raw = org /\ resp_Patches (handleServiceAccountNamespace m req raw) = [] \/
     requested_org m raw = "" /\
       resp_Patches (handleServiceAccountNamespace m req raw) = [orgLabelPatch m raw org]).
Proof.
  intros Hp Hsa. unfold handleServiceAccountNamespace. fold (requested_org m raw).
  destruct (strings.Split _ _) as [|a [|b [|nsName [|c [|]]]]] eqn:Es;
    try by rewrite admission_Errored_denied.
  destruct (client_Get _) as [|ns] eqn:En; [by rewrite admission_Errored_denied|].
  case_bool_decide as Ho; [by rewrite admission_Denied_denied|].
  assert (requester req raw = Username (req_UserInfo req)) as Hr by (unfold requester; by rewrite Hp).
  destruct (decide (requested_org m raw = "")) as [Hq|Hq].
  - rewrite (bool_decide_eq_true_2 _ Hq). simpl. intros _. eexists. split; [|right; split; [done|]].
    + by apply (auth_service_account _ _ _ a b nsName c ns); rewrite ?Hr; try done; right.
    + by rewrite admission_Patched_patches.
  - rewrite (bool_decide_eq_false_2 _ Hq). simpl. case_bool_decide as Hn; simpl;
      [|by rewrite admission_Denied_denied].
    intros _. eexists. split; [|left; split; [done|by rewrite admission_Allowed_patches]].
    by apply (auth_service_account _ _ _ a b nsName c ns); rewrite ?Hr; try done; left.
Qed.

Lemma handleServiceAccount_complete m req raw org :
  authorized m req raw org -> is_project req = false ->
  is_service_account (Username (req_UserInfo req)) = true ->
  resp_Allowed (handleServiceAccountNamespace m req raw) = true.
Proof.
  intros Ha Hp Hsa.
  assert (requester req raw = Username (req_UserInfo req)) as Hr by (unfold requester; by rewrite Hp).
  destruct Ha as [user group org Hn|a b nsName c ns org _ _ Hs Hg Ho Hne Hq]; [congruence|].
  unfold handleServiceAccountNamespace. fold (requested_org m raw).
  rewrite Hr in Hs. rewrite Hs, Hg, Ho, bool_decide_eq_false_2 by done.
  destruct Hq as [->| ->].
  - rewrite bool_decide_eq_false_2, bool_decide_eq_true_2 by done. simpl. auto with agent.
  - rewrite bool_decide_eq_true_2 by done. simpl. auto with agent.
Qed.

(** The object after the patches of an allowed response. *)
Lemma label_after_patches m raw org md ops :
  json_path ["metadata"] raw = Some (JObj md) -> org <> "" ->
  requested_org m raw = org /\ ops = [] \/
    requested_org m raw = "" /\ ops = [orgLabelPatch m raw org] ->
  exists patched, apply_patch ops raw = Some patched /\
    u_GetLabels patched = <[npo_OrganizationLabel m := org]> (u_GetLabels raw).
Proof.
  intros Hmd Ho [[Hr ->]|[Hr ->]]; [|by eapply orgLabelPatch_correct].
  exists raw. split; [done|]. symmetry. apply insert_id. by apply map_get_nonempty.
Qed.

Lemma authorized_nonempty m req raw org : authorized m req raw org -> org <> "".
Proof. by intros []. Qed.
End lemmas.

(** ** Properties *)
Section properties.
Context `{AdmissionLaws} `{ApiErrorsLaws} `{UnstructuredLaws} `{Decoder json}.
Context `{ClientGet User} `{ClientGet Group} `{ClientGet Namespace}.
Implicit Types (m : NamespaceProjectOrganizationMutator) (req : AdmissionRequest).

Lemma handle_checked m req raw skip :
  npo_Skipper m req = (skip, None) -> skip = false \/ is_project req = true ->
  Decode req = inr raw ->
  NamespaceProjectOrganizationMutator_handle m req =
  if is_project req then handleProject m raw else handleNamespace m req raw.
Proof.
  intros Hs Hp Hd. unfold NamespaceProjectOrganizationMutator_handle. rewrite Hs, Hd.
  by destruct skip, (is_project req), Hp.
Qed.

(** A project that no user asked for is let through. *)
Lemma handle_cases m req raw :
  (if is_project req then handleProject m raw else handleNamespace m req raw) =
  if is_project req && bool_decide (requester req raw = "")
  then admission_Allowed "Skipped: no requester annotation found"
  else if is_service_account (requester req raw)
  then if is_project req
       then admission_Denied "Service accounts are not allowed to create projects"
       else handleServiceAccountNamespace m req raw
  else handleUserRequested m (requester req raw) raw.
Proof.
  unfold handleProject, handleNamespace, requester, is_service_account.
  by destruct (is_project req).
Qed.

(** C7: a request that is checked (the skipper does not exempt it, or it is for a project) is
    allowed exactly when it is for a project that nobody requested, or the requester is
    authorized for an organization: a member of the organization's group, or a service account
    of a namespace of that organization (service accounts never for projects). *)
Theorem organization_decision m req raw skip :
  npo_Skipper m req = (skip, None) -> skip = false \/ is_project req = true ->
  Decode req = inr raw ->
  resp_Allowed (NamespaceProjectOrganizationMutator_handle m req) = true <->
  (is_project req = true /\ requester req raw = "") \/ exists org, authorized m req raw org.
Proof.
  intros Hs Hp Hd. rewrite (handle_checked m req raw skip), handle_cases by done.
  destruct (is_project req && _) eqn:E0.
  { apply andb_true_iff in E0 as [? ?%bool_decide_eq_true]. split; auto with agent. }
  apply andb_false_iff in E0. rewrite bool_decide_eq_false in E0.
  destruct (is_service_account (requester req raw)) eqn:Esa.
  - destruct (is_project req) eqn:Epr.
    + rewrite admission_Denied_denied. split; [done|].
      intros [[_ ?]|[org [user group ? ?|]]]; [destruct E0|..]; congruence.
    + unfold requester in Esa. rewrite Epr in Esa. split.
      * intros (org & ? & _)%handleServiceAccount_allowed; eauto.
      * intros [[? _]|[org Ha]]; [done|]. by eapply handleServiceAccount_complete.
  - split.
    + intros (org & ? & _)%handleUserRequested_allowed; eauto.
    + intros [[? ?]|[org Ha]]; [destruct E0; congruence|]. by eapply handleUserRequested_complete.
Qed.

(** Whatever is allowed belongs to an organization its requester is authorized for: the
    patches of the response apply to the object, and the result carries the label of that
    organization and every other label the object came with. *)
Theorem organization_label m req raw skip md :
  npo_Skipper m req = (skip, None) -> skip = false \/ is_project req = true ->
  Decode req = inr raw -> json_path ["metadata"] raw = Some (JObj md) ->
  requester req raw <> "" ->
  resp_Allowed (NamespaceProjectOrganizationMutator_handle m req) = true ->
  exists org patched, authorized m req raw org /\
    apply_patch (resp_Patches (NamespaceProjectOrganizationMutator_handle m req)) raw = Some patched /\
    u_GetLabels patched = <[npo_OrganizationLabel m := org]> (u_GetLabels raw).
Proof.
  intros Hs Hp Hd Hmd Hr. rewrite (handle_checked m req raw skip), handle_cases by done.
  rewrite (bool_decide_eq_false_2 _ Hr), andb_false_r.
  destruct (is_service_account (requester req raw)) eqn:Esa.
  - destruct (is_project req) eqn:Epr; [by rewrite admission_Denied_denied|].
    unfold requester in Esa. rewrite Epr in Esa.
    intros (org & Ha & Hops)%handleServiceAccount_allowed; [|done..].
    destruct (label_after_patches m raw org md _ Hmd (authorized_nonempty _ _ _ _ Ha) Hops)
      as (patched & ? & ?). eauto.
  - intros (org & Ha & Hops)%handleUserRequested_allowed; [|done].
    destruct (label_after_patches m raw org md _ Hmd (authorized_nonempty _ _ _ _ Ha) Hops)
      as (patched & ? & ?). eauto.
Qed.

(** A service account can create namespaces only in the organization of its own namespace:
    the name that the API server gives the account [name] of namespace [ns] makes the webhook
    read [ns], and the result carries that namespace's organization. *)
Theorem organization_service_account m req raw md ns name skip :
  npo_Skipper m req = (skip, None) -> skip = false -> is_project req = false ->
  Decode req = inr raw -> json_path ["metadata"] raw = Some (JObj md) ->
  Username (req_UserInfo req) = "system:serviceaccount:" +:+ ns +:+ ":" +:+ name ->
  strings.ContainsRune ns ":" = false -> strings.ContainsRune name ":" = false ->
  resp_Allowed (NamespaceProjectOrganizationMutator_handle m req) = true ->
  exists nsObj org patched, client_Get (name_key ns) = inr nsObj /\
    ns_Labels nsObj !! npo_OrganizationLabel m = Some org /\
    apply_patch (resp_Patches (NamespaceProjectOrganizationMutator_handle m req)) raw = Some patched /\
    u_GetLabels patched !! npo_OrganizationLabel m = Some org.
Proof.
  intros Hs Hsk Hp Hd Hmd Hu Hns Hname.
  assert (is_service_account (Username (req_UserInfo req)) = true) as Hsa.
  { unfold is_service_account. rewrite Hu. apply HasPrefix_app. }
  rewrite (handle_checked m req raw skip), handle_cases, Hp by auto. unfold requester.
  rewrite Hp, Hsa. simpl.
  intros (org & Ha & Hops)%handleServiceAccount_allowed; [|done..].
  destruct (label_after_patches m raw org md _ Hmd (authorized_nonempty _ _ _ _ Ha) Hops)
    as (patched & Hpatch & Hlabels).
  destruct Ha as [user group org Hn|a b nsName c nsObj org _ _ Hsplit Hg Ho Hne _];
    unfold requester in *; rewrite Hp in *; [congruence|].
  rewrite Hu, (Split_service_account ns name Hns Hname) in Hsplit. simplify_eq.
  exists nsObj, (map_get (ns_Labels nsObj) (npo_OrganizationLabel m)), patched.
  rewrite Hlabels, lookup_insert_eq. auto with agent.
Qed.

(** Project requests are never exempt: for them the answer is the same whether the skipper
    exempts the requester or not.  In particular switching the webhook off, which the agent
    does with a skipper that always exempts, leaves projects checked. *)
Theorem organization_projects_not_skipped m req :
  is_project req = true -> npo_Skipper m req = (true, None) ->
  NamespaceProjectOrganizationMutator_handle m req =
  NamespaceProjectOrganizationMutator_handle
    {| npo_Skipper := fun _ => (false, None);
       npo_OrganizationLabel := npo_OrganizationLabel m;
       npo_UserDefaultOrganizationAnnotation := npo_UserDefaultOrganizationAnnotation m |} req.
Proof.
  intros Hp Hs. unfold NamespaceProjectOrganizationMutator_handle. simpl. rewrite Hs, Hp. simpl.
  by destruct (Decode req).
Qed.
End properties.

(** ** The theorems on the example cluster *)
Import Fake.
#[local] Existing Instances po_decoder po_users po_groups po_namespaces.

Lemma organization_decision_witness :
  resp_Allowed (NamespaceProjectOrganizationMutator_handle (po_mutator false)
    (po_request "Namespace" "alice")) = true.
Proof.
  refine (proj2 (organization_decision (po_mutator false) (po_request "Namespace" "alice")
    po_object false eq_refl (or_introl eq_refl) eq_refl) _).
  right. exists "acme". eapply (auth_member _ _ _ _ {| group_Name := "acme"; group_Users := ["alice"] |});
    [by vm_compute|reflexivity|right; split; by vm_compute|by vm_compute|reflexivity|].
  apply list_elem_of_here.
Defined.

Lemma organization_label_witness :
  exists org patched,
    authorized (po_mutator false) (po_request "Namespace" "alice") po_object org /\
    apply_patch (resp_Patches (NamespaceProjectOrganizationMutator_handle (po_mutator false)
      (po_request "Namespace" "alice"))) po_object = Some patched /\
    u_GetLabels patched = <["organization" := org]> (u_GetLabels po_object).
Proof.
  apply (organization_label (po_mutator false) (po_request "Namespace" "alice") po_object false
    po_metadata); [reflexivity|by left|reflexivity|reflexivity|by vm_compute|by vm_compute].
Defined.

Lemma organization_service_account_witness :
  exists nsObj org patched, client_Get (name_key "ci") = inr nsObj /\
    ns_Labels nsObj !! "organization" = Some org /\
    apply_patch (resp_Patches (NamespaceProjectOrganizationMutator_handle (po_mutator false)
      (po_request "Namespace" "system:serviceaccount:ci:builder"))) po_object = Some patched /\
    u_GetLabels patched !! "organization" = Some org.
Proof.
  apply (organization_service_account (po_mutator false)
    (po_request "Namespace" "system:serviceaccount:ci:builder") po_object po_metadata
    "ci" "builder" false); try reflexivity; by vm_compute.
Defined.

(** The project that [mallory] asks for is denied although the skipper exempts the request. *)
Lemma organization_projects_not_skipped_witness :
  NamespaceProjectOrganizationMutator_handle (po_mutator true) (po_request "Project" "sys") =
  NamespaceProjectOrganizationMutator_handle (po_mutator false) (po_request "Project" "sys") /\
  resp_Allowed (NamespaceProjectOrganizationMutator_handle (po_mutator true)
    (po_request "Project" "sys")) = false.
Proof.
  split; [|by vm_compute].
  apply (organization_projects_not_skipped (po_mutator true) (po_request "Project" "sys"));
    reflexivity.
Defined.
