(* ===== verification/NamespaceMetadata.v ===== *)
(** * The metadata of namespaces (webhooks/namespace_metadata_validator.go)

    The webhook that denies requests for reserved namespaces and changes of annotations and
    labels that are not on the configured lists. *)
From S2P Require Import Prelude GoStd Kube Fake Skipper Webhook.

Record NamespaceMetadataValidator := {
  nm_Skipper : Skipper;
  nm_ReservedNamespaces : list string;
  nm_AllowedAnnotations : list string;
  nm_AllowedLabels : list string;
}.

Section handler.
Context `{RangeOracle} `{AdmissionLib} `{Multierr} `{Wildcard} `{SetsLib} `{UnstructuredLib}.
Context `{Decoder json}.

Definition tab : string := String (ascii_of_N 9) "".
Definition nl : string := String (ascii_of_N 10) "".

Definition formatDeniedMessage (err : error) (errMapRef : string) (allowed : list string)
    (newMap oldMap : gmap string string) : string :=
  "The request was denied:" +:+ nl +:+ tab +:+ errors.Error err +:+ nl +:+
  "The following " +:+ errMapRef +:+ " can be modified:" +:+ nl +:+ tab +:+
    fmt.Sprint_strings allowed +:+ nl +:+
  errMapRef +:+ " given:" +:+ nl +:+ tab +:+ fmt.Sprint_map newMap +:+ nl +:+
  errMapRef +:+ " before modification:" +:+ nl +:+ tab +:+ fmt.Sprint_map oldMap +:+ nl.

(** One of the two loops of [changedKeys]: the keys of [a] that [b] lacks or has another
    value for are inserted. *)
Definition insert_changed (l : list (string * string)) (b : gmap string string)
    (changed : gset string) : gset string :=
  foldl (fun changed '(k, v) =>
    match b !! k with
    | Some bV => if bool_decide (v <> bV) then {[k]} ∪ changed else changed
    | None => {[k]} ∪ changed
    end) changed l.

Definition changedKeys (a b : gmap string string) : list string :=
  let changed := insert_changed (range_map 0 a) b ∅ in
  let changed := insert_changed (range_map 1 b) a changed in
  sets_List changed.

Definition validateChangedMap (old new : gmap string string) (allowedKeys : list string)
    (errObjectRef : string) : option error :=
  let changed := changedKeys old new in
  let errs := foldl (fun errs k =>
    let allowed := slices.ContainsFunc allowedKeys (fun a => wildcard_Match a k) in
    if negb allowed
    then errs ++ [Some (ErrorString (errObjectRef +:+ " " +:+ strconv.Quote k +:+
                                     " is not allowed to be changed"))]
    else errs) [] changed in
  multierr_Combine errs.

(** The zero [unstructured.Unstructured]. *)
Definition zero_object : json := JObj ∅.

Definition NamespaceMetadataValidator_handle (v : NamespaceMetadataValidator)
    (req : AdmissionRequest) : AdmissionResponse :=
  match nm_Skipper v req with
  | (_, Some err) => admission_Errored StatusInternalServerError err
  | (true, None) => admission_Allowed "skipped"
  | (false, None) =>
    if existsb (fun ns => wildcard_Match ns (req_Name req)) (nm_ReservedNamespaces v)
    then admission_Denied "Changing or creating reserved namespaces is not allowed." else
    try oldObj <- (if bool_decide (req_OldObject req = "") then inr zero_object
                   else DecodeRaw (T := json) (req_OldObject req))
      catch err => admission_Errored StatusBadRequest
        (WrapError "failed to decode old object: " err "");;
    try newObj <- Decode (T := json) req
      catch err => admission_Errored StatusBadRequest
        (WrapError "failed to decode object from request: " err "");;
    match validateChangedMap (u_GetAnnotations oldObj) (u_GetAnnotations newObj)
            (nm_AllowedAnnotations v) "annotation" with
    | Some err => admission_Denied (formatDeniedMessage err "annotations"
        (nm_AllowedAnnotations v) (u_GetAnnotations newObj) (u_GetAnnotations oldObj))
    | None =>
      match validateChangedMap (u_GetLabels oldObj) (u_GetLabels newObj)
              (nm_AllowedLabels v) "label" with
      | Some err => admission_Denied (formatDeniedMessage err "labels"
          (nm_AllowedLabels v) (u_GetLabels newObj) (u_GetLabels oldObj))
      | None => admission_Allowed "allowed"
      end
    end
  end.

Definition NamespaceMetadataValidator_Handle v req :=
  logAdmissionResponse (NamespaceMetadataValidator_handle v req).

(** ** Specification *)

(** A key is on a list of patterns. *)
Definition key_allowed (patterns : list string) (k : string) : Prop :=
  exists a, a ∈ patterns /\ wildcard_Match a k = true.

(** All keys whose presence or value differ between the two maps are on the list. *)
Definition only_allowed_changes (patterns : list string) (old new : gmap string string) : Prop :=
  forall k, old !! k <> new !! k -> key_allowed patterns k.

(** The object before the change: none for a creation. *)
Inductive old_object (req : AdmissionRequest) : json -> Prop :=
| old_none : req_OldObject req = "" -> old_object req zero_object
| old_some raw : req_OldObject req <> "" -> DecodeRaw (req_OldObject req) = inr raw ->
    old_object req raw.
End handler.

(** ** An example: a namespace whose [team] label changes *)
Definition nm_new : json :=
  JObj {["metadata" := JObj {["labels" := JObj {["team" := JStr "b"; "env" := JStr "prod"]}]}]}.
Definition nm_old : json :=
  JObj {["metadata" := JObj {["labels" := JObj {["team" := JStr "a"; "env" := JStr "prod"]}]}]}.

Definition nm_decoder : Decoder json := {|
  Decode := fun _ => inr nm_new; DecodeRaw := fun _ => inr nm_old |}.

Definition nm_validator (labels : list string) : NamespaceMetadataValidator := {|
  nm_Skipper := fun _ => (false, None);
  nm_ReservedNamespaces := ["default"; "kube-*"];
  nm_AllowedAnnotations := [];
  nm_AllowedLabels := labels;
|}.

Definition nm_request (name : string) : AdmissionRequest := {|
  req_Kind := {| gvk_Group := ""; gvk_Version := "v1"; gvk_Kind := "Namespace" |};
  req_Name := name; req_Namespace := name; req_Operation := Update;
  req_UserInfo := {| Username := "alice"; Groups := [] |};
  req_Object := "{}"; req_OldObject := "{}";
|}.

(** ** Lemmas *)
Section lemmas.
Context `{RangeOracle} `{AdmissionLaws} `{MultierrLaws} `{Wildcard} `{SetsLaws}.
Context `{UnstructuredLib} `{Decoder json}.

Lemma insert_changed_elem l b changed k :
  k ∈ insert_changed l b changed <->
  k ∈ changed \/ exists v, (k, v) ∈ l /\ b !! k <> Some v.
Proof.
  unfold insert_changed. revert changed. induction l as [|[k' v] l IH]; intros changed; simpl.
  - split; [by left | intros [|(? & []%not_elem_of_nil & _)]; done].
  - rewrite IH. setoid_rewrite elem_of_cons.
    assert (k ∈ match b !! k' with
                | Some bV => if bool_decide (v <> bV) then {[k']} ∪ changed else changed
                | None => {[k']} ∪ changed
                end <-> k ∈ changed \/ k = k' /\ b !! k <> Some v) as ->.
    { destruct (b !! k') as [bV|] eqn:Eb; [case_bool_decide|]; set_solver. }
    naive_solver.
Qed.

Lemma changedKeys_elem a b k : k ∈ changedKeys a b <-> a !! k <> b !! k.
Proof.
  unfold changedKeys. rewrite sets_List_spec, Sort_perm, elem_of_elements, !insert_changed_elem.
  setoid_rewrite range_map_elem. split.
  - intros [[?%not_elem_of_empty|(v & -> & ?)]|(v & -> & ?)]; [done|congruence..].
  - intros Hne. destruct (a !! k) as [v|] eqn:Ea.
    + left. right. exists v. split; [done|congruence].
    + destruct (b !! k) as [v|] eqn:Eb; [|done]. right. exists v. done.
Qed.

Lemma changedKeys_sorted a b : StronglySorted String.le (changedKeys a b).
Proof. unfold changedKeys. rewrite sets_List_spec. apply Sort_sorted. Qed.

Lemma changedKeys_NoDup a b : NoDup (changedKeys a b).
Proof. unfold changedKeys. rewrite sets_List_spec, Sort_perm. apply NoDup_elements. Qed.

(** The errors collected for a list of keys. *)
Lemma collect_errors (f : string -> bool) (e : string -> error) l acc :
  foldl (fun errs k => if negb (f k) then errs ++ [Some (e k)] else errs) acc l =
  acc ++ ((fun k => Some (e k)) <$> filter (fun k => f k = false) l).
Proof.
  revert acc. induction l as [|k l IH]; intros acc; simpl; [by rewrite app_nil_r|].
  rewrite IH, filter_cons. destruct (f k); simpl; [done|].
  by rewrite <- app_assoc.
Qed.

Lemma validateChangedMap_none old new allowed ref :
  validateChangedMap old new allowed ref = None <-> only_allowed_changes allowed old new.
Proof.
  unfold validateChangedMap. rewrite collect_errors, multierr_Combine_nil. simpl.
  unfold only_allowed_changes, key_allowed. setoid_rewrite <- existsb_elem.
  rewrite Forall_fmap, Forall_forall. split.
  - intros Hall k Hk. apply changedKeys_elem in Hk.
    destruct (existsb _ allowed) eqn:E; [done|].
    assert (k ∈ filter (fun k => slices.ContainsFunc allowed (fun a => wildcard_Match a k) = false)
      (changedKeys old new)) as Hin by (apply list_elem_of_filter; done).
    by apply Hall in Hin.
  - intros Hall k [Hf Hk]%list_elem_of_filter. apply changedKeys_elem, Hall in Hk.
    unfold slices.ContainsFunc in Hf. congruence.
Qed.

Lemma old_object_spec req old :
  (if bool_decide (req_OldObject req = "") then inr zero_object
   else DecodeRaw (req_OldObject req)) = inr old <-> old_object req old.
Proof.
  case_bool_decide; split.
  - intros [= <-]. by constructor.
  - by intros [|].
  - intros. by constructor.
  - by intros [|].
Qed.
End lemmas.

(** ** Properties *)
Section properties.
Context `{RangeOracle} `{AdmissionLaws} `{MultierrLaws} `{Wildcard} `{SetsLaws}.
Context `{UnstructuredLib} `{Decoder json}.

(** [changedKeys] returns, in order and without duplicates, exactly the keys at which the
    two maps differ, in whatever order the maps are visited. *)
Theorem changedKeys_spec (a b : gmap string string) :
  StronglySorted String.le (changedKeys a b) /\ NoDup (changedKeys a b) /\
  forall k, k ∈ changedKeys a b <-> a !! k <> b !! k.
Proof.
  split; [apply changedKeys_sorted|]. split; [apply changedKeys_NoDup|]. intros k.
  apply changedKeys_elem.
Qed.

(** C23: a request that is not exempt is allowed exactly when the namespace is not reserved,
    both objects can be decoded, and every annotation and every label that is added, changed
    or removed is on the list for its kind. *)
Theorem metadata_decision v req :
  nm_Skipper v req = (false, None) ->
  resp_Allowed (NamespaceMetadataValidator_handle v req) = true <->
  ~ key_allowed (nm_ReservedNamespaces v) (req_Name req) /\
  exists old new, old_object req old /\ Decode req = inr new /\
    only_allowed_changes (nm_AllowedAnnotations v) (u_GetAnnotations old) (u_GetAnnotations new) /\
    only_allowed_changes (nm_AllowedLabels v) (u_GetLabels old) (u_GetLabels new).
Proof.
  intros Hs. unfold NamespaceMetadataValidator_handle, key_allowed. rewrite Hs, <- existsb_elem.
  setoid_rewrite <- old_object_spec.
  setoid_rewrite <- (validateChangedMap_none _ _ (nm_AllowedAnnotations v) "annotation").
  setoid_rewrite <- (validateChangedMap_none _ _ (nm_AllowedLabels v) "label"). split.
  - intros E. destruct (existsb _ _); [by rewrite admission_Denied_denied in E|].
    split; [done|].
    destruct (if bool_decide _ then _ else _) as [|old]; [by rewrite admission_Errored_denied in E|].
    destruct (Decode req) as [|new]; [by rewrite admission_Errored_denied in E|].
    destruct (validateChangedMap _ _ _ "annotation") eqn:Ea;
      [by rewrite admission_Denied_denied in E|].
    destruct (validateChangedMap _ _ _ "label") eqn:El;
      [by rewrite admission_Denied_denied in E|]. eauto 10.
  - intros [Hr (old & new & -> & -> & -> & ->)]. destruct (existsb _ _); [done|].
    auto with agent.
Qed.
End properties.

(** ** The theorem on the example *)
Import Fake.
#[local] Existing Instances nm_decoder.

Lemma metadata_decision_witness :
  resp_Allowed (NamespaceMetadataValidator_handle (nm_validator ["te*"]) (nm_request "web")) = true /\
  ~ only_allowed_changes ["app"] (u_GetLabels nm_old) (u_GetLabels nm_new).
Proof.
  split; [by vm_compute|]. intros Hall.
  assert (resp_Allowed (NamespaceMetadataValidator_handle (nm_validator ["app"]) (nm_request "web"))
    = true) as E; [|by vm_compute in E].
  refine (proj2 (metadata_decision (nm_validator ["app"]) (nm_request "web") eq_refl) _).
  split; [intros Hr%existsb_elem; by vm_compute in Hr|].
  exists nm_old, nm_new. split; [by constructor|]. split; [done|]. split; [|exact Hall].
  apply (validateChangedMap_none _ _ _ "annotation"). by vm_compute.
Defined.

Lemma changedKeys_spec_witness :
  "b" ∈ changedKeys {["a" := "1"; "b" := "2"]} {["a" := "1"; "b" := "3"]} /\
  StronglySorted String.le (changedKeys {["b" := "2"]} {["a" := "1"; "b" := "3"]}).
Proof.
  split; [|apply (changedKeys_spec {["b" := "2"]} {["a" := "1"; "b" := "3"]})].
  by apply (changedKeys_spec {["a" := "1"; "b" := "2"]} {["a" := "1"; "b" := "3"]}).
Defined.
