(* ===== verification/ReservedObjects.v ===== *)
(** * Reserved objects
    (webhooks/reserved_resourcequota_limitrange_validator.go, service_cloudscale_lb_validator.go)

    The webhooks that deny changes of the agent's own resource quotas and limit ranges, and of
    the load balancer annotation of services. *)
From S2P Require Import Prelude GoStd Kube Fake Skipper Webhook.

(** ** [ReservedResourceQuotaLimitRangeValidator] *)
Record ReservedResourceQuotaLimitRangeValidator := {
  rr_Skipper : Skipper;
  rr_ReservedResourceQuotaNames : list string;
  rr_ReservedLimitRangeNames : list string;
}.

Section reserved.
Context `{AdmissionLib}.

Definition ReservedResourceQuotaLimitRangeValidator_handle
    (v : ReservedResourceQuotaLimitRangeValidator) (req : AdmissionRequest) : AdmissionResponse :=
  match rr_Skipper v req with
  | (_, Some err) => admission_Errored StatusInternalServerError err
  | (true, None) => admission_Allowed "skipped"
  | (false, None) =>
    if bool_decide (gvk_Kind (req_Kind req) = "ResourceQuota") &&
       slices.Contains (rr_ReservedResourceQuotaNames v) (req_Name req)
    then admission_Denied "reserved ResourceQuota object"
    else if bool_decide (gvk_Kind (req_Kind req) = "LimitRange") &&
            slices.Contains (rr_ReservedLimitRangeNames v) (req_Name req)
    then admission_Denied "reserved LimitRange object"
    else admission_Allowed "allowed"
  end.

Definition ReservedResourceQuotaLimitRangeValidator_Handle v req :=
  logAdmissionResponse (ReservedResourceQuotaLimitRangeValidator_handle v req).
End reserved.

(** ** [ServiceCloudscaleLBValidator] *)
Definition CloudscaleLoadbalancerUUIDAnnotation : string := "k8s.cloudscale.ch/loadbalancer-uuid".

Record Service := { svc_Annotations : gmap string string }.

Record ServiceCloudscaleLBValidator := { lb_Skipper : Skipper }.

Section cloudscale.
Context `{AdmissionLib} `{Decoder Service}.

Definition ServiceCloudscaleLBValidator_handle (v : ServiceCloudscaleLBValidator)
    (req : AdmissionRequest) : AdmissionResponse :=
  match lb_Skipper v req with
  | (_, Some err) => admission_Errored StatusInternalServerError err
  | (true, None) => admission_Allowed "skipped"
  | (false, None) =>
    try newService <- Decode (T := Service) req
      catch err => admission_Errored StatusBadRequest err;;
    try oldService <- (if bool_decide (req_OldObject req = "") then inr {| svc_Annotations := ∅ |}
                       else DecodeRaw (T := Service) (req_OldObject req))
      catch err => admission_Errored StatusBadRequest err;;
    let oldAnnotiation := map_get (svc_Annotations oldService) CloudscaleLoadbalancerUUIDAnnotation in
    let newAnnotiation := map_get (svc_Annotations newService) CloudscaleLoadbalancerUUIDAnnotation in
    if negb (bool_decide (oldAnnotiation = newAnnotiation))
    then admission_Denied (CloudscaleLoadbalancerUUIDAnnotation +:+ " annotation cannot be changed")
    else admission_Allowed "allowed"
  end.

Definition ServiceCloudscaleLBValidator_Handle v req :=
  logAdmissionResponse (ServiceCloudscaleLBValidator_handle v req).

(** The service before the change: one without annotations when there is none. *)
Inductive old_service (req : AdmissionRequest) : Service -> Prop :=
| old_service_none : req_OldObject req = "" -> old_service req {| svc_Annotations := ∅ |}
| old_service_some s : req_OldObject req <> "" -> DecodeRaw (req_OldObject req) = inr s ->
    old_service req s.
End cloudscale.

(** ** Examples *)
Definition rr_request (kind name old : string) : AdmissionRequest := {|
  req_Kind := {| gvk_Group := ""; gvk_Version := "v1"; gvk_Kind := kind |};
  req_Name := name; req_Namespace := "web"; req_Operation := Update;
  req_UserInfo := {| Username := "alice"; Groups := [] |};
  req_Object := "{}"; req_OldObject := old;
|}.

Definition rr_validator : ReservedResourceQuotaLimitRangeValidator := {|
  rr_Skipper := fun _ => (false, None);
  rr_ReservedResourceQuotaNames := ["organization-compute"];
  rr_ReservedLimitRangeNames := ["organization"];
|}.

Definition lb_decoder : Decoder Service := {|
  Decode := fun _ => inr {| svc_Annotations := {[CloudscaleLoadbalancerUUIDAnnotation := "uuid"]} |};
  DecodeRaw := fun _ =>
    inr {| svc_Annotations := {[CloudscaleLoadbalancerUUIDAnnotation := "uuid"; "a" := "b"]} |};
|}.

Definition lb_validator : ServiceCloudscaleLBValidator := {| lb_Skipper := fun _ => (false, None) |}.

(** ** Properties *)

(** A request that is not exempt is denied exactly when it is for a resource quota or a
    limit range with one of the names reserved for that kind; a name reserved for one kind does
    not affect the other, and no other kind is ever denied. *)
Theorem reserved_decision `{AdmissionLaws} v req :
  rr_Skipper v req = (false, None) ->
  resp_Allowed (ReservedResourceQuotaLimitRangeValidator_handle v req) = false <->
  (gvk_Kind (req_Kind req) = "ResourceQuota" /\ req_Name req ∈ rr_ReservedResourceQuotaNames v) \/
  (gvk_Kind (req_Kind req) = "LimitRange" /\ req_Name req ∈ rr_ReservedLimitRangeNames v).
Proof.
  intros Hs. unfold ReservedResourceQuotaLimitRangeValidator_handle. rewrite Hs.
  rewrite <- !slices_Contains_spec.
  repeat case_bool_decide;
    destruct (slices.Contains (rr_ReservedResourceQuotaNames v) _),
      (slices.Contains (rr_ReservedLimitRangeNames v) _); simpl;
    autorewrite with agent; naive_solver.
Qed.

Lemma reserved_decision_witness :
  let _ := Fake.fake_admission in
  resp_Allowed (ReservedResourceQuotaLimitRangeValidator_handle rr_validator
    (rr_request "LimitRange" "organization" "")) = false.
Proof.
  refine (proj2 (@reserved_decision Fake.fake_admission Fake.fake_admission_laws rr_validator
    (rr_request "LimitRange" "organization" "") eq_refl) _).
  right. split; [reflexivity|]. apply list_elem_of_here.
Defined.

(** A request that is not exempt is allowed exactly when both services can be decoded and
    the load balancer annotation reads the same in both, where a service that does not exist
    yet, or has no such annotation, reads as the empty text. *)
Theorem cloudscale_decision `{AdmissionLaws} `{Decoder Service} v req :
  lb_Skipper v req = (false, None) ->
  resp_Allowed (ServiceCloudscaleLBValidator_handle v req) = true <->
  exists old new, old_service req old /\ Decode req = inr new /\
    map_get (svc_Annotations old) CloudscaleLoadbalancerUUIDAnnotation =
    map_get (svc_Annotations new) CloudscaleLoadbalancerUUIDAnnotation.
Proof.
  intros Hs. unfold ServiceCloudscaleLBValidator_handle. rewrite Hs. split.
  - intros E. destruct (Decode req) as [|new]; [by rewrite admission_Errored_denied in E|].
    destruct (if bool_decide (req_OldObject req = "") then _ else _) as [|old] eqn:Eo;
      [by rewrite admission_Errored_denied in E|]. exists old, new. split_and!; [|done|].
    + clear E. revert Eo. case_bool_decide; intros; simplify_eq; by constructor.
    + destruct (decide (map_get (svc_Annotations old) CloudscaleLoadbalancerUUIDAnnotation =
        map_get (svc_Annotations new) CloudscaleLoadbalancerUUIDAnnotation)) as [|Hne]; [done|].
      rewrite (bool_decide_eq_false_2 _ Hne) in E. simpl in E.
      by rewrite admission_Denied_denied in E.
  - intros (old & new & Ho & -> & Heq). destruct Ho as [Ho|old Ho Hd].
    + rewrite (bool_decide_eq_true_2 _ Ho), (bool_decide_eq_true_2 _ Heq). simpl. auto with agent.
    + rewrite (bool_decide_eq_false_2 _ Ho), Hd, (bool_decide_eq_true_2 _ Heq). simpl. auto with agent.
Qed.

Lemma cloudscale_decision_witness :
  let _ := Fake.fake_admission in let _ := lb_decoder in
  resp_Allowed (ServiceCloudscaleLBValidator_handle lb_validator
    (rr_request "Service" "lb" "{}")) = true.
Proof.
  refine (proj2 (@cloudscale_decision Fake.fake_admission Fake.fake_admission_laws lb_decoder
    lb_validator (rr_request "Service" "lb" "{}") eq_refl) _).
  do 2 eexists. split; [by apply old_service_some|]. by split.
Defined.
