(* ===== verification/PodMutators.v ===== *)
(** * Mutation of pods
    (webhooks/pod_node_selector_mutator.go, pod_runonce_active_deadline_seconds_mutator.go)

    The webhook that adds the default node selector to pods, with the effect of its patches on
    the pod, and the webhook that adds a deadline to run-once pods. *)
From S2P Require Import Prelude GoStd Kube Fake Skipper Webhook.
Import Fake.

(** ** [PodNodeSelectorMutator] *)
Record PodNodeSelectorMutator := {
  pns_DefaultNodeSelector : gmap string string;
  pns_DefaultNamespaceNodeSelectorAnnotation : string;
  pns_Skipper : Skipper;
}.

Section node_selector.
Context `{RangeOracle} `{AdmissionLib} `{LabelsLib} `{UnstructuredLib} {DJ : Decoder json}.
Context {NS : ClientGet Namespace}.

Definition defaultLabels (v : PodNodeSelectorMutator) (ns : Namespace)
    : error + gmap string string :=
  let rawDefaults := map_get (ns_Annotations ns) (pns_DefaultNamespaceNodeSelectorAnnotation v) in
  if bool_decide (pns_DefaultNamespaceNodeSelectorAnnotation v = "") || bool_decide (rawDefaults = "")
  then inr (pns_DefaultNodeSelector v)
  else try d <- labels_ConvertSelectorToLabelsMap rawDefaults catch err =>
    inl (WrapError ("failed to parse default node selector fom " +:+
                    pns_DefaultNamespaceNodeSelectorAnnotation v +:+ ": ") err "");;
  inr d.

(** The operation that adds one entry to an existing node selector. *)
Definition add_node_label (k v : string) : Operation := {|
  op_Operation := "add";
  op_Path := "/spec/nodeSelector/" +:+ escapeJSONPointerSegment k;
  op_Value := JStr v;
|}.

(** The patches: one per missing entry, or the whole node selector when the pod has none. *)
Definition node_selector_patches (hasNodeSel : bool) (nodeSel defaults : gmap string string)
    : list Operation :=
  if hasNodeSel then
    foldl (fun patches '(k, v) =>
      match nodeSel !! k with
      | None => patches ++ [add_node_label k v]
      | Some _ => patches
      end) [] (range_map 0 defaults)
  else [{| op_Operation := "add"; op_Path := "/spec/nodeSelector";
           op_Value := json_of_map defaults |}].

Definition PodNodeSelectorMutator_Handle (v : PodNodeSelectorMutator) (req : AdmissionRequest)
    : AdmissionResponse :=
  if negb (bool_decide (gvk_Group (req_Kind req) = "")) ||
     negb (bool_decide (gvk_Kind (req_Kind req) = "Pod"))
  then admission_Errored 400 (ErrorString ("expected a Pod, got a " +:+ gvk_Kind (req_Kind req)))
  else
  match pns_Skipper v req with
  | (_, Some err) => admission_Errored 500 err
  | (true, None) => admission_Allowed "skipped"
  | (false, None) =>
    try ns <- client_Get (T := Namespace) (name_key (req_Namespace req))
      catch err => admission_Errored 500 err;;
    try rawPod <- Decode (T := json) req catch err => admission_Errored 400 err;;
    try defaults <- defaultLabels v ns catch err => admission_Errored 500 err;;
    if bool_decide (size defaults = 0%nat) then admission_Allowed "no default labels" else
    match u_NestedStringMap rawPod ["spec"; "nodeSelector"] with
    | (_, _, Some err) => admission_Errored 500 err
    | (nodeSel, hasNodeSel, None) =>
        admission_Patched "added default node selector"
          (node_selector_patches hasNodeSel nodeSel defaults)
    end
  end.
End node_selector.

(** ** Specification of the node selector *)
Definition nodeSelector_path : list string := ["spec"; "nodeSelector"].

(** [j'] is [j] outside of the node selector. *)
Definition same_outside_selector (j j' : json) : Prop :=
  forall q, ~ nodeSelector_path `prefix_of` q -> ~ q `prefix_of` nodeSelector_path ->
  json_path q j' = json_path q j.

(** The node selector that a pod has before the request. *)
Definition given_selector `{UnstructuredLib} (pod : json) : gmap string string :=
  match u_NestedStringMap pod nodeSelector_path with (m, true, _) => m | _ => ∅ end.

(** ** [PodRunOnceActiveDeadlineSecondsMutator] *)

(** The fields of [corev1.Pod] that the webhook reads. *)
Record RunOncePod := {
  pod_RestartPolicy : string;
  pod_ActiveDeadlineSeconds : option Z;
}.

Definition RestartPolicyOnFailure : string := "OnFailure".
Definition RestartPolicyNever : string := "Never".

Record PodRunOnceActiveDeadlineSecondsMutator := {
  pd_OverrideAnnotation : string;
  pd_DefaultActiveDeadlineSeconds : Z;
  pd_Skipper : Skipper;
}.

Section deadline.
Context `{AdmissionLib} {DP : Decoder RunOncePod} {NS : ClientGet Namespace}.

Definition deadline_patch (ads : Z) : Operation := {|
  op_Operation := "add"; op_Path := "/spec/activeDeadlineSeconds"; op_Value := JInt ads |}.

Definition PodRunOnceActiveDeadlineSecondsMutator_handle
    (m : PodRunOnceActiveDeadlineSecondsMutator) (req : AdmissionRequest) : AdmissionResponse :=
  match pd_Skipper m req with
  | (_, Some err) => admission_Errored StatusInternalServerError
                       (WrapError "error while checking skipper: " err "")
  | (true, None) => admission_Allowed "skipped"
  | (false, None) =>
    try pod <- Decode (T := RunOncePod) req
      catch err => admission_Errored StatusUnprocessableEntity err;;
    if negb (bool_decide (pod_RestartPolicy pod = RestartPolicyOnFailure)) &&
       negb (bool_decide (pod_RestartPolicy pod = RestartPolicyNever))
    then admission_Allowed ("pod restart policy is " +:+ strconv.Quote (pod_RestartPolicy pod) +:+
                            ", no activeDeadlineSeconds needed") else
    match pod_ActiveDeadlineSeconds pod with
    | Some _ => admission_Allowed "pod already has an activeDeadlineSeconds value"
    | None =>
      try ns <- client_Get (T := Namespace) (name_key (req_Namespace req))
        catch err => admission_Errored StatusInternalServerError
          (WrapError "failed to fetch namespace for override annotation: " err "");;
      let ads := pd_DefaultActiveDeadlineSeconds m in
      let msg := "added default activeDeadlineSeconds " +:+ pretty ads in
      let oa := map_get (ns_Annotations ns) (pd_OverrideAnnotation m) in
      if bool_decide (oa = "") then admission_Patched msg [deadline_patch ads] else
      try parsed <- strconv.Atoi oa catch err => admission_Errored StatusInternalServerError
        (WrapError ("failed to parse override annotation " +:+ strconv.Quote oa +:+
                    " for namespace " +:+ strconv.Quote (req_Namespace req) +:+ ": ") err "");;
      admission_Patched ("added activeDeadlineSeconds " +:+ pretty parsed +:+
        " from override annotation " +:+ strconv.Quote (pd_OverrideAnnotation m))
        [deadline_patch parsed]
    end
  end.

Definition PodRunOnceActiveDeadlineSecondsMutator_Handle m req :=
  logAdmissionResponse (PodRunOnceActiveDeadlineSecondsMutator_handle m req).

(** ** Specification of the deadline *)

(** Pods that run to completion. *)
Definition runs_once (pod : RunOncePod) : Prop :=
  pod_RestartPolicy pod = RestartPolicyOnFailure \/ pod_RestartPolicy pod = RestartPolicyNever.

(** The deadline in force in a namespace: the override, if there is a readable one. *)
Inductive deadline_for (m : PodRunOnceActiveDeadlineSecondsMutator) (ns : Namespace) : Z -> Prop :=
| deadline_default :
    map_get (ns_Annotations ns) (pd_OverrideAnnotation m) = "" ->
    deadline_for m ns (pd_DefaultActiveDeadlineSeconds m)
| deadline_override n :
    map_get (ns_Annotations ns) (pd_OverrideAnnotation m) <> "" ->
    strconv.Atoi (map_get (ns_Annotations ns) (pd_OverrideAnnotation m)) = inr n ->
    deadline_for m ns n.
End deadline.

(** ** Examples *)
Definition pm_pod (spec : gmap string json) : json := JObj {["spec" := JObj spec]}.

(** A pod with a node selector of its own, and the same after the patches. *)
Definition pm_given : json := pm_pod {["nodeSelector" := json_of_map {["class" := "flex"]}]}.

Definition pm_patched : json :=
  pm_pod {["nodeSelector" := json_of_map {["class" := "flex"; "zone" := "a"]}]}.

Definition pm_decoder : Decoder json := {|
  Decode := fun req => inr (if bool_decide (req_Object req = "patched") then pm_patched else pm_given);
  DecodeRaw := fun _ => inr pm_given |}.

Definition pm_namespace : ClientGet Namespace := fun _ =>
  inr {| ns_Name := "web"; ns_Labels := ∅;
         ns_Annotations := {["appuio.io/node-selector" := "class=plus,zone=a";
                             "appuio.io/deadline" := "3600"]};
         ns_DeletionTimestamp := None |}.

Definition pm_mutator : PodNodeSelectorMutator := {|
  pns_DefaultNodeSelector := {["class" := "plus"]};
  pns_DefaultNamespaceNodeSelectorAnnotation := "appuio.io/node-selector";
  pns_Skipper := fun _ => (false, None);
|}.

Definition pm_request (object : string) : AdmissionRequest := {|
  req_Kind := {| gvk_Group := ""; gvk_Version := "v1"; gvk_Kind := "Pod" |};
  req_Name := "job"; req_Namespace := "web"; req_Operation := Create;
  req_UserInfo := {| Username := "alice"; Groups := [] |};
  req_Object := object; req_OldObject := "";
|}.

Definition pd_mutator : PodRunOnceActiveDeadlineSecondsMutator := {|
  pd_OverrideAnnotation := "appuio.io/deadline";
  pd_DefaultActiveDeadlineSeconds := 1800;
  pd_Skipper := fun _ => (false, None);
|}.

Definition pd_decoder (policy : string) : Decoder RunOncePod := {|
  Decode := fun _ => inr {| pod_RestartPolicy := policy; pod_ActiveDeadlineSeconds := None |};
  DecodeRaw := fun _ => inl (ErrorString "unused") |}.

(** ** Lemmas: the node selector *)
Lemma parse_nodeSelector : parse_pointer "/spec/nodeSelector" = Some nodeSelector_path.
Proof. done. Qed.

Lemma parse_node_label k :
  parse_pointer ("/spec/nodeSelector/" +:+ escapeJSONPointerSegment k) =
  Some (nodeSelector_path ++ [k]).
Proof. apply (parse_pointer_escaped "spec/nodeSelector"). Qed.

Lemma apply_node_label k v j m :
  json_path nodeSelector_path j = Some (json_of_map m) ->
  exists j', apply_op (add_node_label k v) j = Some j' /\
    json_path nodeSelector_path j' = Some (json_of_map (<[k := v]> m)) /\
    same_outside_selector j j'.
Proof.
  intros Hj. destruct (json_add_entry nodeSelector_path k v j m Hj) as (j' & Ha & Hj').
  exists j'. unfold add_node_label. erewrite apply_op_add by apply parse_node_label.
  split_and!; [done..|]. intros q Hq1 Hq2. eapply json_add_other; [done|..].
  - intros Hp. apply Hq1. etrans; [by apply prefix_app_r|done].
  - intros [r Hr]. destruct r as [|x r _] using rev_ind.
    + apply Hq1. exists [k]. by rewrite Hr, app_nil_r.
    + apply Hq2. exists r. rewrite app_assoc in Hr. by apply app_inj_tail in Hr as [-> _].
Qed.

Lemma apply_node_labels (l : list (string * string)) j m :
  NoDup l.*1 ->
  json_path nodeSelector_path j = Some (json_of_map m) ->
  exists j', apply_patch ((fun '(k, v) => add_node_label k v) <$> l) j = Some j' /\
    json_path nodeSelector_path j' = Some (json_of_map (list_to_map l ∪ m)) /\
    same_outside_selector j j'.
Proof.
  revert j m. induction l as [|[k v] l IH]; intros j m Hnd Hj.
  { exists j. simpl. by rewrite (left_id_L ∅ (∪)). }
  apply NoDup_cons in Hnd as [Hk Hnd].
  destruct (apply_node_label k v j m Hj) as (j1 & E1 & Hj1 & Ho1).
  destruct (IH j1 _ Hnd Hj1) as (j' & Hp & Hj' & Ho).
  exists j'. split_and!; [simpl; by rewrite E1|..].
  - rewrite Hj'. do 2 f_equal. simpl. rewrite <- insert_union_r, <- insert_union_l; [done|].
    by apply not_elem_of_list_to_map_1.
  - intros q Hq1 Hq2. by rewrite Ho, Ho1.
Qed.

Section lemmas.
Context `{RangeOracle} `{AdmissionLaws} `{LabelsLib} `{UnstructuredLaws} {DJ : Decoder json}.
Context {NS : ClientGet Namespace}.

(** The entries that the loop adds, in the order in which it meets them. *)
Definition missing_entries (nodeSel defaults : gmap string string) : list (string * string) :=
  filter (fun e => nodeSel !! e.1 = None) (range_map 0 defaults).

Lemma collect_patches (op : string * string -> Operation) (f : string * string -> option string)
    l acc :
  foldl (fun patches '(k, v) =>
    match f (k, v) with None => patches ++ [op (k, v)] | Some _ => patches end) acc l =
  acc ++ (op <$> filter (fun e => f e = None) l).
Proof.
  revert acc. induction l as [|[k v] l IH]; intros acc; simpl; [by rewrite app_nil_r|].
  rewrite IH, filter_cons. destruct (f (k, v)); simpl; [done|]. by rewrite <- app_assoc.
Qed.

Lemma node_selector_patches_found nodeSel defaults :
  node_selector_patches true nodeSel defaults =
  (fun '(k, v) => add_node_label k v) <$> missing_entries nodeSel defaults.
Proof.
  unfold node_selector_patches, missing_entries.
  apply (collect_patches (fun '(k, v) => add_node_label k v) (fun e => nodeSel !! e.1)
    (range_map 0 defaults) []).
Qed.

Lemma missing_entries_NoDup nodeSel defaults : NoDup (missing_entries nodeSel defaults).*1.
Proof.
  unfold missing_entries. eapply sublist_NoDup; [apply (range_map_NoDup_keys 0 defaults)|].
  apply fmap_sublist, sublist_filter.
Qed.

Lemma missing_entries_union nodeSel defaults :
  list_to_map (missing_entries nodeSel defaults) ∪ nodeSel = nodeSel ∪ defaults.
Proof.
  apply map_eq. intros k. rewrite !lookup_union.
  destruct (nodeSel !! k) as [w|] eqn:Ek.
  - rewrite (not_elem_of_list_to_map_1 (missing_entries nodeSel defaults)); [by destruct (defaults !! k)|].
    intros ([k' v] & -> & Hin)%list_elem_of_fmap. apply list_elem_of_filter in Hin as [Hn _].
    simpl in *. congruence.
  - destruct (defaults !! k) as [v|] eqn:Ed.
    + rewrite (elem_of_list_to_map_1 _ k v); [done|apply missing_entries_NoDup|].
      apply list_elem_of_filter. by rewrite range_map_elem.
    + rewrite (not_elem_of_list_to_map_1 (missing_entries nodeSel defaults)); [done|].
      intros ([k' v] & -> & Hin)%list_elem_of_fmap.
      apply list_elem_of_filter in Hin as [_ Hin]. rewrite range_map_elem in Hin. simpl in *.
      congruence.
Qed.

Lemma node_selector_patches_apply hasNodeSel nodeSel defaults j o :
  u_NestedStringMap j nodeSelector_path = (nodeSel, hasNodeSel, None) ->
  json_path ["spec"] j = Some (JObj o) ->
  exists j', apply_patch (node_selector_patches hasNodeSel nodeSel defaults) j = Some j' /\
    json_path nodeSelector_path j' =
      Some (json_of_map ((if hasNodeSel then nodeSel else ∅) ∪ defaults)) /\
    same_outside_selector j j'.
Proof.
  intros Hn Hs. destruct hasNodeSel.
  - apply NestedStringMap_found in Hn as [Hn _]. rewrite node_selector_patches_found.
    destruct (apply_node_labels (missing_entries nodeSel defaults) j nodeSel)
      as (j' & Hp & Hj' & Ho); [apply missing_entries_NoDup|done|].
    exists j'. by rewrite missing_entries_union in Hj'.
  - destruct (json_add_map ["spec"] "nodeSelector" defaults j o Hs) as (j' & Ha & Hj').
    exists j'. unfold node_selector_patches. rewrite apply_patch_single.
    erewrite apply_op_add by apply parse_nodeSelector.
    rewrite (left_id_L ∅ (∪)). split_and!; [done..|].
    intros q Hq1 Hq2. by eapply json_add_other.
Qed.

(** The requests that reach the patches, or find no defaults to add. *)
Lemma node_selector_allowed v req :
  pns_Skipper v req = (false, None) ->
  resp_Allowed (PodNodeSelectorMutator_Handle v req) = true ->
  gvk_Group (req_Kind req) = "" /\ gvk_Kind (req_Kind req) = "Pod" /\
  exists ns pod defaults, client_Get (name_key (req_Namespace req)) = inr ns /\
    Decode req = inr pod /\ defaultLabels v ns = inr defaults /\
    (defaults = ∅ /\ resp_Patches (PodNodeSelectorMutator_Handle v req) = [] \/
     exists given found, u_NestedStringMap pod nodeSelector_path = (given, found, None) /\
      defaults <> ∅ /\
      resp_Patches (PodNodeSelectorMutator_Handle v req) =
        node_selector_patches found given defaults).
Proof.
  intros Hs. unfold PodNodeSelectorMutator_Handle. rewrite Hs.
  destruct (negb (bool_decide (gvk_Group _ = "")) || _) eqn:Hk;
    [by rewrite admission_Errored_denied|].
  apply orb_false_iff in Hk as [Hg%negb_false_iff%bool_decide_eq_true
    Hk%negb_false_iff%bool_decide_eq_true].
  destruct (client_Get _) as [|ns]; [by rewrite admission_Errored_denied|].
  destruct (Decode req) as [|pod]; [by rewrite admission_Errored_denied|].
  destruct (defaultLabels v ns) as [|defaults] eqn:Hd; [by rewrite admission_Errored_denied|].
  intros E. split_and!; [done..|]. exists ns, pod, defaults. split_and!; [done..|].
  revert E. case_bool_decide as He.
  { intros _. left. split; [by apply map_size_empty_inv|]. by autorewrite with agent. }
  fold nodeSelector_path. destruct (u_NestedStringMap pod _) as [[given found] [e|]] eqn:Hn;
    [by rewrite admission_Errored_denied|].
  intros _. right. exists given, found. rewrite admission_Patched_patches. split_and!; [done| |done].
  intros ->. by rewrite map_size_empty in He.
Qed.

Lemma node_selector_second pod' given defaults :
  json_path nodeSelector_path pod' = Some (json_of_map (given ∪ defaults)) ->
  u_NestedStringMap pod' nodeSelector_path = (given ∪ defaults, true, None) /\
  node_selector_patches true (given ∪ defaults) defaults = [].
Proof.
  intros Hj. split; [by apply NestedStringMap_complete|].
  rewrite node_selector_patches_found. destruct (missing_entries _ _) as [|[k v] l] eqn:E; [done|].
  assert ((k, v) ∈ missing_entries (given ∪ defaults) defaults) as Hin by (rewrite E; left).
  apply list_elem_of_filter in Hin as [Hn Hin]. rewrite range_map_elem in Hin. simpl in Hn.
  rewrite lookup_union, Hin in Hn. by destruct (given !! k).
Qed.
End lemmas.

(** ** Properties: the node selector *)
Section properties.
Context `{RangeOracle} `{AdmissionLaws} `{LabelsLib} `{UnstructuredLaws} {DJ : Decoder json}.
Context {NS : ClientGet Namespace}.

(** C18: a request that is not exempt is allowed for pods only, and the patches, applied to a pod
    with a spec in whatever order the defaults are visited, give it the union of its own node
    selector and the defaults of its namespace, its own entries first; nothing else of the pod
    changes. *)
Theorem node_selector_effect v req :
  pns_Skipper v req = (false, None) ->
  resp_Allowed (PodNodeSelectorMutator_Handle v req) = true ->
  gvk_Group (req_Kind req) = "" /\ gvk_Kind (req_Kind req) = "Pod" /\
  exists ns pod defaults, client_Get (name_key (req_Namespace req)) = inr ns /\
    Decode req = inr pod /\ defaultLabels v ns = inr defaults /\
    (defaults = ∅ /\ resp_Patches (PodNodeSelectorMutator_Handle v req) = [] \/
     forall o, json_path ["spec"] pod = Some (JObj o) ->
     exists pod', apply_patch (resp_Patches (PodNodeSelectorMutator_Handle v req)) pod = Some pod' /\
      json_path nodeSelector_path pod' = Some (json_of_map (given_selector pod ∪ defaults)) /\
      same_outside_selector pod pod').
Proof.
  intros Hs E. destruct (node_selector_allowed v req Hs E)
    as (Hg & Hk & ns & pod & defaults & Hns & Hd & Hdef & Hcase).
  split_and!; [done..|]. exists ns, pod, defaults. split_and!; [done..|].
  destruct Hcase as [|(given & found & Hn & _ & ->)]; [by left|right]. intros o Ho.
  unfold given_selector. rewrite Hn.
  replace (match found with true => given | false => ∅ end) with (if found then given else ∅) by done.
  by eapply node_selector_patches_apply.
Qed.

(** The webhook is idempotent: when the API server calls it again for the pod it has
    patched, it allows the pod and adds nothing. *)
Theorem node_selector_idempotent v req req' ns pod pod' o :
  pns_Skipper v req = (false, None) -> pns_Skipper v req' = (false, None) ->
  req_Kind req' = req_Kind req -> req_Namespace req' = req_Namespace req ->
  client_Get (name_key (req_Namespace req)) = inr ns ->
  Decode req = inr pod -> json_path ["spec"] pod = Some (JObj o) ->
  resp_Allowed (PodNodeSelectorMutator_Handle v req) = true ->
  apply_patch (resp_Patches (PodNodeSelectorMutator_Handle v req)) pod = Some pod' ->
  Decode req' = inr pod' ->
  resp_Allowed (PodNodeSelectorMutator_Handle v req') = true /\
  resp_Patches (PodNodeSelectorMutator_Handle v req') = [].
Proof.
  intros Hs Hs' Ek En Hns Hd Ho E Hp Hd'.
  destruct (node_selector_allowed v req Hs E)
    as (Hg & Hk & ns1 & pod1 & defaults & Hns1 & Hd1 & Hdef & Hcase).
  rewrite Hns in Hns1. rewrite Hd in Hd1. injection Hns1 as <-. injection Hd1 as <-.
  unfold PodNodeSelectorMutator_Handle at 1 2. rewrite Hs', Ek, Hg, Hk, En, Hns, Hd'. simpl. rewrite Hdef.
  case_bool_decide as He; [by autorewrite with agent|].
  destruct Hcase as [[-> _]|(given & found & Hn & _ & Hpat)]; [by rewrite map_size_empty in He|].
  rewrite Hpat in Hp.
  destruct (node_selector_patches_apply found given defaults pod o Hn Ho) as (? & Hp' & Hj & _).
  rewrite Hp in Hp'. injection Hp' as <-. apply node_selector_second in Hj as [Hj1 Hj2].
  fold nodeSelector_path. rewrite Hj1, Hj2. by autorewrite with agent.
Qed.
End properties.

Lemma node_selector_effect_witness :
  exists pod', apply_patch (resp_Patches (PodNodeSelectorMutator_Handle (DJ := pm_decoder)
    (NS := pm_namespace) pm_mutator (pm_request "given"))) pm_given = Some pod' /\
  json_path nodeSelector_path pod' = Some (json_of_map {["class" := "flex"; "zone" := "a"]}).
Proof.
  destruct (node_selector_effect (DJ := pm_decoder) (NS := pm_namespace) pm_mutator
    (pm_request "given") eq_refl ltac:(by vm_compute))
    as (_ & _ & ns & pod & defaults & Hns & Hd & Hdef & Hcase).
  injection Hns as <-. injection Hd as <-. injection Hdef as <-.
  destruct Hcase as [[_ Hcase]|Hcase]; [by vm_compute in Hcase|].
  destruct (Hcase _ eq_refl) as (pod' & Ha & Hp & _). exists pod'. split; [exact Ha|].
  rewrite Hp. by vm_compute.
Defined.

Lemma node_selector_idempotent_witness :
  resp_Patches (PodNodeSelectorMutator_Handle (DJ := pm_decoder) (NS := pm_namespace)
    pm_mutator (pm_request "patched")) = [].
Proof.
  refine (proj2 (node_selector_idempotent (DJ := pm_decoder) (NS := pm_namespace) pm_mutator
    (pm_request "given") (pm_request "patched") _ pm_given pm_patched _
    eq_refl eq_refl eq_refl eq_refl eq_refl eq_refl eq_refl _ _ eq_refl)); by vm_compute.
Defined.

(** ** Properties: the deadline *)

(** C27: a request that is not exempt is allowed in exactly two cases.  Either the pod does not
    run to completion, or already has a deadline, and then it is not changed; or it is given
    the deadline in force in its namespace, by one patch.  A namespace that cannot be read, or
    whose override is not a number, denies such a pod. *)
Theorem deadline_decision `{AdmissionLaws} {DP : Decoder RunOncePod} {NS : ClientGet Namespace}
    m req :
  pd_Skipper m req = (false, None) ->
  resp_Allowed (PodRunOnceActiveDeadlineSecondsMutator_handle m req) = true <->
  exists pod, Decode req = inr pod /\
    ((~ runs_once pod \/ pod_ActiveDeadlineSeconds pod <> None) /\
       resp_Patches (PodRunOnceActiveDeadlineSecondsMutator_handle m req) = [] \/
     runs_once pod /\ pod_ActiveDeadlineSeconds pod = None /\
       exists ns n, client_Get (name_key (req_Namespace req)) = inr ns /\ deadline_for m ns n /\
       resp_Patches (PodRunOnceActiveDeadlineSecondsMutator_handle m req) = [deadline_patch n]).
Proof.
  intros Hs. unfold PodRunOnceActiveDeadlineSecondsMutator_handle. rewrite Hs.
  destruct (Decode req) as [|pod]; [autorewrite with agent; naive_solver|].
  assert (Hr : runs_once pod <-> negb (bool_decide (pod_RestartPolicy pod = RestartPolicyOnFailure)) &&
    negb (bool_decide (pod_RestartPolicy pod = RestartPolicyNever)) = false).
  { unfold runs_once. repeat case_bool_decide; naive_solver. }
  destruct (negb _ && negb _).
  { autorewrite with agent. split; [|done]. intros _. exists pod. split; [done|left].
    split; [left|done]. naive_solver. }
  destruct (pod_ActiveDeadlineSeconds pod) eqn:Ha.
  { autorewrite with agent. split; [|done]. intros _. exists pod. split; [done|left].
    split; [right|done]. congruence. }
  destruct (client_Get _) as [|ns]; [autorewrite with agent; naive_solver|].
  case_bool_decide as Ho.
  { autorewrite with agent. split; [|done]. intros _. exists pod. split; [done|right].
    split_and!; [naive_solver|done|]. eexists ns, _. split_and!; [done|by constructor|done]. }
  destruct (strconv.Atoi _) as [|n] eqn:En; autorewrite with agent.
  - split; [done|]. intros (pod' & [= <-] & [[[] _]|(_ & _ & ns' & n & [= <-] & Hd & _)]); [naive_solver|done|].
    destruct Hd; congruence.
  - split; [|done]. intros _. exists pod. split; [done|right].
    split_and!; [naive_solver|done|]. exists ns, n. split_and!; [done|by apply deadline_override|done].
Qed.

Lemma deadline_decision_witness :
  resp_Allowed (PodRunOnceActiveDeadlineSecondsMutator_handle (DP := pd_decoder "Never")
    (NS := pm_namespace) pd_mutator (pm_request "given")) = true.
Proof.
  refine (proj2 (deadline_decision (DP := pd_decoder "Never") (NS := pm_namespace) pd_mutator
    (pm_request "given") eq_refl) _).
  eexists. split; [reflexivity|right]. split_and!; [by right|reflexivity|].
  eexists _, 3600%Z. split_and!; [reflexivity| |by vm_compute].
  apply deadline_override; [discriminate|by vm_compute].
Defined.
