(* ===== verification/Schema.v ===== *)
(** * The types of the objects that webhooks patch

    The API server accepts an object only if its fields have the types of its schema.  The
    mutating webhooks (webhooks/namespace_project_organization_mutator.go,
    pod_node_selector_mutator.go, pod_runonce_active_deadline_seconds_mutator.go) answer with
    patches; this file shows that the patches apply and that they keep objects well-typed. *)
From S2P Require Import Prelude GoStd Kube Fake Skipper Api Webhook ProjectOrganization PodMutators.

#[local] Set Warnings "-register-all".

(** ** Schemas

    What an object with given members looks like; members that are not mentioned are arbitrary. *)
Inductive schema :=
| SStr
| SInt
| SMap (value : schema)
| SObj (members : list (string * bool * schema)).   (** name, whether it is required, type *)

Fixpoint has_schema (s : schema) (j : json) : bool :=
  match s, j with
  | SStr, JStr _ => true
  | SInt, JInt _ => true
  | SMap s, JObj o => forallb (fun kv => has_schema s kv.2) (map_to_list o)
  | SObj members, JObj o =>
      forallb (fun '(k, required, s) =>
        match o !! k with Some v => has_schema s v | None => negb required end) members
  | _, _ => false
  end.

(** A value that may be put at a path of an object of the schema. *)
Fixpoint fits (s : schema) (p : list string) (v : json) {struct p} : bool :=
  match p with
  | [] => has_schema s v
  | k :: p =>
      match s with
      | SMap s => fits s p v
      | SObj members =>
          forallb (fun '(k', _, s) => negb (bool_decide (k' = k)) || fits s p v) members
      | _ => false
      end
  end.

Definition op_fits (s : schema) (op : Operation) : bool :=
  match parse_pointer (op_Path op) with Some p => fits s p (op_Value op) | None => false end.

(** *** The schemas of namespaces, projects and pods, by the members that matter here *)
Definition metadata_schema : schema :=
  SObj [("name", false, SStr); ("labels", false, SMap SStr); ("annotations", false, SMap SStr)].

Definition namespace_schema : schema :=
  SObj [("kind", false, SStr); ("metadata", true, metadata_schema)].

Definition pod_schema : schema :=
  SObj [("metadata", false, metadata_schema);
        ("spec", true, SObj [("nodeSelector", false, SMap SStr); ("restartPolicy", false, SStr);
                             ("activeDeadlineSeconds", false, SInt)])].

(** The patches of an allowed response apply to the object, and keep it well-typed. *)
Definition well_typed_response (s : schema) (raw : json) (res : AdmissionResponse) : Prop :=
  resp_Allowed res = true ->
  exists raw', apply_patch (resp_Patches res) raw = Some raw' /\ has_schema s raw' = true.

(** ** Lemmas *)
Lemma has_schema_map s o : has_schema (SMap s) (JObj o) = true <-> map_Forall (fun _ v => has_schema s v = true) o.
Proof.
  simpl. rewrite forallb_forall. split.
  - intros Ha k v Hk. apply (Ha (k, v)), list_elem_of_In, elem_of_map_to_list, Hk.
  - intros Ha [k v] Hin%list_elem_of_In%elem_of_map_to_list. by apply (Ha k v).
Qed.

Lemma has_schema_obj members o :
  has_schema (SObj members) (JObj o) = true <->
  forall k required s, (k, required, s) ∈ members ->
    match o !! k with Some v => has_schema s v = true | None => required = false end.
Proof.
  simpl. rewrite forallb_forall. split.
  - intros Ha k required s Hin%list_elem_of_In%Ha. destruct (o !! k); [done|]. by destruct required.
  - intros Ha [[k required] s] Hin%list_elem_of_In. specialize (Ha _ _ _ Hin).
    destruct (o !! k); [done|]. by rewrite Ha.
Qed.

Lemma has_schema_member s k p v j :
  has_schema s j = true -> fits s (k :: p) v = true -> exists o, j = JObj o.
Proof. by destruct s, j; simpl; eauto. Qed.

(** Members keep their types when one of them is replaced by a value that fits. *)
Lemma has_schema_insert s k v o :
  has_schema s (JObj o) = true -> fits s [k] v = true -> has_schema s (JObj (<[k := v]> o)) = true.
Proof.
  destruct s as [| |s|members]; cbn [fits]; [done..| |].
  - rewrite !has_schema_map. intros Ho Hv. by apply map_Forall_insert_2.
  - rewrite !has_schema_obj, forallb_forall. intros Ho Hv k' required s Hin.
    destruct (decide (k' = k)) as [->|Hne]; [|rewrite lookup_insert_ne by done; by apply Ho].
    rewrite lookup_insert_eq. apply list_elem_of_In, Hv in Hin. simpl in Hin.
    by rewrite bool_decide_eq_true_2 in Hin.
Qed.

Lemma json_add_typed s p v j j' :
  has_schema s j = true -> fits s p v = true -> json_add p v j = Some j' -> has_schema s j' = true.
Proof.
  revert s j j'. induction p as [|k p IH]; intros s j j' Hs Hv Ha; [by injection Ha as <-|].
  destruct (has_schema_member _ _ _ _ _ Hs Hv) as [o ->]. destruct p as [|k2 p].
  { injection Ha as <-. by apply has_schema_insert. }
  apply bind_Some in Ha as (c & Ec & (c' & Hc & [= <-])%bind_Some).
  destruct s as [| |s|members]; [done..| |].
  - pose proof (proj1 (has_schema_map _ _) Hs k c Ec) as Hcs. apply has_schema_insert; [done|].
    by apply (IH s c).
  - apply has_schema_insert; [done|]. cbn [fits] in *. rewrite forallb_forall in *.
    intros [[k' required] s] Hin. specialize (Hv _ Hin). cbv beta iota in Hv.
    case_bool_decide as Hk; [|done]. subst k'. simpl in *.
    apply (IH s c); [|done..]. apply list_elem_of_In in Hin.
    pose proof (proj1 (has_schema_obj _ _) Hs _ _ _ Hin) as Hcs. by rewrite Ec in Hcs.
Qed.

Lemma apply_patch_typed s ops j j' :
  has_schema s j = true -> forallb (op_fits s) ops = true -> apply_patch ops j = Some j' ->
  has_schema s j' = true.
Proof.
  revert j. induction ops as [|op ops IH]; intros j Hs Hops Ha; [by injection Ha as <-|].
  apply bind_Some in Ha as (j1 & H1 & Ha). simpl in Hops. apply andb_true_iff in Hops as [Hop Hops].
  apply (IH j1); [|done..]. unfold apply_op, op_fits in *. case_bool_decide; [|done].
  destruct (parse_pointer (op_Path op)) as [p|]; [|done]. by apply (json_add_typed s p (op_Value op) j).
Qed.

(** ** Lemmas: the patches of the webhooks *)
Section patches.
Context `{RangeOracle} `{AdmissionLaws} `{LabelsLib} `{UnstructuredLaws} {DJ : Decoder json}.
Context {DP : Decoder RunOncePod} `{ClientGet User} `{ClientGet Group} {NS : ClientGet Namespace} `{ApiErrors}.

Lemma organization_patches m req raw :
  Decode req = inr raw -> resp_Allowed (NamespaceProjectOrganizationMutator_handle m req) = true ->
  resp_Patches (NamespaceProjectOrganizationMutator_handle m req) = [] \/
  exists org, resp_Patches (NamespaceProjectOrganizationMutator_handle m req) = [orgLabelPatch m raw org].
Proof using Type*.
  intros Hd. unfold NamespaceProjectOrganizationMutator_handle, handleProject, handleNamespace,
    handleUserRequested, handleServiceAccountNamespace. rewrite Hd.
  repeat case_match; rewrite ?admission_Denied_denied, ?admission_Errored_denied,
    ?admission_Allowed_patches, ?admission_Patched_patches; eauto; done.
Qed.

Lemma deadline_patches m req :
  resp_Allowed (PodRunOnceActiveDeadlineSecondsMutator_handle m req) = true ->
  resp_Patches (PodRunOnceActiveDeadlineSecondsMutator_handle m req) = [] \/
  exists n, resp_Patches (PodRunOnceActiveDeadlineSecondsMutator_handle m req) = [deadline_patch n].
Proof using Type*.
  unfold PodRunOnceActiveDeadlineSecondsMutator_handle.
  repeat case_match; rewrite ?admission_Denied_denied, ?admission_Errored_denied,
    ?admission_Allowed_patches, ?admission_Patched_patches; eauto; done.
Qed.

(** A required member that is an object. *)
Lemma required_object members k inner raw :
  has_schema (SObj members) raw = true -> (k, true, SObj inner) ∈ members ->
  exists o, json_path [k] raw = Some (JObj o).
Proof using Type.
  intros Hs Hin. destruct raw as [| | | | | |o]; try done. pose proof (proj1 (has_schema_obj _ _) Hs _ _ _ Hin) as Hk.
  simpl. destruct (o !! k) as [v|]; [|done]. destruct v as [| | | | | |o']; try done. by exists o'.
Qed.

Lemma orgLabelPatch_fits m raw org : op_fits namespace_schema (orgLabelPatch m raw org) = true.
Proof using Type.
  unfold orgLabelPatch. destruct (u_NestedStringMap raw _) as [[ls found] e]. destruct found; unfold op_fits; cbn [op_Path op_Value].
  - pose proof (parse_pointer_escaped "metadata/labels" (npo_OrganizationLabel m)) as Hp.
    change (match parse_pointer (String "/" ("metadata/labels" +:+ String "/"
      (escapeJSONPointerSegment (npo_OrganizationLabel m)))) with
      | Some p => fits namespace_schema p (JStr org) | None => false end = true). by rewrite Hp.
  - simpl. unfold json_of_map. rewrite map_fmap_singleton, map_to_list_singleton. done.
Qed.

Lemma json_of_map_typed m : has_schema (SMap SStr) (json_of_map m) = true.
Proof using Type. apply has_schema_map. intros k v. rewrite lookup_fmap. by destruct (m !! k) as [w|]; intros [= <-]. Qed.

Lemma node_selector_patches_fit found given defaults :
  forallb (op_fits pod_schema) (node_selector_patches found given defaults) = true.
Proof using Type.
  destruct found.
  - rewrite node_selector_patches_found. apply forallb_forall. intros op ([k v] & -> & _)%list_elem_of_In%list_elem_of_fmap.
    unfold op_fits, add_node_label. cbn [op_Path op_Value]. by rewrite parse_node_label.
  - unfold node_selector_patches, op_fits. cbn [forallb op_Path op_Value]. rewrite parse_nodeSelector.
    pose proof (json_of_map_typed defaults) as Hv. revert Hv. generalize (json_of_map defaults). intros v Hv.
    cbn -[has_schema]. by rewrite Hv.
Qed.

Lemma organization_typed m req raw :
  Decode req = inr raw -> has_schema namespace_schema raw = true ->
  well_typed_response namespace_schema raw (NamespaceProjectOrganizationMutator_handle m req).
Proof using Type*.
  intros Hd Hs Ha. destruct (organization_patches m req raw Hd Ha) as [Hp|[org Hp]]; rewrite Hp; [by exists raw|].
  assert (exists o, json_path ["metadata"] raw = Some (JObj o)) as [md Hmd]
    by (eapply required_object; [exact Hs|right; left]).
  destruct (orgLabelPatch_correct m raw org md Hmd) as (raw' & Hr & _). exists raw'. split; [exact Hr|].
  eapply apply_patch_typed; [exact Hs| |exact Hr]. cbn [forallb]. by rewrite orgLabelPatch_fits.
Qed.

Lemma node_selector_typed v req raw :
  Decode req = inr raw -> has_schema pod_schema raw = true ->
  well_typed_response pod_schema raw (PodNodeSelectorMutator_Handle v req).
Proof using Type*.
  intros Hd Hs Ha. destruct (pns_Skipper v req) as [skip [err|]] eqn:Ek; [|destruct skip].
  - revert Ha. unfold PodNodeSelectorMutator_Handle. rewrite Ek.
    destruct (_ || _), skip; by rewrite admission_Errored_denied.
  - revert Ha. unfold PodNodeSelectorMutator_Handle. rewrite Ek.
    destruct (_ || _); [by rewrite admission_Errored_denied|]. rewrite admission_Allowed_patches. by exists raw.
  - destruct (node_selector_allowed v req Ek Ha) as (_ & _ & ns & pod & defaults & _ & Hd' & _ & Hcase).
    assert (pod = raw) as -> by congruence.
    destruct Hcase as [[_ ->]|(given & found & Hn & _ & ->)]; [by exists raw|].
    assert (exists o, json_path ["spec"] raw = Some (JObj o)) as [o Ho]
    by (eapply required_object; [exact Hs|right; left]).
    destruct (node_selector_patches_apply found given defaults raw o Hn Ho) as (raw' & Hr & _).
    exists raw'. split; [exact Hr|]. eapply apply_patch_typed; [exact Hs| |exact Hr].
    apply node_selector_patches_fit.
Qed.

Lemma deadline_typed m req raw :
  has_schema pod_schema raw = true ->
  well_typed_response pod_schema raw (PodRunOnceActiveDeadlineSecondsMutator_handle m req).
Proof using Type*.
  intros Hs Ha. destruct (deadline_patches m req Ha) as [Hp|[n Hp]]; rewrite Hp; [by exists raw|].
  assert (exists o, json_path ["spec"] raw = Some (JObj o)) as [o Ho]
    by (eapply required_object; [exact Hs|right; left]).
  destruct (json_add_member ["spec"] "activeDeadlineSeconds" (JInt n) raw o Ho) as (raw' & Hr & _).
  assert (Hr' : apply_patch [deadline_patch n] raw = Some raw').
  { rewrite apply_patch_single. unfold deadline_patch.
    by rewrite (apply_op_add _ ["spec"; "activeDeadlineSeconds"]). }
  exists raw'. split; [exact Hr'|]. by eapply apply_patch_typed; [exact Hs| |exact Hr'].
Qed.
End patches.

(** ** Properties *)
Section properties.
Context `{RangeOracle} `{AdmissionLaws} `{LabelsLib} `{UnstructuredLaws} {DJ : Decoder json}.
Context {DP : Decoder RunOncePod} `{ClientGet User} `{ClientGet Group} {NS : ClientGet Namespace} `{ApiErrors}.

(** C28: a mutating webhook that allows a request answers with patches that apply to the object of
    the request and keep it well-typed: the organization webhook for namespaces and projects, the
    webhooks for node selectors and for deadlines for pods, whatever the name of the label, the
    defaults and the annotations of the namespace are. *)
Theorem patches_well_typed org_mutator selector_mutator deadline_mutator req raw :
  Decode req = inr raw ->
  (has_schema namespace_schema raw = true ->
   well_typed_response namespace_schema raw (NamespaceProjectOrganizationMutator_handle org_mutator req)) /\
  (has_schema pod_schema raw = true ->
   well_typed_response pod_schema raw (PodNodeSelectorMutator_Handle selector_mutator req) /\
   well_typed_response pod_schema raw (PodRunOnceActiveDeadlineSecondsMutator_handle deadline_mutator req)).
Proof.
  intros Hd. split; [by apply organization_typed|]. intros Hs.
  split; [by apply node_selector_typed|by apply deadline_typed].
Qed.
End properties.

(** ** The theorem on the examples *)
Import Fake.

Lemma patches_well_typed_witness :
  exists raw', apply_patch (resp_Patches (PodNodeSelectorMutator_Handle (DJ := pm_decoder)
    (NS := pm_namespace) pm_mutator (pm_request "given"))) pm_given = Some raw' /\
  has_schema pod_schema raw' = true.
Proof.
  refine (proj1 (proj2 (patches_well_typed (DJ := pm_decoder) (DP := pd_decoder "Never") (NS := pm_namespace)
    (H5 := po_users) (H6 := po_groups) (po_mutator false) pm_mutator pd_mutator (pm_request "given")
    pm_given eq_refl) _) _); by vm_compute.
Defined.
