(* ===== verification/Quantity.v ===== *)
(** * Decimals and quantities

    The arbitrary precision decimals of [gopkg.in/inf.v0] and the quantities of
    [k8s.io/apimachinery], neither of which is part of this repository.  What the agent relies
    on is that they compute with rational numbers: the laws relate every operation to the value
    of its operands, where equality of decimals is equality of values, not of representations.
    [FakeDec] is the instance that represents a decimal by its value. *)
From S2P Require Import Prelude GoStd.
From Stdlib Require Export QArith Qround.
From Stdlib Require Import Lqa.
Close Scope Q_scope.

(** ** Rounding to an integer *)

(** To the nearest, ties to even. *)
Definition round_half_even (q : Q) : Z :=
  let f := Qfloor q in
  match ((q - inject_Z f) ?= 1 # 2)%Q with
  | Lt => f
  | Gt => f + 1
  | Eq => if Z.even f then f else f + 1
  end%Z.

(** Away from zero. *)
Definition round_up (q : Q) : Z := if Qle_bool 0 q then Qceiling q else Qfloor q.

(** ** [inf.Dec] *)
Inductive Rounder := RoundHalfEven | RoundUp.

Class InfDec (Dec : Type) := {
  dec_zero : Dec;                          (** [inf.Dec{}] *)
  NewDec : Z -> Z -> Dec;                  (** unscaled value, scale *)
  dec_Add : Dec -> Dec -> Dec;
  dec_Mul : Dec -> Dec -> Dec;
  dec_Cmp : Dec -> Dec -> Z;
  dec_QuoRound : Dec -> Dec -> Z -> Rounder -> Dec;
}.

(** The number a decimal stands for. *)
Class DecValue (Dec : Type) := value : Dec -> Q.

(** [QuoRound] to scale 0 is specified for divisors other than zero. *)
Class InfDecLaws (Dec : Type) `{InfDec Dec, DecValue Dec} : Prop := {
  value_zero : (value dec_zero == 0)%Q;
  value_NewDec n : (value (NewDec n 0) == inject_Z n)%Q;
  value_Add x y : (value (dec_Add x y) == value x + value y)%Q;
  value_Mul x y : (value (dec_Mul x y) == value x * value y)%Q;
  Cmp_lt x y : (dec_Cmp x y < 0)%Z <-> (value x < value y)%Q;
  Cmp_le x y : (dec_Cmp x y <= 0)%Z <-> (value x <= value y)%Q;
  value_half_even x y : ~ (value y == 0)%Q ->
    (value (dec_QuoRound x y 0 RoundHalfEven) == inject_Z (round_half_even (value x / value y)))%Q;
  value_up x y : ~ (value y == 0)%Q ->
    (value (dec_QuoRound x y 0 RoundUp) == inject_Z (round_up (value x / value y)))%Q;
}.

(** Equality of decimals. *)
Definition dec_equiv `{DecValue Dec} (x y : Dec) : Prop := (value x == value y)%Q.

(** ** [resource.Quantity] and [corev1.ResourceList]

    [String] accepts a nil pointer.  [Cpu] and [Memory] read an absent request as zero. *)
Inductive Format := BinarySI | DecimalSI | DecimalExponent.

Class QuantityLib (Quantity Dec : Type) := {
  AsDec : Quantity -> Dec;
  NewDecimalQuantity : Dec -> Format -> Quantity;
  quantity_String : option Quantity -> string;
  rl_Cpu : gmap string Quantity -> Quantity;
  rl_Memory : gmap string Quantity -> Quantity;
}.

Class QuantityLaws (Quantity Dec : Type) `{QuantityLib Quantity Dec, DecValue Dec} : Prop := {
  value_NewDecimalQuantity d f : (value (AsDec (NewDecimalQuantity d f)) == value d)%Q;
  value_Cpu l : (value (AsDec (rl_Cpu l)) ==
    from_option (value ∘ AsDec) 0 (l !! "cpu"%string))%Q;
  value_Memory l : (value (AsDec (rl_Memory l)) ==
    from_option (value ∘ AsDec) 0 (l !! "memory"%string))%Q;
}.

(** ** An instance: a decimal is its value *)
Module FakeDec.
Definition fake_QuoRound (x y : Q) (_ : Z) (r : Rounder) : Q :=
  inject_Z (match r with RoundHalfEven => round_half_even | RoundUp => round_up end (x / y)%Q).

Definition fake_infdec : InfDec Q := {|
  dec_zero := 0%Q;
  NewDec := fun n _ => inject_Z n;
  dec_Add := Qplus;
  dec_Mul := Qmult;
  dec_Cmp := fun x y => match (x ?= y)%Q with Lt => -1 | Eq => 0 | Gt => 1 end%Z;
  dec_QuoRound := fake_QuoRound;
|}.

Definition fake_value : DecValue Q := id.

Definition fake_quantity : QuantityLib Q Q := {|
  AsDec := id;
  NewDecimalQuantity := fun d _ => d;
  quantity_String := fun o => match o with Some q => pretty (Qfloor q) | None => "<nil>" end;
  rl_Cpu := fun l => default 0%Q (l !! "cpu"%string);
  rl_Memory := fun l => default 0%Q (l !! "memory"%string);
|}.

Lemma fake_infdec_laws : @InfDecLaws Q fake_infdec fake_value.
Proof.
  split; intros; try reflexivity; unfold value, fake_value, id; simpl; unfold Qlt, Qle.
  - destruct (Qcompare_spec x y) as [E|E|E]; unfold Qlt, Qeq in E; lia.
  - destruct (Qcompare_spec x y) as [E|E|E]; unfold Qlt, Qeq in E; lia.
Qed.

Lemma fake_quantity_laws : @QuantityLaws Q Q fake_quantity fake_value.
Proof.
  split; intros; try reflexivity; unfold value, fake_value, id; simpl; by destruct (l !! _).
Qed.

#[export] Existing Instances fake_infdec fake_value fake_quantity fake_infdec_laws
  fake_quantity_laws.
End FakeDec.

(** ** Lemmas *)

#[export] Instance dec_equiv_equivalence `{DecValue Dec} : Equivalence dec_equiv.
Proof.
  unfold dec_equiv. split; red; intros; [reflexivity|by symmetry|by etrans].
Qed.

Section proper.
Context `{InfDecLaws Dec}.

#[export] Instance value_proper : Proper (dec_equiv ==> Qeq) value.
Proof. by intros x y Hxy. Qed.

#[export] Instance Add_proper : Proper (dec_equiv ==> dec_equiv ==> dec_equiv) dec_Add.
Proof. intros x x' Hx y y' Hy. unfold dec_equiv in *. by rewrite !value_Add, Hx, Hy. Qed.

#[export] Instance Mul_proper : Proper (dec_equiv ==> dec_equiv ==> dec_equiv) dec_Mul.
Proof. intros x x' Hx y y' Hy. unfold dec_equiv in *. by rewrite !value_Mul, Hx, Hy. Qed.
End proper.

#[export] Instance round_half_even_proper : Proper (Qeq ==> eq) round_half_even.
Proof.
  intros x y Hxy. unfold round_half_even. rewrite (Qfloor_comp _ _ Hxy).
  by rewrite (Qcompare_comp _ _ (Qminus_comp _ _ Hxy _ _ (Qeq_refl _)) _ _ (Qeq_refl _)).
Qed.

#[export] Instance inject_Z_proper : Proper (eq ==> Qeq) inject_Z.
Proof. by intros x y ->. Qed.

#[export] Instance round_up_proper : Proper (Qeq ==> eq) round_up.
Proof.
  intros x y Hxy. unfold round_up.
  assert (Qle_bool 0 x = Qle_bool 0 y) as ->
    by (apply eq_true_iff_eq; rewrite !Qle_bool_iff; by rewrite Hxy).
  by rewrite (Qfloor_comp _ _ Hxy), (Qceiling_comp _ _ Hxy).
Qed.

(** Rounding to the nearest integer is off by one half at most. *)
Lemma round_half_even_bounds q :
  (q - (1 # 2) <= inject_Z (round_half_even q) <= q + (1 # 2))%Q.
Proof.
  unfold round_half_even. pose proof (Qfloor_le q). pose proof (Qlt_floor q) as Hl.
  rewrite inject_Z_plus in Hl. change (inject_Z 1) with 1%Q in Hl.
  destruct (Qcompare_spec (q - inject_Z (Qfloor q)) (1 # 2)) as [E|E|E];
    [destruct (Z.even _)|..]; rewrite ?inject_Z_plus; change (inject_Z 1) with 1%Q; lra.
Qed.

(** Rounding up is the ceiling for numbers that are not negative. *)
Lemma round_up_ceiling q : (0 <= q)%Q -> round_up q = Qceiling q.
Proof. intros Hq. unfold round_up. by rewrite (proj2 (Qle_bool_iff 0 q) Hq). Qed.

Lemma round_half_even_nonneg q : (0 <= q)%Q -> (0 <= round_half_even q)%Z.
Proof.
  intros Hq. assert (0 <= Qfloor q)%Z by (change 0%Z with (Qfloor 0); by apply Qfloor_resp_le).
  unfold round_half_even. destruct (_ ?= _)%Q; [destruct (Z.even _)|..]; lia.
Qed.
