(* ===== verification/Ratio.v ===== *)
(** * The memory to CPU ratio (ratio/ratio.go, ratio/fetcher.go)

    The sum of the requests of pods, deployments and stateful sets, the ratio of memory to CPU
    with its rounding, the comparison with a limit, and the collection of the ratios of a
    namespace by node selector. *)
From S2P Require Import Prelude GoStd Kube Fake Quantity.
From Stdlib Require Import Lqa.

(** ** The fields of pods, deployments and stateful sets that count *)
Record Container {Quantity} := { Requests : gmap string Quantity }.
Arguments Container : clear implicits.
Arguments Build_Container {Quantity}.

Record PodSpec {Quantity} := {
  Containers : list (Container Quantity);
  NodeSelector : gmap string string;
}.
Arguments PodSpec : clear implicits.
Arguments Build_PodSpec {Quantity}.

Record Pod {Quantity} := { pod_Phase : string; pod_Spec : PodSpec Quantity }.
Arguments Pod : clear implicits.
Arguments Build_Pod {Quantity}.

(** [Deployment] and [StatefulSet] have the same two fields. *)
Record Deployment {Quantity} := { dep_Replicas : option Z; dep_Template : PodSpec Quantity }.
Arguments Deployment : clear implicits.
Arguments Build_Deployment {Quantity}.

Record StatefulSet {Quantity} := { sts_Replicas : option Z; sts_Template : PodSpec Quantity }.
Arguments StatefulSet : clear implicits.
Arguments Build_StatefulSet {Quantity}.

Definition PodRunning : string := "Running".

(** ** [ratio.Ratio] *)
Record Ratio {Dec} := { CPU : Dec; Memory : Dec }.
Arguments Ratio : clear implicits.
Arguments Build_Ratio {Dec}.

Section ratio.
Context `{InfDec Dec} {Quantity : Type} {QL : QuantityLib Quantity Dec}.
Implicit Types r : Ratio Dec.

Definition NewRatio : Ratio Dec := {| CPU := dec_zero; Memory := dec_zero |}.

Definition recordReplicatedPodSpec r (replicas : Z) (spec : PodSpec Quantity) : Ratio Dec :=
  let '(cpu, mem) :=
    foldl (fun '(cpu, mem) c =>
      (dec_Add cpu (AsDec (rl_Cpu (Requests c))), dec_Add mem (AsDec (rl_Memory (Requests c)))))
      (NewDec 0 0, NewDec 0 0) (Containers spec) in
  let rep := NewDec replicas 0 in
  {| CPU := dec_Add (CPU r) (dec_Mul cpu rep); Memory := dec_Add (Memory r) (dec_Mul mem rep) |}.

Definition RecordPod r (pods : list (Pod Quantity)) : Ratio Dec :=
  foldl (fun r pod =>
    if bool_decide (pod_Phase pod = PodRunning) then recordReplicatedPodSpec r 1 (pod_Spec pod)
    else r) r pods.

Definition RecordDeployment r (deps : list (Deployment Quantity)) : Ratio Dec :=
  foldl (fun r dep =>
    let replicas := match dep_Replicas dep with Some n => n | None => 1%Z end in
    recordReplicatedPodSpec r replicas (dep_Template dep)) r deps.

Definition RecordStatefulSet r (stss : list (StatefulSet Quantity)) : Ratio Dec :=
  foldl (fun r sts =>
    let replicas := match sts_Replicas sts with Some n => n | None => 1%Z end in
    recordReplicatedPodSpec r replicas (sts_Template sts)) r stss.

(** The method [Ratio]; [None] is the nil pointer. *)
Definition Ratio_Ratio r : option Quantity :=
  if (dec_Cmp (CPU r) (NewDec 0 0) <=? 0)%Z then None
  else
    let rDec := dec_QuoRound (Memory r) (CPU r) 0 RoundHalfEven in
    let mib := NewDec (1024 * 1024) 0 in
    let rDec := dec_QuoRound rDec mib 0 RoundUp in
    let rDec := dec_Mul rDec mib in
    Some (NewDecimalQuantity rDec BinarySI).

Definition Below r (limit : Quantity) (threshold : option Dec) : bool :=
  let threshold := match threshold with Some t => t | None => NewDec 1 0 end in
  match Ratio_Ratio r with
  | None => false
  | Some q => (dec_Cmp (AsDec q) (dec_Mul (AsDec limit) threshold) <? 0)%Z
  end.

Definition Ratio_String r : string := quantity_String (Ratio_Ratio r).

Definition Warn r (limit : option Quantity) (nodeSelector : string) : string :=
  let w := "Current memory to CPU ratio of " +:+ Ratio_String r +:+ "/core" in
  let w := if bool_decide (nodeSelector = "") then w
           else w +:+ " for node type " +:+ strconv.Quote nodeSelector in
  let w := w +:+ " in this namespace is below the fair use ratio" in
  let w := match limit with
           | Some _ => w +:+ " of " +:+ quantity_String limit +:+ "/core"
           | None => w
           end in
  let w := w +:+ ". APPUiO Cloud bills CPU requests which exceed the fair use ratio." in
  w +:+ " See https://vs.hn/appuio-cloud-cpu-requests for instructions to adjust the requests.".
End ratio.

(** ** [ratio.Fetcher] *)
Definition RatioValidatiorDisableAnnotation : string := "validate-request-ratio.appuio.io/disable".
Definition ErrorDisabled : error := ErrorVar "ErrorDisabled" "request ratio validation disabled".

Record Fetcher := { f_OrganizationLabel : string }.

Section fetcher.
Context `{InfDec Dec} {Quantity : Type} {QL : QuantityLib Quantity Dec} `{LabelsLib}.
Context {NS : ClientGet Namespace} {PL : ClientList (Pod Quantity)}.

(** Whether the annotations of the namespace disable the ratio. *)
Definition annotation_disables (ns : Namespace) : bool :=
  match ns_Annotations ns !! RatioValidatiorDisableAnnotation with
  | Some disabledAnnot =>
      match strconv.ParseBool disabledAnnot with inr disabled => disabled | inl _ => false end
  | None => false
  end.

Definition pod_key (pod : Pod Quantity) : string :=
  labels_Set_String (NodeSelector (pod_Spec pod)).

(** The body of the loop over the pods. *)
Definition record_by_selector (ratios : gmap string (Ratio Dec)) (pod : Pod Quantity)
    : gmap string (Ratio Dec) :=
  let k := pod_key pod in
  let r := match ratios !! k with Some r => r | None => NewRatio end in
  <[k := RecordPod r [pod]]> ratios.

Definition FetchRatios (f : Fetcher) (name : string) : error + gmap string (Ratio Dec) :=
  try ns <- client_Get (T := Namespace) (name_key name) catch err => inl err;;
  if annotation_disables ns then inl ErrorDisabled else
  if negb (bool_decide (f_OrganizationLabel f = "")) &&
     negb (bool_decide (is_Some (ns_Labels ns !! f_OrganizationLabel f)))
  then inl ErrorDisabled else
  try pods <- client_List (T := Pod Quantity) [InNamespace name] catch err => inl err;;
  inr (foldl record_by_selector ∅ pods).
End fetcher.

(** ** Specification

    Totals of requests as rational numbers, and the rounding of the ratio. *)
Fixpoint total {A} (f : A -> Q) (l : list A) : Q :=
  match l with [] => 0 | x :: l => (f x + total f l)%Q end.

Definition MiB : Z := 1048576.

(** To the nearest integer, and from there up to a multiple of one MiB. *)
Definition mib_round (x : Q) : Q :=
  inject_Z (round_up (inject_Z (round_half_even x) / inject_Z MiB) * MiB).

Section spec.
Context `{InfDecLaws Dec} {Quantity : Type} {QL : QuantityLib Quantity Dec}.

Definition spec_cpu (s : PodSpec Quantity) : Q :=
  total (fun c => value (AsDec (rl_Cpu (Requests c)))) (Containers s).
Definition spec_memory (s : PodSpec Quantity) : Q :=
  total (fun c => value (AsDec (rl_Memory (Requests c)))) (Containers s).

(** Equality of ratios: equal totals. *)
Definition ratio_equiv (r r' : Ratio Dec) : Prop :=
  dec_equiv (CPU r) (CPU r') /\ dec_equiv (Memory r) (Memory r').

(** [r'] is [r] with requests added. *)
Definition adds (r r' : Ratio Dec) (cpu mem : Q) : Prop :=
  (value (CPU r') == value (CPU r) + cpu)%Q /\ (value (Memory r') == value (Memory r) + mem)%Q.

Definition running (f : PodSpec Quantity -> Q) (pod : Pod Quantity) : Q :=
  if bool_decide (pod_Phase pod = PodRunning) then f (pod_Spec pod) else 0%Q.

Definition replicated (f : PodSpec Quantity -> Q) (replicas : option Z) (s : PodSpec Quantity) : Q :=
  (inject_Z (default 1%Z replicas) * f s)%Q.
End spec.

(** The namespace opts out of the ratio, or belongs to no organization. *)
Definition ratio_disabled (f : Fetcher) (ns : Namespace) : Prop :=
  (exists s, ns_Annotations ns !! RatioValidatiorDisableAnnotation = Some s /\
    strconv.ParseBool s = inr true) \/
  (f_OrganizationLabel f <> "" /\ ns_Labels ns !! f_OrganizationLabel f = None).

(** ** An example: a pod with two containers, requesting 3 cores and 7 GiB in all *)
Definition ex_containers : list (Container Q) := [
  {| Requests := {["cpu" := 1%Q; "memory" := 3221225472%Q]} |};
  {| Requests := {["cpu" := 2%Q; "memory" := 4294967296%Q]} |}].

Definition ex_pod (phase : string) (sel : gmap string string) : Pod Q := {|
  pod_Phase := phase; pod_Spec := {| Containers := ex_containers; NodeSelector := sel |} |}.

Definition ex_pods : ClientList (Pod Q) := fun _ =>
  inr [ex_pod "Running" {["class" := "plus"]}; ex_pod "Running" ∅;
       ex_pod "Pending" {["class" := "plus"]}].

Definition ex_ns (annotations : gmap string string) : ClientGet Namespace := fun k =>
  inr {| ns_Name := key_Name k; ns_Labels := {["organization" := "acme"]};
         ns_Annotations := annotations; ns_DeletionTimestamp := None |}.

Definition ex_fetcher : Fetcher := {| f_OrganizationLabel := "organization" |}.

(** ** Lemmas: totals *)

Lemma total_app {A} (f : A -> Q) l1 l2 : (total f (l1 ++ l2) == total f l1 + total f l2)%Q.
Proof. induction l1 as [|x l1 IH]; simpl; [ring|]. rewrite IH. ring. Qed.

#[export] Instance total_perm {A} (f : A -> Q) : Proper ((≡ₚ) ==> Qeq) (total f).
Proof.
  induction 1 as [|x l l' _ IH|x y l|l1 l2 l3 _ IH1 _ IH2]; simpl;
    [reflexivity|by rewrite IH|ring|by rewrite IH1].
Qed.

#[export] Instance ratio_equiv_equivalence `{DecValue Dec} : Equivalence ratio_equiv.
Proof.
  unfold ratio_equiv. split; red.
  - by split.
  - by intros ?? [-> ->].
  - intros ??? [E1 E2] [E3 E4]. by rewrite E1, E2.
Qed.

Section lemmas.
Context `{InfDecLaws Dec} {Quantity : Type} {QL : QuantityLib Quantity Dec} `{!QuantityLaws Quantity Dec}.
Implicit Types r : Ratio Dec.

Lemma adds_step {A} (step : Ratio Dec -> A -> Ratio Dec) (c m : A -> Q) r l :
  (forall r x, adds r (step r x) (c x) (m x)) -> adds r (foldl step r l) (total c l) (total m l).
Proof.
  intros Hstep. revert r. induction l as [|x l IH]; intros r; simpl; [split; ring|].
  destruct (IH (step r x)) as [Hc Hm], (Hstep r x) as [Ec Em].
  unfold adds. rewrite Hc, Hm, Ec, Em. split; ring.
Qed.

Lemma adds_equiv r r1 r2 c m c' m' :
  adds r r1 c m -> adds r r2 c' m' -> (c == c')%Q -> (m == m')%Q -> ratio_equiv r1 r2.
Proof. intros [E1 E2] [E3 E4] Hc Hm. split; red; by rewrite ?E1, ?E2, ?E3, ?E4, ?Hc, ?Hm. Qed.

Lemma spec_totals (l : list (Container Quantity)) (a b : Dec) :
  let '(cpu, mem) := foldl (fun '(cpu, mem) c =>
      (dec_Add cpu (AsDec (rl_Cpu (Requests c))), dec_Add mem (AsDec (rl_Memory (Requests c)))))
      (a, b) l in
  (value cpu == value a + total (fun c => value (AsDec (rl_Cpu (Requests c)))) l)%Q /\
  (value mem == value b + total (fun c => value (AsDec (rl_Memory (Requests c)))) l)%Q.
Proof.
  revert a b. induction l as [|c l IH]; intros a b; simpl; [split; ring|].
  specialize (IH (dec_Add a (AsDec (rl_Cpu (Requests c)))) (dec_Add b (AsDec (rl_Memory (Requests c))))).
  destruct (foldl _ _ l) as [cpu mem]. destruct IH as [-> ->]. rewrite !value_Add. split; ring.
Qed.

Lemma recordReplicatedPodSpec_adds r n (s : PodSpec Quantity) :
  adds r (recordReplicatedPodSpec r n s) (inject_Z n * spec_cpu s) (inject_Z n * spec_memory s).
Proof.
  unfold recordReplicatedPodSpec, spec_cpu, spec_memory.
  pose proof (spec_totals (Containers s) (NewDec 0 0) (NewDec 0 0)) as Hs.
  destruct (foldl _ _ (Containers s)) as [cpu mem]. destruct Hs as [Hc Hm].
  unfold adds. simpl. rewrite !value_Add, !value_Mul, Hc, Hm, !value_NewDec. split; ring.
Qed.

Lemma RecordPod_adds r pods :
  adds r (RecordPod r pods) (total (running spec_cpu) pods) (total (running spec_memory) pods).
Proof.
  apply adds_step. clear r. intros r pod. unfold running. case_bool_decide; [|split; ring].
  destruct (recordReplicatedPodSpec_adds r 1 (pod_Spec pod)) as [Ec Em].
  split; [rewrite Ec|rewrite Em]; ring.
Qed.

Lemma RecordDeployment_adds r deps :
  adds r (RecordDeployment r deps)
    (total (fun d => replicated spec_cpu (dep_Replicas d) (dep_Template d)) deps)
    (total (fun d => replicated spec_memory (dep_Replicas d) (dep_Template d)) deps).
Proof.
  apply adds_step. clear r. intros r d. apply (recordReplicatedPodSpec_adds r).
Qed.

Lemma RecordStatefulSet_adds r stss :
  adds r (RecordStatefulSet r stss)
    (total (fun s => replicated spec_cpu (sts_Replicas s) (sts_Template s)) stss)
    (total (fun s => replicated spec_memory (sts_Replicas s) (sts_Template s)) stss).
Proof.
  apply adds_step. clear r. intros r s. apply (recordReplicatedPodSpec_adds r).
Qed.

Lemma NewRatio_adds c m r : adds NewRatio r c m -> (value (CPU r) == c)%Q /\ (value (Memory r) == m)%Q.
Proof. intros [-> ->]. simpl. rewrite !value_zero. split; ring. Qed.

(** ** Lemmas: rounding *)

Lemma MiB_pos : (0 < inject_Z MiB)%Q.
Proof. done. Qed.

Lemma mib_round_up (m : Z) :
  (0 <= m)%Z -> (m <= round_up (inject_Z m / inject_Z MiB) * MiB < m + MiB)%Z.
Proof.
  intros Hm. rewrite round_up_ceiling.
  2:{ apply Qle_shift_div_l; [done|]. rewrite Qmult_0_l. change 0%Q with (inject_Z 0).
      by rewrite <- Zle_Qle. }
  set (x := (inject_Z m / inject_Z MiB)%Q).
  assert (Hx : (x * inject_Z MiB == inject_Z m)%Q) by (unfold x; field; done).
  pose proof (Qle_ceiling x) as Hle. pose proof (Qceiling_lt x) as Hlt.
  apply (Qmult_le_compat_r _ _ (inject_Z MiB)) in Hle; [|done].
  apply (Qmult_lt_compat_r _ _ (inject_Z MiB)) in Hlt; [|done].
  rewrite Hx, <- inject_Z_mult in Hle, Hlt. rewrite <- Zle_Qle in Hle. rewrite <- Zlt_Qlt in Hlt.
  split; [done|]. revert Hlt. generalize (Qceiling x). unfold MiB. lia.
Qed.

Lemma mib_round_bounds x :
  (0 <= x)%Q -> (x - (1 # 2) <= mib_round x)%Q /\ (mib_round x < x + (1 # 2) + inject_Z MiB)%Q.
Proof.
  intros Hx. destruct (round_half_even_bounds x) as [Hlo Hhi].
  destruct (mib_round_up _ (round_half_even_nonneg x Hx)) as [Hm1 Hm2].
  rewrite Zle_Qle in Hm1. rewrite Zlt_Qlt, inject_Z_plus in Hm2. unfold mib_round. split; lra.
Qed.
End lemmas.

Section groups.
Context `{InfDec Dec} {Quantity : Type} {QL : QuantityLib Quantity Dec} `{LabelsLib}.

(** What the loop over the pods of a namespace computes, key by key. *)
Lemma record_by_selector_lookup (pods : list (Pod Quantity)) m k :
  foldl record_by_selector m pods !! k =
  match filter (fun p => pod_key p = k) pods with
  | [] => m !! k
  | l => Some (RecordPod (default NewRatio (m !! k)) l)
  end.
Proof.
  revert m. induction pods as [|p pods IH]; intros m; simpl; [done|].
  rewrite IH, filter_cons. unfold record_by_selector. case_decide as Hk.
  - subst k. rewrite lookup_insert_eq. simpl. by destruct (filter _ pods).
  - by rewrite lookup_insert_ne.
Qed.
End groups.

(** ** Properties *)
Section properties.
Context `{InfDecLaws Dec} {Quantity : Type} {QL : QuantityLib Quantity Dec}.
Context `{!QuantityLaws Quantity Dec}.
Implicit Types r : Ratio Dec.

(** Recording adds to the totals exactly the requests of the containers: of the pods that
    are running, and of deployments and stateful sets once per replica, where no replica count
    means one. *)
Theorem Record_totals r pods deps stss :
  adds r (RecordStatefulSet (RecordDeployment (RecordPod r pods) deps) stss)
    (total (running spec_cpu) pods +
     total (fun d => replicated spec_cpu (dep_Replicas d) (dep_Template d)) deps +
     total (fun s => replicated spec_cpu (sts_Replicas s) (sts_Template s)) stss)
    (total (running spec_memory) pods +
     total (fun d => replicated spec_memory (dep_Replicas d) (dep_Template d)) deps +
     total (fun s => replicated spec_memory (sts_Replicas s) (sts_Template s)) stss).
Proof.
  destruct (RecordPod_adds r pods) as [Ec1 Em1].
  destruct (RecordDeployment_adds (RecordPod r pods) deps) as [Ec2 Em2].
  destruct (RecordStatefulSet_adds (RecordDeployment (RecordPod r pods) deps) stss) as [Ec3 Em3].
  unfold adds. rewrite Ec3, Em3, Ec2, Em2, Ec1, Em1. split; ring.
Qed.

Lemma Ratio_Ratio_value r :
  (Ratio_Ratio r = None /\ (value (CPU r) <= 0)%Q) \/
  exists q, Ratio_Ratio r = Some q /\ (0 < value (CPU r))%Q /\
    (value (AsDec q) == mib_round (value (Memory r) / value (CPU r)))%Q.
Proof.
  unfold Ratio_Ratio. destruct (Z.leb_spec (dec_Cmp (CPU r) (NewDec 0 0)) 0) as [Hc|Hc].
  - left. split; [done|]. apply Cmp_le in Hc. by rewrite value_NewDec in Hc.
  - right. assert (0 < value (CPU r))%Q as Hpos.
    { apply Qnot_le_lt. intros Hle. change 0%Q with (inject_Z 0) in Hle.
      rewrite <- (value_NewDec (Dec := Dec) 0) in Hle. apply Cmp_le in Hle. lia. }
    eexists. split; [done|]. split; [done|].
    rewrite value_NewDecimalQuantity, value_Mul, value_up by (rewrite value_NewDec; done).
    rewrite value_half_even by (intros E; rewrite E in Hpos; done).
    unfold mib_round.
    rewrite value_NewDec, inject_Z_mult. reflexivity.
Qed.

(** C30: there is a ratio exactly when CPU is requested, and it is the quotient of the totals,
    rounded to an integer and then up to the next MiB: a whole number of MiB, at most half a
    byte below the exact quotient and less than one MiB and a half byte above it. *)
Theorem Ratio_rounding r :
  (Ratio_Ratio r = None <-> (value (CPU r) <= 0)%Q) /\
  forall q, Ratio_Ratio r = Some q ->
    (value (AsDec q) == mib_round (value (Memory r) / value (CPU r)))%Q /\
    (exists n, value (AsDec q) == inject_Z (n * MiB))%Q /\
    ((0 <= value (Memory r))%Q ->
      (value (Memory r) / value (CPU r) - (1 # 2) <= value (AsDec q))%Q /\
      (value (AsDec q) < value (Memory r) / value (CPU r) + (1 # 2) + inject_Z MiB)%Q).
Proof.
  destruct (Ratio_Ratio_value r) as [[E Hle]|(q & E & Hlt & Hq)]; rewrite E.
  { by split. }
  split; [split; [done|intros Hle; by apply Qle_not_lt in Hle]|].
  intros q' [= <-]. split; [done|]. split; [eexists; exact Hq|]. intros Hm. rewrite Hq.
  apply mib_round_bounds. by apply Qle_shift_div_l; [|rewrite Qmult_0_l].
Qed.

(** A ratio is below a limit exactly when CPU is requested and the rounded quotient of the
    totals is less than the limit times the threshold, which is one when not given. *)
Theorem Below_spec r limit threshold :
  Below r limit threshold = true <->
  (0 < value (CPU r))%Q /\
  (mib_round (value (Memory r) / value (CPU r)) <
   value (AsDec limit) * from_option value 1%Q threshold)%Q.
Proof.
  unfold Below. set (t := match threshold with Some t => t | None => NewDec 1 0 end).
  assert (value t == from_option value 1%Q threshold)%Q as <-.
  { unfold t. destruct threshold; [done|]. simpl. by rewrite value_NewDec. }
  destruct (Ratio_Ratio_value r) as [[-> Hle]|(q & -> & Hlt & Hq)].
  - split; [done|]. intros [Hlt _]. by apply Qle_not_lt in Hle.
  - rewrite Z.ltb_lt, Cmp_lt, Hq, value_Mul. tauto.
Qed.

(** Ratios with equal totals are below the same limits: nothing depends on how a decimal is
    represented. *)
#[export] Instance Below_proper : Proper (ratio_equiv ==> eq ==> eq ==> eq) Below.
Proof.
  assert (Hi : forall r r' limit threshold, ratio_equiv r r' ->
    Below r limit threshold = true -> Below r' limit threshold = true).
  { intros r r' limit threshold [Ec Em]. red in Ec, Em. unfold Below.
    destruct (Ratio_Ratio_value r) as [[-> Hle]|(q & -> & Hlt & Hq)]; [done|].
    destruct (Ratio_Ratio_value r') as [[-> Hle']|(q' & -> & Hlt' & Hq')].
    { rewrite Ec in Hlt. by apply Qle_not_lt in Hle'. }
    rewrite !Z.ltb_lt, !Cmp_lt. intros Hb. rewrite Hq'. rewrite Hq in Hb.
    unfold mib_round in *. by rewrite <- Ec, <- Em. }
  intros r r' Hr l l' <- t t' <-. apply eq_true_iff_eq. split; apply Hi; [done|by symmetry].
Qed.

(** The totals do not depend on the order of the pods. *)
#[export] Instance RecordPod_perm : Proper ((=) ==> (≡ₚ) ==> ratio_equiv) (RecordPod (Dec := Dec)).
Proof.
  intros r r' <- l l' Hl. eapply adds_equiv; [apply RecordPod_adds..| |]; by rewrite Hl.
Qed.
End properties.

Section fetcher_properties.
Context `{InfDecLaws Dec} {Quantity : Type} {QL : QuantityLib Quantity Dec}.
Context `{!QuantityLaws Quantity Dec} `{LabelsLib}.
Context {NS : ClientGet Namespace} {PL : ClientList (Pod Quantity)}.

Lemma annotation_disables_spec ns :
  annotation_disables ns = true <->
  exists s, ns_Annotations ns !! RatioValidatiorDisableAnnotation = Some s /\
    strconv.ParseBool s = inr true.
Proof.
  unfold annotation_disables.
  destruct (ns_Annotations ns !! _) as [s|]; [|split; [done|by intros (? & ? & _)]].
  split; [|by intros (? & [= <-] & ->)].
  intros E. exists s. split; [done|]. destruct (strconv.ParseBool s); congruence.
Qed.

(** What [FetchRatios] does in every case. *)
Lemma FetchRatios_cases f name :
  match client_Get (T := Namespace) (name_key name) with
  | inl err => FetchRatios (Dec := Dec) f name = inl err
  | inr ns =>
      (ratio_disabled f ns /\ FetchRatios (Dec := Dec) f name = inl ErrorDisabled) \/
      (~ ratio_disabled f ns /\
       match client_List (T := Pod Quantity) [InNamespace name] with
       | inl err => FetchRatios (Dec := Dec) f name = inl err
       | inr pods => FetchRatios f name = inr (foldl (record_by_selector (Dec := Dec)) ∅ pods)
       end)
  end.
Proof.
  unfold FetchRatios. destruct (client_Get _) as [|ns]; [done|]. unfold ratio_disabled.
  rewrite <- annotation_disables_spec. destruct (annotation_disables ns); [left; auto|].
  destruct (bool_decide (f_OrganizationLabel f = "")) eqn:Ef; simpl.
  { apply bool_decide_eq_true in Ef. right. split; [naive_solver|]. by destruct (client_List _). }
  apply bool_decide_eq_false in Ef. destruct (ns_Labels ns !! _) eqn:El; simpl.
  - right. split; [naive_solver|]. by destruct (client_List _).
  - left. auto.
Qed.

(** C29: for a namespace that is not opted out, the ratios have an entry exactly for the node
    selectors of its pods, and the totals of each are those of the running pods with that node
    selector. *)
Theorem FetchRatios_groups f name ns pods :
  client_Get (name_key name) = inr ns -> ~ ratio_disabled f ns ->
  client_List [InNamespace name] = inr pods ->
  exists ratios, FetchRatios f name = inr ratios /\
    (forall k, is_Some (ratios !! k) <-> exists p, p ∈ pods /\ pod_key p = k) /\
    forall k r, ratios !! k = Some r ->
      (value (CPU r) == total (running spec_cpu) (filter (fun p => pod_key p = k) pods))%Q /\
      (value (Memory r) == total (running spec_memory) (filter (fun p => pod_key p = k) pods))%Q.
Proof.
  intros Hns Hd Hl. pose proof (FetchRatios_cases f name) as Hc. rewrite Hns, Hl in Hc.
  destruct Hc as [[? _]|[_ Hc]]; [done|]. eexists. split; [exact Hc|].
  split.
  - intros k. rewrite record_by_selector_lookup, lookup_empty. destruct (filter _ pods) as [|p l] eqn:E.
    + split; [by intros []|]. intros (p & Hp & Hk).
      by destruct (filter_nil_not_elem_of (fun p => pod_key p = k) pods p E Hk).
    + split; [|done]. intros _. exists p.
      assert (p ∈ filter (fun p => pod_key p = k) pods) as Hp by (rewrite E; left).
      by apply list_elem_of_filter in Hp as [].
  - intros k r Hr. rewrite record_by_selector_lookup, lookup_empty in Hr.
    destruct (filter _ pods) as [|p l]; [done|]. injection Hr as <-.
    apply NewRatio_adds, (RecordPod_adds NewRatio (p :: l)).
Qed.

(** The error that disables the ratio is returned exactly for namespaces that opt out with
    a true annotation, or that belong to no organization when the label is configured, where
    neither read of the cluster returns that error. *)
Theorem FetchRatios_disabled f name :
  (forall k, client_Get (T := Namespace) k <> inl ErrorDisabled) ->
  (forall opts, client_List (T := Pod Quantity) opts <> inl ErrorDisabled) ->
  FetchRatios (Dec := Dec) (Quantity := Quantity) f name = inl ErrorDisabled <->
  exists ns, client_Get (name_key name) = inr ns /\ ratio_disabled f ns.
Proof.
  intros Hg Hl. pose proof (FetchRatios_cases f name) as Hc.
  destruct (client_Get _) as [err|ns] eqn:Eg.
  { rewrite Hc. split; [intros [= ->]; by destruct (Hg (name_key name))|by intros (? & ? & _)]. }
  destruct Hc as [[Hd ->]|[Hd Hc]]; [split; [by exists ns|done]|].
  split; [|by intros (? & [= <-] & ?)].
  destruct (client_List _) eqn:El; rewrite Hc; [|done].
  intros [= ->]. by destruct (Hl [InNamespace name]).
Qed.
End fetcher_properties.

(** ** The theorems on the example *)
Import Fake FakeDec.

Lemma Record_totals_witness :
  (value (CPU (RecordStatefulSet (RecordDeployment (RecordPod NewRatio [ex_pod "Running" ∅])
    [{| dep_Replicas := Some 3%Z; dep_Template := pod_Spec (ex_pod "" ∅) |}]) [])) == 12)%Q.
Proof.
  destruct (Record_totals NewRatio [ex_pod "Running" ∅]
    [{| dep_Replicas := Some 3%Z; dep_Template := pod_Spec (ex_pod "" ∅) |}] []) as [E _].
  etrans; [exact E|]. by vm_compute.
Defined.

Lemma Ratio_rounding_witness :
  (value (AsDec (NewDecimalQuantity 2506096640%Q BinarySI)) ==
   mib_round (value (Memory (RecordPod NewRatio [ex_pod "Running" ∅])) /
              value (CPU (RecordPod NewRatio [ex_pod "Running" ∅]))))%Q.
Proof.
  refine (proj1 (proj2 (Ratio_rounding (RecordPod NewRatio [ex_pod "Running" ∅])) _ _)).
  by vm_compute.
Defined.

Lemma Below_spec_witness :
  Below (RecordPod NewRatio [ex_pod "Running" ∅]) 4294967296%Q None = true.
Proof. apply Below_spec. split; by vm_compute. Defined.

Lemma FetchRatios_groups_witness :
  exists ratios : gmap string (Ratio Q),
    FetchRatios (NS := ex_ns ∅) (PL := ex_pods) ex_fetcher "web" = inr ratios /\
    is_Some (ratios !! "class=plus").
Proof.
  destruct (FetchRatios_groups (NS := ex_ns ∅) (PL := ex_pods) ex_fetcher "web" _ _ eq_refl
    ltac:(intros [(? & ? & _)|[_ ?]]; done) eq_refl) as (ratios & E & Hk & _).
  exists ratios. split; [exact E|]. apply Hk. eexists. split; [left|]. by vm_compute.
Defined.

Lemma FetchRatios_disabled_witness :
  FetchRatios (Dec := Q) (NS := ex_ns {[RatioValidatiorDisableAnnotation := "true"]})
    (PL := ex_pods) ex_fetcher "web" = inl ErrorDisabled.
Proof.
  refine (proj2 (FetchRatios_disabled (NS := ex_ns {[RatioValidatiorDisableAnnotation := "true"]})
    (PL := ex_pods) ex_fetcher "web" _ _) _); [done..|].
  eexists. split; [reflexivity|]. left. by exists "true".
Defined.

(** The rounding to an integer comes first, so a ratio a quarter of a byte above one MiB is
    rounded down to one MiB, and not up to two. *)
Lemma Ratio_rounds_down :
  Ratio_Ratio {| CPU := 4%Q; Memory := 4194305%Q |} = Some 1048576%Q /\
  (1048576 < 4194305 / 4)%Q.
Proof. by vm_compute. Qed.
