(* ===== verification/Limits.v ===== *)
(** * Limits of the ratio (limits/limits.go)

    The limit for a node selector is that of the first entry whose selector matches it. *)
From S2P Require Import Prelude GoStd Kube.

(** [metav1.LabelSelectorAsSelector]; the selectors of the configuration are a library type. *)
Class LabelSelectorLib (LabelSelector : Type) :=
  LabelSelectorAsSelector : LabelSelector -> error + Selector.

Record Limit {LabelSelector Quantity} := {
  lim_NodeSelector : LabelSelector;
  lim_Limit : option Quantity;
}.
Arguments Limit : clear implicits.
Arguments Build_Limit {LabelSelector Quantity}.

Abbreviation Limits LS Q := (list (Limit LS Q)).

Section limits.
Context `{LabelSelectorLib LS} {Quantity : Type}.

Fixpoint GetLimitForNodeSelector (l : Limits LS Quantity) (nodeSelector : gmap string string)
    : option Quantity :=
  match l with
  | [] => None
  | limit :: l' =>
      match LabelSelectorAsSelector (lim_NodeSelector limit) with
      | inl _ => GetLimitForNodeSelector l' nodeSelector
      | inr limitSel =>
          if limitSel nodeSelector then lim_Limit limit
          else GetLimitForNodeSelector l' nodeSelector
      end
  end.

(** The entry applies: its selector is valid and matches. *)
Definition limit_matches (nodeSelector : gmap string string) (limit : Limit LS Quantity) : Prop :=
  exists sel, LabelSelectorAsSelector (lim_NodeSelector limit) = inr sel /\ sel nodeSelector = true.

#[export] Instance limit_matches_dec ns limit : Decision (limit_matches ns limit).
Proof.
  refine (match LabelSelectorAsSelector (lim_NodeSelector limit) as r
    return LabelSelectorAsSelector (lim_NodeSelector limit) = r -> _ with
  | inl _ => fun E => right _
  | inr sel => fun E => cast_if (decide (sel ns = true))
  end eq_refl); unfold limit_matches; rewrite E; naive_solver.
Defined.

Lemma GetLimit_cons limit l nodeSelector :
  GetLimitForNodeSelector (limit :: l) nodeSelector =
  if decide (limit_matches nodeSelector limit) then lim_Limit limit
  else GetLimitForNodeSelector l nodeSelector.
Proof.
  unfold limit_matches. simpl. case_decide as Hm.
  - destruct Hm as (sel & -> & ->). done.
  - destruct (LabelSelectorAsSelector _) as [|sel]; [done|].
    destruct (sel nodeSelector) eqn:E; [|done]. by destruct Hm; exists sel.
Qed.
End limits.

Section properties.
Context `{LabelSelectorLib LS} {Quantity : Type}.

(** The limit is that of the first entry that applies, even when that entry has none;
    invalid selectors never apply, and without an entry that applies there is no limit. *)
Theorem GetLimitForNodeSelector_first (l : Limits LS Quantity) nodeSelector :
  match list_find (limit_matches nodeSelector) l with
  | Some (i, limit) =>
      GetLimitForNodeSelector l nodeSelector = lim_Limit limit /\ l !! i = Some limit /\
      forall j e, (j < i)%nat -> l !! j = Some e -> ~ limit_matches nodeSelector e
  | None =>
      GetLimitForNodeSelector l nodeSelector = None /\
      forall e, e ∈ l -> ~ limit_matches nodeSelector e
  end.
Proof.
  destruct (list_find _ l) as [[i limit]|] eqn:E.
  - apply list_find_first in E as (Hi & Hm & Hf). split_and!; [|done|by eauto].
    revert i Hi Hf. induction l as [|e l IH]; intros i Hi Hf; [done|]. rewrite GetLimit_cons.
    destruct i as [|i]; simplify_eq/=; [by rewrite decide_True|].
    rewrite decide_False by (apply (Hf 0%nat); [done|lia]).
    apply (IH i Hi). intros j e' He' Hj. apply (Hf (S j)); [done|lia].
  - apply list_find_None in E. split; [|by apply Forall_forall].
    induction E as [|e l He _ IH]; [done|]. by rewrite GetLimit_cons, decide_False.
Qed.
End properties.
