(* ===== verification/RatioValidator.v ===== *)
(** * The warnings about the ratio
    (webhooks/ratio_validator.go, controllers/ratio_controller.go)

    The webhook that answers requests with warnings, and the controller that records events,
    when the memory to CPU ratio of a namespace is below the limit. *)
From S2P Require Import Prelude GoStd Kube Fake Quantity Ratio Limits.

(** The interface [ratioFetcher], and its implementation by [ratio.Fetcher]. *)
Class ratioFetcher (Dec : Type) := fetch_ratios : string -> error + gmap string (Ratio Dec).

Definition Fetcher_ratioFetcher `{InfDec Dec} {Quantity} {QL : QuantityLib Quantity Dec}
    `{LabelsLib} {NS : ClientGet Namespace} {PL : ClientList (Pod Quantity)} (f : Fetcher)
    : ratioFetcher Dec := FetchRatios f.

Record RatioValidator {LS Quantity Dec} := {
  rv_RatioLimits : Limits LS Quantity;
  rv_RatioWarnThreshold : option Dec;
  rv_DefaultNodeSelector : gmap string string;
  rv_DefaultNamespaceNodeSelectorAnnotation : string;
}.
Arguments RatioValidator : clear implicits.

(** Responses of this webhook: errors do not deny the request. *)
Definition errored (code : Z) (err : error) : AdmissionResponse := {|
  resp_Allowed := true;
  resp_Result := Some {| status_Code := code; status_Message := errors.Error err |};
  resp_Patches := [];
  resp_Warnings := [];
|}.

Definition with_warnings (warnings : list string) : AdmissionResponse := {|
  resp_Allowed := true; resp_Result := None; resp_Patches := []; resp_Warnings := warnings |}.

Section handler.
Context `{RangeOracle} `{InfDec Dec} {Quantity : Type} {QL : QuantityLib Quantity Dec}.
Context `{LabelSelectorLib LS} `{LabelsLib} `{AdmissionLib} `{ApiErrors} {RF : ratioFetcher Dec}.
Context {DP : Decoder (Pod Quantity)} {DD : Decoder (Deployment Quantity)}.
Context {DS : Decoder (StatefulSet Quantity)} {NS : ClientGet Namespace}.
Implicit Types v : RatioValidator LS Quantity Dec.

(** The loop of [fuzzyMatchRatioKey].  Its selector is nil when it could not be parsed, and
    calling a method of the nil selector panics: [None]. *)
Fixpoint fuzzy_loop (s : string) (sel : option Selector) (l : list (string * Ratio Dec))
    : option string :=
  match l with
  | [] => Some s
  | (k, _) :: l' =>
      let '(ks, _) := labels_ConvertSelector k in
      match sel with
      | None => None
      | Some sel => if sel ks then Some k else fuzzy_loop s (Some sel) l'
      end
  end.

Definition fuzzyMatchRatioKey (s : string) (ratios : gmap string (Ratio Dec)) : option string :=
  match ratios !! s with
  | Some _ => Some s
  | None =>
      let sel := match labels_Parse s with inr sel => Some sel | inl _ => None end in
      fuzzy_loop s sel (range_map 0 ratios)
  end.

Definition recordObject (r : Ratio Dec) (req : AdmissionRequest) : error + Ratio Dec :=
  if bool_decide (gvk_Kind (req_Kind req) = "Pod") then
    try pod <- Decode (T := Pod Quantity) req catch err => inl err;; inr (RecordPod r [pod])
  else if bool_decide (gvk_Kind (req_Kind req) = "Deployment") then
    try deploy <- Decode (T := Deployment Quantity) req catch err => inl err;;
    inr (RecordDeployment r [deploy])
  else if bool_decide (gvk_Kind (req_Kind req) = "StatefulSet") then
    try sts <- Decode (T := StatefulSet Quantity) req catch err => inl err;;
    inr (RecordStatefulSet r [sts])
  else inr r.

Definition getNodeSelector (req : AdmissionRequest) : error + gmap string string :=
  if bool_decide (gvk_Kind (req_Kind req) = "Pod") then
    try pod <- Decode (T := Pod Quantity) req catch err => inl err;;
    inr (NodeSelector (pod_Spec pod))
  else if bool_decide (gvk_Kind (req_Kind req) = "Deployment") then
    try deploy <- Decode (T := Deployment Quantity) req catch err => inl err;;
    inr (NodeSelector (dep_Template deploy))
  else if bool_decide (gvk_Kind (req_Kind req) = "StatefulSet") then
    try sts <- Decode (T := StatefulSet Quantity) req catch err => inl err;;
    inr (NodeSelector (sts_Template sts))
  else inr ∅.

(** The map and the error; the caller logs the error and goes on with the map. *)
Definition getDefaultNodeSelectorFromNamespace v (namespace : string)
    : gmap string string * option error :=
  match client_Get (T := Namespace) (name_key namespace) with
  | inl err => (∅, Some err)
  | inr ns => labels_ConvertSelector
      (map_get (ns_Annotations ns) (rv_DefaultNamespaceNodeSelectorAnnotation v))
  end.

(** The node selector that the object is counted for: its own, else that of the namespace,
    else the configured one. *)
Definition effective_node_selector v (req : AdmissionRequest) (own : gmap string string)
    : gmap string string :=
  let nodeSel := if bool_decide (size own = 0%nat)
                 then (getDefaultNodeSelectorFromNamespace v (req_Namespace req)).1 else own in
  if bool_decide (size nodeSel = 0%nat) then rv_DefaultNodeSelector v else nodeSel.

(** The part of [Handle] that adds the created object to the ratios.  [None] is a panic. *)
Definition record_created (req : AdmissionRequest) (nodeSel : gmap string string)
    (ratios : gmap string (Ratio Dec)) : option (AdmissionResponse + gmap string (Ratio Dec)) :=
  if bool_decide (req_Operation req = Create) then
    key ← fuzzyMatchRatioKey (labels_Set_String nodeSel) ratios;
    let r := match ratios !! key with Some r => r | None => NewRatio end in
    Some (try r <- recordObject r req catch err => inl (errored StatusBadRequest err);;
          inr (<[key := r]> ratios))
  else Some (inr ratios).

(** The loop that collects the warnings. *)
Fixpoint warnings_loop v (l : list (string * Ratio Dec)) (warnings : list string)
    : AdmissionResponse :=
  match l with
  | [] => with_warnings warnings
  | (nodeSel, r) :: l' =>
      try sel <- labels_ConvertSelectorToLabelsMap nodeSel
        catch err => errored StatusInternalServerError err;;
      match GetLimitForNodeSelector (rv_RatioLimits v) sel with
      | None => warnings_loop v l' warnings
      | Some limit =>
          if Below r limit (rv_RatioWarnThreshold v)
          then warnings_loop v l' (warnings ++ [Warn r (Some limit) nodeSel])
          else warnings_loop v l' warnings
      end
  end.

Definition RatioValidator_Handle v (req : AdmissionRequest) : option AdmissionResponse :=
  if strings.HasPrefix (Username (req_UserInfo req)) "system:"
  then Some (admission_Allowed "system user") else
  match fetch_ratios (req_Namespace req) with
  | inl err => Some
      (if errors.Is err "ErrorDisabled" then admission_Allowed "validation disabled"
       else if apierrors_IsNotFound err then errored StatusNotFound err
       else errored StatusInternalServerError err)
  | inr ratios =>
      match getNodeSelector req with
      | inl err => Some (errored StatusBadRequest err)
      | inr own =>
          let nodeSel := effective_node_selector v req own in
          res ← record_created req nodeSel ratios;
          Some (try ratios <- res catch resp => resp;;
                warnings_loop v (range_map 1 ratios) [])
      end
  end.

(** ** Specification *)

(** A node selector is warned about: there is a limit for it, and its ratio is below. *)
Definition warned (limits : Limits LS Quantity) (threshold : option Dec)
    (ratios : gmap string (Ratio Dec)) (key : string) (r : Ratio Dec) (limit : Quantity) : Prop :=
  ratios !! key = Some r /\
  exists sel, labels_ConvertSelectorToLabelsMap key = inr sel /\
    GetLimitForNodeSelector limits sel = Some limit /\ Below r limit threshold = true.
End handler.

Section specification.
Context `{InfDec Dec} `{!DecValue Dec} {Quantity LS : Type} {QL : QuantityLib Quantity Dec} `{LabelsLib}.
Context {DP : Decoder (Pod Quantity)} {DD : Decoder (Deployment Quantity)}.
Context {DS : Decoder (StatefulSet Quantity)} {NS : ClientGet Namespace}.
Implicit Types v : RatioValidator LS Quantity Dec.

(** The object of a request: its own node selector, and the CPU and the memory that it requests. A
    pod requests what its containers do if it is running, a deployment and a stateful set what
    those of each replica do, and any other object nothing. *)
Inductive request_object (req : AdmissionRequest) : gmap string string -> Q -> Q -> Prop :=
| object_pod (pod : Pod Quantity) :
    gvk_Kind (req_Kind req) = "Pod" -> Decode req = inr pod ->
    request_object req (NodeSelector (pod_Spec pod)) (running spec_cpu pod) (running spec_memory pod)
| object_deployment (deploy : Deployment Quantity) :
    gvk_Kind (req_Kind req) = "Deployment" -> Decode req = inr deploy ->
    request_object req (NodeSelector (dep_Template deploy))
      (replicated spec_cpu (dep_Replicas deploy) (dep_Template deploy))
      (replicated spec_memory (dep_Replicas deploy) (dep_Template deploy))
| object_statefulset (sts : StatefulSet Quantity) :
    gvk_Kind (req_Kind req) = "StatefulSet" -> Decode req = inr sts ->
    request_object req (NodeSelector (sts_Template sts))
      (replicated spec_cpu (sts_Replicas sts) (sts_Template sts))
      (replicated spec_memory (sts_Replicas sts) (sts_Template sts))
| object_other :
    gvk_Kind (req_Kind req) ∉ ["Pod"; "Deployment"; "StatefulSet"] -> request_object req ∅ 0 0.

(** The node selector that an annotation of the namespace gives. *)
Definition namespace_selector v (req : AdmissionRequest) (sel : gmap string string) : Prop :=
  exists ns, client_Get (name_key (req_Namespace req)) = inr ns /\ sel <> ∅ /\
    sel = (labels_ConvertSelector
      (map_get (ns_Annotations ns) (rv_DefaultNamespaceNodeSelectorAnnotation v))).1.

(** The node selector that the object is counted for: its own one, else that of the namespace, else
    the configured one. *)
Inductive selector_for v (req : AdmissionRequest) (own : gmap string string)
    : gmap string string -> Prop :=
| selector_own : own <> ∅ -> selector_for v req own own
| selector_namespace sel : own = ∅ -> namespace_selector v req sel -> selector_for v req own sel
| selector_default :
    own = ∅ -> (forall sel, ~ namespace_selector v req sel) ->
    selector_for v req own (rv_DefaultNodeSelector v).

(** The ratio that a node selector, as text, counts for: that of exactly this selector, else one of
    more labels, else a new one. *)
Inductive counted_key (s : string) (ratios : gmap string (Ratio Dec)) : string -> Prop :=
| key_exact : is_Some (ratios !! s) -> counted_key s ratios s
| key_matching sel key :
    ratios !! s = None -> labels_Parse s = inr sel -> is_Some (ratios !! key) ->
    sel (labels_ConvertSelector key).1 = true -> counted_key s ratios key
| key_new sel :
    ratios !! s = None -> labels_Parse s = inr sel ->
    (forall key, is_Some (ratios !! key) -> sel (labels_ConvertSelector key).1 = false) ->
    counted_key s ratios s
| key_first : ratios = ∅ -> counted_key s ratios s.

(** The ratios after the object of the request has been counted, if it is created. *)
Inductive counted v (req : AdmissionRequest) (ratios : gmap string (Ratio Dec))
    : gmap string (Ratio Dec) -> Prop :=
| counted_unchanged : req_Operation req <> Create -> counted v req ratios ratios
| counted_created own cpu mem sel key r :
    req_Operation req = Create -> request_object req own cpu mem ->
    selector_for v req own sel -> counted_key (labels_Set_String sel) ratios key ->
    adds (default NewRatio (ratios !! key)) r cpu mem ->
    counted v req ratios (<[key := r]> ratios).
End specification.

(** ** [RatioReconciler] *)
Record RatioReconciler {LS Quantity Dec} := {
  rr_RatioLimits : Limits LS Quantity;
  rr_RatioWarnThreshold : option Dec;
}.
Arguments RatioReconciler : clear implicits.

Definition eventReason : string := "TooMuchCPURequest".

(** An event that is recorded on an object. *)
Inductive EventObject := OnPod (namespace name : string) | OnNamespace (name : string).

Record Event := {
  ev_Object : EventObject;
  ev_Type : string;
  ev_Reason : string;
  ev_Message : string;
}.

Section controller.
Context `{RangeOracle} `{InfDec Dec} {Quantity : Type} {QL : QuantityLib Quantity Dec}.
Context `{LabelSelectorLib LS} `{LabelsLib} {RF : ratioFetcher Dec}.
Context {GP : ClientGet (Pod Quantity)} {NS : ClientGet Namespace}.
Implicit Types r : RatioReconciler LS Quantity Dec.

Definition warnPod (name namespace : string) (nsRatio : Ratio Dec) (sel : string)
    (limit : Quantity) : list Event :=
  match client_Get (T := Pod Quantity) {| key_Namespace := namespace; key_Name := name |} with
  | inl _ => []
  | inr pod => [{| ev_Object := OnPod namespace name; ev_Type := "Warning";
                   ev_Reason := eventReason; ev_Message := Warn nsRatio (Some limit) sel |}]
  end.

Definition warnNamespace (name : string) (nsRatio : Ratio Dec) (sel : string)
    (limit : Quantity) : list Event :=
  match client_Get (T := Namespace) (name_key name) with
  | inl _ => []
  | inr ns => [{| ev_Object := OnNamespace name; ev_Type := "Warning";
                  ev_Reason := eventReason; ev_Message := Warn nsRatio (Some limit) sel |}]
  end.

(** The loop over the ratios: the events recorded, and the error. *)
Fixpoint reconcile_loop r (name namespace : string) (l : list (string * Ratio Dec))
    : list Event * option error :=
  match l with
  | [] => ([], None)
  | (nodeSel, ratio) :: l' =>
      try sel <- labels_ConvertSelectorToLabelsMap nodeSel
        catch err => ([], Some (WrapError ("failed to convert node selector '" +:+ nodeSel +:+
                                           "' to labels map: ") err ""));;
      match GetLimitForNodeSelector (rr_RatioLimits r) sel with
      | None => reconcile_loop r name namespace l'
      | Some limit =>
          let events :=
            if Below ratio limit (rr_RatioWarnThreshold r)
            then warnPod name namespace ratio nodeSel limit ++
                 warnNamespace namespace ratio nodeSel limit
            else [] in
          let '(events', err) := reconcile_loop r name namespace l' in
          (events ++ events', err)
      end
  end.

Definition RatioReconciler_Reconcile r (name namespace : string) : list Event * option error :=
  match fetch_ratios namespace with
  | inl err => ([], if errors.Is err "ErrorDisabled" then None else Some err)
  | inr nsRatios => reconcile_loop r name namespace (range_map 0 nsRatios)
  end.
End controller.

(** ** Examples

    The fair use ratio of nodes of class plus is 4 GiB, and the selectors of limits are maps of
    labels that must be present. *)
#[local] Instance rv_selectors : LabelSelectorLib (gmap string string) := fun m =>
  inr (fun m' => bool_decide (m ⊆ m')).

Definition rv_limits : Limits (gmap string string) Q :=
  [{| lim_NodeSelector := {["class" := "plus"]}; lim_Limit := Some 4294967296%Q |}].

Definition rv_validator : RatioValidator (gmap string string) Q Q := {|
  rv_RatioLimits := rv_limits;
  rv_RatioWarnThreshold := None;
  rv_DefaultNodeSelector := {["class" := "plus"]};
  rv_DefaultNamespaceNodeSelectorAnnotation := "appuio.io/node-selector";
|}.

Definition rv_fetcher : ratioFetcher Q := fun _ =>
  inr {["class=plus,zone=a" := {| CPU := 4%Q; Memory := 17179869184%Q |}]}.

Definition rv_decoder : Decoder (Deployment Q) := {|
  Decode := fun req => if bool_decide (req_Name req = "broken") then inl (ErrorString "broken") else
    inr {| dep_Replicas := Some 3%Z; dep_Template := pod_Spec (ex_pod "" ∅) |};
  DecodeRaw := fun _ => inl (ErrorString "unused") |}.

Definition rv_pods : Decoder (Pod Q) := {|
  Decode := fun _ => inr (ex_pod "" {["a,b" := "c"]}); DecodeRaw := fun _ => inl (ErrorString "unused") |}.

Definition rv_statefulsets : Decoder (StatefulSet Q) := {|
  Decode := fun _ => inl (ErrorString "unused"); DecodeRaw := fun _ => inl (ErrorString "unused") |}.

Definition rv_request (kind name : string) : AdmissionRequest := {|
  req_Kind := {| gvk_Group := ""; gvk_Version := "v1"; gvk_Kind := kind |};
  req_Name := name; req_Namespace := "web"; req_Operation := Create;
  req_UserInfo := {| Username := "alice"; Groups := [] |};
  req_Object := "{}"; req_OldObject := "";
|}.

Definition rv_reconciler : RatioReconciler (gmap string string) Q Q := {|
  rr_RatioLimits := rv_limits; rr_RatioWarnThreshold := None |}.

Definition rv_low : ratioFetcher Q := fun _ =>
  inr {["class=plus" := {| CPU := 4%Q; Memory := 1048576%Q |}]}.

Definition rv_get_pod : ClientGet (Pod Q) := fun _ => inr (ex_pod "Running" ∅).

(** ** Lemmas *)
Section lemmas.
Context `{RangeOracle} `{InfDec Dec} {Quantity : Type} {QL : QuantityLib Quantity Dec}.
Context `{LabelSelectorLib LS} `{LabelsLib} `{AdmissionLib} `{ApiErrors} {RF : ratioFetcher Dec}.
Context {DP : Decoder (Pod Quantity)} {DD : Decoder (Deployment Quantity)}.
Context {DS : Decoder (StatefulSet Quantity)} {NS : ClientGet Namespace}.
Context {GP : ClientGet (Pod Quantity)}.
Implicit Types v : RatioValidator LS Quantity Dec.

(** What the loops conclude for one entry. *)
Definition low_limit (limits : Limits LS Quantity) (threshold : option Dec)
    (e : string * Ratio Dec) : option Quantity :=
  match labels_ConvertSelectorToLabelsMap e.1 with
  | inl _ => None
  | inr sel =>
      limit ← GetLimitForNodeSelector limits sel;
      if Below e.2 limit threshold then Some limit else None
  end.

Definition warning_of (limits : Limits LS Quantity) (threshold : option Dec)
    (e : string * Ratio Dec) : option string :=
  limit ← low_limit limits threshold e; Some (Warn e.2 (Some limit) e.1).

Lemma low_limit_spec limits threshold (ratios : gmap string (Ratio Dec)) k r limit :
  warned limits threshold ratios k r limit <->
  ratios !! k = Some r /\ low_limit limits threshold (k, r) = Some limit.
Proof.
  unfold warned, low_limit. simpl. apply and_iff_compat_l. split.
  - intros (sel & -> & -> & Hb). simpl. by rewrite Hb.
  - destruct (labels_ConvertSelectorToLabelsMap k) as [|sel]; [done|].
    intros (li & Hli & Hb)%bind_Some. exists sel. split; [done|].
    destruct (Below r li threshold) eqn:E; simplify_eq. by rewrite E.
Qed.

Lemma warnings_loop_allowed v l ws : resp_Allowed (warnings_loop v l ws) = true.
Proof.
  revert ws. induction l as [|[k r] l IH]; intros ws; simpl; [done|].
  destruct (labels_ConvertSelectorToLabelsMap k); [done|].
  destruct (GetLimitForNodeSelector _ _); [|done]. by destruct (Below _ _ _).
Qed.

Lemma warnings_loop_omap v l ws :
  resp_Result (warnings_loop v l ws) = None ->
  resp_Warnings (warnings_loop v l ws) =
  ws ++ omap (warning_of (rv_RatioLimits v) (rv_RatioWarnThreshold v)) l.
Proof.
  revert ws. induction l as [|[k r] l IH]; intros ws; simpl; [by rewrite app_nil_r|].
  unfold warning_of at 1, low_limit at 1. simpl.
  destruct (labels_ConvertSelectorToLabelsMap k) as [|sel]; [done|].
  destruct (GetLimitForNodeSelector _ sel) as [limit|]; simpl; [|apply IH].
  destruct (Below r limit _); simpl; intros Hr; rewrite (IH _ Hr); [|done]. by rewrite <- app_assoc.
Qed.

(** The events of one entry. *)
Definition events_of (r : RatioReconciler LS Quantity Dec) (name namespace : string)
    (e : string * Ratio Dec) : list Event :=
  match low_limit (rr_RatioLimits r) (rr_RatioWarnThreshold r) e with
  | None => []
  | Some limit => warnPod name namespace e.2 e.1 limit ++ warnNamespace namespace e.2 e.1 limit
  end.

Lemma reconcile_loop_events r name namespace l :
  (reconcile_loop r name namespace l).2 = None ->
  (reconcile_loop r name namespace l).1 = l ≫= events_of r name namespace.
Proof.
  induction l as [|[k ra] l IH]; simpl; [done|]. unfold events_of at 1, low_limit. simpl.
  destruct (labels_ConvertSelectorToLabelsMap k) as [|sel]; [done|].
  destruct (GetLimitForNodeSelector _ sel) as [limit|]; simpl; [|done].
  destruct (reconcile_loop r name namespace l) as [evs err]. simpl in *. intros Hn.
  rewrite (IH Hn). by destruct (Below ra limit _).
Qed.

(** The fuzzy match: what the loop returns. *)
Lemma fuzzy_loop_spec s sel (l : list (string * Ratio Dec)) k :
  fuzzy_loop s (Some sel) l = Some k ->
  ((exists r, (k, r) ∈ l) /\ sel (labels_ConvertSelector k).1 = true) \/
  (k = s /\ forall k' r, (k', r) ∈ l -> sel (labels_ConvertSelector k').1 = false).
Proof.
  induction l as [|[k' r] l IH]; simpl.
  { intros [= <-]. right. split; [done|]. by intros ? ? ?%not_elem_of_nil. }
  destruct (labels_ConvertSelector k') as [ks o] eqn:Ek. destruct (sel ks) eqn:Es.
  - intros [= <-]. left. split; [exists r; left|]. by rewrite Ek.
  - intros [[(r' & Hin) Hs]|[-> Hno]]%IH; [left; split; [exists r'; by right|done]|].
    right. split; [done|]. intros k2 r2 [[= -> ->]|Hin]%elem_of_cons; [by rewrite Ek|eauto].
Qed.
End lemmas.

(** Which ratio an object is counted for, and what is counted. *)
Section counting.
Context `{RangeOracle} `{InfDecLaws Dec} {Quantity LS : Type} {QL : QuantityLib Quantity Dec} `{LabelsLib}.
Context `{!QuantityLaws Quantity Dec}.
Context {DP : Decoder (Pod Quantity)} {DD : Decoder (Deployment Quantity)}.
Context {DS : Decoder (StatefulSet Quantity)} {NS : ClientGet Namespace}.
Implicit Types v : RatioValidator LS Quantity Dec.

Lemma adds_one (r r' : Ratio Dec) cpu mem : adds r r' (cpu + 0) (mem + 0) -> adds r r' cpu mem.
Proof. intros [Ec Em]. unfold adds. rewrite Ec, Em. split; ring. Qed.

Lemma recordObject_adds req own (r r' : Ratio Dec) :
  getNodeSelector req = inr own -> recordObject r req = inr r' ->
  exists cpu mem, request_object req own cpu mem /\ adds r r' cpu mem.
Proof.
  unfold getNodeSelector, recordObject. intros Hown Hr.
  case_bool_decide; [|case_bool_decide; [|case_bool_decide]].
  - destruct (Decode req) as [|pod] eqn:E; simplify_eq. eexists _, _. split; [by apply object_pod|].
    apply adds_one, (RecordPod_adds r [pod]).
  - destruct (Decode req) as [|deploy] eqn:E; simplify_eq. eexists _, _. split; [by apply object_deployment|].
    apply adds_one, (RecordDeployment_adds r [deploy]).
  - destruct (Decode req) as [|sts] eqn:E; simplify_eq. eexists _, _. split; [by apply object_statefulset|].
    apply adds_one, (RecordStatefulSet_adds r [sts]).
  - simplify_eq. eexists _, _. split; [apply object_other; set_solver|]. split; ring.
Qed.

Lemma effective_node_selector_spec v req own :
  selector_for v req own (effective_node_selector v req own).
Proof.
  unfold effective_node_selector. cbv zeta.
  assert (Hsize : forall m : gmap string string, bool_decide (size m = 0%nat) = bool_decide (m = ∅))
    by (intros m; apply bool_decide_ext, map_size_empty_iff).
  rewrite !Hsize. destruct (decide (own = ∅)) as [Ho|Ho].
  2:{ rewrite (bool_decide_eq_false_2 _ Ho), (bool_decide_eq_false_2 _ Ho). by constructor. }
  rewrite (bool_decide_eq_true_2 _ Ho). unfold getDefaultNodeSelectorFromNamespace.
  destruct (client_Get _) as [|ns] eqn:Eg; simpl.
  { apply selector_default; [done|]. intros sel (ns & Hns & _). congruence. }
  case_bool_decide as Hs.
  - apply selector_default; [done|]. intros sel (ns' & Hns & Hne & ->). simplify_eq. congruence.
  - apply selector_namespace; [done|]. by exists ns.
Qed.

Lemma fuzzyMatchRatioKey_key s (ratios : gmap string (Ratio Dec)) key :
  fuzzyMatchRatioKey s ratios = Some key -> counted_key s ratios key.
Proof.
  unfold fuzzyMatchRatioKey. destruct (ratios !! s) eqn:E.
  { intros [= <-]. by apply key_exact. }
  destruct (labels_Parse s) as [|sel] eqn:Ep.
  { destruct (range_map 0 ratios) as [|[k r] l] eqn:El; simpl.
    - intros [= <-]. apply key_first, map_empty. intros k. destruct (ratios !! k) eqn:Ek; [|done].
      rewrite <- (range_map_elem 0), El in Ek. by apply not_elem_of_nil in Ek.
    - by destruct (labels_ConvertSelector k). }
  intros [[[r Hin] Hs]|[-> Hno]]%fuzzy_loop_spec.
  - rewrite range_map_elem in Hin. by eapply key_matching; [..|eexists|].
  - eapply key_new; [done..|]. intros k [r Hk]. apply (Hno k r). by rewrite range_map_elem.
Qed.

Lemma record_created_counted v req own ratios after :
  getNodeSelector req = inr own ->
  record_created req (effective_node_selector v req own) ratios = Some (inr after) ->
  counted v req ratios after.
Proof.
  intros Hown. unfold record_created. case_bool_decide; [|intros [= <-]; by constructor].
  intros (key & Hk & [= Hr])%bind_Some. destruct (recordObject _ _) as [|r] eqn:Er; [done|]. simplify_eq.
  eapply recordObject_adds in Er as (cpu & mem & Ho & Ha); [|done].
  eapply counted_created; [done|exact Ho|apply effective_node_selector_spec|by apply fuzzyMatchRatioKey_key|].
  by destruct (ratios !! key).
Qed.
End counting.

(** ** Properties *)
Section properties.
Context `{RangeOracle} `{InfDec Dec} {Quantity : Type} {QL : QuantityLib Quantity Dec}.
Context `{LabelSelectorLib LS} `{LabelsLib} `{AdmissionLaws} `{ApiErrors} {RF : ratioFetcher Dec}.
Context {DP : Decoder (Pod Quantity)} {DD : Decoder (Deployment Quantity)}.
Context {DS : Decoder (StatefulSet Quantity)} {NS : ClientGet Namespace}.
Context {GP : ClientGet (Pod Quantity)}.
Implicit Types v : RatioValidator LS Quantity Dec.

(** The webhook never denies a request: whatever fails, its answer allows it. *)
Theorem ratio_never_denies v req resp :
  RatioValidator_Handle v req = Some resp -> resp_Allowed resp = true.
Proof.
  unfold RatioValidator_Handle. case_match; [intros [= <-]; auto with agent|].
  destruct (fetch_ratios _) as [err|ratios].
  { intros [= <-]. repeat case_match; auto with agent. }
  destruct (getNodeSelector req); [by intros [= <-]|].
  intros (res & Hr & [= <-])%bind_Some. destruct res as [resp|after].
  - unfold record_created in Hr. case_match; [|done].
    apply bind_Some in Hr as (key & _ & [= Hr]). destruct (recordObject _ _); by simplify_eq.
  - apply warnings_loop_allowed.
Qed.

(** An object is counted for the ratio of exactly its node selector if there is one; else
    for one whose node selector satisfies its own; and only if there is none for a new one. *)
Theorem fuzzyMatchRatioKey_spec (s : string) (ratios : gmap string (Ratio Dec)) sel key :
  labels_Parse s = inr sel -> fuzzyMatchRatioKey s ratios = Some key ->
  (key = s /\ is_Some (ratios !! s)) \/
  (ratios !! s = None /\ is_Some (ratios !! key) /\ sel (labels_ConvertSelector key).1 = true) \/
  (key = s /\ ratios !! s = None /\
   forall k, is_Some (ratios !! k) -> sel (labels_ConvertSelector k).1 = false).
Proof.
  intros Hp. unfold fuzzyMatchRatioKey. rewrite Hp. destruct (ratios !! s) eqn:E.
  { intros [= <-]. by left. }
  intros [[[r Hin] Hs]|[-> Hno]]%fuzzy_loop_spec; right.
  - rewrite range_map_elem in Hin. left. split_and!; [done|by exists r|done].
  - right. split_and!; [done..|]. intros k [r Hk]. apply (Hno k r). by rewrite range_map_elem.
Qed.

(** The handler panics only when the object is created and its node selector, written as
    text, cannot be parsed. *)
Theorem ratio_panics v req :
  RatioValidator_Handle v req = None ->
  req_Operation req = Create /\
  exists own err, getNodeSelector req = inr own /\
    labels_Parse (labels_Set_String (effective_node_selector v req own)) = inl err.
Proof.
  unfold RatioValidator_Handle. case_match; [done|].
  destruct (fetch_ratios _) as [err|ratios]; [done|].
  destruct (getNodeSelector req) as [|own]; [done|]. unfold record_created.
  case_bool_decide as Hc; [|done]. intros Hn. split; [done|]. exists own.
  destruct (fuzzyMatchRatioKey _ ratios) as [key|] eqn:Ef; [done|].
  unfold fuzzyMatchRatioKey in Ef. case_match; [done|].
  destruct (labels_Parse _) as [err|sel]; [by exists err|].
  exfalso. revert Ef. clear. induction (range_map 0 ratios) as [|[k r] l IH]; simpl; [done|].
  destruct (labels_ConvertSelector k). by destruct (sel _).
Qed.

(** C31: when the controller succeeds for a namespace that is not opted out, it records an event
    exactly for the node selectors that have a limit and whose ratio is below it: one on the
    pod it reacts to and one on the namespace, each if that object can be read. *)
Theorem reconcile_events (r : RatioReconciler LS Quantity Dec) name namespace ratios ev :
  fetch_ratios namespace = inr ratios ->
  (RatioReconciler_Reconcile r name namespace).2 = None ->
  ev ∈ (RatioReconciler_Reconcile r name namespace).1 <->
  exists key ra limit,
    warned (rr_RatioLimits r) (rr_RatioWarnThreshold r) ratios key ra limit /\
    ev_Type ev = "Warning" /\ ev_Reason ev = eventReason /\
    ev_Message ev = Warn ra (Some limit) key /\
    (ev_Object ev = OnPod namespace name /\
     (exists pod, client_Get (T := Pod Quantity)
       {| key_Namespace := namespace; key_Name := name |} = inr pod) \/
     ev_Object ev = OnNamespace namespace /\
     (exists ns, client_Get (T := Namespace) (name_key namespace) = inr ns)).
Proof.
  intros Hf. unfold RatioReconciler_Reconcile. rewrite Hf. intros Hn.
  rewrite (reconcile_loop_events _ _ _ _ Hn), list_elem_of_bind. unfold events_of, warnPod, warnNamespace.
  split.
  - intros ([k ra] & Hev & Hin). rewrite range_map_elem in Hin. simpl in Hev.
    destruct (low_limit _ _ _) as [limit|] eqn:El; [|by apply not_elem_of_nil in Hev].
    exists k, ra, limit. split; [by apply low_limit_spec|].
    apply elem_of_app in Hev as [Hev|Hev]; (destruct (client_Get _) eqn:Eg;
      [by apply not_elem_of_nil in Hev|]); apply list_elem_of_singleton in Hev as ->; simpl; eauto 10.
  - intros (k & ra & limit & [Hk Hl]%low_limit_spec & Ht & Hre & Hm & Ho). exists (k, ra).
    rewrite range_map_elem. split; [|done]. rewrite Hl. apply elem_of_app.
    destruct ev as [o ty re m]; simpl in *; subst.
    destruct Ho as [[-> [pod ->]]|[-> [ns ->]]]; [left|right]; apply list_elem_of_here.
Qed.
End properties.

Section warnings.
Context `{RangeOracle} `{InfDecLaws Dec} {Quantity : Type} {QL : QuantityLib Quantity Dec}.
Context `{!QuantityLaws Quantity Dec}.
Context `{LabelSelectorLib LS} `{LabelsLib} `{AdmissionLaws} `{ApiErrors} {RF : ratioFetcher Dec}.
Context {DP : Decoder (Pod Quantity)} {DD : Decoder (Deployment Quantity)}.
Context {DS : Decoder (StatefulSet Quantity)} {NS : ClientGet Namespace}.
Implicit Types v : RatioValidator LS Quantity Dec.

(** C17: the answer to a request of a user who is no system user, that reaches the end of the
    handler, warns exactly about the node selectors that have a limit and whose ratio is below it,
    where an object that is created has been counted: the requests of a deployment or a stateful
    set once per replica, and those of a pod if it is running, for the ratio of the object's node
    selector or else that of the namespace or else the configured one. *)
Theorem ratio_warnings_exact v req ratios resp :
  strings.HasPrefix (Username (req_UserInfo req)) "system:" = false ->
  fetch_ratios (req_Namespace req) = inr ratios ->
  RatioValidator_Handle v req = Some resp -> resp_Result resp = None ->
  exists after, counted v req ratios after /\
    forall w, w ∈ resp_Warnings resp <->
      exists key r limit,
        warned (rv_RatioLimits v) (rv_RatioWarnThreshold v) after key r limit /\
        w = Warn r (Some limit) key.
Proof.
  intros Hu Hf. unfold RatioValidator_Handle. rewrite Hu, Hf.
  destruct (getNodeSelector req) as [|own] eqn:En; [by intros [= <-]|].
  intros (res & Hr & [= <-])%bind_Some. destruct res as [resp|after]; intros Hres.
  { unfold record_created in Hr. case_match; [|done].
    apply bind_Some in Hr as (key & _ & [= Hr]). destruct (recordObject _ _); by simplify_eq. }
  exists after. split; [by eapply record_created_counted|].
  intros w. rewrite (warnings_loop_omap _ _ _ Hres), app_nil_l, list_elem_of_omap. split.
  - intros ([k r] & Hin & (limit & Hl & [= <-])%bind_Some). rewrite range_map_elem in Hin.
    exists k, r, limit. split; [by apply low_limit_spec|done].
  - intros (k & r & limit & [Hk Hl]%low_limit_spec & ->). exists (k, r).
    rewrite range_map_elem. split; [done|]. unfold warning_of. by rewrite Hl.
Qed.
End warnings.

(** ** The theorems on the examples *)
Import Fake FakeDec.
#[local] Existing Instances rv_pods rv_decoder rv_statefulsets.

Definition rv_response : AdmissionResponse :=
  with_warnings [Warn {| CPU := 13%Q; Memory := 39728447488%Q |} (Some 4294967296%Q)
                      "class=plus,zone=a"].

Lemma ratio_never_denies_witness :
  exists resp, RatioValidator_Handle (RF := rv_fetcher) (NS := ex_ns ∅) rv_validator
    (rv_request "Deployment" "broken") = Some resp /\ resp_Allowed resp = true.
Proof.
  eexists. split; [by vm_compute|].
  eapply (ratio_never_denies (RF := rv_fetcher) (NS := ex_ns ∅) rv_validator
    (rv_request "Deployment" "broken")).
  by vm_compute.
Defined.

Lemma ratio_warnings_exact_witness :
  RatioValidator_Handle (RF := rv_fetcher) (NS := ex_ns ∅) rv_validator
    (rv_request "Deployment" "web") = Some rv_response /\
  exists after key r limit, counted (NS := ex_ns ∅) rv_validator (rv_request "Deployment" "web")
    {["class=plus,zone=a" := {| CPU := 4%Q; Memory := 17179869184%Q |}]} after /\
    warned (rv_RatioLimits rv_validator) None after key r limit.
Proof.
  assert (Hh : RatioValidator_Handle (RF := rv_fetcher) (NS := ex_ns ∅) rv_validator
    (rv_request "Deployment" "web") = Some rv_response) by (by vm_compute).
  split; [exact Hh|].
  destruct (ratio_warnings_exact (RF := rv_fetcher) (NS := ex_ns ∅) rv_validator
    (rv_request "Deployment" "web") _ _ eq_refl eq_refl Hh eq_refl) as (after & Hc & Hw).
  destruct (proj1 (Hw _) (list_elem_of_here _ _)) as (key & r & limit & Hl & _). eauto 6.
Defined.

Lemma fuzzyMatchRatioKey_spec_witness :
  exists ratios : gmap string (Ratio Q), rv_fetcher "web" = inr ratios /\
  fuzzyMatchRatioKey (labels_Set_String {["class" := "plus"]}) ratios = Some "class=plus,zone=a" /\
  is_Some (ratios !! "class=plus,zone=a").
Proof.
  eexists. split; [reflexivity|].
  destruct (labels_String_Parse (LabelsLaws := fake_labels_laws) {["class" := "plus"]})
    as (sel & Hp & _); [right; left|].
  match goal with |- ?P /\ _ => assert (Hf : P) by (by vm_compute) end. split; [exact Hf|].
  destruct (fuzzyMatchRatioKey_spec _ _ sel _ Hp Hf) as [[E _]|[(_ & Hs & _)|[E _]]];
    [by vm_compute in E|exact Hs|by vm_compute in E].
Defined.

(** A pod whose node selector has a key that is no label makes the handler panic. *)
Lemma ratio_panics_witness :
  RatioValidator_Handle (RF := rv_fetcher) (NS := ex_ns ∅) rv_validator
    (rv_request "Pod" "web") = None /\
  exists err, labels_Parse (labels_Set_String {["a,b" := "c"]}) = inl err.
Proof.
  assert (Hh : RatioValidator_Handle (RF := rv_fetcher) (NS := ex_ns ∅) rv_validator
    (rv_request "Pod" "web") = None) by (by vm_compute).
  split; [exact Hh|].
  destruct (ratio_panics (RF := rv_fetcher) (NS := ex_ns ∅) rv_validator (rv_request "Pod" "web") Hh)
    as (_ & own & err & Hown & Herr).
  injection Hown as <-. exists err. exact Herr.
Defined.

Lemma reconcile_events_witness :
  exists ev, ev ∈ (RatioReconciler_Reconcile (RF := rv_low) (GP := rv_get_pod) (NS := ex_ns ∅)
    rv_reconciler "pod" "web").1 /\ ev_Object ev = OnPod "web" "pod".
Proof.
  eexists. split; [|exact (eq_refl (ev_Object {| ev_Object := OnPod "web" "pod";
    ev_Type := "Warning"; ev_Reason := eventReason;
    ev_Message := Warn {| CPU := 4%Q; Memory := 1048576%Q |} (Some 4294967296%Q) "class=plus" |}))].
  apply (reconcile_events (RF := rv_low) (GP := rv_get_pod) (NS := ex_ns ∅) rv_reconciler
    "pod" "web" {["class=plus" := {| CPU := 4%Q; Memory := 1048576%Q |}]}); [reflexivity|by vm_compute|].
  eexists "class=plus", _, 4294967296%Q. split.
  - apply low_limit_spec. split; [apply lookup_singleton_eq|]. by vm_compute.
  - split_and!; [done..|]. left. split; [done|]. by eexists.
Defined.
