(* ===== verification/Effects.v ===== *)
(** * Programs that call the API server

    A reconciler is a program whose calls are answered by a cluster.  [exec] relates a program to
    its complete runs and [reach] to the states it passes through, where other clients may act
    before every call, a call may fail, and a failed call may still have been carried out.
    Reaching a state is what a crash at that point leaves behind.

    The functions of [controllerutil] that the reconcilers use are interfaces. *)
From S2P Require Import Prelude GoStd Kube.

(** ** Programs *)
Inductive prog (E : Type -> Type) (A : Type) : Type :=
| Ret (a : A)
| Vis {X : Type} (e : E X) (k : X -> prog E A).
Arguments Ret {E A}.
Arguments Vis {E A X}.

Fixpoint prog_bind {E A B} (p : prog E A) (f : A -> prog E B) : prog E B :=
  match p with
  | Ret a => f a
  | Vis e k => Vis e (fun x => prog_bind (k x) f)
  end.

Definition trigger {E X} (e : E X) : prog E X := Vis e Ret.

#[export] Instance prog_mret E : MRet (prog E) := fun A a => Ret a.
#[export] Instance prog_mbind E : MBind (prog E) := fun A B f p => prog_bind p f.

(** A loop over a list that collects what the body returns. *)
Fixpoint for_each {E A B} (l : list A) (body : A -> prog E B) : prog E (list B) :=
  match l with
  | [] => mret []
  | x :: l' => y ← body x; ys ← for_each l' body; mret (y :: ys)
  end.

(** ** Runs

    [step] says how the cluster answers a call, [env] what the other clients do. *)
Section runs.
Context {E : Type -> Type} {S : Type} (step : forall X, E X -> S -> X -> S -> Prop).
Context (env : S -> S -> Prop).

Fixpoint exec {A} (p : prog E A) (s : S) (a : A) (s' : S) : Prop :=
  match p with
  | Ret b => a = b /\ rtc env s s'
  | Vis e k => exists s0 x s1, rtc env s s0 /\ step _ e s0 x s1 /\ exec (k x) s1 a s'
  end.

Fixpoint reach {A} (p : prog E A) (s s' : S) : Prop :=
  rtc env s s' \/
  match p with
  | Ret _ => False
  | Vis e k => exists s0 x s1, rtc env s s0 /\ step _ e s0 x s1 /\ reach (k x) s1 s'
  end.

(** A property that other clients do not invalidate. *)
Definition stable (P : S -> Prop) : Prop := forall s s', env s s' -> P s -> P s'.

Lemma stable_rtc P s s' : stable P -> rtc env s s' -> P s -> P s'.
Proof. intros Hs. induction 1; eauto. Qed.

Lemma exec_reach {A} (p : prog E A) s a s' : exec p s a s' -> reach p s s'.
Proof.
  revert s. induction p as [b|X e k IH]; intros s; simpl; [by intros [_ ?]; left|].
  intros (s0 & x & s1 & ? & ? & ?). right. exists s0, x, s1. eauto.
Qed.

(** The rule for one call, for properties of every state passed through. *)
Lemma reach_vis {A X} (e : E X) (k : X -> prog E A) (P I : S -> Prop) s s' :
  reach (Vis e k) s s' -> stable P -> stable I -> (forall s, P s -> I s) -> P s ->
  (forall s0 x s1, P s0 -> step _ e s0 x s1 -> reach (k x) s1 s' -> I s') -> I s'.
Proof.
  intros Hr HP HI HPI Hs Hstep. destruct Hr as [Hr|(s0 & x & s1 & Hr & He & Hk)].
  - apply HPI. by eapply stable_rtc.
  - eapply Hstep; [|done|done]. by eapply stable_rtc.
Qed.

(** The rules for one call in the notation of programs. *)
Lemma exec_trigger {A X} (e : E X) (k : X -> prog E A) s a s' :
  exec (trigger e ≫= k) s a s' <->
  exists s0 x s1, rtc env s s0 /\ step _ e s0 x s1 /\ exec (k x) s1 a s'.
Proof. done. Qed.

Lemma exec_ret {A} (a b : A) s s' : exec (mret b) s a s' <-> a = b /\ rtc env s s'.
Proof. done. Qed.

Lemma exec_bind {A B} (p : prog E A) (f : A -> prog E B) s b s' :
  exec (prog_bind p f) s b s' ->
  exists a s1 s2, exec p s a s1 /\ rtc env s1 s2 /\ exec (f a) s2 b s'.
Proof.
  revert s. induction p as [a|X e k IH]; intros s; simpl; [by eauto 10 using rtc_refl|].
  intros (s0 & x & s1 & Hr & He & Hk). apply IH in Hk as (a & s2 & s3 & Hk & ? & ?).
  exists a, s2, s3. split; [|done]. exists s0, x, s1. done.
Qed.

(** The same in the other direction. *)
Lemma exec_env {A} (p : prog E A) s s1 a s2 : rtc env s s1 -> exec p s1 a s2 -> exec p s a s2.
Proof.
  destruct p as [b|X e k]; intros Hr; [intros [-> ?]; split; [done|by etrans]|].
  intros (s0 & x & s3 & ? & ? & ?). exists s0, x, s3. split; [by etrans|done].
Qed.

Lemma bind_exec {A B} (p : prog E A) (f : A -> prog E B) s a s1 b s2 :
  exec p s a s1 -> exec (f a) s1 b s2 -> exec (p ≫= f) s b s2.
Proof.
  revert s. induction p as [c|X e k IH]; intros s; [intros [-> Hr]; by apply exec_env|].
  intros (s0 & x & s3 & Hr & He & Hk) Hf. exists s0, x, s3. split_and!; [done..|]. by apply IH.
Qed.

Lemma reach_bind {A B} (p : prog E A) (f : A -> prog E B) s s' :
  reach (prog_bind p f) s s' ->
  reach p s s' \/ exists a s1, exec p s a s1 /\ reach (f a) s1 s'.
Proof.
  revert s. induction p as [a|X e k IH]; intros s; simpl.
  - intros Hr. right. exists a, s. split; [by split; [|apply rtc_refl]|done].
  - intros [Hr|(s0 & x & s1 & ? & ? & [Hk|(a & s2 & ? & ?)]%IH)]; [by left; left| |].
    + left. right. exists s0, x, s1. done.
    + right. exists a, s2. split; [|done]. by exists s0, x, s1.
Qed.

(** ** Invariants of programs

    A property that holds in every state that a program passes through if it holds before. *)
Definition invariant (I : S -> Prop) {A} (p : prog E A) : Prop :=
  forall s s', I s -> reach p s s' -> I s'.

Section invariants.
Context (I : S -> Prop) (HI : stable I).

Lemma invariant_ret {A} (a : A) : invariant I (mret a).
Proof using HI. intros s s' Hs [Hr|[]]. by eapply stable_rtc. Qed.

Lemma invariant_call {X} (e : E X) :
  (forall s x s', I s -> step _ e s x s' -> I s') -> invariant I (trigger e).
Proof using HI.
  intros He s s' Hs [Hr|(s0 & x & s1 & Hr & Hx & [Hr'|[]])]; [by eapply stable_rtc|].
  eapply stable_rtc; [done..|]. eapply He; [|done]. by eapply stable_rtc.
Qed.

Lemma invariant_bind {A B} (p : prog E A) (f : A -> prog E B) :
  invariant I p -> (forall a, invariant I (f a)) -> invariant I (p ≫= f).
Proof.
  intros Hp Hf s s' Hs [Hr|(a & s1 & Hx%exec_reach & Hr)]%reach_bind; [by eapply Hp|].
  eapply Hf; [|done]. by eapply Hp.
Qed.

(** The program after a call may rely on what the call returned. *)
Lemma invariant_trigger {A X} (e : E X) (Q : X -> Prop) (f : X -> prog E A) :
  (forall s x s', I s -> step _ e s x s' -> I s' /\ Q x) -> (forall x, Q x -> invariant I (f x)) ->
  invariant I (trigger e ≫= f).
Proof using HI.
  intros He Hf s s' Hs [Hr|(s0 & x & s1 & Hr & Hx & Hk)]; [by eapply stable_rtc|].
  destruct (He s0 x s1) as [Hs1 HQ]; [by eapply stable_rtc|done|]. by eapply Hf.
Qed.

Lemma invariant_for_each {A B} (l : list A) (body : A -> prog E B) :
  (forall x, x ∈ l -> invariant I (body x)) -> invariant I (for_each l body).
Proof using HI.
  induction l as [|x l IH]; intros Hb; simpl; [apply invariant_ret|].
  apply invariant_bind; [apply Hb; left|]. intros y.
  apply invariant_bind; [apply IH; intros; apply Hb; by right|]. intros ys. apply invariant_ret.
Qed.
End invariants.
End runs.

(** More may happen when others may do more. *)
Section mono.
Context {E : Type -> Type} {S : Type} (step step' : forall X, E X -> S -> X -> S -> Prop).
Context (env env' : S -> S -> Prop).
Context (Hstep : forall X e s x s', step X e s x s' -> step' X e s x s').
Context (Henv : forall s s', env s s' -> env' s s').

Lemma exec_mono {A} (p : prog E A) s a s' : exec step env p s a s' -> exec step' env' p s a s'.
Proof using Hstep Henv.
  revert s. induction p as [b|X e k IH]; intros s; simpl.
  - intros [-> Hr]. split; [done|]. by eapply rtc_subrel.
  - intros (s0 & x & s1 & Hr & Hx & Hk). exists s0, x, s1.
    split_and!; [by eapply rtc_subrel|by apply Hstep|by apply IH].
Qed.

Lemma reach_mono {A} (p : prog E A) s s' : reach step env p s s' -> reach step' env' p s s'.
Proof using Hstep Henv.
  revert s. induction p as [b|X e k IH]; intros s; simpl.
  - intros [Hr|[]]. left. by eapply rtc_subrel.
  - intros [Hr|(s0 & x & s1 & Hr & Hx & Hk)]; [left; by eapply rtc_subrel|right]. exists s0, x, s1.
    split_and!; [by eapply rtc_subrel|by apply Hstep|by apply IH].
Qed.
End mono.

(** Other clients that do nothing. *)
Definition alone {S : Type} (s s' : S) : Prop := False.

Lemma rtc_alone {S} (s s' : S) : rtc alone s s' -> s' = s.
Proof. by inversion 1. Qed.

(** Runs without other clients, call by call. *)
Lemma alone_trigger {E S A X} (step : forall X, E X -> S -> X -> S -> Prop) (e : E X)
    (k : X -> prog E A) s a s' :
  exec step alone (trigger e ≫= k) s a s' <->
  exists x s1, step _ e s x s1 /\ exec step alone (k x) s1 a s'.
Proof.
  rewrite exec_trigger. split.
  - intros (s0 & x & s1 & ->%rtc_alone & ? & ?). by exists x, s1.
  - intros (x & s1 & ? & ?). exists s, x, s1. split; [apply rtc_refl|done].
Qed.

Lemma alone_call {E S X} (step : forall X, E X -> S -> X -> S -> Prop) (e : E X) s x s' :
  exec step alone (trigger e) s x s' <-> step _ e s x s'.
Proof.
  simpl. split.
  - by intros (s0 & y & s1 & ->%rtc_alone & ? & <- & ->%rtc_alone).
  - intros ?. exists s, x, s'. split_and!; auto using rtc_refl.
Qed.

Lemma alone_ret {E S A} (step : forall X, E X -> S -> X -> S -> Prop) (a b : A) s s' :
  exec step alone (mret b) s a s' <-> a = b /\ s' = s.
Proof.
  rewrite exec_ret. split; [by intros [-> ->%rtc_alone]|intros [-> ->]; by split; [|apply rtc_refl]].
Qed.

Lemma alone_bind {E S A B} (step : forall X, E X -> S -> X -> S -> Prop) (p : prog E A)
    (f : A -> prog E B) s a s1 b s2 :
  exec step alone p s a s1 -> exec step alone (f a) s1 b s2 -> exec step alone (p ≫= f) s b s2.
Proof.
  revert s. induction p as [c|X e k IH]; intros s; [by intros [-> ->%rtc_alone]|].
  intros (s0 & x & s3 & Hr & He & Hk) Hf. exists s0, x, s3. split_and!; [done..|]. by apply IH.
Qed.

(** ** A cluster that does what it is asked

    [answer] is how a cluster without faults answers each call; [run] executes a program there. *)
Fixpoint run {E S A} (answer : forall X, E X -> S -> X * S) (p : prog E A) (s : S) : A * S :=
  match p with
  | Ret a => (a, s)
  | Vis e k => let '(x, s') := answer _ e s in run answer (k x) s'
  end.

Lemma run_exec {E S A} (step : forall X, E X -> S -> X -> S -> Prop)
    (answer : forall X, E X -> S -> X * S) (p : prog E A) s :
  (forall X e s, step X e s (answer X e s).1 (answer X e s).2) ->
  exec step alone p s (run answer p s).1 (run answer p s).2.
Proof.
  intros Ha. revert s. induction p as [a|X e k IH]; intros s; [by split; [|apply rtc_refl]|].
  simpl. specialize (Ha X e s). destruct (answer X e s) as [x s1].
  exists s, x, s1. split; [apply rtc_refl|]. split; [exact Ha|apply IH].
Qed.

Lemma run_bind {E S A B} (answer : forall X, E X -> S -> X * S) (p : prog E A) (f : A -> prog E B) s :
  run answer (p ≫= f) s = let '(a, s') := run answer p s in run answer (f a) s'.
Proof.
  revert s. induction p as [a|X e k IH]; intros s; [done|].
  change (run answer (Vis e k ≫= f) s) with
    (let '(x, s') := answer X e s in run answer (k x ≫= f) s').
  simpl. destruct (answer X e s). apply IH.
Qed.

(** ** Loops over what does not overlap

    A part of the state is a map.  The body of a loop, run for [x], changes only the entries
    [keys x], and [post] describes how; when the entries of different elements are different,
    the loop does to each of them what the body does. *)
Section footprint.
Context {E : Type -> Type} {S A B K V : Type} (step : forall X, E X -> S -> X -> S -> Prop).
Context (body : A -> prog E B) (get : S -> K -> option V) (keys : A -> list K).
Context (post : A -> B -> K -> option V -> option V -> Prop).

Definition footprint (x : A) : Prop := forall s y s', exec step alone (body x) s y s' ->
  (forall k, k ∈ keys x -> post x y k (get s k) (get s' k)) /\
  (forall k, k ∉ keys x -> get s' k = get s k).

Lemma for_each_footprint l s ys s' :
  (forall x, x ∈ l -> footprint x) -> NoDup (l ≫= keys) ->
  exec step alone (for_each l body) s ys s' ->
  (forall x, x ∈ l -> exists y s1 s2, y ∈ ys /\ exec step alone (body x) s1 y s2 /\
    forall k, k ∈ keys x -> post x y k (get s k) (get s' k)) /\
  (forall k, k ∉ l ≫= keys -> get s' k = get s k).
Proof.
  revert s ys. induction l as [|x l IH]; intros s ys Hb Hnd Hx.
  { apply alone_ret in Hx as [-> ->]. split; [|done]. by intros ? ?%not_elem_of_nil. }
  apply exec_bind in Hx as (y & s1 & s2 & Hx & ->%rtc_alone & Hl).
  apply exec_bind in Hl as (rest & s3 & s4 & Hl & ->%rtc_alone & Hr). apply alone_ret in Hr as [-> ->].
  simpl in Hnd. apply NoDup_app in Hnd as (_ & Hdis & Hnd).
  destruct (Hb x (list_elem_of_here _ _) _ _ _ Hx) as [Hpost Hframe].
  destruct (IH _ _ (fun z Hz => Hb z (list_elem_of_further _ _ _ Hz)) Hnd Hl) as [IHpost IHframe].
  assert (Hin : forall z k, z ∈ l -> k ∈ keys z -> k ∈ l ≫= keys)
    by (intros z k Hz Hk; apply list_elem_of_bind; eauto).
  split.
  - intros z Hz. apply elem_of_cons in Hz as [->|Hz].
    + exists y, s, s1. split; [left|]. split; [done|]. intros k Hk.
      rewrite IHframe by (by apply Hdis). by apply Hpost.
    + destruct (IHpost z Hz) as (y' & t1 & t2 & Hy' & Ht & Hp). exists y', t1, t2. split; [by right|].
      split; [done|]. intros k Hk. rewrite <- (Hframe k); [by apply Hp|].
      intros Hkx. by apply (Hdis k Hkx), (Hin z).
  - intros k Hk. simpl in Hk. apply not_elem_of_app in Hk as [Hk1 Hk2]. by rewrite IHframe, Hframe.
Qed.
End footprint.

(** The common case: one entry for each element. *)
Lemma for_each_keyed {E S A B K V} (step : forall X, E X -> S -> X -> S -> Prop)
    (body : A -> prog E B) (get : S -> K -> option V) (key : A -> K) post l s ys s' :
  (forall x, x ∈ l -> footprint step body get (fun x => [key x]) post x) -> NoDup (key <$> l) ->
  exec step alone (for_each l body) s ys s' ->
  (forall x, x ∈ l -> exists y, y ∈ ys /\ post x y (key x) (get s (key x)) (get s' (key x))) /\
  (forall k, k ∉ key <$> l -> get s' k = get s k).
Proof.
  intros Hb Hnd Hx.
  assert (Hkeys : l ≫= (fun x => [key x]) = key <$> l) by (clear; induction l as [|x l IH]; [done|]; by rewrite fmap_cons, <- IH).
  destruct (for_each_footprint _ _ _ _ _ l s ys s' Hb) as [Hp Hf]; [by rewrite Hkeys|done|].
  rewrite Hkeys in Hf. split; [|done]. intros x Hx0.
  destruct (Hp x Hx0) as (y & s1 & s2 & Hy & _ & Hk). exists y. split; [done|].
  by apply Hk, list_elem_of_singleton.
Qed.

(** A part of the state that the body leaves alone. *)
Lemma for_each_keeps {E S A B C} (step : forall X, E X -> S -> X -> S -> Prop)
    (body : A -> prog E B) (f : S -> C) l s ys s' :
  (forall x s y s', x ∈ l -> exec step alone (body x) s y s' -> f s' = f s) ->
  exec step alone (for_each l body) s ys s' -> f s' = f s.
Proof.
  revert s ys. induction l as [|x l IH]; intros s ys Hb Hx; [by apply alone_ret in Hx as [-> ->]|].
  apply exec_bind in Hx as (y & s1 & s2 & Hx & ->%rtc_alone & Hl).
  apply exec_bind in Hl as (rest & s3 & s4 & Hl & ->%rtc_alone & Hr). apply alone_ret in Hr as [-> ->].
  rewrite (IH _ _ (fun z s0 y0 s1' Hz => Hb z s0 y0 s1' (list_elem_of_further _ _ _ Hz)) Hl).
  by apply (Hb x _ _ _ (list_elem_of_here _ _) Hx).
Qed.

(** ** Loops that establish something for every element

    What nothing invalidates, neither calls nor other clients, holds at the end when the body
    establishes it. *)
Section establish.
Context {E : Type -> Type} {S A B : Type} (step : forall X, E X -> S -> X -> S -> Prop).
Context (env : S -> S -> Prop).

Definition kept (P : S -> Prop) : Prop :=
  stable env P /\ forall X (e : E X) s x s', step X e s x s' -> P s -> P s'.

Lemma reach_keeps {C} (P : S -> Prop) (p : prog E C) s s' :
  kept P -> reach step env p s s' -> P s -> P s'.
Proof.
  intros [He Hc]. revert s. induction p as [b|X e k IH]; intros s.
  - intros [Hr|[]] Hs. by eapply stable_rtc.
  - intros [Hr|(s0 & x & s1 & Hr & Hx & Hk)] Hs; [by eapply stable_rtc|].
    eapply IH; [done|]. eapply Hc; [done|]. by eapply stable_rtc.
Qed.

Lemma exec_keeps {C} (P : S -> Prop) (p : prog E C) s a s' :
  kept P -> exec step env p s a s' -> P s -> P s'.
Proof.
  intros [He Hc]. revert s. induction p as [b|X e k IH]; intros s.
  - intros [_ Hr] Hs. by eapply stable_rtc.
  - intros (s0 & x & s1 & Hr & Hx & Hk) Hs. eapply IH; [done|]. eapply Hc; [done|].
    by eapply stable_rtc.
Qed.

(** What holds after a complete run if it held before; calls may break it in between. *)
Definition preserves (I : S -> Prop) {C} (p : prog E C) : Prop :=
  forall s a s', I s -> exec step env p s a s' -> I s'.

Lemma preserves_ret {C} (I : S -> Prop) (a : C) : stable env I -> preserves I (mret a).
Proof. intros HI s b s' Hs [_ Hr]. by eapply stable_rtc. Qed.

Lemma preserves_call {X} (I : S -> Prop) (e : E X) :
  stable env I -> (forall s x s', step X e s x s' -> I s -> I s') -> preserves I (trigger e).
Proof.
  intros HI He s x s' Hs (s0 & y & s1 & Hr & Hx & _ & Hr').
  eapply stable_rtc; [done..|]. eapply He; [done|]. by eapply stable_rtc.
Qed.

Lemma preserves_bind {C D} (I : S -> Prop) (p : prog E C) (f : C -> prog E D) :
  stable env I -> preserves I p -> (forall a, preserves I (f a)) -> preserves I (p ≫= f).
Proof.
  intros HI Hp Hf s b s' Hs (a & s1 & s2 & Hx & Hr & Hy)%exec_bind.
  eapply Hf; [|done]. eapply stable_rtc; [done..|]. by eapply Hp.
Qed.

Lemma preserves_for_each (I : S -> Prop) (l : list A) (body : A -> prog E B) :
  stable env I -> (forall x, x ∈ l -> preserves I (body x)) -> preserves I (for_each l body).
Proof.
  intros HI. induction l as [|x l IH]; intros Hb; simpl; [by apply preserves_ret|].
  apply preserves_bind; [done|apply Hb; left|]. intros y.
  apply preserves_bind; [done|apply IH; intros; apply Hb; by right|]. intros ys. by apply preserves_ret.
Qed.

(** A loop whose body needs [I] and restores it. *)
Lemma for_each_establishes_under (I : S -> Prop) (body : A -> prog E B) (good : B -> Prop)
    (P : A -> S -> Prop) l s ys s' :
  stable env I -> (forall x, x ∈ l -> preserves I (body x)) ->
  (forall x, x ∈ l -> kept (P x)) ->
  (forall x s y s', x ∈ l -> I s -> exec step env (body x) s y s' -> good y -> P x s') ->
  I s -> exec step env (for_each l body) s ys s' -> Forall good ys -> forall x, x ∈ l -> P x s'.
Proof.
  intros HI. revert s ys s'.
  induction l as [|x l IH]; intros s ys s' Hpres Hk Hb Hs Hx Hg z Hz; [by apply not_elem_of_nil in Hz|].
  apply exec_bind in Hx as (y & s1 & s2 & Hx & Hr & Hl).
  pose proof Hl as Hl'. apply exec_bind in Hl as (rest & s3 & s4 & Hl & Hr4 & [-> Hr']).
  assert (Hs2 : I s2) by (eapply stable_rtc; [done..|]; eapply (Hpres x); [left|done..]).
  inversion Hg as [|? ? Hy Hrest]; subst. apply elem_of_cons in Hz as [->|Hz].
  - eapply exec_keeps; [apply Hk; left|exact Hl'|].
    eapply stable_rtc; [apply Hk; left|done|]. eapply (Hb x s); [left|done..].
  - assert (HP : P z s3).
    { eapply IH; [|intros; apply Hk; by right| |exact Hs2|exact Hl|done..].
      - intros; apply Hpres; by right.
      - intros; eapply Hb; [by right|done..]. }
    destruct (Hk z (list_elem_of_further _ _ _ Hz)) as [Hst _].
    eapply stable_rtc; [done|exact Hr'|]. by eapply stable_rtc.
Qed.

Lemma for_each_establishes (body : A -> prog E B) (good : B -> Prop) (P : A -> S -> Prop) l s ys s' :
  (forall x, x ∈ l -> kept (P x)) ->
  (forall x s y s', x ∈ l -> exec step env (body x) s y s' -> good y -> P x s') ->
  exec step env (for_each l body) s ys s' -> Forall good ys -> forall x, x ∈ l -> P x s'.
Proof.
  intros Hk Hb. by apply (for_each_establishes_under (fun _ => True)); [|intros ? ? ? ? ?|..]; eauto.
Qed.
End establish.

(** ** Reading the cluster *)

(** A read from a store: an absent object is reported as not found, and any read may fail. *)
Inductive read_step `{ApiErrors} `{Countable K} {V S} (store : S -> gmap K V) (name : K) (s : S)
    : error + V -> S -> Prop :=
| read_found v : store s !! name = Some v -> read_step store name s (inr v) s
| read_missing err : store s !! name = None -> apierrors_IsNotFound err = true ->
    read_step store name s (inl err) s
| read_failed err : apierrors_IsNotFound err = false -> read_step store name s (inl err) s.

(** ** [controllerutil] *)

(** What a call to [CreateOrUpdate] leaves in a store.  [init] is the object it is called with
    and [mutate] the function it is given: the object that exists, or else [init], is mutated and
    written; an error leaves either the old or the new object. *)
Inductive created_or_updated `{Countable K} {V} (k : K) (init : V) (mutate : V -> error + V)
    (m : gmap K V) : option error -> gmap K V -> Prop :=
| cou_done v : mutate (default init (m !! k)) = inr v ->
    created_or_updated k init mutate m None (<[k := v]> m)
| cou_failed err : created_or_updated k init mutate m (Some err) m
| cou_lost err v : mutate (default init (m !! k)) = inr v ->
    created_or_updated k init mutate m (Some err) (<[k := v]> m).

(** [controllerutil.SetControllerReference]: the new owner references, or an error. *)
Class ControllerReference := SetControllerReference : string -> list string -> error + list string.

(** [metav1.GetControllerOf]: the owner among the references that is the controller, if any. *)
Class ControllerOf := GetControllerOf : list string -> option string.

Class ControllerLaws `{ControllerReference} `{ControllerOf} : Prop := {
  SetControllerReference_controller o owners owners' :
    SetControllerReference o owners = inr owners' -> GetControllerOf owners' = Some o;
}.

(** An object without a controller can get one, and stays as it is when it has that one. *)
Class ControllerSetLaws `{ControllerReference} `{ControllerOf} : Prop := {
  GetControllerOf_nil : GetControllerOf [] = None;
  SetControllerReference_free o owners : GetControllerOf owners = None ->
    exists owners', SetControllerReference o owners = inr owners';
  SetControllerReference_kept o owners : GetControllerOf owners = Some o ->
    SetControllerReference o owners = inr owners;
}.

Lemma SetControllerReference_own `{ControllerSetLaws} `{!ControllerLaws} o owners :
  GetControllerOf owners = None \/ GetControllerOf owners = Some o ->
  exists owners', SetControllerReference o owners = inr owners' /\ GetControllerOf owners' = Some o /\
    (GetControllerOf owners = Some o -> owners' = owners).
Proof.
  intros [Hc|Hc].
  - destruct (SetControllerReference_free o _ Hc) as [owners' Ho]. exists owners'.
    split; [done|]. split; [by eapply SetControllerReference_controller|congruence].
  - exists owners. by split; [apply SetControllerReference_kept|].
Qed.

(** [AddFinalizer] and [RemoveFinalizer]: the finalizers after the call, and whether they
    changed. *)
Class FinalizerLib := {
  AddFinalizer : list string -> string -> list string * bool;
  RemoveFinalizer : list string -> string -> list string * bool;
}.

Class FinalizerLaws `{FinalizerLib} : Prop := {
  AddFinalizer_changed l f : (AddFinalizer l f).2 = bool_decide (f ∉ l);
  AddFinalizer_elem l f x : x ∈ (AddFinalizer l f).1 <-> x ∈ l \/ x = f;
  RemoveFinalizer_changed l f : (RemoveFinalizer l f).2 = bool_decide (f ∈ l);
  RemoveFinalizer_elem l f x : x ∈ (RemoveFinalizer l f).1 <-> x ∈ l /\ x <> f;
}.

Definition fake_finalizers : FinalizerLib := {|
  AddFinalizer := fun l f => if bool_decide (f ∈ l) then (l, false) else (l ++ [f], true);
  RemoveFinalizer := fun l f => (filter (fun x => x <> f) l, bool_decide (f ∈ l));
|}.

Lemma fake_finalizers_laws : @FinalizerLaws fake_finalizers.
Proof.
  split; intros; simpl; repeat case_bool_decide; simpl; try done.
  - set_solver.
  - set_solver.
  - rewrite list_elem_of_filter. tauto.
Qed.

Lemma created_or_updated_cases `{Countable K} {V} (k : K) (init : V) mutate m res m' :
  created_or_updated k init mutate m res m' ->
  (res <> None /\ m' = m) \/
  exists v, mutate (default init (m !! k)) = inr v /\ m' = <[k := v]> m.
Proof. intros [v Hv|err|err v Hv]; [right|left|right]; eauto. Qed.

Lemma created_or_updated_other `{Countable K} {V} (k k' : K) (init : V) mutate m res m' :
  created_or_updated k init mutate m res m' -> k' <> k -> m' !! k' = m !! k'.
Proof.
  intros [[_ ->]|(v & _ & ->)]%created_or_updated_cases Hk; [done|]. by rewrite lookup_insert_ne.
Qed.
