(* ===== verification/Workqueue.v ===== *)
(** * Controllers: the work queue of a reconciler

    controller-runtime runs a reconciler for the requests in a queue.  What a controller watches
    puts requests into the queue when it changes, also while a request is processed and also when
    the reconciler itself makes the change; a request that fails is put back; and when the agent
    restarts it starts from the requests for all objects that exist.

    [controller_step] is all of this for one controller.  [Level] is what a reconciler and its
    watches promise for one request; it follows, in [at_rest], that whatever happened before,
    nothing is out of order when the queue is empty; [always_at_rest] says so for the runs of a
    controller from its start. *)
From S2P Require Import Prelude GoStd Kube Effects.

(** ** Watches

    A watch of a kind of objects: a change of an object that satisfies the predicate causes the
    requests that the handler gives for the object before and after the change.  An update is
    judged by the new object, a deletion by the old one. *)
Definition changed `{Countable K} `{EqDecision V} (m m' : gmap K V) : gset K :=
  filter (fun k => m !! k <> m' !! k) (dom m ∪ dom m').

Lemma elem_of_changed `{Countable K} `{EqDecision V} (k : K) (m m' : gmap K V) :
  k ∈ changed m m' <-> m !! k <> m' !! k.
Proof.
  unfold changed. rewrite elem_of_filter, elem_of_union, !elem_of_dom. split; [tauto|].
  intros Hk. split; [done|]. destruct (m !! k), (m' !! k); eauto; done.
Qed.

Section watching.
Context `{Countable K} `{Countable R} {V : Type} `{EqDecision V}.
Context (predicate : V -> bool) (handler : K -> V -> list R).

Definition requests_of (k : K) (v : option V) : list R := from_option (handler k) [] v.

Definition watching (m m' : gmap K V) : gset R :=
  set_bind (fun k =>
    match m' !! k, m !! k with
    | Some v, old => if predicate v then list_to_set (requests_of k old ++ handler k v) else ∅
    | None, Some v => if predicate v then list_to_set (handler k v) else ∅
    | None, None => ∅
    end) (changed m m').

(** The requests that the objects cause when the watch starts. *)
Definition existing (m : gmap K V) : gset R :=
  set_bind (fun k => match m !! k with
                     | Some v => if predicate v then list_to_set (handler k v) else ∅
                     | None => ∅
                     end) (dom m).

Lemma watching_new k v r m m' :
  m' !! k = Some v -> m !! k <> Some v -> predicate v = true ->
  r ∈ handler k v \/ r ∈ requests_of k (m !! k) -> r ∈ watching m m'.
Proof.
  intros Hv Hm Hp Hr. apply elem_of_set_bind. exists k. rewrite elem_of_changed, Hv, Hp.
  split; [done|]. set_solver.
Qed.

Lemma watching_gone k v r m m' :
  m !! k = Some v -> m' !! k = None -> predicate v = true -> r ∈ handler k v -> r ∈ watching m m'.
Proof.
  intros Hm Hv Hp Hr. apply elem_of_set_bind. exists k. rewrite elem_of_changed, Hv, Hm, Hp.
  split; [done|]. set_solver.
Qed.

Lemma elem_of_existing r m :
  r ∈ existing m <-> exists k v, m !! k = Some v /\ predicate v = true /\ r ∈ handler k v.
Proof.
  unfold existing. rewrite elem_of_set_bind. split.
  - intros (k & _ & Hr). destruct (m !! k) as [v|] eqn:E; [|set_solver].
    destruct (predicate v) eqn:Ep; [|set_solver]. exists k, v. set_solver.
  - intros (k & v & Hk & Hp & Hr). exists k. rewrite elem_of_dom, Hk, Hp. split; [by eexists|].
    set_solver.
Qed.
End watching.

(** Watches of all objects of a kind. *)
Definition always {V} (v : V) : bool := true.

(** [handler.EnqueueRequestForObject]. *)
Definition for_object {K V} (k : K) (v : V) : list K := [k].

(** [labelExistsPredicate] (controllers/zoneusageprofileapply_controller.go). *)
Definition labelExistsPredicate (label : string) (ns : Namespace) : bool :=
  bool_decide (is_Some (ns_Labels ns !! label)).

(** An object that causes a request whenever it changes has not changed without one. *)
Lemma watching_same `{Countable K} `{Countable R} `{EqDecision V} (handler : K -> V -> list R)
    k r (m m' : gmap K V) :
  (forall v, r ∈ handler k v) -> r ∉ watching always handler m m' -> m' !! k = m !! k.
Proof.
  intros Hr Hw. destruct (m' !! k) as [v|] eqn:Ev; [destruct (decide (m !! k = Some v)); [done|]|
    destruct (m !! k) as [v|] eqn:Eu; [|done]]; destruct Hw.
  - eapply watching_new; eauto.
  - eapply watching_gone; eauto.
Qed.

(** An object that causes a request as it is stays as it is without one, and was so before. *)
Lemma watching_stays `{Countable K} `{Countable R} `{EqDecision V} (handler : K -> V -> list R)
    k v r (m m' : gmap K V) :
  r ∈ handler k v -> r ∉ watching always handler m m' -> m !! k = Some v -> m' !! k = Some v.
Proof.
  intros Hr Hw Hv. destruct (decide (m' !! k = Some v)) as [|Hne]; [done|]. destruct Hw.
  destruct (m' !! k) as [v'|] eqn:Ev.
  - eapply watching_new; [done|congruence|done|]. right. by rewrite Hv.
  - by eapply watching_gone.
Qed.

(** An object that satisfies the predicate and causes a request has not changed without one. *)
Lemma watching_was `{Countable K} `{Countable R} `{EqDecision V} predicate
    (handler : K -> V -> list R) k v r (m m' : gmap K V) :
  predicate v = true -> r ∈ handler k v -> r ∉ watching predicate handler m m' ->
  m' !! k = Some v -> m !! k = Some v.
Proof.
  intros Hp Hr Hw Hv. destruct (decide (m !! k = Some v)) as [|Hne]; [done|]. destruct Hw.
  eapply watching_new; eauto.
Qed.

(** What a write of one object causes. *)
Lemma watching_one `{Countable K} `{Countable R} `{EqDecision V} p (handler : K -> V -> list R)
    k (m m' : gmap K V) (q : gset R) :
  (forall j, j <> k -> m' !! j = m !! j) -> (forall v r, r ∈ handler k v -> r ∈ q) ->
  watching p handler m m' ⊆ q.
Proof.
  intros Hm Hq r (j & Hj & Hr)%elem_of_set_bind. apply elem_of_changed in Hj.
  destruct (decide (j = k)) as [->|Hne]; [|by rewrite Hm in Hj].
  unfold requests_of in Hr.
  destruct (m' !! k) as [v|], (m !! k) as [u|]; simpl in Hr;
    try destruct (p _); rewrite ?elem_of_list_to_set, ?elem_of_app in Hr; set_solver.
Qed.

Lemma watching_write `{Countable K} `{Countable R} `{EqDecision V} p (handler : K -> V -> list R)
    k v (m : gmap K V) (q : gset R) :
  (forall u r, u = v \/ m !! k = Some u -> r ∈ handler k u -> r ∈ q) ->
  watching p handler m (<[k := v]> m) ⊆ q.
Proof.
  intros Hq r (j & Hj & Hr)%elem_of_set_bind. apply elem_of_changed in Hj.
  destruct (decide (j = k)) as [->|Hne]; [|by rewrite lookup_insert_ne in Hj].
  rewrite lookup_insert_eq in Hr. destruct (p v); [|set_solver]. unfold requests_of in Hr.
  rewrite elem_of_list_to_set, elem_of_app in Hr. destruct Hr as [Hr|Hr]; [|by eapply Hq; [left|]].
  destruct (m !! k) as [u|] eqn:E; [|by apply not_elem_of_nil in Hr]. by eapply Hq; [right|].
Qed.

(** Watches of two kinds of objects that cause the request for their own name. *)
Lemma watching_both `{Countable K} `{EqDecision V1} `{EqDecision V2} k
    (m1 m1' : gmap K V1) (m2 m2' : gmap K V2) :
  k ∉ watching always for_object m1 m1' ∪ watching always for_object m2 m2' ->
  m1' !! k = m1 !! k /\ m2' !! k = m2 !! k.
Proof.
  rewrite not_elem_of_union. intros [H1 H2].
  split; (eapply watching_same; [|eassumption]); intros v; apply list_elem_of_here.
Qed.

Lemma existing_object `{Countable K} `{EqDecision V} k v (m : gmap K V) :
  m !! k = Some v -> k ∈ existing always for_object m.
Proof. intros Hk. apply elem_of_existing. exists k, v. split_and!; [done..|apply list_elem_of_here]. Qed.

(** What a write of one such object causes. *)
Lemma watching_object `{Countable K} `{EqDecision V} k v (m : gmap K V) :
  watching always for_object m (<[k := v]> m) ⊆ {[k]}.
Proof.
  apply (watching_one _ _ k); [intros j Hj; by rewrite lookup_insert_ne|].
  intros u r ->%list_elem_of_singleton. set_solver.
Qed.

Lemma watching_id `{Countable K} `{Countable R} `{EqDecision V} p (handler : K -> V -> list R)
    (m : gmap K V) : watching p handler m m = ∅.
Proof.
  apply set_eq. intros r. split; [|set_solver]. intros (k & Hk & _)%elem_of_set_bind.
  by apply elem_of_changed in Hk.
Qed.

(** Other clients that may change everything in any way, and a state without restrictions. *)
Definition anything {S} (s s' : S) : Prop := True.
Definition any_state {S} (s : S) : Prop := True.

(** ** The queue *)
Record system {S K : Type} `{Countable K} := { sys_state : S; sys_queue : gset K }.
Arguments system : clear implicits.
Arguments system S K {_ _}.
Arguments Build_system {S K _ _}.

Section controller.
Context {E : Type -> Type} {S : Type} `{Countable K}.
Context (step : forall X, E X -> S -> X -> S -> Prop) (env : S -> S -> Prop).
Context (reconcile : K -> prog E (option error)).

(** The requests that a change of the state causes, and those for all that exists. *)
Context (watch : S -> S -> gset K) (all : S -> gset K).

(** The part of the state that the agent keeps in memory is lost when it stops. *)
Context (restart : S -> S).

(** Calls and changes by others, with the requests they cause. *)
Definition queued_step X (e : E X) (sys : system S K) (x : X) (sys' : system S K) : Prop :=
  step X e (sys_state sys) x (sys_state sys') /\
  sys_queue sys' = sys_queue sys ∪ watch (sys_state sys) (sys_state sys').

Definition queued_env (sys sys' : system S K) : Prop :=
  env (sys_state sys) (sys_state sys') /\
  sys_queue sys' = sys_queue sys ∪ watch (sys_state sys) (sys_state sys').

Definition requeue (k : K) (res : option error) (q : gset K) : gset K :=
  match res with Some _ => {[k]} ∪ q | None => q end.

(** One step of the controller: others change something, a request is processed, or the agent
    stops, while it processes a request or between two, and starts again. *)
Inductive controller_step : system S K -> system S K -> Prop :=
| others_step sys sys' : queued_env sys sys' -> controller_step sys sys'
| process_step k s q res s' q' :
    k ∈ q ->
    exec queued_step queued_env (reconcile k)
      {| sys_state := s; sys_queue := q ∖ {[k]} |} res {| sys_state := s'; sys_queue := q' |} ->
    controller_step {| sys_state := s; sys_queue := q |}
      {| sys_state := s'; sys_queue := requeue k res q' |}
| restart_step k s q s' q' :
    k ∈ q ->
    reach queued_step queued_env (reconcile k)
      {| sys_state := s; sys_queue := q ∖ {[k]} |} {| sys_state := s'; sys_queue := q' |} ->
    controller_step {| sys_state := s; sys_queue := q |}
      {| sys_state := restart s'; sys_queue := all (restart s') |}
| idle_restart_step sys :
    controller_step sys
      {| sys_state := restart (sys_state sys); sys_queue := all (restart (sys_state sys)) |}.

(** ** What a reconciler and its watches promise

    [synced k s] is what the reconciler is responsible for under the request [k], [ok s] what holds
    of every state between two reconciliations. *)
Context (ok : S -> Prop) (synced : K -> S -> Prop).

(** Calls and changes that cause no request for [k]. *)
Definition quiet_step (k : K) X (e : E X) (s : S) (x : X) (s' : S) : Prop :=
  step X e s x s' /\ k ∉ watch s s'.

Definition quiet_env (k : K) (s s' : S) : Prop := env s s' /\ k ∉ watch s s'.

Class Level : Prop := {
  level_ok_env s s' : env s s' -> ok s -> ok s';
  level_ok_run k s res s' : exec step env (reconcile k) s res s' -> ok s -> ok s';
  level_ok_restart k s s' : reach step env (reconcile k) s s' -> ok s -> ok (restart s');
  level_ok_idle s : ok s -> ok (restart s);
  (** what is in order does not get out of order without a request *)
  level_env k s s' : env s s' -> synced k s -> k ∉ watch s s' -> synced k s';
  level_others j k s res s' : j <> k -> ok s ->
    exec (quiet_step j) (quiet_env j) (reconcile k) s res s' -> synced j s -> synced j s';
  (** a run that succeeds and causes no request leaves everything in order *)
  level_run k s s' : ok s ->
    exec (quiet_step k) (quiet_env k) (reconcile k) s None s' -> synced k s';
  (** after a restart nothing is forgotten *)
  level_all k s : synced k s \/ k ∈ all s;
}.

(** Everything is in order or will be looked at. *)
Definition accounted (sys : system S K) : Prop :=
  forall k, synced k (sys_state sys) \/ k ∈ sys_queue sys.

(** ** Lemmas *)
Lemma queue_grows_env sys sys' : rtc queued_env sys sys' -> sys_queue sys ⊆ sys_queue sys'.
Proof. induction 1 as [|sys1 sys2 sys3 [_ Hq] _ IH]; [done|]. set_solver. Qed.

Lemma queue_grows {A} (p : prog E A) sys a sys' :
  exec queued_step queued_env p sys a sys' -> sys_queue sys ⊆ sys_queue sys'.
Proof.
  revert sys. induction p as [b|X e k IH]; intros sys; [intros [_ He]; by apply queue_grows_env|].
  intros (sys0 & x & sys1 & He & [_ Hq] & Hk). apply queue_grows_env in He. apply IH in Hk. set_solver.
Qed.

(** A run that ends without a request for [k] caused none on the way. *)
Lemma quiet_env_rtc k sys sys' :
  rtc queued_env sys sys' -> k ∉ sys_queue sys' -> rtc (quiet_env k) (sys_state sys) (sys_state sys').
Proof.
  induction 1 as [|sys1 sys2 sys3 [He Hq] Hr IH]; intros Hk; [done|].
  apply queue_grows_env in Hr. eapply rtc_l; [|by apply IH]. split; [done|]. set_solver.
Qed.

Lemma quiet_exec k {A} (p : prog E A) sys a sys' :
  exec queued_step queued_env p sys a sys' -> k ∉ sys_queue sys' ->
  exec (quiet_step k) (quiet_env k) p (sys_state sys) a (sys_state sys').
Proof.
  revert sys. induction p as [b|X e c IH]; intros sys.
  - intros [-> He] Hk. split; [done|]. by apply quiet_env_rtc.
  - intros (sys0 & x & sys1 & He & [Hx Hq] & Hc) Hk. pose proof (queue_grows _ _ _ _ Hc) as Hg.
    exists (sys_state sys0), x, (sys_state sys1). split; [apply quiet_env_rtc; [done|set_solver]|].
    split; [split; [done|set_solver]|]. by apply IH.
Qed.

(** The requests apart, a run is a run. *)
Lemma queued_env_rtc sys sys' : rtc queued_env sys sys' -> rtc env (sys_state sys) (sys_state sys').
Proof. induction 1 as [|sys1 sys2 sys3 [He _] _ IH]; [done|]. by eapply rtc_l. Qed.

Lemma queued_exec {A} (p : prog E A) sys a sys' :
  exec queued_step queued_env p sys a sys' -> exec step env p (sys_state sys) a (sys_state sys').
Proof.
  revert sys. induction p as [b|X e c IH]; intros sys; [intros [-> He]; by split; [|apply queued_env_rtc]|].
  intros (sys0 & x & sys1 & He%queued_env_rtc & [Hx _] & Hc%IH). by exists (sys_state sys0), x, (sys_state sys1).
Qed.

Lemma queued_reach {A} (p : prog E A) sys sys' :
  reach queued_step queued_env p sys sys' -> reach step env p (sys_state sys) (sys_state sys').
Proof.
  revert sys. induction p as [b|X e c IH]; intros sys; [intros [He|[]]; left; by apply queued_env_rtc|].
  intros [He|(sys0 & x & sys1 & He%queued_env_rtc & [Hx _] & Hc%IH)]; [left; by apply queued_env_rtc|].
  right. by exists (sys_state sys0), x, (sys_state sys1).
Qed.

(** What others and every call of the reconciler respect holds whatever the controller does. *)
Lemma controller_keeps (I : S -> Prop) sys sys' :
  stable env I -> (forall k, invariant step env I (reconcile k)) -> (forall s, I s -> I (restart s)) ->
  rtc controller_step sys sys' -> I (sys_state sys) -> I (sys_state sys').
Proof.
  intros He Hr Hrestart. induction 1 as [|sys1 sys2 sys3 Hstep _ IH]; intros Hs; [done|]. apply IH.
  destruct Hstep as [sys1 sys2 [Hx _]|k s q res s' q' _ Hx|k s q s' q' _ Hx|sys1].
  - by eapply He.
  - apply queued_exec, exec_reach in Hx. by eapply (Hr k).
  - apply queued_reach in Hx. apply Hrestart. by eapply (Hr k).
  - by apply Hrestart.
Qed.

(** What only changes with a request for [k] stays as it is in a quiet run. *)
Section view.
Context {V : Type} (view : S -> V) (k : K).
Context (Hview : forall s s', k ∉ watch s s' -> view s' = view s).

Lemma quiet_env_view s s' : rtc (quiet_env k) s s' -> view s' = view s.
Proof using Hview. induction 1 as [|s1 s2 s3 [_ Hq] _ IH]; [done|]. by rewrite IH, (Hview s1 s2). Qed.

Lemma quiet_exec_view {A} (p : prog E A) s a s' :
  exec (quiet_step k) (quiet_env k) p s a s' -> view s' = view s.
Proof using Hview.
  revert s. induction p as [b|X e c IH]; intros s; [by intros [_ He%quiet_env_view]|].
  intros (s0 & x & s1 & He%quiet_env_view & [_ Hq] & Hc%IH). by rewrite Hc, (Hview s0 s1).
Qed.

Lemma quiet_trigger {A X} (e : E X) (c : X -> prog E A) s a s' :
  exec (quiet_step k) (quiet_env k) (trigger e ≫= c) s a s' ->
  exists s0 x s1, step X e s0 x s1 /\ view s0 = view s' /\ view s1 = view s' /\
    exec (quiet_step k) (quiet_env k) (c x) s1 a s'.
Proof using Hview.
  intros (s0 & x & s1 & _ & [Hx Hq] & Hc). exists s0, x, s1.
  pose proof (quiet_exec_view _ _ _ _ Hc) as Hv. by rewrite <- (Hview s0 s1) by done.
Qed.
End view.

Context {HL : Level}.

Lemma accounted_env k sys sys' :
  queued_env sys sys' -> synced k (sys_state sys) \/ k ∈ sys_queue sys ->
  synced k (sys_state sys') \/ k ∈ sys_queue sys'.
Proof using HL.
  intros [He Hq] [Hs|Hk]; [|set_solver].
  destruct (decide (k ∈ watch (sys_state sys) (sys_state sys'))); [set_solver|].
  left. by eapply level_env.
Qed.

Lemma accounted_env_rtc k sys sys' :
  rtc queued_env sys sys' -> synced k (sys_state sys) \/ k ∈ sys_queue sys ->
  synced k (sys_state sys') \/ k ∈ sys_queue sys'.
Proof using HL. induction 1; eauto using accounted_env. Qed.

Lemma accounted_process k s q res s' q' :
  ok s -> accounted {| sys_state := s; sys_queue := q |} ->
  exec queued_step queued_env (reconcile k)
    {| sys_state := s; sys_queue := q ∖ {[k]} |} res {| sys_state := s'; sys_queue := q' |} ->
  accounted {| sys_state := s'; sys_queue := requeue k res q' |}.
Proof using HL.
  intros Hok Hs Hx j. simpl. assert (Hq : q' ⊆ requeue k res q') by (destruct res; set_solver).
  destruct (decide (j = k)) as [->|Hj].
  - destruct res as [err|]; [right; simpl; set_solver|]. simpl.
    destruct (decide (k ∈ q')) as [|Hk]; [by right|left].
    by apply (quiet_exec k) in Hx; [eapply (level_run k s)|].
  - pose proof (queue_grows _ _ _ _ Hx) as Hg. destruct (Hs j) as [Hjs|Hjq]; [|right; set_solver].
    destruct (decide (j ∈ q')) as [Hj'|Hj']; [right; by apply Hq|left].
    by apply (quiet_exec j) in Hx; [eapply (level_others j k s)|].
Qed.

(** The invariant of the controller. *)
Definition in_hand (sys : system S K) : Prop := ok (sys_state sys) /\ accounted sys.

Lemma in_hand_step sys sys' : controller_step sys sys' -> in_hand sys -> in_hand sys'.
Proof using HL.
  intros [sys1 sys2 He|k s q res s' q' Hk Hx|k s q s' q' Hk Hx|sys1] [Hok Hs].
  - split; [by eapply level_ok_env; [apply He|]|]. intros k. by eapply accounted_env.
  - split; [|by eapply accounted_process]. apply queued_exec in Hx. by eapply level_ok_run.
  - apply queued_reach in Hx. split; [by eapply level_ok_restart|]. intros j. apply level_all.
  - split; [by apply level_ok_idle|]. intros j. apply level_all.
Qed.

Lemma in_hand_steps sys sys' : rtc controller_step sys sys' -> in_hand sys -> in_hand sys'.
Proof using HL. induction 1; eauto using in_hand_step. Qed.

(** The agent has just started. *)
Definition started (sys : system S K) : Prop := all (sys_state sys) ⊆ sys_queue sys.

Lemma started_accounted sys : started sys -> accounted sys.
Proof using HL. intros Hs k. destruct (level_all k (sys_state sys)); [by left|right; by apply Hs]. Qed.

Lemma at_rest sys sys' :
  ok (sys_state sys) -> started sys -> rtc controller_step sys sys' -> sys_queue sys' = ∅ ->
  forall k, synced k (sys_state sys').
Proof using HL.
  intros Hok Hs%started_accounted Hr Hq k.
  destruct (in_hand_steps _ _ Hr (conj Hok Hs)) as [_ Ha]. destruct (Ha k) as [|Hk]; [done|].
  rewrite Hq in Hk. set_solver.
Qed.
End controller.

(** The cases without a state in memory: a reconciler that keeps the laws for [synced], and one
    for which it depends on a part of the state that does not change without a request. *)
Section level.
Context {E : Type -> Type} {S : Type} `{Countable K}.
Context (step : forall X, E X -> S -> X -> S -> Prop) (env : S -> S -> Prop).
Context (reconcile : K -> prog E (option error)).
Context (watch : S -> S -> gset K) (all : S -> gset K) (synced : K -> S -> Prop).

Abbreviation quiet_run k :=
  (exec (quiet_step step watch k) (quiet_env env watch k) (reconcile k)).

Lemma level_keeps :
  (forall k s s', k ∉ watch s s' -> synced k s -> synced k s') ->
  (forall k s s', quiet_run k s None s' -> synced k s') ->
  (forall k s, synced k s \/ k ∈ all s) ->
  Level step env reconcile watch all id any_state synced.
Proof.
  intros Hw Hr Ha. split; [done..|eauto| |eauto|done]. intros j k s res s' _ _ Hx Hs.
  eapply (exec_keeps _ _ (synced j)) in Hx; [done| |done].
  split; [intros s1 s2 [_ Hq]|intros X e s1 x s2 [_ Hq]]; by apply Hw.
Qed.

Lemma level_view {V} (view : K -> S -> V) :
  (forall k s s', k ∉ watch s s' -> view k s' = view k s) ->
  (forall k s s', view k s' = view k s -> synced k s -> synced k s') ->
  (forall k s s', quiet_run k s None s' -> synced k s') ->
  (forall k s, synced k s \/ k ∈ all s) ->
  Level step env reconcile watch all id any_state synced.
Proof. intros Hw Hv. apply level_keeps. eauto. Qed.

Lemma always_at_rest {HL : Level step env reconcile watch all id any_state synced} sys sys' :
  started all sys -> rtc (controller_step step env reconcile watch all id) sys sys' ->
  sys_queue sys' = ∅ -> forall k, synced k (sys_state sys').
Proof. by apply (at_rest _ _ _ _ _ _ any_state). Qed.
End level.

(** More may happen when others may do more. *)
Lemma controller_mono {E : Type -> Type} {S : Type} `{Countable K}
    (step : forall X, E X -> S -> X -> S -> Prop) (env env' : S -> S -> Prop)
    (reconcile : K -> prog E (option error)) watch all restart sys sys' :
  (forall s s', env s s' -> env' s s') ->
  rtc (controller_step step env reconcile watch all restart) sys sys' ->
  rtc (controller_step step env' reconcile watch all restart) sys sys'.
Proof.
  intros He. apply rtc_subrel.
  assert (Hq : forall sys1 sys2 : system S K, queued_env env watch sys1 sys2 -> queued_env env' watch sys1 sys2)
    by (intros ? ? [? ?]; split; auto).
  intros sys1 sys2 [? ? Hx|k s q res s' q' Hk Hx|k s q s' q' Hk Hx|sys3].
  - by apply others_step, Hq.
  - eapply process_step; [done|]. eapply exec_mono; [| |exact Hx]; [done|apply Hq].
  - eapply restart_step; [done|]. eapply reach_mono; [| |exact Hx]; [done|apply Hq].
  - apply idle_restart_step.
Qed.

(** A state in which a controller has nothing to do, whatever has happened since the agent started. *)
Definition rests {E : Type -> Type} {S : Type} `{Countable K}
    (step : forall X, E X -> S -> X -> S -> Prop) (env : S -> S -> Prop)
    (reconcile : K -> prog E (option error)) (watch : S -> S -> gset K) (all : S -> gset K) (s : S) : Prop :=
  exists sys, started all sys /\ rtc (controller_step step env reconcile watch all id) sys
    {| sys_state := s; sys_queue := ∅ |}.

Lemma rests_synced {E : Type -> Type} {S : Type} `{Countable K}
    (step : forall X, E X -> S -> X -> S -> Prop) env (reconcile : K -> prog E (option error))
    watch all synced {HL : Level step env reconcile watch all id any_state synced} s :
  rests step env reconcile watch all s -> forall k, synced k s.
Proof.
  intros (sys & Hs & Hr). exact (always_at_rest step env reconcile watch all synced sys _ Hs Hr eq_refl).
Qed.

(** A run in which no change causes a request leaves the queue as it is. *)
Section calm.
Context {E : Type -> Type} {S : Type} `{Countable K}.
Context (step : forall X, E X -> S -> X -> S -> Prop) (env : S -> S -> Prop) (watch : S -> S -> gset K).

Definition calm_step X (e : E X) (s : S) (x : X) (s' : S) : Prop := step X e s x s' /\ watch s s' = ∅.
Definition calm_env (s s' : S) : Prop := env s s' /\ watch s s' = ∅.

Lemma queued_calm_env s s' q :
  rtc calm_env s s' ->
  rtc (queued_env env watch) {| sys_state := s; sys_queue := q |} {| sys_state := s'; sys_queue := q |}.
Proof.
  induction 1 as [|s1 s2 s3 [He Hw] _ IH]; [done|]. eapply rtc_l; [|exact IH]. split; [done|].
  simpl. by rewrite Hw, (right_id_L ∅ (∪)).
Qed.

Lemma queued_calm {A} (p : prog E A) s q a s' :
  exec calm_step calm_env p s a s' ->
  exec (queued_step step watch) (queued_env env watch) p {| sys_state := s; sys_queue := q |} a
    {| sys_state := s'; sys_queue := q |}.
Proof.
  revert s. induction p as [b|X e c IH]; intros s; [by intros [-> ?]; split; [|apply queued_calm_env]|].
  intros (s0 & x & s1 & He & [Hx Hw] & Hc%IH).
  exists {| sys_state := s0; sys_queue := q |}, x, {| sys_state := s1; sys_queue := q |}.
  split; [by apply queued_calm_env|]. split; [|done]. split; [done|]. simpl. by rewrite Hw, (right_id_L ∅ (∪)).
Qed.

(** One that changes nothing, without the others. *)
Lemma queued_steady {A} (p : prog E A) s q a s' :
  (forall s, watch s s = ∅) ->
  exec (fun X e s x s' => step X e s x s' /\ s' = s) alone p s a s' ->
  exec (queued_step step watch) (queued_env env watch) p {| sys_state := s; sys_queue := q |} a
    {| sys_state := s'; sys_queue := q |}.
Proof.
  intros Hw Hx. apply queued_calm. revert s Hx. induction p as [b|X e c IH]; intros s.
  - by intros [-> ->%rtc_alone].
  - intros (s0 & x & s1 & ->%rtc_alone & [He ->] & Hc%IH). exists s, x, s. by split; [|split; [split|]].
Qed.
End calm.
