(* ===== verification/Drain.v ===== *)
(** * Controllers on a cluster without faults

    When no call fails and nobody else changes anything, a controller comes to rest.  [Settles] is
    what a reconciler and its watches promise for this when a reconciliation causes requests for
    its own object only; it follows, in [drain_settles] and [converges], that the queue gets empty,
    and in how many reconciliations.  [Quiesces] is the weaker promise of a reconciler that may
    wake up others, and [quiesces_at_rest] what follows from it.  [settles_to] is what the parts of
    such a reconciler do, down to its loops. *)
From S2P Require Import Prelude GoStd Kube Effects Workqueue.

(** ** A controller on a cluster without faults

    The cluster answers as [answer] says and nobody else changes anything; [pick] is the order in
    which requests are taken from the queue, [fuel] how many are. *)
Section drain.
Context {E : Type -> Type} {S : Type} `{Countable K}.
Context (reconcile : K -> prog E (option error)).
Context (watch : S -> S -> gset K) (all : S -> gset K) (restart : S -> S).
Context (answer : forall X, E X -> S -> X * S).

(** The requests that a run causes. *)
Fixpoint run_requests {A} (p : prog E A) (s : S) : gset K :=
  match p with
  | Ret _ => ∅
  | Vis e c => let '(x, s') := answer _ e s in watch s s' ∪ run_requests (c x) s'
  end.

Lemma run_requests_bind {A B} (p : prog E A) (f : A -> prog E B) s :
  run_requests (p ≫= f) s =
  run_requests p s ∪ run_requests (f (run answer p s).1) (run answer p s).2.
Proof.
  revert s. induction p as [a|X e c IH]; intros s; simpl; [by rewrite (left_id_L ∅ (∪))|].
  destruct (answer X e s) as [x s1]. rewrite <- (assoc_L (∪)). f_equal. apply IH.
Qed.

Definition process (k : K) (sys : system S K) : system S K :=
  let '(res, s') := run answer (reconcile k) (sys_state sys) in
  {| sys_state := s';
     sys_queue := requeue k res (sys_queue sys ∖ {[k]} ∪ run_requests (reconcile k) (sys_state sys)) |}.

Fixpoint drain (pick : nat -> gset K -> K) (fuel : nat) (sys : system S K) : system S K :=
  match fuel with
  | O => sys
  | Datatypes.S fuel =>
      if bool_decide (sys_queue sys = ∅) then sys
      else drain pick fuel (process (pick fuel (sys_queue sys)) sys)
  end.

(** Any order in which the requests of the queue are taken. *)
Definition takes (pick : nat -> gset K -> K) : Prop := forall n q, q <> ∅ -> pick n q ∈ q.

Context (step : forall X, E X -> S -> X -> S -> Prop) (env : S -> S -> Prop).

(** The cluster answers as it may. *)
Class FaultFree : Prop := fault_free X (e : E X) s : step X e s (answer X e s).1 (answer X e s).2.

Section steps.
Context {HF : FaultFree}.

Lemma run_queued {A} (p : prog E A) s q :
  exec (queued_step step watch) (queued_env env watch) p {| sys_state := s; sys_queue := q |}
    (run answer p s).1
    {| sys_state := (run answer p s).2; sys_queue := q ∪ run_requests p s |}.
Proof using HF.
  revert s q. induction p as [a|X e c IH]; intros s q; simpl.
  - split; [done|]. by rewrite (right_id_L ∅ (∪)).
  - pose proof (fault_free X e s) as Ha. destruct (answer X e s) as [x s1].
    exists {| sys_state := s; sys_queue := q |}, x, {| sys_state := s1; sys_queue := q ∪ watch s s1 |}.
    split; [done|]. split; [by split|]. rewrite (assoc_L (∪)). apply IH.
Qed.

(** Every step of [drain] is a step of the controller. *)
Lemma process_controller_step k sys :
  k ∈ sys_queue sys -> controller_step step env reconcile watch all restart sys (process k sys).
Proof using HF.
  intros Hk. pose proof (run_queued (reconcile k) (sys_state sys) (sys_queue sys ∖ {[k]})) as Hx.
  unfold process. destruct (run answer _ _) as [res s']. destruct sys as [s q]. by apply process_step.
Qed.

Lemma drain_steps pick fuel sys :
  takes pick -> rtc (controller_step step env reconcile watch all restart) sys (drain pick fuel sys).
Proof using HF.
  intros Hp. revert sys. induction fuel as [|fuel IH]; intros sys; [done|]. simpl.
  case_bool_decide as Hq; [done|]. eapply rtc_l; [|apply IH]. by apply process_controller_step, Hp.
Qed.
End steps.

Context (synced : K -> S -> Prop) (ok : S -> Prop).

(** A reconciliation succeeds and puts in order what it is responsible for; it causes no requests
    for anything else, and none at all when there was nothing to do. *)
Class Settles : Prop := {
  #[global] settles_answer :: FaultFree;
  settles_run k s : ok s ->
    (run answer (reconcile k) s).1 = None /\
    ok (run answer (reconcile k) s).2 /\ synced k (run answer (reconcile k) s).2;
  settles_requests k s : ok s -> run_requests (reconcile k) s ⊆ {[k]};
  settles_nothing k s : ok s -> synced k s -> run_requests (reconcile k) s = ∅;
}.

Context {HL : Level step env reconcile watch all restart any_state synced} {HS : Settles}.
Context `{Hdec : forall k s, Decision (synced k s)}.

(** What is still to be done: a request out of order may have to be processed twice. *)
Definition rank (sys : system S K) : nat :=
  size (sys_queue sys) + size (filter (fun k => ~ synced k (sys_state sys)) (sys_queue sys)).

Lemma rank_bound sys : rank sys <= 2 * size (sys_queue sys).
Proof using Type.
  unfold rank. set (l := filter _ _). assert (l ⊆ sys_queue sys) as Hl%subseteq_size; [|lia].
  intros j Hj. by apply elem_of_filter in Hj as [_ ?].
Qed.

(** The requests for other objects stay as they are, and so do these objects. *)
Lemma process_others k j s :
  ok s -> j <> k -> synced j s -> synced j (run answer (reconcile k) s).2.
Proof using HL HS.
  intros Hok Hj Hs. pose proof (run_queued (reconcile k) s ∅) as Hx.
  pose proof (settles_requests k s Hok) as Hreq. apply (quiet_exec step env reconcile watch synced j) in Hx; [|simpl; set_solver].
  by eapply (level_others step env reconcile watch all restart any_state synced j k).
Qed.

Lemma process_rank k sys :
  ok (sys_state sys) -> k ∈ sys_queue sys ->
  ok (sys_state (process k sys)) /\ rank (process k sys) < rank sys.
Proof using HL HS.
  intros Hok Hk. destruct sys as [s q]. simpl in Hok, Hk.
  destruct (settles_run k s Hok) as (Hres & Hok' & Hs').
  pose proof (settles_requests k s Hok) as Hreq. pose proof (settles_nothing k s Hok) as Hno.
  pose proof (fun j => process_others k j s Hok) as Hothers. unfold process, rank.
  cbn [sys_state sys_queue]. destruct (run answer (reconcile k) s) as [res s']. simpl in *. subst res.
  split; [done|]. set (req := run_requests (reconcile k) s) in *. simpl.
  assert (Hf : filter (fun j => ~ synced j s') (q ∖ {[k]} ∪ req) ⊆
    filter (fun j => ~ synced j s) q ∖ {[k]}).
  { intros j. rewrite elem_of_filter, elem_of_difference, elem_of_filter, not_elem_of_singleton.
    intros [Hj Hin]. assert (j <> k) by (by intros ->). set_solver. }
  apply subseteq_size in Hf. destruct (decide (synced k s)) as [Hk'|Hk'].
  - rewrite Hno by done. rewrite Hno, (right_id_L ∅ (∪)) in Hf by done.
    rewrite (right_id_L ∅ (∪)).
    assert (size (q ∖ {[k]}) < size q) by (apply subset_size; set_solver).
    assert (size (filter (fun j => ~ synced j s) q ∖ {[k]}) <= size (filter (fun j => ~ synced j s) q))
      by (apply subseteq_size; set_solver). lia.
  - assert (size (q ∖ {[k]} ∪ req) <= size q) by (apply subseteq_size; set_solver).
    assert (size (filter (fun j => ~ synced j s) q ∖ {[k]}) < size (filter (fun j => ~ synced j s) q)).
    { apply subset_size. assert (k ∈ filter (fun j => ~ synced j s) q) by (by apply elem_of_filter).
      set_solver. }
    lia.
Qed.

(** The queue gets empty, and then everything is in order. *)
Lemma drain_settles pick fuel sys :
  takes pick -> ok (sys_state sys) -> rank sys <= fuel ->
  sys_queue (drain pick fuel sys) = ∅ /\
  (accounted synced sys -> forall k, synced k (sys_state (drain pick fuel sys))).
Proof using HL HS.
  intros Hp Hok Hr.
  assert (Hq : sys_queue (drain pick fuel sys) = ∅).
  { revert sys Hok Hr. induction fuel as [|fuel IH]; intros sys Hok Hr; simpl.
    - apply leibniz_equiv, size_empty_inv. unfold rank in Hr. lia.
    - case_bool_decide as Hq; [done|].
      destruct (process_rank (pick fuel (sys_queue sys)) sys Hok (Hp _ _ Hq)). apply IH; [done|lia]. }
  split; [done|]. intros Hacc k.
  destruct (in_hand_steps _ _ _ _ all restart any_state synced _ _ (drain_steps pick fuel sys Hp)
    (conj I Hacc)) as [_ Ha]. destruct (Ha k) as [|Hk]; [done|].
  rewrite Hq in Hk. set_solver.
Qed.

(** The same from every state that a controller may be in. *)
Lemma converges pick sys sys' :
  takes pick -> started all sys -> rtc (controller_step step env reconcile watch all restart) sys sys' ->
  ok (sys_state sys') ->
  let rest := drain pick (2 * size (sys_queue sys')) sys' in
  sys_queue rest = ∅ /\ forall k, synced k (sys_state rest).
Proof using HL HS Hdec.
  intros Hp Hs Hr Hok. destruct (drain_settles pick _ sys' Hp Hok (rank_bound sys')) as [Hq Hsync].
  split; [exact Hq|]. apply Hsync.
  apply (in_hand_steps _ _ _ _ all restart any_state synced _ _ Hr). split; [done|].
  by eapply started_accounted.
Qed.
End drain.

(** ** A controller whose requests wake up others

    A reconciliation that changes something may cause any requests; but it puts its own object in
    order, for good, and one that has nothing to do changes nothing. *)
Section quiescence.
Context {E : Type -> Type} {S : Type} `{Countable K}.
Context (reconcile : K -> prog E (option error)) (watch : S -> S -> gset K).
Context (answer : forall X, E X -> S -> X * S) (step : forall X, E X -> S -> X -> S -> Prop).
Context (synced : K -> S -> Prop) (universe : S -> gset K) (ok : S -> Prop).

Class Quiesces : Prop := {
  #[global] quiesces_answer :: FaultFree answer step;
  quiesces_run k s : ok s ->
    (run answer (reconcile k) s).1 = None /\
    ok (run answer (reconcile k) s).2 /\ synced k (run answer (reconcile k) s).2;
  quiesces_others j k s : ok s -> synced j s -> synced j (run answer (reconcile k) s).2;
  quiesces_nothing k s : ok s -> synced k s -> run_requests watch answer (reconcile k) s = ∅;
  (** what is out of order is one of finitely many *)
  quiesces_universe k s : ok s -> ~ synced k s -> k ∈ universe s;
}.

Context {HQ : Quiesces} `{Hdec : forall k s, Decision (synced k s)}.

Definition out_of_order (s : S) : gset K := filter (fun k => ~ synced k s) (universe s).

(** A reconciliation puts something in order, or it takes a request off the queue. *)
Lemma process_progress k sys :
  let sys' := process reconcile watch answer k sys in
  ok (sys_state sys) -> k ∈ sys_queue sys ->
  ok (sys_state sys') /\
  (size (out_of_order (sys_state sys')) < size (out_of_order (sys_state sys)) \/
   size (out_of_order (sys_state sys')) <= size (out_of_order (sys_state sys)) /\
   size (sys_queue sys') < size (sys_queue sys)).
Proof using HQ.
  destruct sys as [s q]. cbn [sys_state sys_queue]. intros Hok Hk. unfold process. cbn [sys_state sys_queue].
  pose proof (quiesces_run k s Hok) as (Hres & Hok' & Hs').
  pose proof (fun j => quiesces_others j k s Hok) as Hothers. pose proof (quiesces_nothing k s Hok) as Hno.
  destruct (run answer (reconcile k) s) as [res s']. simpl in *. subst res. split; [done|].
  assert (Hsub : out_of_order s' ⊆ out_of_order s ∖ {[k]}).
  { intros j. unfold out_of_order. rewrite elem_of_difference, !elem_of_filter, not_elem_of_singleton.
    intros [Hj _]. assert (Hjs : ~ synced j s) by (intros Hjs; by apply Hj, Hothers).
    split; [split; [done|by apply quiesces_universe]|by intros ->]. }
  apply subseteq_size in Hsub. destruct (decide (synced k s)) as [Hs|Hs].
  - right. assert (size (out_of_order s ∖ {[k]}) <= size (out_of_order s)) by (apply subseteq_size; set_solver).
    rewrite Hno, (right_id_L ∅ (∪)) by done. split; [lia|]. apply subset_size. set_solver.
  - left. assert (Hin : k ∈ out_of_order s)
      by (apply elem_of_filter; split; [done|by apply quiesces_universe]).
    assert (size (out_of_order s ∖ {[k]}) < size (out_of_order s)) by (apply subset_size; set_solver). lia.
Qed.

(** The queue gets empty, in whatever order the requests are taken. *)
Lemma drain_quiesces sys :
  ok (sys_state sys) -> exists n, forall fuel, n <= fuel -> forall pick, takes pick ->
    sys_queue (drain reconcile watch answer pick fuel sys) = ∅.
Proof using HQ Hdec.
  remember (size (out_of_order (sys_state sys))) as m eqn:Hm. revert sys Hm.
  induction m as [m IHm] using lt_wf_ind. intros sys Hm.
  remember (size (sys_queue sys)) as n eqn:Hn. revert sys Hm Hn.
  induction n as [n IHn] using lt_wf_ind. intros sys Hm Hn Hok.
  destruct (set_bound (sys_queue sys) (fun k fuel => forall pick, takes pick ->
    sys_queue (drain reconcile watch answer pick fuel (process reconcile watch answer k sys)) = ∅)) as [b Hb].
  { intros k Hk. destruct (process_progress k sys Hok Hk) as [Hok' [Hlt|[Hle Hlt]]].
    - by eapply IHm; [subst m; exact Hlt|..].
    - destruct (decide (size (out_of_order (sys_state (process reconcile watch answer k sys))) = m)) as [Heq|Hne].
      + by eapply IHn; [subst n; exact Hlt|..].
      + by eapply IHm; [|reflexivity|]; [lia|]. }
  exists (Datatypes.S b). intros [|fuel] Hf pick Hp; [lia|]. simpl.
  case_bool_decide as Hq; [done|]. apply Hb; [by apply Hp|lia|done].
Qed.

(** What is assumed keeps holding. *)
Lemma drain_ok pick fuel sys :
  takes pick -> ok (sys_state sys) -> ok (sys_state (drain reconcile watch answer pick fuel sys)).
Proof using HQ Hdec.
  intros Hp. revert sys. induction fuel as [|fuel IH]; intros sys Hok; [done|]. simpl.
  case_bool_decide as Hq; [done|]. apply IH. by eapply process_progress; [|apply Hp].
Qed.

Context (all : S -> gset K) (restart : S -> S) (env : S -> S -> Prop).

(** Then everything is in order, whatever happened before. *)
Lemma quiesces_at_rest (tracked : S -> Prop)
    {HL : Level step env reconcile watch all restart tracked synced} sys sys' :
  tracked (sys_state sys) -> started all sys ->
  rtc (controller_step step env reconcile watch all restart) sys sys' -> ok (sys_state sys') ->
  exists n, forall fuel, n <= fuel -> forall pick, takes pick ->
    let rest := drain reconcile watch answer pick fuel sys' in
    sys_queue rest = ∅ /\ ok (sys_state rest) /\ forall k, synced k (sys_state rest).
Proof using HQ Hdec.
  intros Ht Hs Hr Hok. destruct (drain_quiesces sys' Hok) as [n Hn]. exists n. intros fuel Hf pick Hp.
  assert (Hq := Hn fuel Hf pick Hp). split; [done|]. split; [by apply drain_ok|].
  eapply (at_rest step env reconcile watch all restart tracked synced sys); [done|done| |done].
  etrans; [exact Hr|]. by apply (drain_steps reconcile watch all restart answer step env).
Qed.
End quiescence.

(** ** What the parts of a reconciler do on a cluster without faults

    [ok] holds of the states that are considered, a program keeps what [kept] says, and it causes
    requests that are [allowed] only. *)
Section settling.
Context {E : Type -> Type} {S : Type} `{Countable K}.
Context (watch : S -> S -> gset K) (answer : forall X, E X -> S -> X * S).
Context (ok : S -> Prop) (kept : S -> S -> Prop) {HK : PreOrder kept} (allowed : K -> Prop).
Context (Hid : forall s, watch s s = ∅).

(** The program returns [a] and leaves [s'], in which [good] holds; it causes neither requests nor a
    change when [good] held before. *)
Record settles_to {A} (p : prog E A) (good : S -> Prop) (s : S) (a : A) (s' : S) : Prop := {
  to_run : run answer p s = (a, s');
  to_ok : ok s';
  to_kept : kept s s';
  to_good : good s';
  to_requests : forall j, j ∈ run_requests watch answer p s -> allowed j;
  to_quiet : good s -> s' = s /\ run_requests watch answer p s = ∅;
}.

Lemma settles_iff {A} (p : prog E A) (good good' : S -> Prop) s a s' :
  (forall t, good t <-> good' t) -> settles_to p good s a s' -> settles_to p good' s a s'.
Proof using Type. intros Hg []. split; try done; [by apply Hg|]. intros Hs. by apply to_quiet0, Hg. Qed.

Lemma settles_ret {A} (a : A) (good : S -> Prop) s :
  ok s -> good s -> settles_to (mret a) good s a s.
Proof using HK. intros Hok Hg. split; [done..| |done]. by intros j Hj%elem_of_empty. Qed.

(** A call that only reads. *)
Lemma settles_read {X} (e : E X) s x :
  answer X e s = (x, s) -> ok s -> settles_to (trigger e) (fun _ => True) s x s.
Proof using HK Hid.
  intros Hx Hok. assert (Hr : run_requests watch answer (trigger e) s = ∅).
  { simpl. rewrite Hx, Hid. by rewrite (right_id_L ∅ (∪)). }
  split; [simpl; by rewrite Hx|done..| |done]. rewrite Hr. by intros j Hj%elem_of_empty.
Qed.

Lemma settles_bind {A B} (p : prog E A) (f : A -> prog E B) (g1 g2 : S -> Prop) s a s1 b s2 :
  (forall t t', kept t t' -> g1 t -> g1 t') ->
  settles_to p g1 s a s1 -> settles_to (f a) g2 s1 b s2 ->
  settles_to (p ≫= f) (fun t => g1 t /\ g2 t) s b s2.
Proof using HK.
  intros Hst [Hp _ Hk1 Hg1 Hr1 Hq1] [Hf Hok2 Hk2 Hg2 Hr2 Hq2].
  assert (Hreq : run_requests watch answer (p ≫= f) s =
    run_requests watch answer p s ∪ run_requests watch answer (f a) s1)
    by (by rewrite run_requests_bind, Hp).
  split; [by rewrite run_bind, Hp|done|by etrans|split; [by eapply Hst|done]|..].
  - intros j. rewrite Hreq. intros [Hj|Hj]%elem_of_union; [by apply Hr1|by apply Hr2].
  - intros [H1 H2]. destruct (Hq1 H1) as [-> E1]. destruct (Hq2 H2) as [-> E2]. split; [done|].
    by rewrite Hreq, E1, E2, (left_id_L ∅ (∪)).
Qed.

(** A loop whose iterations each put something of their own in order; [Q] holds of what they return. *)
Lemma settles_for_each {A B} (body : A -> prog E B) (good : A -> S -> Prop) (Q : B -> Prop) l s :
  (forall x t t', x ∈ l -> kept t t' -> good x t -> good x t') ->
  (forall x t, x ∈ l -> ok t -> exists b t', Q b /\ settles_to (body x) (good x) t b t') -> ok s ->
  exists bs s', Forall Q bs /\
    settles_to (for_each l body) (fun t => Forall (fun x => good x t) l) s bs s'.
Proof using HK.
  revert s. induction l as [|x l IH]; intros s Hst Hb Hok.
  { exists [], s. split; [constructor|]. apply settles_ret; [done|constructor]. }
  destruct (Hb x s) as (b & s1 & Hq & H1); [left|done|].
  assert (Hst' : forall y t t', y ∈ l -> kept t t' -> good y t -> good y t')
    by (intros y t t' Hy; apply Hst; by right).
  destruct (IH s1 Hst') as (bs & s2 & Hqs & H2); [intros; apply Hb; [by right|done]|by eapply to_ok|].
  exists (b :: bs), s2. split; [by constructor|]. cbn [for_each].
  apply (settles_iff _ (fun t => good x t /\ Forall (fun y => good y t) l /\ True));
    [intros t; rewrite Forall_cons; tauto|].
  eapply settles_bind; [intros t t'; apply Hst; left|exact H1|].
  eapply settles_bind; [|exact H2|apply settles_ret; [by eapply to_ok|done]].
  intros t t' Ht. rewrite !Forall_forall. intros Hall y Hy. by apply (Hst' y t t' Hy Ht), Hall.
Qed.
End settling.

(** On a cluster without faults a controller comes to rest after its start. *)
Lemma drain_rests {E : Type -> Type} {S : Type} `{Countable K}
    (step : forall X, E X -> S -> X -> S -> Prop) env (reconcile : K -> prog E (option error))
    watch all answer synced ok pick s
    {HL : Level step env reconcile watch all id any_state synced}
    {HS : Settles reconcile watch answer step synced ok} `{forall k s, Decision (synced k s)} :
  takes pick -> ok s ->
  rests step env reconcile watch all
    (sys_state (drain reconcile watch answer pick (2 * size (all s))
      {| sys_state := s; sys_queue := all s |})).
Proof.
  intros Hp Hok. set (start := {| sys_state := s |}). exists start. split; [by unfold started|].
  destruct (drain_settles reconcile watch all id answer step env synced ok pick
    (2 * size (all s)) start Hp Hok (rank_bound synced start)) as [Hq _].
  pose proof (drain_steps reconcile watch all id answer step env pick (2 * size (all s)) start Hp) as Hr.
  destruct (drain _ _ _ _ _ start) as [s' q']. simpl in *. by subst q'.
Qed.

(** Taking the first request. *)
Definition take_first `{Countable K} (d : K) (n : nat) (q : gset K) : K := default d (head (elements q)).

Lemma takes_first `{Countable K} (d : K) : takes (take_first d).
Proof.
  intros n q Hq. unfold take_first. destruct (elements q) as [|k l] eqn:E.
  - by apply elements_empty_iff, leibniz_equiv in E.
  - apply elem_of_elements. rewrite E. left.
Qed.
