(* ===== verification/Workers.v ===== *)
(** * Workers: controllers one call at a time

    [Workqueue.controller_step] processes a request in one step, with what others do in between
    folded into the run.  Here the worker of a controller is a state machine whose steps are the
    calls themselves.  [worker_refines] shows that nothing is lost: every run of a worker is a run
    of [controller_step], and [controller_worker] is the converse.

    [together] are two workers in one process that share a part of the cluster: each sees the calls
    of the other as changes by others.  What [Workqueue.at_rest] shows of each then holds of both
    ([together_at_rest]). *)
From S2P Require Import Prelude GoStd Kube Effects Workqueue.

(** A controller and the request it processes, with what is left to do for it. *)
Record worker {E : Type -> Type} {S K : Type} `{Countable K} := {
  wk_system : system S K;
  wk_current : option (K * prog E (option error));
}.
Arguments worker E S K {_ _}.
Arguments Build_worker {E S K _ _}.

Definition idle {E S} `{Countable K} (w : worker E S K) : Prop := wk_current w = None.

Section worker.
Context {E : Type -> Type} {S : Type} `{Countable K}.
Context (step : forall X, E X -> S -> X -> S -> Prop) (env : S -> S -> Prop).
Context (reconcile : K -> prog E (option error)).
Context (watch : S -> S -> gset K) (all : S -> gset K) (restart : S -> S).
Implicit Types w : worker E S K.

(** What the worker does itself: it takes a request, makes a call, ends. *)
Inductive own_step : worker E S K -> worker E S K -> Prop :=
| take_step k s q :
    k ∈ q ->
    own_step {| wk_system := {| sys_state := s; sys_queue := q |}; wk_current := None |}
      {| wk_system := {| sys_state := s; sys_queue := q ∖ {[k]} |}; wk_current := Some (k, reconcile k) |}
| call_step k X (e : E X) c sys x sys' :
    queued_step step watch X e sys x sys' ->
    own_step {| wk_system := sys; wk_current := Some (k, Vis e c) |}
      {| wk_system := sys'; wk_current := Some (k, c x) |}
| end_step k res s q :
    own_step {| wk_system := {| sys_state := s; sys_queue := q |}; wk_current := Some (k, Ret res) |}
      {| wk_system := {| sys_state := s; sys_queue := requeue k res q |}; wk_current := None |}.

(** What happens to it: others change something, and the agent stops and starts again. *)
Inductive other_step : worker E S K -> worker E S K -> Prop :=
| other_env sys sys' c :
    queued_env env watch sys sys' ->
    other_step {| wk_system := sys; wk_current := c |} {| wk_system := sys'; wk_current := c |}.

Definition restarted w : worker E S K := {|
  wk_system := {| sys_state := restart (sys_state (wk_system w));
                  sys_queue := all (restart (sys_state (wk_system w))) |};
  wk_current := None |}.

Definition worker_step w w' : Prop := own_step w w' \/ other_step w w' \/ w' = restarted w.

(** ** Workers and controllers *)
Abbreviation queued_exec := (exec (queued_step step watch) (queued_env env watch)).
Abbreviation queued_reach := (reach (queued_step step watch) (queued_env env watch)).
Abbreviation controller := (controller_step step env reconcile watch all restart).

(** The run of the controller up to here: what the rest of the program does from here on, the
    whole program does from where the request was taken. *)
Definition run_so_far (sys0 : system S K) w : Prop :=
  match wk_current w with
  | None => rtc controller sys0 (wk_system w)
  | Some (k, p) => exists s q, k ∈ q /\ rtc controller sys0 {| sys_state := s; sys_queue := q |} /\
      (forall res sys, queued_exec p (wk_system w) res sys ->
        queued_exec (reconcile k) {| sys_state := s; sys_queue := q ∖ {[k]} |} res sys) /\
      (forall sys, queued_reach p (wk_system w) sys ->
        queued_reach (reconcile k) {| sys_state := s; sys_queue := q ∖ {[k]} |} sys)
  end.

Lemma reach_env {A} (p : prog E A) sys sys1 sys2 :
  queued_env env watch sys sys1 -> queued_reach p sys1 sys2 -> queued_reach p sys sys2.
Proof.
  intros He. destruct p as [a|X e c].
  - intros [Hr|[]]. left. by eapply rtc_l.
  - intros [Hr|(sys3 & x & sys4 & Hr & Hx & Hc)]; [left; by eapply rtc_l|right].
    exists sys3, x, sys4. split; [by eapply rtc_l|done].
Qed.

Lemma reach_here {A} (p : prog E A) sys : queued_reach p sys sys.
Proof. destruct p; left; apply rtc_refl. Qed.

Lemma so_far_own sys0 w w' : own_step w w' -> run_so_far sys0 w -> run_so_far sys0 w'.
Proof.
  intros [k s q Hk|k X e c sys x sys' Hx|k res s q]; unfold run_so_far; cbn.
  - intros Hr. exists s, q. by split_and!; auto.
  - intros (s & q & Hk & Hr & Hexec & Hreach). exists s, q. split_and!; [done..| |].
    + intros res sys2 Hc. apply Hexec. exists sys, x, sys'. by split; [apply rtc_refl|].
    + intros sys2 Hc. apply Hreach. right. exists sys, x, sys'. by split; [apply rtc_refl|].
  - intros (s0 & q0 & Hk & Hr & Hexec & _). eapply rtc_r; [exact Hr|].
    eapply process_step; [exact Hk|]. apply Hexec. by split; [|apply rtc_refl].
Qed.

Lemma so_far_other sys0 w w' : other_step w w' -> run_so_far sys0 w -> run_so_far sys0 w'.
Proof.
  intros [sys sys' [[k p]|] He]; unfold run_so_far; cbn.
  - intros (s & q & Hk & Hr & Hexec & Hreach). exists s, q. split_and!; [done..| |].
    + intros res sys2 Hc. apply Hexec. eapply exec_env; [by apply rtc_once|done].
    + intros sys2 Hc. apply Hreach. by eapply reach_env.
  - intros Hr. eapply rtc_r; [exact Hr|]. by apply others_step.
Qed.

Lemma so_far_restarted sys0 w : run_so_far sys0 w -> run_so_far sys0 (restarted w).
Proof.
  destruct w as [[s' q'] [[k p]|]]; unfold run_so_far; cbn.
  - intros (s & q & Hk & Hr & _ & Hreach). eapply rtc_r; [exact Hr|].
    eapply restart_step; [exact Hk|]. apply Hreach, reach_here.
  - intros Hr. eapply rtc_r; [exact Hr|]. apply (idle_restart_step _ _ _ _ _ _ {| sys_state := s' |}).
Qed.

Lemma so_far_steps sys0 w w' : rtc worker_step w w' -> run_so_far sys0 w -> run_so_far sys0 w'.
Proof.
  induction 1 as [|w1 w2 w3 [Ho|[Ho| ->]] _ IH]; intros Hs; [done|apply IH..];
    eauto using so_far_own, so_far_other, so_far_restarted.
Qed.

(** The runs of a worker are runs of the controller. *)
Lemma worker_refines w w' :
  idle w -> idle w' -> rtc worker_step w w' -> rtc controller (wk_system w) (wk_system w').
Proof.
  unfold idle. intros Hw Hw' Hr. apply (so_far_steps (wk_system w)) in Hr; unfold run_so_far in *.
  - by rewrite Hw' in Hr.
  - rewrite Hw. apply rtc_refl.
Qed.

(** And the other way round. *)
Lemma others_worker sys sys' c :
  rtc (queued_env env watch) sys sys' ->
  rtc worker_step {| wk_system := sys; wk_current := c |} {| wk_system := sys'; wk_current := c |}.
Proof.
  induction 1 as [|sys1 sys2 sys3 He _ IH]; [apply rtc_refl|].
  eapply rtc_l; [right; left; by apply other_env|exact IH].
Qed.

Lemma exec_worker k p sys res s' q' :
  queued_exec p sys res {| sys_state := s'; sys_queue := q' |} ->
  rtc worker_step {| wk_system := sys; wk_current := Some (k, p) |}
    {| wk_system := {| sys_state := s'; sys_queue := requeue k res q' |}; wk_current := None |}.
Proof.
  revert sys. induction p as [a|X e c IH]; intros sys.
  - intros [-> Hr]. etrans; [by apply others_worker|].
    apply rtc_once. left. apply end_step.
  - intros (sys0 & x & sys1 & Hr & Hx & Hc%IH). etrans; [by apply others_worker|].
    eapply rtc_l; [left; by apply call_step|exact Hc].
Qed.

Lemma reach_worker k p sys sys' :
  queued_reach p sys sys' -> exists p',
  rtc worker_step {| wk_system := sys; wk_current := Some (k, p) |}
    {| wk_system := sys'; wk_current := Some (k, p') |}.
Proof.
  revert sys. induction p as [a|X e c IH]; intros sys [Hr|Hr].
  - eexists. by apply others_worker.
  - done.
  - eexists. by apply others_worker.
  - destruct Hr as (sys0 & x & sys1 & Hr & Hx & [p' Hc]%IH). exists p'.
    etrans; [by apply others_worker|].
    eapply rtc_l; [left; by apply call_step|exact Hc].
Qed.

Lemma controller_worker sys sys' :
  rtc controller sys sys' ->
  rtc worker_step {| wk_system := sys; wk_current := None |} {| wk_system := sys'; wk_current := None |}.
Proof.
  induction 1 as [|sys1 sys2 sys3 Hc _ IH]; [apply rtc_refl|]. etrans; [|exact IH].
  destruct Hc as [sys1 sys2 He|k s q res s' q' Hk Hx|k s q s' q' Hk Hx|sys1].
  - apply others_worker. by apply rtc_once.
  - eapply rtc_l; [left; by apply take_step|]. by apply exec_worker.
  - eapply rtc_l; [left; by apply take_step|]. apply (reach_worker k) in Hx as [p' Hx].
    eapply rtc_r; [exact Hx|]. by right; right.
  - apply rtc_once. by right; right.
Qed.
End worker.

(** ** Two workers in one process *)
Section together.
Context {E1 : Type -> Type} {S1 : Type} `{Countable K1}.
Context (step1 : forall X, E1 X -> S1 -> X -> S1 -> Prop) (env1 : S1 -> S1 -> Prop).
Context (reconcile1 : K1 -> prog E1 (option error)).
Context (watch1 : S1 -> S1 -> gset K1) (all1 : S1 -> gset K1) (restart1 : S1 -> S1).
Context {E2 : Type -> Type} {S2 : Type} `{Countable K2}.
Context (step2 : forall X, E2 X -> S2 -> X -> S2 -> Prop) (env2 : S2 -> S2 -> Prop).
Context (reconcile2 : K2 -> prog E2 (option error)).
Context (watch2 : S2 -> S2 -> gset K2) (all2 : S2 -> gset K2) (restart2 : S2 -> S2).

(** How the states that the two know describe one cluster. *)
Context (shared : S1 -> S2 -> Prop).

Definition pair : Type := worker E1 S1 K1 * worker E2 S2 K2.
Implicit Types w : pair.

Definition consistent w : Prop :=
  shared (sys_state (wk_system w.1)) (sys_state (wk_system w.2)).

Abbreviation own1 := (own_step step1 reconcile1 watch1).
Abbreviation own2 := (own_step step2 reconcile2 watch2).
Abbreviation other1 := (other_step env1 watch1).
Abbreviation other2 := (other_step env2 watch2).

(** One of the two moves, others do, or the process stops and starts again. *)
Definition moves w w' : Prop :=
  (own1 w.1 w'.1 /\ other2 w.2 w'.2) \/ (other1 w.1 w'.1 /\ own2 w.2 w'.2) \/
  (other1 w.1 w'.1 /\ other2 w.2 w'.2) \/
  w' = (restarted all1 restart1 w.1, restarted all2 restart2 w.2).

Definition together w w' : Prop := consistent w /\ moves w w' /\ consistent w'.

Definition idle_both w : Prop := idle w.1 /\ idle w.2.

Lemma together_worker w w' :
  rtc together w w' ->
  rtc (worker_step step1 env1 reconcile1 watch1 all1 restart1) w.1 w'.1 /\
  rtc (worker_step step2 env2 reconcile2 watch2 all2 restart2) w.2 w'.2.
Proof.
  unfold worker_step.
  induction 1 as [|w1 w2 w3 (_ & Hm & _) _ [IH1 IH2]]; [by split; apply rtc_refl|].
  destruct Hm as [[H1 H2]|[[H1 H2]|[[H1 H2]| ->]]];
    (split; [eapply rtc_l; [|exact IH1]|eapply rtc_l; [|exact IH2]]; tauto).
Qed.

Lemma together_consistent w w' : rtc together w w' -> consistent w -> consistent w'.
Proof. induction 1 as [|w1 w2 w3 (_ & _ & Hw) _ IH]; auto. Qed.

(** A run of one of the two while the other one waits. *)
Definition both : Type := system S1 K1 * system S2 K2.

Definition agree (j : both) : Prop := shared (sys_state j.1) (sys_state j.2).

Definition call1 X (e : E1 X) (j : both) (x : X) (j' : both) : Prop :=
  queued_step step1 watch1 X e j.1 x j'.1 /\ queued_env env2 watch2 j.2 j'.2 /\ agree j'.

Definition call2 X (e : E2 X) (j : both) (x : X) (j' : both) : Prop :=
  queued_step step2 watch2 X e j.2 x j'.2 /\ queued_env env1 watch1 j.1 j'.1 /\ agree j'.

Definition at_work (j : both) (c1 : option (K1 * prog E1 (option error)))
    (c2 : option (K2 * prog E2 (option error))) : pair :=
  ({| wk_system := j.1; wk_current := c1 |}, {| wk_system := j.2; wk_current := c2 |}).

Context (Hstay1 : forall s, env1 s s /\ watch1 s s = ∅) (Hstay2 : forall s, env2 s s /\ watch2 s s = ∅).

Lemma stay1 sys (c : option (K1 * prog E1 (option error))) :
  other1 {| wk_system := sys; wk_current := c |} {| wk_system := sys; wk_current := c |}.
Proof using Hstay1.
  apply other_env. destruct (Hstay1 (sys_state sys)) as [? Hw]. split; [done|]. rewrite Hw. by rewrite (right_id_L ∅ (∪)).
Qed.

Lemma stay2 sys (c : option (K2 * prog E2 (option error))) :
  other2 {| wk_system := sys; wk_current := c |} {| wk_system := sys; wk_current := c |}.
Proof using Hstay2.
  apply other_env. destruct (Hstay2 (sys_state sys)) as [? Hw]. split; [done|]. rewrite Hw. by rewrite (right_id_L ∅ (∪)).
Qed.

Lemma calls1 k p j res s q sys :
  agree j -> exec call1 alone p j res ({| sys_state := s; sys_queue := q |}, sys) ->
  rtc together (at_work j (Some (k, p)) None)
    (at_work ({| sys_state := s; sys_queue := requeue k res q |}, sys) None None).
Proof using Hstay2.
  revert j. induction p as [a|X e c IH]; intros j Hj.
  - intros [-> Hr%rtc_alone]. subst j. apply rtc_once. split_and!; [done| |done].
    left. split; [apply end_step|apply stay2].
  - intros (j0 & x & j1 & ->%rtc_alone & (Hx & He & Hj1) & Hc%IH); [|done].
    eapply rtc_l; [|exact Hc]. split_and!; [done| |done].
    left. split; [by apply call_step|by apply other_env].
Qed.

Lemma calls2 k p j res s q sys :
  agree j -> exec call2 alone p j res (sys, {| sys_state := s; sys_queue := q |}) ->
  rtc together (at_work j None (Some (k, p)))
    (at_work (sys, {| sys_state := s; sys_queue := requeue k res q |}) None None).
Proof using Hstay1.
  revert j. induction p as [a|X e c IH]; intros j Hj.
  - intros [-> Hr%rtc_alone]. subst j. apply rtc_once. split_and!; [done| |done].
    right; left. split; [apply stay1|apply end_step].
  - intros (j0 & x & j1 & ->%rtc_alone & (Hx & He & Hj1) & Hc%IH); [|done].
    eapply rtc_l; [|exact Hc]. split_and!; [done| |done].
    right; left. split; [by apply other_env|by apply call_step].
Qed.

Lemma run1 k s q sys2 res s' q' sys2' :
  k ∈ q -> shared s (sys_state sys2) ->
  exec call1 alone (reconcile1 k) ({| sys_state := s; sys_queue := q ∖ {[k]} |}, sys2) res
    ({| sys_state := s'; sys_queue := q' |}, sys2') ->
  rtc together (at_work ({| sys_state := s; sys_queue := q |}, sys2) None None)
    (at_work ({| sys_state := s'; sys_queue := requeue k res q' |}, sys2') None None).
Proof using Hstay2.
  intros Hk Hj Hx. eapply rtc_l; [|eapply calls1; [|exact Hx]; exact Hj]. split_and!; [exact Hj| |exact Hj].
  left. split; [by apply take_step|apply stay2].
Qed.

Lemma run2 k s q sys1 res s' q' sys1' :
  k ∈ q -> shared (sys_state sys1) s ->
  exec call2 alone (reconcile2 k) (sys1, {| sys_state := s; sys_queue := q ∖ {[k]} |}) res
    (sys1', {| sys_state := s'; sys_queue := q' |}) ->
  rtc together (at_work (sys1, {| sys_state := s; sys_queue := q |}) None None)
    (at_work (sys1', {| sys_state := s'; sys_queue := requeue k res q' |}) None None).
Proof using Hstay1.
  intros Hk Hj Hx. eapply rtc_l; [|eapply calls2; [|exact Hx]; exact Hj]. split_and!; [exact Hj| |exact Hj].
  right; left. split; [apply stay1|by apply take_step].
Qed.

(** A run of the second that changes nothing. *)
Lemma steady2 {A} (p : prog E2 A) s res s' j :
  agree j -> sys_state j.2 = s ->
  exec (fun X e s x s' => step2 X e s x s' /\ s' = s) alone p s res s' ->
  exec call2 alone p j res j.
Proof using Hstay1 Hstay2.
  intros Hj Hs. subst s. induction p as [b|X e c IH]; [by intros [-> ->%rtc_alone]; split|].
  intros (s0 & x & s1 & ->%rtc_alone & [He ->] & Hc%IH). exists j, x, j. split; [apply rtc_refl|].
  split; [|done]. split_and!; [| |done].
  - split; [done|]. destruct (Hstay2 (sys_state j.2)) as [_ ->]. by rewrite (right_id_L ∅ (∪)).
  - destruct (Hstay1 (sys_state j.1)) as [? Hw]. split; [done|]. rewrite Hw. by rewrite (right_id_L ∅ (∪)).
Qed.

Context (ok1 : S1 -> Prop) (synced1 : K1 -> S1 -> Prop) (ok2 : S2 -> Prop) (synced2 : K2 -> S2 -> Prop).
Context {L1 : Level step1 env1 reconcile1 watch1 all1 restart1 ok1 synced1}.
Context {L2 : Level step2 env2 reconcile2 watch2 all2 restart2 ok2 synced2}.

(** The process has just started, or rests. *)
Record starting w : Prop := {
  starting_idle : idle_both w;
  starting_consistent : consistent w;
  starting_ok1 : ok1 (sys_state (wk_system w.1));
  starting_ok2 : ok2 (sys_state (wk_system w.2));
  starting_requests1 : started all1 (wk_system w.1);
  starting_requests2 : started all2 (wk_system w.2);
}.

Record resting w : Prop := {
  resting_idle : idle_both w;
  resting_queue1 : sys_queue (wk_system w.1) = ∅;
  resting_queue2 : sys_queue (wk_system w.2) = ∅;
}.

(** When both rest, everything is in order for both, and they agree on the cluster. *)
Lemma together_at_rest w w' :
  starting w -> rtc together w w' -> resting w' ->
  consistent w' /\ (forall k, synced1 k (sys_state (wk_system w'.1))) /\
  (forall k, synced2 k (sys_state (wk_system w'.2))).
Proof using L1 L2.
  intros [[Hi1 Hi2] Hc Hok1 Hok2 Hs1 Hs2] Hr [[Hi1' Hi2'] Hq1 Hq2].
  split; [by eapply together_consistent|].
  apply together_worker in Hr as [H1%worker_refines H2%worker_refines]; [|done..].
  split; eapply at_rest; eauto.
Qed.
End together.
