(* ===== verification/GroupSync.v ===== *)
(** * The synchronization of groups (controllers/groupsync_controller.go)

    Teams and organization members of the control API become groups of the cluster, and a
    finalizer keeps the upstream object until its group is gone. *)
From S2P Require Import Prelude GoStd Kube Fake Api Effects.

Record GroupSyncReconciler := { ControlAPIFinalizerZoneName : string }.

Definition OrganizationMembersManifestName : string := "members".
Definition UpstreamFinalizerPrefix : string := "agent.appuio.io/group-zone-".

(** The fields of [controlv1.Team] and [controlv1.OrganizationMembers] that are used, with the
    resource version by which the API server detects concurrent updates. *)
Record UserRef := { ref_Name : string }.

Record Upstream := {
  up_Version : Z;
  up_Finalizers : list string;
  up_DeletionTimestamp : option Z;
  up_ResolvedUserRefs : list UserRef;
}.

Inductive UpstreamRef := TeamRef (k : ObjectKey) | OrganizationMembersRef (k : ObjectKey).

#[export] Instance UpstreamRef_eq_dec : EqDecision UpstreamRef.
Proof. solve_decision. Defined.
#[export] Instance UpstreamRef_countable : Countable UpstreamRef :=
  inj_countable' (fun r => match r with TeamRef k => inl k | OrganizationMembersRef k => inr k end)
    (fun s => match s with inl k => TeamRef k | inr k => OrganizationMembersRef k end)
    ltac:(by intros []).

(** The calls of the reconciler. *)
Inductive group_call : Type -> Type :=
| ForeignGet (r : UpstreamRef) : group_call (error + Upstream)
| DeleteGroup (name : string) : group_call (option error)
| CreateOrUpdateGroup (group : Group) (mutate : Group -> error + Group) : group_call (option error)
| ForeignUpdate (r : UpstreamRef) (u : Upstream) : group_call (option error).

(** The upstream object of a group: a team if its name has a plus sign.  [SplitN] gives two
    parts then, so the last case is never reached. *)
Definition upstream_ref (name : string) : UpstreamRef :=
  if strings.ContainsRune name "+" then
    match strings.SplitN name "+" 2 with
    | ns :: name :: _ => TeamRef {| key_Namespace := ns; key_Name := name |}
    | _ => TeamRef {| key_Namespace := ""; key_Name := "" |}
    end
  else OrganizationMembersRef
    {| key_Namespace := name; key_Name := OrganizationMembersManifestName |}.

Definition set_finalizers (u : Upstream) (fs : list string) : Upstream := {|
  up_Version := up_Version u; up_Finalizers := fs;
  up_DeletionTimestamp := up_DeletionTimestamp u; up_ResolvedUserRefs := up_ResolvedUserRefs u |}.

(** The function passed to [CreateOrUpdate]. *)
Definition set_users (members : list UserRef) (group : Group) : error + Group :=
  inr {| group_Name := group_Name group; group_Users := slices.Sort (ref_Name <$> members) |}.

Section reconcile.
Context `{ApiErrors} `{FinalizerLib}.

(** Removing or adding the finalizer, and the update if that changed the object. *)
Definition update_if_changed (ref : UpstreamRef) (u : Upstream) (fs : list string * bool)
    : prog group_call (option error) :=
  if fs.2 then trigger (ForeignUpdate ref (set_finalizers u fs.1)) else mret None.

Definition GroupSyncReconciler_Reconcile (r : GroupSyncReconciler) (name : string)
    : prog group_call (option error) :=
  let finalizerName := UpstreamFinalizerPrefix +:+ ControlAPIFinalizerZoneName r in
  let ref := upstream_ref name in
  got ← trigger (ForeignGet ref);
  match got with
  | inl err => if apierrors_IsNotFound err then mret None else mret (Some err)
  | inr upstream =>
      match up_DeletionTimestamp upstream with
      | Some _ =>
          err ← trigger (DeleteGroup name);
          match err with
          | Some e =>
              if apierrors_IsNotFound e then
                update_if_changed ref upstream (RemoveFinalizer (up_Finalizers upstream) finalizerName)
              else mret (Some e)
          | None =>
              update_if_changed ref upstream (RemoveFinalizer (up_Finalizers upstream) finalizerName)
          end
      | None =>
          err ← trigger (CreateOrUpdateGroup {| group_Name := name; group_Users := [] |}
                          (set_users (up_ResolvedUserRefs upstream)));
          match err with
          | Some e => mret (Some e)
          | None =>
              update_if_changed ref upstream (AddFinalizer (up_Finalizers upstream) finalizerName)
          end
      end
  end.
End reconcile.

(** The names of the requests that changes of upstream objects cause. *)
Definition teamMapper (team : ObjectKey) : list string :=
  [key_Namespace team +:+ "+" +:+ key_Name team].

Definition organizationMembersMapper (member : ObjectKey) : list string := [key_Namespace member].

(** ** The two clusters *)
Record group_state := {
  gs_groups : gmap string Group;
  gs_upstream : gmap UpstreamRef Upstream;
}.

Section cluster.
Context `{ApiErrors}.

Definition without_group (name : string) (s : group_state) : group_state :=
  {| gs_groups := delete name (gs_groups s); gs_upstream := gs_upstream s |}.

Inductive delete_step (name : string) (s : group_state) : option error -> group_state -> Prop :=
| delete_done : is_Some (gs_groups s !! name) -> delete_step name s None (without_group name s)
| delete_missing err : gs_groups s !! name = None -> apierrors_IsNotFound err = true ->
    delete_step name s (Some err) s
| delete_failed err : apierrors_IsNotFound err = false -> delete_step name s (Some err) s
| delete_lost err : apierrors_IsNotFound err = false ->
    delete_step name s (Some err) (without_group name s).

Inductive write_group_step (group : Group) (mutate : Group -> error + Group) (s : group_state)
    : option error -> group_state -> Prop :=
| write_group res m :
    created_or_updated (group_Name group) group mutate (gs_groups s) res m ->
    write_group_step group mutate s res {| gs_groups := m; gs_upstream := gs_upstream s |}.

(** A write of an upstream object: an object that is being deleted goes away with its last
    finalizer. *)
Definition write_upstream (r : UpstreamRef) (u : Upstream) (s : group_state) : group_state := {|
  gs_groups := gs_groups s;
  gs_upstream :=
    match up_DeletionTimestamp u, up_Finalizers u with
    | Some _, [] => delete r (gs_upstream s)
    | _, _ => <[r := {| up_Version := up_Version u + 1; up_Finalizers := up_Finalizers u;
                        up_DeletionTimestamp := up_DeletionTimestamp u;
                        up_ResolvedUserRefs := up_ResolvedUserRefs u |}]> (gs_upstream s)
    end |}.

(** An update succeeds only for the version that is stored. *)
Inductive update_step (r : UpstreamRef) (u : Upstream) (s : group_state)
    : option error -> group_state -> Prop :=
| update_done cur : gs_upstream s !! r = Some cur -> up_Version cur = up_Version u ->
    update_step r u s None (write_upstream r u s)
| update_failed err : update_step r u s (Some err) s
| update_lost cur err : gs_upstream s !! r = Some cur -> up_Version cur = up_Version u ->
    update_step r u s (Some err) (write_upstream r u s).

Definition group_step X (c : group_call X) : group_state -> X -> group_state -> Prop :=
  match c in group_call X return group_state -> X -> group_state -> Prop with
  | ForeignGet r => read_step gs_upstream r
  | DeleteGroup name => delete_step name
  | CreateOrUpdateGroup group mutate => write_group_step group mutate
  | ForeignUpdate r u => update_step r u
  end.

(** The users of the control API create, change and delete upstream objects in any way, but an
    object stays as long as it has the finalizer [f], which is the agent's. *)
Inductive group_env (f : string) (s : group_state) : group_state -> Prop :=
| env_upstream ups :
    (forall r u, gs_upstream s !! r = Some u -> f ∈ up_Finalizers u ->
      exists u', ups !! r = Some u' /\ f ∈ up_Finalizers u') ->
    group_env f s {| gs_groups := gs_groups s; gs_upstream := ups |}.
End cluster.

(** ** Specification *)

(** The upstream object exists and has the finalizer. *)
Definition protected (f : string) (r : UpstreamRef) (s : group_state) : Prop :=
  exists u, gs_upstream s !! r = Some u /\ f ∈ up_Finalizers u.

Definition no_group (name : string) (s : group_state) : Prop := gs_groups s !! name = None.

Definition finalizer_of (r : GroupSyncReconciler) : string :=
  UpstreamFinalizerPrefix +:+ ControlAPIFinalizerZoneName r.

(** ** An example: the team [ops] of [acme] in the zone [z1] *)
Definition gs_reconciler : GroupSyncReconciler := {| ControlAPIFinalizerZoneName := "z1" |}.

Definition gs_team (fs : list string) (deleted : option Z) : Upstream := {|
  up_Version := 1; up_Finalizers := fs; up_DeletionTimestamp := deleted;
  up_ResolvedUserRefs := [{| ref_Name := "bob" |}; {| ref_Name := "alice" |}] |}.

Definition gs_ref : UpstreamRef := TeamRef {| key_Namespace := "acme"; key_Name := "ops" |}.

Definition gs_state (groups : gmap string Group) (u : Upstream) : group_state :=
  {| gs_groups := groups; gs_upstream := {[gs_ref := u]} |}.

Definition gs_group : Group := {| group_Name := "acme+ops"; group_Users := ["alice"; "bob"] |}.

Definition gs_not_found : error := StatusError ReasonNotFound "not found".

(** ** Lemmas *)

Lemma SplitN_two s sep : strings.Contains s sep = true ->
  exists a b, strings.SplitN s sep 2 = [a; b] /\ s = a +:+ sep +:+ b.
Proof.
  unfold strings.Contains. simpl. destruct (strings.Cut s sep) as [[a b] ok] eqn:E. simpl.
  intros ->. exists a, b. split; [done|]. by apply Cut_true.
Qed.

Lemma upstream_ref_team ns name :
  strings.ContainsRune ns "+" = false ->
  upstream_ref (ns +:+ "+" +:+ name) = TeamRef {| key_Namespace := ns; key_Name := name |}.
Proof.
  intros Hns. change (ns +:+ "+" +:+ name) with (ns +:+ String "+" name). unfold upstream_ref.
  rewrite ContainsRune_app, orb_comm. simpl. by rewrite (Cut_app_char _ _ _ Hns).
Qed.

Lemma upstream_ref_organization name :
  strings.ContainsRune name "+" = false ->
  upstream_ref name = OrganizationMembersRef
    {| key_Namespace := name; key_Name := OrganizationMembersManifestName |}.
Proof. unfold upstream_ref. by intros ->. Qed.

Lemma write_upstream_other r u s r' :
  r' <> r -> gs_upstream (write_upstream r u s) !! r' = gs_upstream s !! r'.
Proof.
  intros Hr. simpl. destruct (up_DeletionTimestamp u), (up_Finalizers u);
    by rewrite ?lookup_insert_ne, ?lookup_delete_ne.
Qed.

Section lemmas.
Context `{ApiErrorsLaws} `{FinalizerLaws}.

Lemma protected_stable f r : stable (group_env f) (protected f r).
Proof. intros s s' [ups He] (u & Hu & Hf). destruct (He r u Hu Hf) as (u' & ? & ?). by exists u'. Qed.

Lemma no_group_stable f name : stable (group_env f) (no_group name).
Proof. by intros s s' [ups He]. Qed.

(** The update of the finalizers leaves the groups alone. *)
Lemma update_if_changed_groups f ref u fs name s s' :
  reach group_step (group_env f) (update_if_changed ref u fs) s s' ->
  no_group name s -> no_group name s'.
Proof.
  unfold update_if_changed. destruct fs.2; simpl.
  - intros [Hr|(s0 & x & s1 & Hr & Hu & [Hr'|[]])] Hn; [by eapply stable_rtc; [apply no_group_stable|..]|].
    eapply stable_rtc; [apply no_group_stable|done|].
    assert (no_group name s0) as Hn0 by (by eapply stable_rtc; [apply no_group_stable|..]).
    by destruct Hu.
  - intros [Hr|[]] Hn. by eapply stable_rtc; [apply no_group_stable|..].
Qed.

Lemma delete_step_no_group name s res s' :
  delete_step name s res s' ->
  match res with
  | None => no_group name s'
  | Some err => apierrors_IsNotFound err = true -> no_group name s'
  end /\ gs_upstream s' = gs_upstream s.
Proof. unfold no_group. intros []; simpl; try rewrite lookup_delete_eq; auto; split; congruence. Qed.

(** What an update without concurrent changes does to the finalizers. *)
Lemma update_if_changed_exec ref u fs s s' :
  gs_upstream s !! ref = Some u ->
  exec group_step alone (update_if_changed ref u fs) s None s' ->
  s' = (if fs.2 then write_upstream ref (set_finalizers u fs.1) s else s).
Proof.
  intros Hu. unfold update_if_changed. destruct fs.2.
  - rewrite alone_call. by inversion 1.
  - rewrite alone_ret. by intros [_ ->].
Qed.

Lemma removed_unprotected f ref u s :
  ~ protected f ref (write_upstream ref (set_finalizers u (RemoveFinalizer (up_Finalizers u) f).1) s).
Proof.
  intros (cur & Hcur & Hin). simpl in Hcur.
  assert (Hf : f ∉ (RemoveFinalizer (up_Finalizers u) f).1) by (rewrite RemoveFinalizer_elem; tauto).
  destruct (up_DeletionTimestamp u), (RemoveFinalizer (up_Finalizers u) f).1;
    rewrite ?lookup_insert_eq, ?lookup_delete_eq in Hcur; simplify_eq/=; by apply Hf.
Qed.

Lemma added_protected f ref u s :
  up_DeletionTimestamp u = None ->
  protected f ref (write_upstream ref (set_finalizers u (AddFinalizer (up_Finalizers u) f).1) s).
Proof.
  intros Hd. eexists. simpl. rewrite Hd, lookup_insert_eq. split; [done|]. simpl.
  apply AddFinalizer_elem. by right.
Qed.

(** The rules for the proof that the finalizer protects the group. *)
Definition safe (f : string) (ref : UpstreamRef) (name : string) (s : group_state) : Prop :=
  protected f ref s \/ no_group name s.

Lemma safe_stable f ref name : stable (group_env f) (safe f ref name).
Proof.
  intros s1 s2 He [?|?]; [left; by eapply protected_stable|right; by eapply no_group_stable].
Qed.

Lemma safe_vis {X} (c : group_call X) (k : X -> prog group_call (option error)) f ref name s s' :
  protected f ref s -> reach group_step (group_env f) (Vis c k) s s' ->
  (forall s0 x s1, protected f ref s0 -> group_step X c s0 x s1 ->
    reach group_step (group_env f) (k x) s1 s' -> safe f ref name s') ->
  safe f ref name s'.
Proof.
  intros Hp Hr Hk. exact (reach_vis _ _ _ _ _ _ _ _ Hr (protected_stable f ref)
    (safe_stable f ref name) (fun _ => @or_introl _ _) Hp Hk).
Qed.

Lemma safe_ret f ref name (a : option error) s s' :
  safe f ref name s -> reach group_step (group_env f) (Ret a) s s' -> safe f ref name s'.
Proof. intros Hs [Hr|[]]. by eapply stable_rtc; [apply safe_stable|..]. Qed.
End lemmas.

(** ** Properties *)
Section properties.
Context `{ApiErrorsLaws} `{FinalizerLaws}.

(** C5: the finalizer protects the group.  From a state where the upstream object has the
    finalizer, in every state that a reconciliation passes through, or is stopped in, the object
    is still there with the finalizer, or the group is gone: whatever calls fail, with or
    without having been carried out, and however upstream objects are changed in between, as long as
    nobody else removes this finalizer. *)
Theorem group_finalizer_protects r name s s' :
  protected (finalizer_of r) (upstream_ref name) s ->
  reach group_step (group_env (finalizer_of r)) (GroupSyncReconciler_Reconcile r name) s s' ->
  protected (finalizer_of r) (upstream_ref name) s' \/ no_group name s'.
Proof.
  intros Hp Hr. apply (safe_vis _ _ _ _ name _ _ Hp Hr). clear s Hp Hr. intros s0 got s1 Hp Hget Hr.
  destruct Hget as [u Hu|err ? Hn|err Hn];
    [|rewrite Hn in Hr; eapply safe_ret; [by left|done]..].
  destruct (up_DeletionTimestamp u) as [t|].
  - apply (safe_vis _ _ _ _ name _ _ Hp Hr).
    clear Hr. intros s2 res s3 Hp2 [Hd Hup]%delete_step_no_group Hr.
    assert (Hp3 : protected (finalizer_of r) (upstream_ref name) s3)
      by (unfold protected; by rewrite Hup).
    destruct res as [err|]; [destruct (apierrors_IsNotFound err)|];
      try (eapply safe_ret; [by left|done]); right; eapply update_if_changed_groups; eauto.
  - assert (Hf : finalizer_of r ∈ up_Finalizers u)
      by (destruct Hp as (cur & Hcur & Hf); congruence).
    apply (safe_vis _ _ _ _ name _ _ Hp Hr). clear Hr. intros s2 res s3 Hp2 [res' m _] Hr.
    change (protected (finalizer_of r) (upstream_ref name)
      {| gs_groups := m; gs_upstream := gs_upstream s2 |}) in Hp2.
    destruct res' as [err|]; [eapply safe_ret; [by left|done]|].
    unfold update_if_changed in Hr. rewrite AddFinalizer_changed, bool_decide_eq_false_2 in Hr
      by (intros Hnf; apply Hnf, Hf). eapply safe_ret; [by left|done].
Qed.

(** A reconciliation that succeeds, without concurrent changes, leaves the group with
    exactly the upstream's members, sorted, and the finalizer on the upstream object; or, for
    an upstream object that is being deleted, no group and no finalizer.  No other group or
    upstream object changes. *)
Theorem group_sync r name s u s' :
  gs_upstream s !! upstream_ref name = Some u ->
  exec group_step alone (GroupSyncReconciler_Reconcile r name) s None s' ->
  match up_DeletionTimestamp u with
  | None =>
      (exists g, gs_groups s' = <[name := g]> (gs_groups s) /\
        group_Users g = slices.Sort (ref_Name <$> up_ResolvedUserRefs u)) /\
      protected (finalizer_of r) (upstream_ref name) s'
  | Some _ =>
      gs_groups s' = delete name (gs_groups s) /\
      ~ protected (finalizer_of r) (upstream_ref name) s'
  end /\
  forall ref, ref <> upstream_ref name -> gs_upstream s' !! ref = gs_upstream s !! ref.
Proof.
  intros Hu (got & s1 & Hget & Hr)%alone_trigger.
  destruct Hget as [cur Hcur|err Hnone _|err Hn]; [|congruence|by rewrite Hn in Hr; apply alone_ret in Hr as []].
  rewrite Hu in Hcur. injection Hcur as <-.
  destruct (up_DeletionTimestamp u) as [t|] eqn:Ed; apply alone_trigger in Hr as (res & s3 & Hc & Hr).
  - pose proof (delete_step_no_group _ _ _ _ Hc) as [Hng Hup].
    assert (Hg3 : exec group_step alone (update_if_changed (upstream_ref name) u
        (RemoveFinalizer (up_Finalizers u) (finalizer_of r))) s3 None s' /\
      gs_groups s3 = delete name (gs_groups s)).
    { destruct Hc as [Hex|err Hne He|err He|err He]; try rewrite He in Hr;
        try (by apply alone_ret in Hr as []); [done|]. by rewrite delete_id. }
    destruct Hg3 as [Hx Hg3]. apply update_if_changed_exec in Hx; [|by rewrite Hup].
    rewrite RemoveFinalizer_changed in Hx. case_bool_decide as Hf; subst s'.
    + split; [|intros ref Hne; by rewrite write_upstream_other, Hup].
      split; [done|]. apply removed_unprotected.
    + split; [|intros ref Hne; by rewrite Hup]. split; [done|].
      intros (cur & Hcur & Hin). rewrite Hup in Hcur. congruence.
  - destruct Hc as [res m Hm]. destruct res as [err|]; [by apply alone_ret in Hr as []|].
    apply update_if_changed_exec in Hr; [|done]. inversion Hm as [v Hv| |]; subst.
    injection Hv as <-. rewrite AddFinalizer_changed. case_bool_decide as Hf.
    + split; [|intros ref Hne; by rewrite write_upstream_other]. split; [by eexists|].
      by apply added_protected.
    + split; [|done]. split; [by eexists|]. exists u. split; [done|]. exact Hf.
Qed.

(** The name that a team is reconciled under leads back to the team, and that of the
    members of an organization to the members, when the organization's name has no plus sign. *)
Theorem mappers_roundtrip (k : ObjectKey) :
  strings.ContainsRune (key_Namespace k) "+" = false ->
  (forall name, name ∈ teamMapper k -> upstream_ref name = TeamRef k) /\
  (forall name, name ∈ organizationMembersMapper k -> upstream_ref name = OrganizationMembersRef
    {| key_Namespace := key_Namespace k; key_Name := OrganizationMembersManifestName |}).
Proof.
  intros Hns. destruct k as [ns n]. split; intros name ->%list_elem_of_singleton.
  - by apply upstream_ref_team.
  - by apply upstream_ref_organization.
Qed.
End properties.

(** ** The theorems on the example *)
Import Fake.
#[local] Existing Instances fake_finalizers fake_finalizers_laws.

Lemma mappers_roundtrip_witness :
  upstream_ref "acme+ops+more" =
    TeamRef {| key_Namespace := "acme"; key_Name := "ops+more" |}.
Proof.
  refine (proj1 (mappers_roundtrip {| key_Namespace := "acme"; key_Name := "ops+more" |} eq_refl) _ _).
  apply list_elem_of_here.
Defined.

(** A run that creates the group. *)
Definition gs_created : group_state :=
  write_upstream gs_ref (gs_team ["agent.appuio.io/group-zone-z1"] None)
    (gs_state {["acme+ops" := gs_group]} (gs_team [] None)).

Lemma gs_create_run :
  exec group_step alone (GroupSyncReconciler_Reconcile gs_reconciler "acme+ops")
    (gs_state ∅ (gs_team [] None)) None gs_created.
Proof.
  apply alone_trigger. eexists _, _. split; [by apply (read_found _ _ _ (gs_team [] None)); vm_compute|].
  apply alone_trigger. eexists _, _. split.
  { apply write_group. apply (cou_done _ _ _ _ gs_group). by vm_compute. }
  apply alone_call. apply (update_done _ _ _ (gs_team [] None)); by vm_compute.
Qed.

Lemma group_sync_witness :
  protected (finalizer_of gs_reconciler) gs_ref gs_created /\
  exists g, gs_groups gs_created = <["acme+ops" := g]> ∅ /\ group_Users g = ["alice"; "bob"].
Proof.
  destruct (group_sync gs_reconciler "acme+ops" (gs_state ∅ (gs_team [] None)) (gs_team [] None)
    gs_created ltac:(by vm_compute) gs_create_run) as [[(g & Hg & Hu) Hp] _].
  split; [exact Hp|]. exists g. split; [exact Hg|]. rewrite Hu. by vm_compute.
Defined.

(** The deletion of a protected team, stopped after the group has been deleted. *)
Lemma group_finalizer_protects_witness :
  let s := gs_state {["acme+ops" := gs_group]} (gs_team ["agent.appuio.io/group-zone-z1"] (Some 1%Z)) in
  protected (finalizer_of gs_reconciler) (upstream_ref "acme+ops") (without_group "acme+ops" s) \/
  no_group "acme+ops" (without_group "acme+ops" s).
Proof.
  intros s. apply (group_finalizer_protects gs_reconciler "acme+ops" s).
  - eexists. split; [by apply lookup_singleton_eq|]. apply list_elem_of_here.
  - right. eexists s, _, s. split; [apply rtc_refl|]. split; [by apply read_found; vm_compute|].
    right. eexists s, _, _. split; [apply rtc_refl|]. split; [apply delete_done; eexists; by vm_compute|].
    left. apply rtc_refl.
Defined.

(** C32: the finalizer is added only after the group has been written, so a team that is deleted in
    between leaves a group that no later reconciliation removes. *)
Theorem group_leak :
  exists s err s',
    gs_groups s = ∅ /\
    exec group_step (group_env (finalizer_of gs_reconciler))
      (GroupSyncReconciler_Reconcile gs_reconciler "acme+ops") s (Some err) s' /\
    gs_upstream s' = ∅ /\ gs_groups s' !! "acme+ops" = Some gs_group /\
    forall res s'', exec group_step alone (GroupSyncReconciler_Reconcile gs_reconciler "acme+ops")
      s' res s'' -> s'' = s'.
Proof.
  exists (gs_state ∅ (gs_team [] None)), gs_not_found,
    {| gs_groups := {["acme+ops" := gs_group]}; gs_upstream := ∅ |}.
  split_and!; [done| |done..|].
  - apply exec_trigger. eexists _, _, _. split; [apply rtc_refl|].
    split; [by apply (read_found _ _ _ (gs_team [] None)); vm_compute|].
    apply exec_trigger. eexists _, _, _. split; [apply rtc_refl|].
    split; [apply write_group, (cou_done _ _ _ _ gs_group); by vm_compute|].
    apply exec_trigger. eexists _, _, _. split.
    { apply rtc_once, (env_upstream _ _ ∅). intros r u Hu Hf. exfalso. simpl in Hu.
      apply lookup_singleton_Some in Hu as [_ <-]. by apply not_elem_of_nil in Hf. }
    split; [by apply update_failed|]. by apply exec_ret; split; [|apply rtc_refl].
  - intros res s'' (got & s1 & Hget & Hr)%alone_trigger.
    destruct Hget as [u Hu|err _ Hn|err Hn]; [by vm_compute in Hu|rewrite Hn in Hr..];
      by apply alone_ret in Hr as [].
Qed.
