(* ===== verification/GroupController.v ===== *)
(** * The controller of groups (controllers/groupsync_controller.go)

    What the controller watches, and what follows for the controller as a whole: no group is out
    of order when its queue is empty, and the queue gets empty when nothing fails. *)
From S2P Require Import Prelude GoStd Kube Fake Api Effects Workqueue Drain GroupSync.

(** ** The watches ([SetupWithManagerAndForeignCluster]) *)
#[export] Instance Group_eq_dec : EqDecision Group.
Proof. solve_decision. Defined.

#[export] Instance UserRef_eq_dec : EqDecision UserRef.
Proof. solve_decision. Defined.
#[export] Instance Upstream_eq_dec : EqDecision Upstream.
Proof. solve_decision. Defined.

Definition upstream_requests (ref : UpstreamRef) (u : Upstream) : list string :=
  match ref with
  | TeamRef k => teamMapper k
  | OrganizationMembersRef k => organizationMembersMapper k
  end.

Definition group_watch (s s' : group_state) : gset string :=
  watching always for_object (gs_groups s) (gs_groups s') ∪
  watching always upstream_requests (gs_upstream s) (gs_upstream s').

Definition group_requests (s : group_state) : gset string :=
  existing always for_object (gs_groups s) ∪ existing always upstream_requests (gs_upstream s).

(** The group of a name is as the control API says.  An object that is gone says nothing. *)
Definition group_synced (r : GroupSyncReconciler) (name : string) (s : group_state) : Prop :=
  match gs_upstream s !! upstream_ref name with
  | None => True
  | Some u =>
      match up_DeletionTimestamp u with
      | None => group_Users <$> gs_groups s !! name = Some (slices.Sort (ref_Name <$> up_ResolvedUserRefs u)) /\
                finalizer_of r ∈ up_Finalizers u
      | Some _ => gs_groups s !! name = None /\ finalizer_of r ∉ up_Finalizers u
      end
  end.

#[export] Instance group_synced_dec r name s : Decision (group_synced r name s).
Proof. unfold group_synced. repeat case_match; solve_decision. Defined.

Section group.
Context `{ApiErrorsLaws} `{FinalizerLaws}.

(** A cluster without faults. *)
Definition group_answer (not_found : error) X (c : group_call X) : group_state -> X * group_state :=
  match c in group_call X return group_state -> X * group_state with
  | ForeignGet r => fun s =>
      (match gs_upstream s !! r with Some u => inr u | None => inl not_found end, s)
  | DeleteGroup name => fun s =>
      match gs_groups s !! name with
      | Some _ => (None, without_group name s)
      | None => (Some not_found, s)
      end
  | CreateOrUpdateGroup group mutate => fun s =>
      match mutate (default group (gs_groups s !! group_Name group)) with
      | inl err => (Some err, s)
      | inr v => (None, {| gs_groups := <[group_Name group := v]> (gs_groups s); gs_upstream := gs_upstream s |})
      end
  | ForeignUpdate r u => fun s =>
      match gs_upstream s !! r with
      | Some cur => if decide (up_Version cur = up_Version u) then (None, write_upstream r u s)
                    else (Some not_found, s)
      | None => (Some not_found, s)
      end
  end.

Lemma upstream_requests_ref name u : name ∈ upstream_requests (upstream_ref name) u.
Proof.
  unfold upstream_ref. destruct (strings.ContainsRune name "+") eqn:E; [|apply list_elem_of_here].
  rewrite <- Contains_char in E. destruct (SplitN_two name "+" E) as (a & b & Hs & ->).
  rewrite Hs. apply list_elem_of_here.
Qed.

(** What [group_synced] depends on. *)
Definition group_view (name : string) (s : group_state) : option Group * option Upstream :=
  (gs_groups s !! name, gs_upstream s !! upstream_ref name).

Lemma group_watch_view name s s' : name ∉ group_watch s s' -> group_view name s' = group_view name s.
Proof.
  unfold group_watch, group_view. rewrite not_elem_of_union. intros [Hg Hu]. f_equal.
  - eapply watching_same; [|exact Hg]. intros v. apply list_elem_of_here.
  - eapply watching_same; [|exact Hu]. apply upstream_requests_ref.
Qed.

Lemma group_synced_view r name s s' :
  group_view name s' = group_view name s -> group_synced r name s -> group_synced r name s'.
Proof. unfold group_view, group_synced. by intros [= -> ->]. Qed.

(** A write that succeeds and leaves the group as it is found it as it should be. *)
Lemma created_same name users (m m' : gmap string Group) :
  created_or_updated name {| group_Name := name; group_Users := [] |} (set_users users) m None m' ->
  m' !! name = m !! name -> group_Users <$> m !! name = Some (slices.Sort (ref_Name <$> users)).
Proof.
  intros Hm Hsame. inversion Hm as [v Hv| |]; subst. rewrite lookup_insert_eq in Hsame.
  rewrite <- Hsame. by injection Hv as <-.
Qed.

(** A cluster without faults answers as a cluster may. *)
Lemma group_answer_step not_found X (c : group_call X) s :
  apierrors_IsNotFound not_found = true ->
  group_step X c s (group_answer not_found X c s).1 (group_answer not_found X c s).2.
Proof.
  intros Hn. destruct c as [ref|name|group mutate|ref u]; simpl.
  - destruct (gs_upstream s !! ref) eqn:E; [by apply read_found|by apply read_missing].
  - destruct (gs_groups s !! name) eqn:E; [by apply delete_done|by apply delete_missing].
  - destruct (mutate _) as [err|v] eqn:E; simpl; [|by apply write_group, cou_done].
    destruct s. apply write_group, cou_failed.
  - destruct (gs_upstream s !! ref) as [cur|] eqn:E; [|apply update_failed].
    destruct (decide _); [by eapply update_done|apply update_failed].
Qed.

Abbreviation quiet_groups name :=
  (exec (quiet_step group_step group_watch name) (quiet_env anything group_watch name)).

Lemma update_if_changed_quiet name ref u fs s s' :
  ref = upstream_ref name ->
  quiet_groups name (update_if_changed ref u fs) s None s' -> gs_upstream s' !! ref = Some u ->
  fs.2 = false.
Proof.
  intros -> Hx Hu. unfold update_if_changed in Hx. destruct fs.2; [|done]. exfalso.
  apply (quiet_trigger group_step anything group_watch (group_view name) name
    (group_watch_view name) _ Ret) in Hx as (s0 & err & s1 & Hup & _ & V1 & Hx).
  destruct Hx as [<- _]. injection V1 as _ U1. rewrite Hu in U1. inversion Hup as [cur Hcur Hv| |]; subst.
  simpl in U1. destruct (up_DeletionTimestamp u), fs.1;
    rewrite ?lookup_insert_eq, ?lookup_delete_eq in U1; try done;
    apply (f_equal (fmap up_Version)) in U1; injection U1; lia.
Qed.

#[export] Instance group_level r :
  Level group_step anything (GroupSyncReconciler_Reconcile r) group_watch group_requests
    id any_state (group_synced r).
Proof.
  apply (level_view _ _ _ _ _ _ group_view group_watch_view (group_synced_view r)).
  - intros name s s' Hx. pose proof (group_watch_view name) as Hv.
    apply (quiet_trigger _ _ _ _ _ Hv) in Hx as (s0 & got & s1 & Hg & V0 & _ & Hx).
    unfold group_synced. injection V0 as G0 U0. rewrite <- U0.
    destruct Hg as [u Hu|err Hn _|err Hn]; [|by rewrite Hn|by rewrite Hn in Hx; destruct Hx].
    rewrite Hu. rewrite Hu in U0. destruct (up_DeletionTimestamp u) eqn:Ed.
    + apply (quiet_trigger _ _ _ _ _ Hv) in Hx as (s2 & err & s3 & Hd & V2 & V3 & Hx).
      injection V3 as G3 U3.
      pose proof (delete_step_no_group _ _ _ _ Hd) as [Hng _]. 
      assert (Hc : quiet_groups name (update_if_changed (upstream_ref name) u
          (RemoveFinalizer (up_Finalizers u) (finalizer_of r))) s3 None s' /\ no_group name s3).
      { destruct err as [err|]; [|done]. destruct (apierrors_IsNotFound err); [auto|by destruct Hx]. }
      destruct Hc as [Hc Hng3]. split; [by rewrite <- G3|].
      apply update_if_changed_quiet in Hc; [|done..]. rewrite RemoveFinalizer_changed in Hc.
      by apply bool_decide_eq_false in Hc.
    + apply (quiet_trigger _ _ _ _ _ Hv) in Hx as (s2 & err & s3 & Hd & V2 & V3 & Hx).
      destruct err as [err|]; [by destruct Hx|].
      apply update_if_changed_quiet in Hx; [|done..]. rewrite AddFinalizer_changed in Hx.
      apply bool_decide_eq_false, dec_stable in Hx. split; [|exact Hx].
      injection V2 as G2 _. injection V3 as G3 _. rewrite <- G2. inversion Hd as [res m Hm]; subst.
      eapply created_same; [exact Hm|]. simpl in G3. congruence.
  - intros name s. destruct (gs_upstream s !! upstream_ref name) as [u|] eqn:E.
    + right. unfold group_requests. apply elem_of_union_r, elem_of_existing.
      eexists _, u. split_and!; [done..|]. apply upstream_requests_ref.
    + left. unfold group_synced. by rewrite E.
Qed.

(** The writes of a reconciliation cause requests for its own group only. *)
Lemma group_watch_group name g s :
  group_watch s {| gs_groups := <[name := g]> (gs_groups s); gs_upstream := gs_upstream s |} ⊆ {[name]}.
Proof.
  unfold group_watch. simpl. rewrite watching_id, (right_id_L ∅ (∪)). apply watching_object.
Qed.

Lemma group_watch_delete name s : group_watch s (without_group name s) ⊆ {[name]}.
Proof.
  unfold group_watch. simpl. rewrite watching_id, (right_id_L ∅ (∪)). apply (watching_one _ _ name).
  - intros j Hj. by rewrite lookup_delete_ne.
  - intros v k ->%list_elem_of_singleton. set_solver.
Qed.

Lemma upstream_requests_only name u k : k ∈ upstream_requests (upstream_ref name) u -> k = name.
Proof.
  unfold upstream_ref. destruct (strings.ContainsRune name "+") eqn:E.
  - rewrite <- Contains_char in E. destruct (SplitN_two name "+" E) as (a & b & Hs & ->).
    rewrite Hs. by intros ->%list_elem_of_singleton.
  - by intros ->%list_elem_of_singleton.
Qed.

Lemma group_watch_upstream name u s : group_watch s (write_upstream (upstream_ref name) u s) ⊆ {[name]}.
Proof.
  unfold group_watch. change (gs_groups (write_upstream _ _ _)) with (gs_groups s).
  rewrite watching_id, (left_id_L ∅ (∪)). apply (watching_one _ _ (upstream_ref name)).
  - intros j Hj. by apply write_upstream_other.
  - intros v k ->%upstream_requests_only. set_solver.
Qed.

(** What the update of the finalizers does on a cluster without faults. *)
Lemma update_if_changed_run not_found name u fs s :
  gs_upstream s !! upstream_ref name = Some u ->
  run (group_answer not_found) (update_if_changed (upstream_ref name) u fs) s =
    (None, if fs.2 then write_upstream (upstream_ref name) (set_finalizers u fs.1) s else s) /\
  run_requests group_watch (group_answer not_found) (update_if_changed (upstream_ref name) u fs) s =
    if fs.2 then group_watch s (write_upstream (upstream_ref name) (set_finalizers u fs.1) s) else ∅.
Proof.
  intros Hu. unfold update_if_changed. destruct fs.2; [|done]. simpl. rewrite Hu.
  rewrite decide_True by done. by rewrite (right_id_L ∅ (∪)).
Qed.

(** On a cluster without faults the result and the requests of a reconciliation. *)
Definition group_result (r : GroupSyncReconciler) (name : string) (u : Upstream) (s : group_state)
    : group_state :=
  match up_DeletionTimestamp u with
  | Some _ =>
      let fs := RemoveFinalizer (up_Finalizers u) (finalizer_of r) in
      let s := without_group name s in
      if fs.2 then write_upstream (upstream_ref name) (set_finalizers u fs.1) s else s
  | None =>
      let fs := AddFinalizer (up_Finalizers u) (finalizer_of r) in
      let g := {| group_Name := group_Name (default {| group_Name := name; group_Users := [] |}
                                                    (gs_groups s !! name));
                  group_Users := slices.Sort (ref_Name <$> up_ResolvedUserRefs u) |} in
      let s := {| gs_groups := <[name := g]> (gs_groups s); gs_upstream := gs_upstream s |} in
      if fs.2 then write_upstream (upstream_ref name) (set_finalizers u fs.1) s else s
  end.

Lemma without_group_id name s : gs_groups s !! name = None -> without_group name s = s.
Proof. intros Hn. destruct s as [gs us]. unfold without_group. simpl in *. by rewrite delete_id. Qed.

Lemma group_watch_id s : group_watch s s = ∅.
Proof. unfold group_watch. rewrite !watching_id. set_solver. Qed.

Lemma group_run not_found r name u s :
  apierrors_IsNotFound not_found = true -> gs_upstream s !! upstream_ref name = Some u ->
  run (group_answer not_found) (GroupSyncReconciler_Reconcile r name) s = (None, group_result r name u s) /\
  run_requests group_watch (group_answer not_found) (GroupSyncReconciler_Reconcile r name) s ⊆ {[name]} /\
  (group_synced r name s ->
   run_requests group_watch (group_answer not_found) (GroupSyncReconciler_Reconcile r name) s = ∅).
Proof.
  intros Hn Hu. unfold GroupSyncReconciler_Reconcile, group_result, group_synced. rewrite Hu.
  change (UpstreamFinalizerPrefix +:+ ControlAPIFinalizerZoneName r) with (finalizer_of r).
  simpl. rewrite Hu, group_watch_id, (left_id_L ∅ (∪)).
  destruct (up_DeletionTimestamp u); simpl.
  - set (fs := RemoveFinalizer _ _).
    destruct (update_if_changed_run not_found name u fs (without_group name s) Hu) as [Hrun Hreq].
    assert (Hfs : fs.2 = bool_decide (finalizer_of r ∈ up_Finalizers u)) by apply RemoveFinalizer_changed.
    assert (Hq : run_requests group_watch (group_answer not_found)
        (update_if_changed (upstream_ref name) u fs) (without_group name s) ⊆ {[name]})
      by (rewrite Hreq; destruct fs.2; [apply group_watch_upstream|set_solver]).
    destruct (gs_groups s !! name) as [g|] eqn:Eg.
    + rewrite Hrun. split; [done|]. split; [|by intros []].
      apply union_least; [apply group_watch_delete|done].
    + rewrite Hn. rewrite without_group_id in * by done. rewrite group_watch_id, Hrun.
      split; [done|]. rewrite (left_id_L ∅ (∪)). split; [done|]. intros [_ Hf].
      rewrite Hreq, Hfs, bool_decide_eq_false_2 by done. done.
  - set (fs := AddFinalizer _ _). set (s1 := {| gs_groups := _; gs_upstream := _ |}).
    destruct (update_if_changed_run not_found name u fs s1 Hu) as [Hrun Hreq].
    assert (Hfs : fs.2 = bool_decide (finalizer_of r ∉ up_Finalizers u)) by apply AddFinalizer_changed.
    rewrite Hrun, Hreq. split; [done|]. split.
    + apply union_least; [apply group_watch_group|].
      destruct fs.2; [apply group_watch_upstream|set_solver].
    + intros [Hg Hf]. rewrite Hfs, bool_decide_eq_false_2 by tauto. rewrite (right_id_L ∅ (∪)).
      apply fmap_Some in Hg as (g & Hg & Hs).
      assert (s1 = s) as ->; [|apply group_watch_id].
      destruct s as [gs us]. unfold s1. simpl in *. f_equal. apply insert_id. rewrite Hg. simpl.
      rewrite Hs. by destruct g.
Qed.

Lemma group_result_synced r name u s :
  gs_upstream s !! upstream_ref name = Some u -> group_synced r name (group_result r name u s).
Proof.
  intros Hu. unfold group_result, group_synced. destruct (up_DeletionTimestamp u) as [t|] eqn:Ed; cbv zeta.
  - rewrite RemoveFinalizer_changed. case_bool_decide as Hf.
    + simpl. rewrite ?Ed.
      destruct (RemoveFinalizer (up_Finalizers u) (finalizer_of r)).1 as [|f fs] eqn:Er;
        rewrite ?lookup_delete_eq, ?lookup_insert_eq; [done|]. simpl. rewrite ?Ed.
      rewrite ?lookup_delete_eq. split; [done|]. rewrite <- Er, RemoveFinalizer_elem. tauto.
    + simpl. rewrite Hu, ?Ed, lookup_delete_eq. done.
  - rewrite AddFinalizer_changed. case_bool_decide as Hf; simpl; rewrite ?Ed.
    + rewrite lookup_insert_eq. simpl. rewrite ?Ed, lookup_insert_eq. split; [done|].
      apply AddFinalizer_elem. by right.
    + rewrite Hu, ?Ed, lookup_insert_eq. split; [done|]. exact Hf.
Qed.

#[export] Instance group_settles not_found r :
  apierrors_IsNotFound not_found = true ->
  Settles (GroupSyncReconciler_Reconcile r) group_watch (group_answer not_found) group_step
    (group_synced r) any_state.
Proof.
  intros Hn. split.
  - intros X c s. by apply group_answer_step.
  - intros name s _. destruct (gs_upstream s !! upstream_ref name) as [u|] eqn:Hu.
    + destruct (group_run not_found r name u s Hn Hu) as [-> _]. split_and!; [done..|].
      by apply group_result_synced.
    + unfold group_synced. simpl. rewrite Hu, Hn. simpl. by rewrite Hu.
  - intros name s _. destruct (gs_upstream s !! upstream_ref name) as [u|] eqn:Hu.
    + apply (group_run not_found r name u s Hn Hu).
    + simpl. rewrite Hu, Hn, group_watch_id. set_solver.
  - intros name s _ Hs. destruct (gs_upstream s !! upstream_ref name) as [u|] eqn:Hu.
    + by apply (group_run not_found r name u s Hn Hu).
    + simpl. rewrite Hu, Hn, group_watch_id. set_solver.
Qed.

Abbreviation group_controller r :=
  (controller_step group_step anything (GroupSyncReconciler_Reconcile r) group_watch group_requests id).

(** C6: whatever happens after the agent has started (calls that fail, with or without having been
    carried out, changes of groups and upstream objects by anybody at any time, restarts in the
    middle of a reconciliation): when no request is queued, every group is as the control API
    says, or nothing is upstream of it. *)
Theorem groups_in_order r sys sys' :
  started group_requests sys -> rtc (group_controller r) sys sys' -> sys_queue sys' = ∅ ->
  forall name, group_synced r name (sys_state sys').
Proof. apply always_at_rest, group_level. Qed.

(** C9: from every state that the controller may be in, when nothing fails any more and nobody else
    changes anything, the queue is empty after at most two reconciliations for each request in it,
    in whatever order they are taken, and every group is as the control API says, or nothing is
    upstream of it. *)
Theorem groups_converge r not_found pick sys sys' :
  apierrors_IsNotFound not_found = true -> takes pick ->
  started group_requests sys -> rtc (group_controller r) sys sys' ->
  let rest := drain (GroupSyncReconciler_Reconcile r) group_watch (group_answer not_found) pick
                (2 * size (sys_queue sys')) sys' in
  sys_queue rest = ∅ /\ forall name, group_synced r name (sys_state rest).
Proof.
  intros Hn Hp Hs Hr. pose proof (group_settles not_found r Hn) as HS.
  exact (converges _ _ group_requests id _ _ anything (group_synced r) any_state pick sys sys' Hp Hs Hr I).
Qed.
End group.

(** ** The theorems on the example: the agent starts when there is a team without a group *)
Import Fake.
#[local] Existing Instances fake_finalizers fake_finalizers_laws.

Definition gc_started : system group_state string := {|
  sys_state := gs_state ∅ (gs_team [] None);
  sys_queue := group_requests (gs_state ∅ (gs_team [] None)) |}.

Definition gc_rest : system group_state string :=
  drain (GroupSyncReconciler_Reconcile gs_reconciler) group_watch (group_answer gs_not_found)
    (take_first "") (2 * size (sys_queue gc_started)) gc_started.

Lemma gc_rest_empty : sys_queue gc_rest = ∅.
Proof.
  pose proof (group_settles gs_not_found gs_reconciler eq_refl) as HS.
  refine (proj1 (drain_settles (GroupSyncReconciler_Reconcile gs_reconciler) group_watch group_requests id
    (group_answer gs_not_found) group_step anything (group_synced gs_reconciler) any_state
    (take_first "") _ gc_started (takes_first "") I _)).
  apply rank_bound.
Qed.

Lemma groups_in_order_witness : group_synced gs_reconciler "acme+ops" (sys_state gc_rest).
Proof.
  refine (groups_in_order gs_reconciler gc_started gc_rest _ _ gc_rest_empty "acme+ops").
  - unfold started. reflexivity.
  - pose proof (group_settles gs_not_found gs_reconciler eq_refl) as HS.
    eapply drain_steps; [by eapply settles_answer|apply takes_first].
Defined.

Lemma groups_converge_witness :
  sys_queue gc_rest = ∅ /\ group_synced gs_reconciler "acme+ops" (sys_state gc_rest).
Proof.
  destruct (groups_converge gs_reconciler gs_not_found (take_first "") gc_started gc_started)
    as [Hq Hs]; [reflexivity|apply takes_first|unfold started; reflexivity|apply rtc_refl|].
  split; [exact Hq|apply Hs].
Defined.
