(* ===== verification/OrgRBAC.v ===== *)
(** * Role bindings in namespaces of organizations (controllers/org_rbac_controller.go)

    The reconciler creates the default role bindings of a namespace for the group of its
    organization, initializes the bindings that are marked, and leaves the others alone. *)
From S2P Require Import Prelude GoStd Kube Fake Effects.

Record OrganizationRBACReconciler := {
  or_OrganizationLabel : string;
  or_DefaultClusterRoles : gmap string string;
}.

Definition LabelRoleBindingUninitialized : string := "appuio.io/uninitialized".
Definition LabelNamespaceNoRBAC : string := "appuio.io/no-rbac-creation".

Definition rbac_GroupName : string := "rbac.authorization.k8s.io".

(** The fields of [rbacv1.RoleBinding], its subjects and its role. *)
Record RoleRef := { ref_APIGroup : string; ref_Kind : string; ref_Name : string }.

Record Subject := { subj_APIGroup : string; subj_Kind : string; subj_Name : string }.

Record RoleBinding := {
  rb_Name : string;
  rb_Namespace : string;
  rb_Labels : gmap string string;
  rb_OwnerReferences : list string;
  rb_RoleRef : RoleRef;
  rb_Subjects : list Subject;
}.

(** The calls of the reconciler. *)
Inductive rbac_call : Type -> Type :=
| GetNamespace (name : string) : rbac_call (error + Namespace)
| CreateOrUpdateRoleBinding (rb : RoleBinding) (mutate : RoleBinding -> error + RoleBinding)
    : rbac_call (option error)
| RecordEvent (object type reason message : string) : rbac_call unit.

Section reconcile.
Context `{RangeOracle} `{ApiErrors} `{Multierr} `{ControllerReference}.
Implicit Types r : OrganizationRBACReconciler.

Definition getOrganization r (ns : Namespace) : string :=
  map_get (ns_Labels ns) (or_OrganizationLabel r).

Definition skipRBACManagement r (ns : Namespace) : bool :=
  let label := map_get (ns_Labels ns) LabelNamespaceNoRBAC in
  match strconv.ParseBool label with inr result => result | inl _ => false end.

Definition rolebindingIsUninitialized (rolebinding : RoleBinding) : bool :=
  match strconv.ParseBool (map_get (rb_Labels rolebinding) LabelRoleBindingUninitialized) with
  | inr res => res
  | inl _ => false
  end.

Definition group_subject (group : string) : Subject := {|
  subj_APIGroup := rbac_GroupName; subj_Kind := "Group"; subj_Name := group |}.

(** The function passed to [CreateOrUpdate]. *)
Definition initialize (ns : Namespace) (group : string) (rb : RoleBinding) : error + RoleBinding :=
  let rb := if rolebindingIsUninitialized rb then {|
      rb_Name := rb_Name rb; rb_Namespace := rb_Namespace rb;
      rb_Labels := delete LabelRoleBindingUninitialized (rb_Labels rb);
      rb_OwnerReferences := rb_OwnerReferences rb; rb_RoleRef := rb_RoleRef rb;
      rb_Subjects := [group_subject group] |} else rb in
  try owners <- SetControllerReference (ns_Name ns) (rb_OwnerReferences rb) catch err => inl err;;
  inr {| rb_Name := rb_Name rb; rb_Namespace := rb_Namespace rb; rb_Labels := rb_Labels rb;
         rb_OwnerReferences := owners; rb_RoleRef := rb_RoleRef rb; rb_Subjects := rb_Subjects rb |}.

(** The object that [CreateOrUpdate] is called with. *)
Definition new_rolebinding (ns : Namespace) (name clusterRole : string) : RoleBinding := {|
  rb_Name := name; rb_Namespace := ns_Name ns;
  rb_Labels := {[LabelRoleBindingUninitialized := "true"]};
  rb_OwnerReferences := [];
  rb_RoleRef := {| ref_APIGroup := rbac_GroupName; ref_Kind := "ClusterRole"; ref_Name := clusterRole |};
  rb_Subjects := [] |}.

Definition putRoleBinding (ns : Namespace) (name clusterRole group : string)
    : prog rbac_call (option error) :=
  trigger (CreateOrUpdateRoleBinding (new_rolebinding ns name clusterRole) (initialize ns group)).

(** The body of the loop over the default cluster roles. *)
Definition put_default (ns : Namespace) (org : string) (entry : string * string)
    : prog rbac_call (option error) :=
  let '(rb, cr) := entry in
  res ← putRoleBinding ns rb cr org;
  match res with
  | Some err =>
      _ ← trigger (RecordEvent (ns_Name ns) "Warning" "RoleBindingCreationFailed"
                     ("Failed to create rolebinding " +:+ strconv.Quote rb));
      mret (Some err)
  | None => mret None
  end.

Definition OrganizationRBACReconciler_Reconcile r (name : string)
    : prog rbac_call (option error) :=
  got ← trigger (GetNamespace name);
  match got with
  | inl err => mret (client_IgnoreNotFound (Some err))
  | inr ns =>
      match ns_DeletionTimestamp ns with
      | Some _ => mret None
      | None =>
          let org := getOrganization r ns in
          if bool_decide (org = "") then mret None else
          if skipRBACManagement r ns then mret None else
          results ← for_each (range_map 0 (or_DefaultClusterRoles r)) (put_default ns org);
          mret (multierr_Combine (filter is_Some results))
      end
  end.
End reconcile.

(** ** The cluster *)
Record rbac_state := {
  rs_namespaces : gmap string Namespace;
  rs_bindings : gmap (string * string) RoleBinding;   (** by namespace and name *)
  rs_events : list (string * string * string * string);
}.

Section cluster.
Context `{ApiErrors}.

Inductive write_binding_step (rb : RoleBinding) (mutate : RoleBinding -> error + RoleBinding)
    (s : rbac_state) : option error -> rbac_state -> Prop :=
| write_binding res m :
    created_or_updated (rb_Namespace rb, rb_Name rb) rb mutate (rs_bindings s) res m ->
    write_binding_step rb mutate s res
      {| rs_namespaces := rs_namespaces s; rs_bindings := m; rs_events := rs_events s |}.

Inductive event_step (e : string * string * string * string) (s : rbac_state)
    : unit -> rbac_state -> Prop :=
| event_recorded : event_step e s tt
    {| rs_namespaces := rs_namespaces s; rs_bindings := rs_bindings s;
       rs_events := rs_events s ++ [e] |}.

Definition rbac_step X (c : rbac_call X) : rbac_state -> X -> rbac_state -> Prop :=
  match c in rbac_call X return rbac_state -> X -> rbac_state -> Prop with
  | GetNamespace name => read_step rs_namespaces name
  | CreateOrUpdateRoleBinding rb mutate => write_binding_step rb mutate
  | RecordEvent o t r m => event_step (o, t, r, m)
  end.
End cluster.

(** ** Specification *)
Section spec.
Context `{ControllerReference}.

(** The namespace is managed by the reconciler. *)
Definition managed (r : OrganizationRBACReconciler) (ns : Namespace) : Prop :=
  ns_DeletionTimestamp ns = None /\ getOrganization r ns <> "" /\ skipRBACManagement r ns = false.

(** What becomes of a default role binding. *)
Record put (ns : Namespace) (org cr : string) (old : option RoleBinding) (new : RoleBinding)
    : Prop := {
  put_created : old = None ->
    ref_Kind (rb_RoleRef new) = "ClusterRole" /\ ref_Name (rb_RoleRef new) = cr /\
    rb_Subjects new = [group_subject org] /\ rb_Labels new = ∅;
  put_marked rb : old = Some rb -> rolebindingIsUninitialized rb = true ->
    rb_RoleRef new = rb_RoleRef rb /\ rb_Subjects new = [group_subject org] /\
    rb_Labels new = delete LabelRoleBindingUninitialized (rb_Labels rb);
  put_unmarked rb : old = Some rb -> rolebindingIsUninitialized rb = false ->
    rb_RoleRef new = rb_RoleRef rb /\ rb_Subjects new = rb_Subjects rb /\
    rb_Labels new = rb_Labels rb;
}.
End spec.

(** ** An example: a namespace of [acme] with one binding that is marked *)
Definition rb_reconciler : OrganizationRBACReconciler := {|
  or_OrganizationLabel := "organization"; or_DefaultClusterRoles := {["admin" := "admin"]} |}.

Definition rb_namespace : Namespace := {|
  ns_Name := "web"; ns_Labels := {["organization" := "acme"]};
  ns_Annotations := ∅; ns_DeletionTimestamp := None |}.

Definition rb_owned : ControllerReference := fun o owners =>
  match owners with
  | [] => inr [o]
  | o' :: _ => if decide (o' = o) then inr owners else inl (ErrorString "already owned by another controller")
  end.

Definition rb_old : rbac_state := {|
  rs_namespaces := {["web" := rb_namespace]}; rs_bindings := ∅; rs_events := [] |}.

Definition rb_admin : RoleBinding := {|
  rb_Name := "admin"; rb_Namespace := "web"; rb_Labels := ∅; rb_OwnerReferences := ["web"];
  rb_RoleRef := {| ref_APIGroup := rbac_GroupName; ref_Kind := "ClusterRole"; ref_Name := "admin" |};
  rb_Subjects := [group_subject "acme"] |}.

Definition rb_new : rbac_state := {|
  rs_namespaces := {["web" := rb_namespace]};
  rs_bindings := <[("web", "admin") := rb_admin]> ∅; rs_events := [] |}.

(** ** Lemmas *)

Section lemmas.
Context `{RangeOracle} `{ApiErrorsLaws} `{MultierrLaws} `{ControllerReference}.

Lemma initialize_put ns org name cr old new :
  initialize ns org (default (new_rolebinding ns name cr) old) = inr new -> put ns org cr old new.
Proof.
  unfold initialize. intros E.
  destruct (SetControllerReference _ _) as [|owners]; simplify_eq. split.
  - intros ->. simpl. assert (rolebindingIsUninitialized (new_rolebinding ns name cr) = true) as ->
      by done. simpl. split_and!; try done.
  - intros rb -> Hu. simpl. by rewrite Hu.
  - intros rb -> Hu. simpl. by rewrite Hu.
Qed.

Lemma put_default_exec ns org rb cr s res s' :
  exec rbac_step alone (put_default ns org (rb, cr)) s res s' ->
  rs_namespaces s' = rs_namespaces s /\
  created_or_updated (ns_Name ns, rb) (new_rolebinding ns rb cr) (initialize ns org)
    (rs_bindings s) res (rs_bindings s').
Proof.
  intros (res' & s1 & Hw & Hr)%alone_trigger. destruct Hw as [res' m Hm].
  destruct res' as [err|]; [|by apply alone_ret in Hr as [-> ->]].
  apply alone_trigger in Hr as ([] & s2 & [] & Hr). by apply alone_ret in Hr as [-> ->].
Qed.

(** What one iteration does to its binding. *)
Definition put_post (ns : Namespace) (org : string) (entry : string * string) (res : option error)
    (_ : string * string) (old new : option RoleBinding) : Prop :=
  res <> None /\ new = old \/ exists rb, new = Some rb /\ put ns org entry.2 old rb.

Lemma put_default_footprint ns org entry :
  footprint rbac_step (put_default ns org) (fun s k => rs_bindings s !! k)
    (fun entry => [(ns_Name ns, entry.1)]) (put_post ns org) entry.
Proof.
  destruct entry as [rb cr]. intros s res s' Hx. apply put_default_exec in Hx as [_ Hc].
  split; intros k; rewrite list_elem_of_singleton; simpl.
  - intros ->. destruct (created_or_updated_cases _ _ _ _ _ _ Hc) as [[Hres ->]|(v & Hv & ->)]; [by left|].
    right. exists v. rewrite lookup_insert_eq. split; [done|]. by apply initialize_put in Hv.
  - intros Hk. destruct (created_or_updated_cases _ _ _ _ _ _ Hc) as [[_ ->]|(v & _ & ->)]; [done|].
    by rewrite lookup_insert_ne.
Qed.
End lemmas.

(** ** Properties *)
Section properties.
Context `{RangeOracle} `{ApiErrorsLaws} `{MultierrLaws} `{ControllerReference}.

(** C14: in a namespace of an organization that the reconciler manages (it is not being deleted and
    not opted out by its label) a reconciliation that succeeds leaves every default role binding in
    place: created for the group of the organization with the configured role,
    or initialized if it was marked, or else with its role, subjects and labels as they were.
    One that fails does the same to some of them and nothing to the others.  No other role
    binding changes, in whatever order the configuration is visited. *)
Theorem rbac_bindings r name ns s res s' :
  rs_namespaces s !! name = Some ns -> managed r ns ->
  exec rbac_step alone (OrganizationRBACReconciler_Reconcile r name) s res s' ->
  (forall k, (forall rb, is_Some (or_DefaultClusterRoles r !! rb) -> k <> (ns_Name ns, rb)) ->
    rs_bindings s' !! k = rs_bindings s !! k) /\
  (forall rb cr, or_DefaultClusterRoles r !! rb = Some cr ->
    res <> None /\ rs_bindings s' !! (ns_Name ns, rb) = rs_bindings s !! (ns_Name ns, rb) \/
    exists new, rs_bindings s' !! (ns_Name ns, rb) = Some new /\
      put ns (getOrganization r ns) cr (rs_bindings s !! (ns_Name ns, rb)) new).
Proof.
  intros Hns (Hdel & Horg & Hskip) (got & s1 & Hg & Hr)%alone_trigger.
  destruct Hg as [ns'|err ?|err Hn]; [|congruence|].
  2:{ apply alone_ret in Hr as [-> ->]. rewrite IgnoreNotFound_spec, Hn. eauto. }
  simplify_eq. rewrite Hdel in Hr. cbv zeta in Hr.
  rewrite (bool_decide_eq_false_2 _ Horg), Hskip in Hr.
  apply exec_bind in Hr as (results & s2 & s3 & Hf & ->%rtc_alone & Hr).
  apply alone_ret in Hr as [-> ->].
  apply (for_each_keyed rbac_step _ (fun s k => rs_bindings s !! k)
    (fun entry => (ns_Name ns, entry.1)) (put_post ns (getOrganization r ns))) in Hf
    as [Hin Hother]; [|by intros; apply put_default_footprint|].
  2:{ change (NoDup ((pair (ns_Name ns) ∘ fst) <$> range_map 0 (or_DefaultClusterRoles r))).
      rewrite list_fmap_compose.
      apply (NoDup_fmap_2 _). auto with agent. }
  split.
  - intros k Hk. apply Hother. intros ([rb cr] & -> & Hrb)%list_elem_of_fmap.
    rewrite range_map_elem in Hrb. by apply (Hk rb).
  - intros rb cr Hrb. rewrite <- (range_map_elem 0) in Hrb.
    destruct (Hin _ Hrb) as (y & Hy & [[Hne Hs]|?]); [left|by right]. split; [|done].
    destruct y as [err|]; [|done].
    destruct (Combine_error err (filter is_Some results)) as [e' ->]; [|done].
    apply list_elem_of_filter. by split; [eexists|].
Qed.

(** Namespaces that are being deleted, belong to no organization, opt out by label, or do
    not exist are left alone. *)
Theorem rbac_unmanaged r name s res s' :
  (forall ns, rs_namespaces s !! name = Some ns -> ~ managed r ns) ->
  exec rbac_step alone (OrganizationRBACReconciler_Reconcile r name) s res s' -> s' = s.
Proof.
  intros Hno (got & s1 & Hg & Hr)%alone_trigger.
  destruct Hg as [ns Hns|err ?|err ?]; [|by apply alone_ret in Hr as []..].
  specialize (Hno ns Hns). unfold managed in Hno.
  destruct (ns_DeletionTimestamp ns) eqn:Ed; [by apply alone_ret in Hr as []|].
  cbv zeta in Hr. case_bool_decide as Ho; [by apply alone_ret in Hr as []|].
  destruct (skipRBACManagement r ns); [by apply alone_ret in Hr as []|]. by destruct Hno.
Qed.
End properties.

(** ** The theorems on the example *)
Import Fake.
#[local] Existing Instances rb_owned.

Lemma rb_run :
  exec rbac_step alone (OrganizationRBACReconciler_Reconcile rb_reconciler "web") rb_old None rb_new.
Proof.
  apply alone_trigger. eexists _, _. split; [by apply (read_found _ _ _ rb_namespace); vm_compute|].
  change (exec rbac_step alone
    (for_each [("admin", "admin")] (put_default rb_namespace "acme") ≫=
     fun results => mret (multierr_Combine (filter is_Some results))) rb_old None rb_new).
  eapply (alone_bind _ _ _ _ [None]); [|by apply alone_ret].
  eapply alone_bind; [|by eapply alone_bind; [by apply alone_ret|by apply alone_ret]].
  apply alone_trigger. eexists None, _. split; [|by apply alone_ret].
  apply (write_binding _ _ rb_old None (<[("web", "admin") := rb_admin]> ∅)).
  apply (cou_done _ _ _ (rs_bindings rb_old) rb_admin). by vm_compute.
Qed.

Lemma rbac_bindings_witness :
  exists new, rs_bindings rb_new !! ("web", "admin") = Some new /\
    rb_Subjects new = [group_subject "acme"].
Proof.
  destruct (rbac_bindings rb_reconciler "web" rb_namespace rb_old None rb_new) as [_ Hin];
    [by vm_compute|by repeat split; vm_compute|exact rb_run|].
  destruct (Hin "admin" "admin" eq_refl) as [[? _]|(new & Hnew & Hput)]; [done|].
  exists new. split; [exact Hnew|]. apply (put_created _ _ _ _ _ Hput). by vm_compute.
Defined.

Lemma rbac_unmanaged_witness :
  exists s', exec rbac_step alone (OrganizationRBACReconciler_Reconcile rb_reconciler "other")
    rb_old None s' /\ s' = rb_old.
Proof.
  assert (Hx : exec rbac_step alone (OrganizationRBACReconciler_Reconcile rb_reconciler "other")
    rb_old None rb_old).
  { apply alone_trigger. eexists _, _. split.
    - by apply (read_missing _ _ _ (StatusError ReasonNotFound "not found")); vm_compute.
    - by apply alone_ret. }
  exists rb_old. split; [exact Hx|].
  refine (rbac_unmanaged rb_reconciler "other" rb_old None rb_old _ Hx).
  intros ns Hns. by vm_compute in Hns.
Defined.
