(* ===== verification/RbacController.v ===== *)
(** * The controller of role bindings (controllers/org_rbac_controller.go)

    What the controller watches, and that no default role binding is missing, without an owner or
    uninitialized when its queue is empty. *)
From S2P Require Import Prelude GoStd Kube Fake Effects Workqueue Drain OrgRBAC.

#[export] Instance RoleRef_eq_dec : EqDecision RoleRef.
Proof. solve_decision. Defined.
#[export] Instance Subject_eq_dec : EqDecision Subject.
Proof. solve_decision. Defined.
#[export] Instance RoleBinding_eq_dec : EqDecision RoleBinding.
Proof. solve_decision. Defined.

(** ** The watches ([SetupWithManager]) *)
Section watches.
Context `{ControllerOf}.

(** [Owns]: the request for the owner that controls the object. *)
Definition owner_requests (k : string * string) (rb : RoleBinding) : list string :=
  option_list (GetControllerOf (rb_OwnerReferences rb)).

Definition rbac_watch (s s' : rbac_state) : gset string :=
  watching always for_object (rs_namespaces s) (rs_namespaces s') ∪
  watching always owner_requests (rs_bindings s) (rs_bindings s').

Definition rbac_requests (s : rbac_state) : gset string :=
  existing always for_object (rs_namespaces s) ∪ existing always owner_requests (rs_bindings s).

(** A default role binding of the namespace [name]. *)
Definition binding_in_order (name rb : string) (s : rbac_state) : Prop :=
  exists b, rs_bindings s !! (name, rb) = Some b /\ rolebindingIsUninitialized b = false /\
    GetControllerOf (rb_OwnerReferences b) = Some name.

Definition rbac_synced (r : OrganizationRBACReconciler) (name : string) (s : rbac_state) : Prop :=
  forall ns, rs_namespaces s !! name = Some ns -> ns_Name ns = name -> managed r ns ->
    forall rb, is_Some (or_DefaultClusterRoles r !! rb) -> binding_in_order name rb s.
End watches.

Section rbac.
Context `{RangeOracle} `{ApiErrorsLaws} `{MultierrLaws} `{ControllerLaws}.
Implicit Types r : OrganizationRBACReconciler.

Lemma rbac_watch_namespace name s s' :
  name ∉ rbac_watch s s' -> rs_namespaces s' !! name = rs_namespaces s !! name.
Proof.
  unfold rbac_watch. rewrite not_elem_of_union. intros [Hn _].
  eapply watching_same; [|exact Hn]. intros v. apply list_elem_of_here.
Qed.

Lemma rbac_watch_id s : rbac_watch s s = ∅.
Proof. unfold rbac_watch. by rewrite !watching_id, (left_id_L ∅ (∪)). Qed.

(** A binding in order belongs to the namespace, so its changes cause a request. *)
Lemma binding_in_order_stays name rb s s' :
  name ∉ rbac_watch s s' -> binding_in_order name rb s -> binding_in_order name rb s'.
Proof.
  unfold rbac_watch. rewrite not_elem_of_union. intros [_ Hb] (b & Hrb & Hu & Ho).
  exists b. split; [|done]. eapply watching_stays; [|exact Hb|done].
  unfold owner_requests. rewrite Ho. apply list_elem_of_here.
Qed.

Lemma rbac_synced_stays r name s s' :
  name ∉ rbac_watch s s' -> rbac_synced r name s -> rbac_synced r name s'.
Proof.
  intros Hq Hs ns. rewrite (rbac_watch_namespace name s s' Hq). intros. eapply binding_in_order_stays; eauto.
Qed.

Lemma initialize_in_order ns org rb v :
  initialize ns org rb = inr v ->
  rolebindingIsUninitialized v = false /\ GetControllerOf (rb_OwnerReferences v) = Some (ns_Name ns).
Proof.
  unfold initialize. intros E. destruct (SetControllerReference _ _) as [|owners] eqn:Eo; simplify_eq.
  split; [|by eapply SetControllerReference_controller].
  destruct (rolebindingIsUninitialized rb) eqn:Eu; [|done].
  unfold rolebindingIsUninitialized, map_get. simpl. by rewrite lookup_delete_eq.
Qed.

Abbreviation quiet_rbac name := (quiet_step rbac_step rbac_watch name).
Abbreviation quiet_others name := (quiet_env anything rbac_watch name).

Lemma put_default_in_order ns org entry s s' :
  exec (quiet_rbac (ns_Name ns)) (quiet_others (ns_Name ns)) (put_default ns org entry) s None s' ->
  binding_in_order (ns_Name ns) entry.1 s'.
Proof.
  destruct entry as [rb cr]. intros (s0 & res & s1 & _ & [Hw _] & Hx). destruct Hw as [res m Hm].
  destruct res as [err|]; [by destruct Hx as (? & ? & ? & _ & _ & ? & _)|]. destruct Hx as [_ Hx].
  eapply stable_rtc; [|exact Hx|].
  { intros s2 s3 [_ Hq]. by apply binding_in_order_stays. }
  inversion Hm as [v Hv| |]; subst. exists v. split; [apply lookup_insert_eq|]. by eapply initialize_in_order.
Qed.

#[export] Instance rbac_level r :
  Level rbac_step anything (OrganizationRBACReconciler_Reconcile r) rbac_watch rbac_requests
    id any_state (rbac_synced r).
Proof.
  apply level_keeps; [by intros; eapply rbac_synced_stays|..].
  - intros name s s' Hx ns. pose proof (rbac_watch_namespace name) as Hv.
    apply (quiet_trigger _ _ _ (fun s => rs_namespaces s !! name) _ Hv) in Hx
      as (s0 & got & s1 & Hg & <- & _ & Hx).
    destruct Hg as [ns' ->|err ->|err Hn]; [|done|].
    2:{ destruct Hx as [Hx _]. by rewrite IgnoreNotFound_spec, Hn in Hx. }
    intros [= ->] Hname (Hdel & Horg & Hskip) rb [cr Hrb]. rewrite Hdel in Hx. cbv zeta in Hx.
    rewrite (bool_decide_eq_false_2 _ Horg), Hskip in Hx.
    apply exec_bind in Hx as (results & s2 & s3 & Hf & Hr2 & Hres & Hr3).
    assert (Hst : forall rb, kept (quiet_rbac name) (quiet_others name) (binding_in_order name rb)).
    { intros rb'. split; [intros s4 s5 [_ Hq]|intros X e s4 x s5 [_ Hq]]; by apply binding_in_order_stays. }
    eapply stable_rtc; [apply Hst|exact Hr3|]. eapply stable_rtc; [apply Hst|exact Hr2|].
    refine (for_each_establishes _ _ _ (fun y => y = None) (fun entry => binding_in_order name entry.1)
      _ _ results _ (fun x _ => Hst x.1) _ Hf _ (rb, cr) _).
    + intros x s4 y s5 _ Hx ->. rewrite <- Hname in *. by eapply put_default_in_order.
    + apply Forall_forall. intros [err|] Hin; [|done]. exfalso.
      destruct (Combine_error err (filter is_Some results)) as [e' He]; [|congruence].
      apply list_elem_of_filter. by split; [eexists|].
    + by rewrite range_map_elem.
  - intros name s. destruct (rs_namespaces s !! name) as [ns|] eqn:E.
    + right. unfold rbac_requests. apply elem_of_union_l. by eapply existing_object.
    + left. intros ns. by rewrite E.
Qed.

(** C15: whatever happens after the agent has started, when no request is queued every namespace of
    an organization that the reconciler manages has all default role bindings, initialized and
    owned by the namespace. *)
Theorem bindings_in_order r sys sys' :
  started rbac_requests sys ->
  rtc (controller_step rbac_step anything (OrganizationRBACReconciler_Reconcile r) rbac_watch
        rbac_requests id) sys sys' ->
  sys_queue sys' = ∅ -> forall name, rbac_synced r name (sys_state sys').
Proof. apply always_at_rest, rbac_level. Qed.
End rbac.

(** ** A cluster without faults *)
Definition with_binding (k : string * string) (b : RoleBinding) (s : rbac_state) : rbac_state := {|
  rs_namespaces := rs_namespaces s; rs_bindings := <[k := b]> (rs_bindings s); rs_events := rs_events s |}.

Definition rbac_answer (not_found : error) X (c : rbac_call X) : rbac_state -> X * rbac_state :=
  match c in rbac_call X return rbac_state -> X * rbac_state with
  | GetNamespace name => fun s =>
      (match rs_namespaces s !! name with Some ns => inr ns | None => inl not_found end, s)
  | CreateOrUpdateRoleBinding rb mutate => fun s =>
      let k := (rb_Namespace rb, rb_Name rb) in
      match mutate (default rb (rs_bindings s !! k)) with
      | inl err => (Some err, s)
      | inr b => (None, with_binding k b s)
      end
  | RecordEvent o t r m => fun s =>
      (tt, {| rs_namespaces := rs_namespaces s; rs_bindings := rs_bindings s;
              rs_events := rs_events s ++ [(o, t, r, m)] |})
  end.

(** Nothing but its namespace controls a default role binding; a namespace is found under its name. *)
Record rbac_free `{ControllerOf} (r : OrganizationRBACReconciler) (s : rbac_state) : Prop := {
  free_named k ns : rs_namespaces s !! k = Some ns -> ns_Name ns = k;
  free_bindings name rb b : is_Some (or_DefaultClusterRoles r !! rb) ->
    rs_bindings s !! (name, rb) = Some b ->
    GetControllerOf (rb_OwnerReferences b) = None \/ GetControllerOf (rb_OwnerReferences b) = Some name;
}.

Section settles.
Context `{RangeOracle} `{ApiErrorsLaws} `{MultierrLaws} `{ControllerLaws} `{!ControllerSetLaws}.
Context (not_found : error) (Hnf : apierrors_IsNotFound not_found = true).
Implicit Types r : OrganizationRBACReconciler.

Lemma rbac_answer_step X (c : rbac_call X) s :
  rbac_step X c s (rbac_answer not_found X c s).1 (rbac_answer not_found X c s).2.
Proof using Hnf.
  destruct c as [name|rb mutate|o t rn m]; simpl.
  - destruct (rs_namespaces s !! name) eqn:E; [by apply read_found|by apply read_missing].
  - destruct (mutate _) as [err|b] eqn:E.
    + destruct s as [nss bs es]. apply write_binding, cou_failed.
    + by apply write_binding, (cou_done _ _ _ (rs_bindings s) b).
  - apply event_recorded.
Qed.

(** A binding without a foreign controller can be initialized, and stays as it is when it is in
    order. *)
Lemma initialize_free ns org rb :
  GetControllerOf (rb_OwnerReferences rb) = None \/
    GetControllerOf (rb_OwnerReferences rb) = Some (ns_Name ns) ->
  exists b, initialize ns org rb = inr b /\
    (rolebindingIsUninitialized rb = false -> GetControllerOf (rb_OwnerReferences rb) = Some (ns_Name ns) ->
     b = rb).
Proof using Type*.
  intros Hc. unfold initialize.
  assert (Ho : rb_OwnerReferences (if rolebindingIsUninitialized rb then {|
    rb_Name := rb_Name rb; rb_Namespace := rb_Namespace rb;
    rb_Labels := delete LabelRoleBindingUninitialized (rb_Labels rb);
    rb_OwnerReferences := rb_OwnerReferences rb; rb_RoleRef := rb_RoleRef rb;
    rb_Subjects := [group_subject org] |} else rb) = rb_OwnerReferences rb)
    by (by destruct (rolebindingIsUninitialized rb)).
  rewrite Ho. destruct (SetControllerReference_own (ns_Name ns) _ Hc) as (owners & -> & _ & Hkeep).
  eexists. split; [done|]. intros -> Hown. rewrite (Hkeep Hown). by destruct rb.
Qed.

Lemma binding_kept name rb k b s :
  binding_in_order name rb s -> (k = (name, rb) -> rolebindingIsUninitialized b = false /\
    GetControllerOf (rb_OwnerReferences b) = Some name) ->
  binding_in_order name rb (with_binding k b s).
Proof using Type*.
  intros (b' & Hb & Hu & Ho) Hk. unfold binding_in_order, with_binding. cbn [rs_bindings].
  destruct (decide (k = (name, rb))) as [E|Hne].
  - destruct (Hk E). exists b. by rewrite E, lookup_insert_eq.
  - exists b'. by rewrite lookup_insert_ne by done.
Qed.

(** One iteration of the loop. *)
Lemma put_default_run r ns org entry s :
  rbac_free r s -> is_Some (or_DefaultClusterRoles r !! entry.1) ->
  let k := (ns_Name ns, entry.1) in
  exists b, run (rbac_answer not_found) (put_default ns org entry) s = (None, with_binding k b s) /\
    rolebindingIsUninitialized b = false /\ GetControllerOf (rb_OwnerReferences b) = Some (ns_Name ns) /\
    run_requests rbac_watch (rbac_answer not_found) (put_default ns org entry) s =
      rbac_watch s (with_binding k b s) /\
    (binding_in_order (ns_Name ns) entry.1 s -> with_binding k b s = s).
Proof using Type*.
  destruct entry as [rb cr]. intros Hf Hrb k. unfold k in *. cbn [fst] in *.
  set (old := default (new_rolebinding ns rb cr) (rs_bindings s !! k)).
  destruct (initialize_free ns org old) as (b & Hb & Hsame).
  { unfold old. destruct (rs_bindings s !! k) as [b|] eqn:E; [by apply (free_bindings _ _ Hf _ rb)|].
    left. apply GetControllerOf_nil. }
  destruct (initialize_in_order _ _ _ _ Hb) as [Hu Ho]. exists b. unfold put_default. simpl.
  fold k old. rewrite Hb. simpl. rewrite (right_id_L ∅ (∪)). split_and!; [done..|].
  intros (b' & Hb' & Hu' & Ho'). unfold old in *. unfold k in *. rewrite Hb' in *. rewrite (Hsame Hu' Ho').
  destruct s as [nss bs es]. unfold with_binding. cbn [rs_namespaces rs_bindings rs_events] in *.
  by rewrite insert_id.
Qed.

Lemma with_binding_watch r name rb b s :
  rbac_free r s -> is_Some (or_DefaultClusterRoles r !! rb) ->
  GetControllerOf (rb_OwnerReferences b) = Some name ->
  rbac_watch s (with_binding (name, rb) b s) ⊆ {[name]}.
Proof using Type*.
  intros Hf Hrb Ho. unfold rbac_watch, with_binding. cbn [rs_namespaces rs_bindings].
  rewrite watching_id, (left_id_L ∅ (∪)). apply watching_write. unfold owner_requests. intros u k [->|Hu].
  - rewrite Ho. intros ->%list_elem_of_singleton. by apply elem_of_singleton.
  - destruct (free_bindings _ _ Hf _ _ _ Hrb Hu) as [-> | ->]; [by intros ?%not_elem_of_nil|].
    intros ->%list_elem_of_singleton. by apply elem_of_singleton.
Qed.

Lemma with_binding_free r name rb b s :
  rbac_free r s -> GetControllerOf (rb_OwnerReferences b) = Some name ->
  rbac_free r (with_binding (name, rb) b s).
Proof using Type*.
  intros [Hn Hb] Ho. split; [exact Hn|]. intros name' rb' b' Hrb. cbn [with_binding rs_bindings].
  rewrite lookup_insert_Some. intros [[E <-]|[_ Hb']]; [right; congruence|by apply (Hb _ rb')].
Qed.
(** The bindings that are in order stay so. *)
Definition rbac_kept (s s' : rbac_state) : Prop :=
  forall name rb, binding_in_order name rb s -> binding_in_order name rb s'.

#[export] Instance rbac_kept_preorder : PreOrder rbac_kept.
Proof using Type. split; [by intros s name rb|]. intros s1 s2 s3 H12 H23 name rb Hb. by apply H23, H12. Qed.

Abbreviation settles r name :=
  (settles_to rbac_watch (rbac_answer not_found) (rbac_free r) rbac_kept (fun j => j ∈ ({[name]} : gset string))).

Lemma put_default_settles r ns org entry s :
  rbac_free r s -> is_Some (or_DefaultClusterRoles r !! entry.1) ->
  exists s', settles r (ns_Name ns) (put_default ns org entry)
    (binding_in_order (ns_Name ns) entry.1) s None s'.
Proof using Type*.
  intros Hf Hrb. destruct (put_default_run r ns org entry s Hf Hrb) as (b & Hrun & Hu & Ho & Hreq & Hsame).
  eexists. split; [exact Hrun|by apply with_binding_free|..].
  - intros name' rb Hin. apply binding_kept; [done|]. by intros [= <- <-].
  - exists b. cbn [with_binding rs_bindings]. by rewrite lookup_insert_eq.
  - rewrite Hreq. by eapply with_binding_watch.
  - intros Hin. rewrite Hreq, (Hsame Hin). split; [done|apply rbac_watch_id].
Qed.

(** The namespace has nothing to reconcile. *)
Lemma unmanaged_run r name s :
  (forall ns, rs_namespaces s !! name = Some ns -> ~ managed r ns) ->
  run (rbac_answer not_found) (OrganizationRBACReconciler_Reconcile r name) s = (None, s) /\
  run_requests rbac_watch (rbac_answer not_found) (OrganizationRBACReconciler_Reconcile r name) s = ∅.
Proof using Type*.
  intros Hno. simpl. rewrite rbac_watch_id, (left_id_L ∅ (∪)). destruct (rs_namespaces s !! name) as [ns|] eqn:E; simpl.
  2:{ by rewrite IgnoreNotFound_spec, Hnf. }
  specialize (Hno ns eq_refl). unfold managed in Hno.
  destruct (ns_DeletionTimestamp ns); [done|]. cbv zeta.
  case_bool_decide as Ho; [done|]. destruct (skipRBACManagement r ns); [done|]. by destruct Hno.
Qed.

Lemma managed_settles r name ns s :
  rs_namespaces s !! name = Some ns -> managed r ns -> rbac_free r s ->
  exists s', settles r name (OrganizationRBACReconciler_Reconcile r name)
    (fun t => forall rb, is_Some (or_DefaultClusterRoles r !! rb) -> binding_in_order name rb t) s None s'.
Proof using Type*.
  intros Hns (Hdel & Horg & Hskip) Hf. pose proof (free_named _ _ Hf _ _ Hns) as <-.
  set (l := range_map 0 (or_DefaultClusterRoles r)). set (body := put_default ns (getOrganization r ns)).
  destruct (settles_for_each rbac_watch (rbac_answer not_found) (rbac_free r) rbac_kept
    (fun j => j ∈ ({[ns_Name ns]} : gset string)) body (fun entry => binding_in_order (ns_Name ns) entry.1) (fun err => err = None) l s)
    as (errs & s' & Hnone & Hl); [by intros x t t' _ Ht; apply Ht| |done|].
  { intros [rb cr] t Hin%range_map_elem Ht.
    destruct (put_default_settles r ns (getOrganization r ns) (rb, cr) t Ht) as [t' Ht']; [by eexists|].
    by exists None, t'. }
  exists s'. apply (settles_iff _ _ _ _ _ _ (fun t => True /\ Forall (fun entry : string * string =>
    binding_in_order (ns_Name ns) entry.1 t) l /\ True)).
  { intros t. rewrite Forall_forall. split.
    - intros (_ & Hall & _) rb [cr Hcr]. apply (Hall (rb, cr)). by apply range_map_elem.
    - intros Hall. split_and!; [done| |done]. intros [rb cr] Hcr%range_map_elem. apply Hall. by eexists. }
  eapply settles_bind; [apply _|done|apply settles_read;
    [apply _|apply rbac_watch_id|simpl; by rewrite Hns|done]|].
  cbv beta iota. rewrite Hdel. cbv zeta. rewrite (bool_decide_eq_false_2 _ Horg), Hskip.
  eapply settles_bind; [apply _| |exact Hl|].
  { intros t t' Ht Hall. eapply Forall_impl; [exact Hall|]. intros e. apply Ht. }
  rewrite combine_none by done.
  apply settles_ret; [apply _|by eapply to_ok|done].
Qed.

#[export] Instance managed_dec r ns : Decision (managed r ns).
Proof using Type. unfold managed. solve_decision. Defined.

#[export] Instance binding_in_order_dec name rb s : Decision (binding_in_order name rb s).
Proof using Type.
  unfold binding_in_order. destruct (rs_bindings s !! (name, rb)) as [b|].
  - destruct (decide (rolebindingIsUninitialized b = false /\
      GetControllerOf (rb_OwnerReferences b) = Some name)) as [Hd|Hd]; [left; by exists b|right].
    intros (b' & [= ->] & ?). done.
  - right. by intros (b & ? & _).
Defined.

#[export] Instance rbac_synced_dec r name s : Decision (rbac_synced r name s).
Proof using Type.
  unfold rbac_synced. destruct (rs_namespaces s !! name) as [ns|]; [|by left].
  destruct (decide (ns_Name ns = name /\ managed r ns)) as [[Hn Hm]|Hno].
  2:{ left. intros ns' [= ->] ? ?. by destruct Hno. }
  destruct (decide (map_Forall (fun rb _ => binding_in_order name rb s) (or_DefaultClusterRoles r)))
    as [Hall|Hno].
  - left. intros ns' _ _ _ rb [cr Hcr]. by apply (Hall rb cr).
  - right. intros Hs. apply Hno. intros rb cr Hcr. apply (Hs ns eq_refl Hn Hm). by exists cr.
Defined.

#[export] Instance rbac_settles r :
  Settles (OrganizationRBACReconciler_Reconcile r) rbac_watch (rbac_answer not_found) rbac_step
    (rbac_synced r) (rbac_free r).
Proof using Type*.
  assert (Hcases : forall name s, (exists ns, rs_namespaces s !! name = Some ns /\ managed r ns) \/
    (forall ns, rs_namespaces s !! name = Some ns -> ~ managed r ns)).
  { intros name s. destruct (rs_namespaces s !! name) as [ns|]; [|by right].
    destruct (decide (managed r ns)); [left; by exists ns|right]. by intros ? [= <-]. }
  split.
  - intros X c s. apply rbac_answer_step.
  - intros name s Hf. destruct (Hcases name s) as [(ns & Hns & Hm)|Hno].
    + destruct (managed_settles r name ns s Hns Hm Hf) as [s' []]. rewrite to_run.
      split_and!; [done..|]. by intros ns' _ _ _.
    + destruct (unmanaged_run r name s Hno) as [-> _]. split_and!; [done..|].
      intros ns Hns _ Hm. by destruct (Hno ns Hns).
  - intros name s Hf. destruct (Hcases name s) as [(ns & Hns & Hm)|Hno].
    + by destruct (managed_settles r name ns s Hns Hm Hf) as [s' []].
    + destruct (unmanaged_run r name s Hno) as [_ ->]. apply empty_subseteq.
  - intros name s Hf Hs. destruct (Hcases name s) as [(ns & Hns & Hm)|Hno].
    + destruct (managed_settles r name ns s Hns Hm Hf) as [s' []]. apply to_quiet.
      apply (Hs ns Hns (free_named _ _ Hf _ _ Hns) Hm).
    + by destruct (unmanaged_run r name s Hno).
Qed.

(** C16: from every state that the controller may be in, in which nothing else controls a default
    role binding: when nothing fails any more and nobody else changes anything, and the loop over
    the roles has the same order in every reconciliation, the queue is empty after at most two
    reconciliations for each request in it, in whatever order they are taken, and every namespace of
    an organization that the reconciler manages (it is not being deleted and not opted out by its
    label) has all default role bindings, initialized and owned. *)
Theorem bindings_converge r pick sys sys' :
  takes pick -> started rbac_requests sys ->
  rtc (controller_step rbac_step anything (OrganizationRBACReconciler_Reconcile r) rbac_watch
        rbac_requests id) sys sys' ->
  rbac_free r (sys_state sys') ->
  let rest := drain (OrganizationRBACReconciler_Reconcile r) rbac_watch (rbac_answer not_found) pick
                (2 * size (sys_queue sys')) sys' in
  sys_queue rest = ∅ /\ forall name, rbac_synced r name (sys_state rest).
Proof using Type*.
  intros Hp Hs Hr Hf.
  exact (converges _ _ rbac_requests id _ _ anything (rbac_synced r) (rbac_free r) pick sys sys' Hp Hs Hr Hf).
Qed.
End settles.

(** ** The theorem on the example: a binding is created, and left as it is the next time *)
Import Fake.

Definition rc_controller : ControllerOf := head.

#[local] Existing Instances rb_owned rc_controller.

#[local] Instance rc_laws : ControllerLaws.
Proof.
  split. intros o owners owners'. unfold SetControllerReference, rb_owned.
  destruct owners as [|o' owners]; [by intros [= <-]|]. case_decide as Ho; [|done]. by intros [= <-]; subst.
Qed.

#[local] Instance rc_set_laws : ControllerSetLaws.
Proof.
  split; [done|..].
  - by intros o [|o' owners]; [exists [o]|].
  - intros o [|o' owners]; [done|]. intros [= ->]. unfold SetControllerReference, rb_owned.
    by rewrite decide_True.
Qed.

Definition rc_sys (s : rbac_state) (q : gset string) : system rbac_state string :=
  {| sys_state := s; sys_queue := q |}.

Abbreviation rc_queued := (queued_step rbac_step rbac_watch).
Abbreviation rc_env := (queued_env anything rbac_watch).

Lemma rc_watch_new : rbac_watch rb_old rb_new = {["web"]}.
Proof.
  unfold rbac_watch. simpl. rewrite watching_id, (left_id_L ∅ (∪)). apply set_eq. intros r. split.
  - revert r. change (watching always owner_requests ∅ (<[("web", "admin") := rb_admin]> ∅) ⊆ {["web"]}).
    intros r (k & Hk & Hr)%elem_of_set_bind. apply elem_of_changed in Hk.
    destruct (decide (k = ("web", "admin"))) as [->|Hne].
    + rewrite lookup_insert_eq, lookup_empty in Hr. simpl in Hr. set_solver.
    + by rewrite lookup_insert_ne in Hk.
  - intros ->%elem_of_singleton. eapply watching_new; [apply lookup_insert_eq|done|done|].
    left. apply list_elem_of_here.
Qed.

(** One reconciliation: reading the namespace and writing the binding. *)
Lemma rc_run s q :
  rs_namespaces s !! "web" = Some rb_namespace ->
  initialize rb_namespace "acme" (default (new_rolebinding rb_namespace "admin" "admin")
    (rs_bindings s !! ("web", "admin"))) = inr rb_admin ->
  let s' := {| rs_namespaces := rs_namespaces s;
               rs_bindings := <[("web", "admin") := rb_admin]> (rs_bindings s);
               rs_events := rs_events s |} in
  exec rc_queued rc_env (OrganizationRBACReconciler_Reconcile rb_reconciler "web")
    (rc_sys s q) None (rc_sys s' (q ∪ rbac_watch s s ∪ rbac_watch s s')).
Proof.
  intros Hns Hinit s'. apply exec_trigger. exists (rc_sys s q), (inr rb_namespace), (rc_sys s (q ∪ rbac_watch s s)).
  split; [apply rtc_refl|]. split; [split; [by apply read_found|done]|].
  change (exec rc_queued rc_env
    (for_each [("admin", "admin")] (put_default rb_namespace "acme") ≫=
     fun results => mret (multierr_Combine (filter is_Some results)))
    (rc_sys s (q ∪ rbac_watch s s)) None (rc_sys s' (q ∪ rbac_watch s s ∪ rbac_watch s s'))).
  exists (rc_sys s (q ∪ rbac_watch s s)), None, (rc_sys s' (q ∪ rbac_watch s s ∪ rbac_watch s s')).
  split; [apply rtc_refl|]. split; [|by split; [|apply rtc_refl]].
  split; [|done]. by apply write_binding, (cou_done _ _ _ (rs_bindings s) rb_admin).
Qed.

Lemma bindings_in_order_witness : rbac_synced rb_reconciler "web" rb_new.
Proof.
  refine (bindings_in_order rb_reconciler (rc_sys rb_old {["web"]}) (rc_sys rb_new ∅) _ _ eq_refl "web").
  - unfold started, rbac_requests. simpl. intros r. rewrite elem_of_union, !elem_of_existing.
    intros [(k & v & Hk & _ & Hr)|(k & v & Hk & _)]; [|by rewrite lookup_empty in Hk].
    apply list_elem_of_singleton in Hr as ->. apply lookup_singleton_Some in Hk as [<- _]. set_solver.
  - pose proof rbac_watch_id as Hid.
    apply rtc_l with (rc_sys rb_new {["web"]}); [|apply rtc_once].
    + pose proof (rc_run rb_old ({["web"]} ∖ {["web"]}) (lookup_singleton_eq _ _) eq_refl) as Hx.
      change (exec rc_queued rc_env (OrganizationRBACReconciler_Reconcile rb_reconciler "web")
        (rc_sys rb_old ({["web"]} ∖ {["web"]})) None
        (rc_sys rb_new (({["web"]} ∖ {["web"]}) ∪ rbac_watch rb_old rb_old ∪ rbac_watch rb_old rb_new))) in Hx.
      rewrite Hid, rc_watch_new in Hx.
      replace ({["web"]} ∖ {["web"]} ∪ ∅ ∪ {["web"]}) with ({["web"]} : gset string) in Hx by set_solver.
      refine (process_step _ _ _ _ _ _ "web" rb_old {["web"]} None rb_new {["web"]} _ Hx). set_solver.
    + pose proof (rc_run rb_new ({["web"]} ∖ {["web"]}) (lookup_singleton_eq _ _)) as Hx.
      cbv zeta in Hx. rewrite (insert_id (rs_bindings rb_new)) in Hx by (by apply lookup_insert_eq).
      change {| rs_namespaces := _; rs_bindings := _; rs_events := _ |} with rb_new in Hx.
      rewrite Hid in Hx.
      replace ({["web"]} ∖ {["web"]} ∪ ∅ ∪ ∅) with (∅ : gset string) in Hx by set_solver.
      refine (process_step _ _ _ _ _ _ "web" rb_new {["web"]} None rb_new ∅ _ (Hx _)); [set_solver|].
      simpl. rewrite lookup_insert_eq. by vm_compute.
Defined.

(** The example on a cluster without faults. *)
Definition rc_not_found : error := StatusError ReasonNotFound "not found".

Definition rc_started : system rbac_state string := rc_sys rb_old (rbac_requests rb_old).

Definition rc_rest : system rbac_state string :=
  drain (OrganizationRBACReconciler_Reconcile rb_reconciler) rbac_watch (rbac_answer rc_not_found)
    (take_first "") (2 * size (sys_queue rc_started)) rc_started.

Lemma bindings_converge_witness :
  sys_queue rc_rest = ∅ /\ rbac_synced rb_reconciler "web" (sys_state rc_rest).
Proof.
  destruct (bindings_converge rc_not_found) with (r := rb_reconciler) (pick := take_first "")
    (sys := rc_started) (sys' := rc_started) as [Hq Hs]; [reflexivity|apply takes_first|unfold started; reflexivity|apply rtc_refl| |by split; [exact Hq|apply Hs]].
  split.
  - intros k ns. cbn [rb_old rc_started rc_sys sys_state rs_namespaces]. rewrite lookup_singleton_Some.
    by intros [<- <-].
  - intros name rb b _. cbn [rb_old rc_started rc_sys sys_state rs_bindings]. by rewrite lookup_empty.
Defined.
