(* ===== verification/UserSync.v ===== *)
(** * Attributes of users and usage profiles from the control API
    (controllers/userattributesync_controller.go, zoneusageprofilesync_controller.go)

    The reconcilers that copy a user's default organization, and usage profiles, from the control
    API to the cluster. *)
From S2P Require Import Prelude GoStd Kube Fake Api Effects.

(** ** [UserAttributeSyncReconciler] *)
Definition DefaultOrganizationAnnotation : string := "appuio.io/default-organization".

(** [controlv1.User], by its preference. *)
Record UpstreamUser := { DefaultOrganizationRef : string }.

Inductive user_call : Type -> Type :=
| ForeignGetUser (name : string) : user_call (error + UpstreamUser)
| GetUser (name : string) : user_call (error + User)
| PatchUser (name : string) (patch : json) : user_call (option error)
| RecordUserEvent (name type reason message : string) : user_call unit.

(** The strategic merge patch, before it is encoded. *)
Definition default_organization_patch (org : string) : json :=
  JObj {["metadata" := JObj {["annotations" :=
    json_of_map {[DefaultOrganizationAnnotation := org]}]}]}.

Section user.
Context `{ApiErrors}.

Definition UserAttributeSyncReconciler_Reconcile (name : string) : prog user_call (option error) :=
  got ← trigger (ForeignGetUser name);
  match got with
  | inl err => if apierrors_IsNotFound err then mret None else mret (Some err)
  | inr upstream =>
      got ← trigger (GetUser name);
      match got with
      | inl err => if apierrors_IsNotFound err then mret None else mret (Some err)
      | inr local =>
          let correct :=
            match user_Annotations local with
            | Some annotations =>
                bool_decide (map_get annotations DefaultOrganizationAnnotation =
                             DefaultOrganizationRef upstream)
            | None => false
            end in
          if correct then mret None else
          err ← trigger (PatchUser (user_Name local)
                  (default_organization_patch (DefaultOrganizationRef upstream)));
          match err with
          | Some err => mret (Some err)
          | None =>
              _ ← trigger (RecordUserEvent (user_Name local) "Normal" "Reconciled" "Reconciled User");
              mret None
          end
      end
  end.
End user.

(** ** [ZoneUsageProfileSyncReconciler] *)
Record UsageProfile := { up_Name : string; up_Spec : UsageProfileSpec }.

Inductive profile_call : Type -> Type :=
| ForeignGetUsageProfile (name : string) : profile_call (error + UsageProfile)
| CreateOrUpdateProfile (profile : ZoneUsageProfile)
    (mutate : ZoneUsageProfile -> error + ZoneUsageProfile) : profile_call (option error * string)
| GetProfile (name : string) : profile_call (error + ZoneUsageProfile)
| RecordProfileEvent (name type reason message : string) : profile_call unit.

(** The function passed to [CreateOrUpdate]. *)
Definition set_upstream_spec (spec : UsageProfileSpec) (profile : ZoneUsageProfile)
    : error + ZoneUsageProfile :=
  inr {| zup_Name := zup_Name profile; zup_Spec := {| UpstreamSpec := spec |} |}.

Section profile.
Context `{ApiErrors}.

Definition ZoneUsageProfileSyncReconciler_Reconcile (zero : ZoneUsageProfileSpec) (name : string)
    : prog profile_call (option error) :=
  got ← trigger (ForeignGetUsageProfile name);
  match got with
  | inl err => mret (client_IgnoreNotFound (Some err))
  | inr upstream =>
      '(err, op) ← trigger (CreateOrUpdateProfile
          {| zup_Name := up_Name upstream; zup_Spec := zero |} (set_upstream_spec (up_Spec upstream)));
      match err with
      | Some err => mret (Some err)
      | None =>
          got ← trigger (GetProfile (up_Name upstream));
          match got with
          | inl err => mret (Some err)
          | inr profile =>
              _ ← trigger (RecordProfileEvent (zup_Name profile) "Normal" "Reconciled"
                             ("Reconciled ZoneUsageProfile: " +:+ op));
              mret None
          end
      end
  end.
End profile.

(** ** The clusters *)
Record user_state := {
  us_upstream : gmap string UpstreamUser;
  us_users : gmap string User;
  us_events : list (string * string * string * string);
}.

Section cluster.
Context `{ApiErrors}.

(** A strategic merge patch of annotations: those of the patch win, the others stay. *)
Definition patched_user (patch : json) (u u' : User) : Prop :=
  exists m, json_path ["metadata"; "annotations"] patch = Some (json_of_map m) /\
    user_Name u' = user_Name u /\
    user_Annotations u' = Some (m ∪ default ∅ (user_Annotations u)).

Definition set_user (name : string) (u : User) (s : user_state) : user_state := {|
  us_upstream := us_upstream s; us_users := <[name := u]> (us_users s); us_events := us_events s |}.

Inductive patch_step (name : string) (patch : json) (s : user_state)
    : option error -> user_state -> Prop :=
| patch_done u u' : us_users s !! name = Some u -> patched_user patch u u' ->
    patch_step name patch s None (set_user name u' s)
| patch_failed err : patch_step name patch s (Some err) s
| patch_lost err u u' : us_users s !! name = Some u -> patched_user patch u u' ->
    patch_step name patch s (Some err) (set_user name u' s).

Inductive user_event_step (e : string * string * string * string) (s : user_state)
    : unit -> user_state -> Prop :=
| user_event : user_event_step e s tt
    {| us_upstream := us_upstream s; us_users := us_users s; us_events := us_events s ++ [e] |}.

Definition user_step X (c : user_call X) : user_state -> X -> user_state -> Prop :=
  match c in user_call X return user_state -> X -> user_state -> Prop with
  | ForeignGetUser name => read_step us_upstream name
  | GetUser name => read_step us_users name
  | PatchUser name patch => patch_step name patch
  | RecordUserEvent n t r m => user_event_step (n, t, r, m)
  end.
End cluster.

Record profile_state := {
  ps_upstream : gmap string UsageProfile;
  ps_profiles : gmap string ZoneUsageProfile;
  ps_events : list (string * string * string * string);
}.

Section profile_cluster.
Context `{ApiErrors}.

Inductive write_profile_step (profile : ZoneUsageProfile)
    (mutate : ZoneUsageProfile -> error + ZoneUsageProfile) (s : profile_state)
    : option error * string -> profile_state -> Prop :=
| write_profile err op m :
    created_or_updated (zup_Name profile) profile mutate (ps_profiles s) err m ->
    write_profile_step profile mutate s (err, op)
      {| ps_upstream := ps_upstream s; ps_profiles := m; ps_events := ps_events s |}.

Inductive profile_event_step (e : string * string * string * string) (s : profile_state)
    : unit -> profile_state -> Prop :=
| profile_event : profile_event_step e s tt
    {| ps_upstream := ps_upstream s; ps_profiles := ps_profiles s; ps_events := ps_events s ++ [e] |}.

Definition profile_step X (c : profile_call X) : profile_state -> X -> profile_state -> Prop :=
  match c in profile_call X return profile_state -> X -> profile_state -> Prop with
  | ForeignGetUsageProfile name => read_step ps_upstream name
  | CreateOrUpdateProfile profile mutate => write_profile_step profile mutate
  | GetProfile name => read_step ps_profiles name
  | RecordProfileEvent n t r m => profile_event_step (n, t, r, m)
  end.
End profile_cluster.

(** ** Example: a user without annotations and a profile that is new *)
Definition us_alice : User := {| user_Name := "alice"; user_Annotations := None |}.

Definition us_before : user_state := {|
  us_upstream := {["alice" := {| DefaultOrganizationRef := "acme" |}]};
  us_users := {["alice" := us_alice]}; us_events := [] |}.

Definition us_patched : User := {|
  user_Name := "alice"; user_Annotations := Some {[DefaultOrganizationAnnotation := "acme"]} |}.

Definition us_after : user_state := {|
  us_upstream := us_upstream us_before; us_users := <["alice" := us_patched]> (us_users us_before);
  us_events := [("alice", "Normal", "Reconciled", "Reconciled User")] |}.

Definition ps_spec : UsageProfileSpec := {| NamespaceCount := 5; Resources := ∅ |}.

Definition ps_before : profile_state := {|
  ps_upstream := {["default" := {| up_Name := "default"; up_Spec := ps_spec |}]};
  ps_profiles := ∅; ps_events := [] |}.

Definition ps_profile : ZoneUsageProfile := {|
  zup_Name := "default"; zup_Spec := {| UpstreamSpec := ps_spec |} |}.

Definition ps_after : profile_state := {|
  ps_upstream := ps_upstream ps_before; ps_profiles := <["default" := ps_profile]> ∅;
  ps_events := [("default", "Normal", "Reconciled", "Reconciled ZoneUsageProfile: created")] |}.

(** ** Lemmas *)

#[local] Instance json_of_map_inj : Inj (=) (=) json_of_map.
Proof.
  intros m1 m2 [= E]. apply map_eq. intros k.
  assert (JStr <$> m1 !! k = JStr <$> m2 !! k) as Hk by (by rewrite <- !lookup_fmap, E).
  destruct (m1 !! k), (m2 !! k); by simplify_eq/=.
Qed.

Lemma default_organization_patch_path org :
  json_path ["metadata"; "annotations"] (default_organization_patch org) =
  Some (json_of_map {[DefaultOrganizationAnnotation := org]}).
Proof. simpl. rewrite lookup_singleton_eq. simpl. by rewrite lookup_singleton_eq. Qed.

Lemma lookup_patched org (m : gmap string string) :
  ({[DefaultOrganizationAnnotation := org]} ∪ m) !! DefaultOrganizationAnnotation = Some org.
Proof. apply lookup_union_Some_l, lookup_singleton_eq. Qed.

(** What the patch makes of the annotations of a user. *)
Lemma patched_organization org u u' :
  patched_user (default_organization_patch org) u u' ->
  user_Name u' = user_Name u /\
  user_Annotations u' = Some ({[DefaultOrganizationAnnotation := org]} ∪ default ∅ (user_Annotations u)).
Proof.
  intros (m & Hm & Hn & Ha). rewrite default_organization_patch_path in Hm.
  by apply (inj Some), (inj json_of_map) in Hm as <-.
Qed.

(** ** Properties *)
Section properties.
Context `{ApiErrorsLaws}.

(** When both users exist, a reconciliation that succeeds leaves the local user with the
    default organization of the upstream user and its other annotations as they were; it writes,
    and records an event, only if the annotation was not right already.  No other user changes. *)
Theorem user_default_organization name s up local s' :
  us_upstream s !! name = Some up -> us_users s !! name = Some local -> user_Name local = name ->
  exec user_step alone (UserAttributeSyncReconciler_Reconcile name) s None s' ->
  exists local', us_users s' = <[name := local']> (us_users s) /\
    nilmap_get (user_Annotations local') DefaultOrganizationAnnotation = DefaultOrganizationRef up /\
    (forall k, k <> DefaultOrganizationAnnotation ->
      default ∅ (user_Annotations local') !! k = default ∅ (user_Annotations local) !! k) /\
    (s' = s \/ exists m, us_events s' = us_events s ++ [(name, "Normal", "Reconciled", m)] /\
      local' <> local).
Proof.
  intros Hup Hl Hname (got & s1 & Hg & Hr)%alone_trigger.
  destruct Hg as [u Hu|err ? _|err He]; [|congruence|by rewrite He in Hr; apply alone_ret in Hr as []].
  rewrite Hup in Hu. injection Hu as <-.
  apply alone_trigger in Hr as (got & s1 & Hg & Hr).
  destruct Hg as [u Hu|err ? _|err He]; [|congruence|by rewrite He in Hr; apply alone_ret in Hr as []].
  rewrite Hl in Hu. injection Hu as <-. cbv zeta in Hr.
  assert (Hc : (exists ann, user_Annotations local = Some ann /\
      map_get ann DefaultOrganizationAnnotation = DefaultOrganizationRef up) \/
    match user_Annotations local with
    | Some ann => bool_decide (map_get ann DefaultOrganizationAnnotation = DefaultOrganizationRef up)
    | None => false
    end = false).
  { destruct (user_Annotations local) as [ann|]; [|by right]. case_bool_decide; eauto. }
  destruct Hc as [(ann & Ha & Hann)|Hc].
  { rewrite Ha, bool_decide_eq_true_2 in Hr by done. apply alone_ret in Hr as [_ ->].
    exists local. rewrite insert_id, Ha by done. eauto. }
  rewrite Hc in Hr. apply alone_trigger in Hr as (err & s1 & Hp & Hr).
  destruct Hp as [u u' Hu Hpatch|err|err u u' Hu Hpatch]; [|by apply alone_ret in Hr as []..].
  apply alone_trigger in Hr as ([] & s2 & [] & Hr). apply alone_ret in Hr as [_ ->].
  rewrite Hname, Hl in Hu. injection Hu as <-.
  apply patched_organization in Hpatch as [Hn Ha].
  exists u'. split; [by rewrite Hname|]. rewrite Ha. split; [|split].
  - simpl. unfold map_get. by rewrite lookup_patched.
  - intros k Hk. simpl. by rewrite lookup_union_r by (by apply lookup_singleton_ne).
  - right. rewrite Hname. eexists. split; [done|]. intros ->. rewrite Ha in Hc.
    apply bool_decide_eq_false in Hc. destruct Hc. unfold map_get.
    by rewrite lookup_patched.
Qed.

(** When the upstream profile exists, a reconciliation that succeeds leaves the local profile
    of that name with the specification of the upstream profile, and changes no other. *)
Theorem profile_synced zero name up s s' :
  ps_upstream s !! name = Some up ->
  exec profile_step alone (ZoneUsageProfileSyncReconciler_Reconcile zero name) s None s' ->
  exists p, ps_profiles s' = <[up_Name up := p]> (ps_profiles s) /\
    UpstreamSpec (zup_Spec p) = up_Spec up.
Proof.
  intros Hup (got & s1 & Hg & Hr)%alone_trigger.
  destruct Hg as [u Hu|err ? _|err He]; [|congruence|].
  2:{ apply alone_ret in Hr as [Hr _]. by rewrite IgnoreNotFound_spec, He in Hr. }
  rewrite Hup in Hu. injection Hu as <-.
  apply alone_trigger in Hr as ([err op] & s1 & Hw & Hr). inversion Hw as [? ? m Hm]; subst.
  destruct err as [err|]; [by apply alone_ret in Hr as []|].
  inversion Hm as [v Hv| |]; subst. injection Hv as <-.
  apply alone_trigger in Hr as (got & s1 & Hg & Hr).
  destruct Hg as [p Hp|err ? _|err He]; [|by apply alone_ret in Hr as []..].
  apply alone_trigger in Hr as ([] & s2 & [] & Hr). apply alone_ret in Hr as [_ ->].
  by eexists.
Qed.
End properties.

(** ** The theorems on the examples *)
Import Fake.

Lemma user_default_organization_witness :
  nilmap_get (user_Annotations us_patched) DefaultOrganizationAnnotation = "acme".
Proof.
  assert (Hx : exec user_step alone (UserAttributeSyncReconciler_Reconcile "alice") us_before None
    us_after).
  { apply alone_trigger. eexists _, _. split;
      [by apply (read_found _ _ _ {| DefaultOrganizationRef := "acme" |}); vm_compute|].
    apply alone_trigger. eexists _, _. split; [by apply (read_found _ _ _ us_alice); vm_compute|].
    apply alone_trigger. eexists None, (set_user "alice" us_patched us_before). split.
    { apply (patch_done _ _ _ us_alice); [by vm_compute|]. exists {[DefaultOrganizationAnnotation := "acme"]}.
      split_and!; [apply default_organization_patch_path|done|].
      symmetry. apply (f_equal Some), (right_id_L ∅ (∪)). }
    apply alone_trigger. eexists tt, us_after. split; [apply user_event|]. by apply alone_ret. }
  destruct (user_default_organization "alice" us_before {| DefaultOrganizationRef := "acme" |}
    us_alice us_after) as (local' & Hl & Ha & _); [by vm_compute|by vm_compute|done|exact Hx|].
  assert (Some us_patched = Some local') as [= ->]; [|exact Ha].
  transitivity (us_users us_after !! "alice"); [by vm_compute|]. rewrite Hl. apply lookup_insert_eq.
Defined.

Lemma profile_synced_witness :
  UpstreamSpec (zup_Spec ps_profile) = ps_spec.
Proof.
  assert (Hx : exec profile_step alone (ZoneUsageProfileSyncReconciler_Reconcile
    {| UpstreamSpec := {| NamespaceCount := 0; Resources := ∅ |} |} "default") ps_before None ps_after).
  { apply alone_trigger. eexists _, _. split;
      [by apply (read_found _ _ _ {| up_Name := "default"; up_Spec := ps_spec |}); vm_compute|].
    apply alone_trigger. eexists (None, "created"), _. split.
    { apply write_profile, (cou_done _ _ _ _ ps_profile). by vm_compute. }
    apply alone_trigger. eexists _, _. split; [by apply (read_found _ _ _ ps_profile); vm_compute|].
    apply alone_trigger. eexists tt, ps_after. split; [apply profile_event|]. by apply alone_ret. }
  destruct (profile_synced _ "default" {| up_Name := "default"; up_Spec := ps_spec |} ps_before ps_after
    ltac:(by vm_compute) Hx) as (p & Hp & Hs).
  assert (Some ps_profile = Some p) as [= ->]; [|exact Hs].
  transitivity (ps_profiles ps_after !! "default"); [by vm_compute|]. rewrite Hp. apply lookup_insert_eq.
Defined.
