(* ===== verification/UserController.v ===== *)
(** * The controllers of users and usage profiles (controllers/userattributesync_controller.go,
    zoneusageprofilesync_controller.go)

    What the two controllers watch, and that nothing they are responsible for is out of order
    when their queues are empty. *)
From S2P Require Import Prelude GoStd Kube Fake Api Effects Workqueue Drain UserSync.

#[export] Instance UpstreamUser_eq_dec : EqDecision UpstreamUser.
Proof. solve_decision. Defined.
#[export] Instance User_eq_dec : EqDecision User.
Proof. solve_decision. Defined.

(** ** Users: their watches ([UserAttributeSyncReconciler.SetupWithManagerAndForeignCluster]) *)
Definition user_watch (s s' : user_state) : gset string :=
  watching always for_object (us_users s) (us_users s') ∪
  watching always for_object (us_upstream s) (us_upstream s').

Definition user_requests (s : user_state) : gset string :=
  existing always for_object (us_users s) ∪ existing always for_object (us_upstream s).

(** The user has the default organization that the control API says. *)
Definition has_organization (up : UpstreamUser) (u : User) : Prop :=
  match user_Annotations u with
  | Some annotations =>
      map_get annotations DefaultOrganizationAnnotation = DefaultOrganizationRef up
  | None => False
  end.

Definition user_synced (name : string) (s : user_state) : Prop :=
  match us_upstream s !! name, us_users s !! name with
  | Some up, Some u => user_Name u = name -> has_organization up u
  | _, _ => True
  end.

Section user.
Context `{ApiErrorsLaws}.

Definition user_view (name : string) (s : user_state) : option UpstreamUser * option User :=
  (us_upstream s !! name, us_users s !! name).

Lemma user_watch_view name s s' : name ∉ user_watch s s' -> user_view name s' = user_view name s.
Proof. unfold user_watch, user_view. by intros [-> ->]%watching_both. Qed.

Lemma user_synced_view name s s' :
  user_view name s' = user_view name s -> user_synced name s -> user_synced name s'.
Proof. unfold user_view, user_synced. by intros [= -> ->]. Qed.

#[export] Instance user_level :
  Level user_step anything UserAttributeSyncReconciler_Reconcile user_watch user_requests
    id any_state user_synced.
Proof.
  apply (level_view _ _ _ _ _ _ user_view user_watch_view user_synced_view).
  - intros name s s' Hx. pose proof (user_watch_view name) as Hv. unfold user_synced.
    apply (quiet_trigger _ _ _ _ _ Hv) in Hx as (s0 & got & s1 & Hg & V0 & _ & Hx).
    injection V0 as U0 L0. rewrite <- U0.
    destruct Hg as [up Hup|err Hn _|err Hn]; [|by rewrite Hn|by rewrite Hn in Hx; destruct Hx].
    rewrite Hup.
    apply (quiet_trigger _ _ _ _ _ Hv) in Hx as (s2 & got & s3 & Hg & V2 & _ & Hx).
    injection V2 as U2 L2. rewrite <- L2.
    destruct Hg as [u Hu|err Hn _|err Hn]; [|by rewrite Hn|by rewrite Hn in Hx; destruct Hx].
    rewrite Hu. intros Hname. cbv zeta in Hx. unfold has_organization.
    destruct (user_Annotations u) as [ann|] eqn:Ea; [case_bool_decide as Hc; [done|]|]; exfalso;
      apply (quiet_trigger _ _ _ _ _ Hv) in Hx as (s4 & err & s5 & Hp & V4 & V5 & Hx);
      (destruct err as [err|]; [by destruct Hx|]);
      inversion Hp as [v v' Hvu Hpatch| |]; subst;
      injection V4 as _ L4; injection V5 as _ L5; simpl in L5;
      rewrite lookup_insert_eq in L5; rewrite <- L5 in L4;
      apply patched_organization in Hpatch as [_ Ha];
      (assert (v = u) as -> by congruence); (assert (v' = u) as -> by congruence);
      rewrite Ea in Ha; try discriminate; apply Hc; injection Ha as Ha;
      rewrite Ha; unfold map_get; by rewrite lookup_patched.
  - intros name s. unfold user_synced, user_requests.
    destruct (us_upstream s !! name) as [up|] eqn:E; [|by left]. right.
    by eapply elem_of_union_r, existing_object.
Qed.

(** A cluster without faults. *)
Definition user_answer (not_found : error) X (c : user_call X) : user_state -> X * user_state :=
  match c in user_call X return user_state -> X * user_state with
  | ForeignGetUser name => fun s =>
      (match us_upstream s !! name with Some up => inr up | None => inl not_found end, s)
  | GetUser name => fun s =>
      (match us_users s !! name with Some u => inr u | None => inl not_found end, s)
  | PatchUser name patch => fun s =>
      match us_users s !! name, json_path ["metadata"; "annotations"] patch ≫= map_of_json with
      | Some u, Some m => (None, set_user name {| user_Name := user_Name u;
          user_Annotations := Some (m ∪ default ∅ (user_Annotations u)) |} s)
      | _, _ => (Some not_found, s)
      end
  | RecordUserEvent n t r m => fun s =>
      (tt, {| us_upstream := us_upstream s; us_users := us_users s;
              us_events := us_events s ++ [(n, t, r, m)] |})
  end.

Lemma user_answer_step not_found X (c : user_call X) s :
  apierrors_IsNotFound not_found = true ->
  user_step X c s (user_answer not_found X c s).1 (user_answer not_found X c s).2.
Proof.
  intros Hn. destruct c as [name|name|name patch|]; cbn [user_answer user_step]; [| | |constructor].
  - destruct (us_upstream s !! name) eqn:E; [by apply read_found|by apply read_missing].
  - destruct (us_users s !! name) eqn:E; [by apply read_found|by apply read_missing].
  - destruct (us_users s !! name) as [u|] eqn:E; [|apply patch_failed].
    destruct (json_path [_; _] patch) as [j|] eqn:Ep; [|apply patch_failed]. cbn.
    destruct (map_of_json j) as [m|] eqn:Em; [|apply patch_failed].
    apply map_of_json_Some in Em as ->. eapply patch_done; [done|]. by exists m.
Qed.

(** The users are stored by name. *)
Definition users_named (s : user_state) : Prop :=
  forall name u, us_users s !! name = Some u -> user_Name u = name.

Lemma user_watch_same s s' :
  us_users s' = us_users s -> us_upstream s' = us_upstream s -> user_watch s s' = ∅.
Proof. unfold user_watch. intros -> ->. rewrite !watching_id. set_solver. Qed.

Lemma user_watch_id s : user_watch s s = ∅.
Proof. by apply user_watch_same. Qed.

Lemma user_watch_user name u s : user_watch s (set_user name u s) ⊆ {[name]}.
Proof.
  unfold user_watch. simpl. rewrite watching_id, (right_id_L ∅ (∪)). apply watching_object.
Qed.

(** The user that the patch makes. *)
Definition with_organization (up : UpstreamUser) (u : User) : User := {|
  user_Name := user_Name u;
  user_Annotations := Some ({[DefaultOrganizationAnnotation := DefaultOrganizationRef up]} ∪
                            default ∅ (user_Annotations u)) |}.

Lemma with_organization_has up u : has_organization up (with_organization up u).
Proof. unfold has_organization, map_get. simpl. by rewrite lookup_patched. Qed.

#[export] Instance has_organization_dec up u : Decision (has_organization up u).
Proof. unfold has_organization. destruct (user_Annotations u); solve_decision. Defined.

#[export] Instance user_synced_dec name s : Decision (user_synced name s).
Proof. unfold user_synced. repeat case_match; solve_decision. Defined.

Lemma correct_has_organization up u :
  match user_Annotations u with
  | Some annotations =>
      bool_decide (map_get annotations DefaultOrganizationAnnotation = DefaultOrganizationRef up)
  | None => false
  end = bool_decide (has_organization up u).
Proof.
  case_bool_decide as Ho; unfold has_organization in Ho; destruct (user_Annotations u); try done;
    by rewrite ?bool_decide_eq_true, ?bool_decide_eq_false.
Qed.

Lemma patch_answer not_found name up u s :
  us_users s !! name = Some u ->
  user_answer not_found _ (PatchUser name (default_organization_patch (DefaultOrganizationRef up))) s =
    (None, set_user name (with_organization up u) s).
Proof.
  intros Hu. cbn [user_answer]. rewrite Hu, default_organization_patch_path.
  change (Some ?x ≫= map_of_json) with (map_of_json x). by rewrite map_of_json_of_map.
Qed.

(** A reconciliation writes, and causes a request, only for a user without the organization. *)
Lemma user_run not_found name s up u :
  us_upstream s !! name = Some up -> us_users s !! name = Some u -> user_Name u = name ->
  let p := UserAttributeSyncReconciler_Reconcile name in
  (run (user_answer not_found) p s).1 = None /\
  us_upstream (run (user_answer not_found) p s).2 = us_upstream s /\
  us_users (run (user_answer not_found) p s).2 =
    (if decide (has_organization up u) then us_users s
     else <[name := with_organization up u]> (us_users s)) /\
  run_requests user_watch (user_answer not_found) p s =
    (if decide (has_organization up u) then ∅
     else user_watch s (set_user name (with_organization up u) s)).
Proof.
  intros Hup Hu Hname p. unfold p. simpl. rewrite Hup. simpl. rewrite Hu. rewrite !user_watch_id.
  rewrite correct_has_organization. destruct (decide (has_organization up u)) as [Ho|Ho];
    [rewrite (bool_decide_eq_true_2 _ Ho)|rewrite (bool_decide_eq_false_2 _ Ho)].
  - split_and!; [done..|]. simpl. set_solver.
  - cbn [run run_requests]. rewrite Hname, patch_answer with (u := u) by done. cbn.
    rewrite (user_watch_same (set_user _ _ _)) by done. split_and!; [done..|]. set_solver.
Qed.

#[export] Instance user_settles not_found :
  apierrors_IsNotFound not_found = true ->
  Settles UserAttributeSyncReconciler_Reconcile user_watch (user_answer not_found) user_step
    user_synced users_named.
Proof.
  intros Hn.
  assert (Hmissing : forall name s, us_upstream s !! name = None \/ us_users s !! name = None ->
    run (user_answer not_found) (UserAttributeSyncReconciler_Reconcile name) s = (None, s) /\
    run_requests user_watch (user_answer not_found) (UserAttributeSyncReconciler_Reconcile name) s = ∅).
  { intros name s Hno. simpl. destruct (us_upstream s !! name) eqn:Eup; simpl;
      [|rewrite Hn; simpl; rewrite user_watch_id; split; [done|set_solver]].
    destruct Hno as [?|Eu]; [done|]. rewrite Eu. simpl. rewrite Hn. simpl.
    rewrite user_watch_id. split; [done|set_solver]. }
  split.
  - intros X c s. by apply user_answer_step.
  - intros name s Hok. unfold user_synced.
    destruct (us_upstream s !! name) as [up|] eqn:Eup; [destruct (us_users s !! name) as [u|] eqn:Eu|].
    + destruct (user_run not_found name s up u Eup Eu (Hok _ _ Eu)) as (-> & Hu1 & Hu2 & _).
      rewrite Hu1, Eup. unfold users_named. rewrite Hu2. split; [done|].
      destruct (decide (has_organization up u)).
      * split; [exact Hok|]. by rewrite Eu.
      * rewrite lookup_insert_eq. split; [|by intros _; apply with_organization_has].
        intros name' v. rewrite lookup_insert_Some. intros [[<- <-]|[_ Hv]]; [exact (Hok name u Eu)|by apply Hok].
    + destruct (Hmissing name s (or_intror Eu)) as [-> _]. simpl. by rewrite Eup, Eu.
    + destruct (Hmissing name s (or_introl Eup)) as [-> _]. simpl. by rewrite Eup.
  - intros name s Hok.
    destruct (us_upstream s !! name) as [up|] eqn:Eup; [destruct (us_users s !! name) as [u|] eqn:Eu|].
    + destruct (user_run not_found name s up u Eup Eu (Hok _ _ Eu)) as (_ & _ & _ & ->).
      destruct (decide _); [set_solver|apply user_watch_user].
    + destruct (Hmissing name s (or_intror Eu)) as [_ ->]. set_solver.
    + destruct (Hmissing name s (or_introl Eup)) as [_ ->]. set_solver.
  - intros name s Hok. unfold user_synced.
    destruct (us_upstream s !! name) as [up|] eqn:Eup; [destruct (us_users s !! name) as [u|] eqn:Eu|].
    + destruct (user_run not_found name s up u Eup Eu (Hok _ _ Eu)) as (_ & _ & _ & ->).
      intros Hs. by rewrite decide_True by (by apply Hs, Hok).
    + by destruct (Hmissing name s (or_intror Eu)) as [_ ->].
    + by destruct (Hmissing name s (or_introl Eup)) as [_ ->].
Qed.

Abbreviation user_controller :=
  (controller_step user_step anything UserAttributeSyncReconciler_Reconcile user_watch user_requests id).

(** Whatever happens after the agent has started, when no request is queued every user that
    exists in both clusters has the default organization that the control API says. *)
Theorem users_in_order sys sys' :
  started user_requests sys -> rtc user_controller sys sys' -> sys_queue sys' = ∅ ->
  forall name, user_synced name (sys_state sys').
Proof. apply always_at_rest, user_level. Qed.

(** When nothing fails any more and nobody else changes anything, the queue is empty after at
    most two reconciliations for each request in it, in whatever order they are taken. *)
Theorem users_converge not_found pick sys sys' :
  apierrors_IsNotFound not_found = true -> takes pick ->
  started user_requests sys -> rtc user_controller sys sys' -> users_named (sys_state sys') ->
  let rest := drain UserAttributeSyncReconciler_Reconcile user_watch (user_answer not_found) pick
                (2 * size (sys_queue sys')) sys' in
  sys_queue rest = ∅ /\ forall name, user_synced name (sys_state rest).
Proof.
  intros Hn Hp Hs Hr Hok. pose proof (user_settles not_found Hn) as HS.
  exact (converges _ _ user_requests id _ _ anything user_synced users_named pick sys sys' Hp Hs Hr Hok).
Qed.
End user.

(** ** Usage profiles: their watches
    ([ZoneUsageProfileSyncReconciler.SetupWithManagerAndForeignCluster]) *)
#[export] Instance UsageProfile_eq_dec : EqDecision UsageProfile.
Proof. solve_decision. Defined.

Definition profile_watch (s s' : profile_state) : gset string :=
  watching always for_object (ps_profiles s) (ps_profiles s') ∪
  watching always for_object (ps_upstream s) (ps_upstream s').

Definition profile_requests (s : profile_state) : gset string :=
  existing always for_object (ps_profiles s) ∪ existing always for_object (ps_upstream s).

(** The profile has the specification that the control API says. *)
Definition profile_in_order (name : string) (s : profile_state) : Prop :=
  match ps_upstream s !! name with
  | Some up =>
      up_Name up = name ->
      (fun p => UpstreamSpec (zup_Spec p)) <$> ps_profiles s !! name = Some (up_Spec up)
  | None => True
  end.

Section profile.
Context `{ApiErrorsLaws}.

Definition profile_view (name : string) (s : profile_state)
    : option UsageProfile * option ZoneUsageProfile :=
  (ps_upstream s !! name, ps_profiles s !! name).

Lemma profile_watch_view name s s' :
  name ∉ profile_watch s s' -> profile_view name s' = profile_view name s.
Proof. unfold profile_watch, profile_view. by intros [-> ->]%watching_both. Qed.

Lemma profile_in_order_view name s s' :
  profile_view name s' = profile_view name s -> profile_in_order name s -> profile_in_order name s'.
Proof. unfold profile_view, profile_in_order. by intros [= -> ->]. Qed.

#[export] Instance profile_level zero :
  Level profile_step anything (ZoneUsageProfileSyncReconciler_Reconcile zero) profile_watch
    profile_requests id any_state profile_in_order.
Proof.
  apply (level_view _ _ _ _ _ _ profile_view profile_watch_view profile_in_order_view).
  - intros name s s' Hx. pose proof (profile_watch_view name) as Hv. unfold profile_in_order.
    apply (quiet_trigger _ _ _ _ _ Hv) in Hx as (s0 & got & s1 & Hg & V0 & _ & Hx).
    injection V0 as U0 _. rewrite <- U0.
    destruct Hg as [up Hup|err Hn _|err Hn]; [|by rewrite Hn|].
    2:{ destruct Hx as [Hx _]. by rewrite IgnoreNotFound_spec, Hn in Hx. }
    rewrite Hup. intros Hname.
    apply (quiet_trigger _ _ _ _ _ Hv) in Hx as (s2 & [err op] & s3 & Hw & _ & V3 & Hx).
    destruct err as [err|]; [by destruct Hx|]. injection V3 as _ P3.
    inversion Hw as [err' op' m Hm]; subst. inversion Hm as [v Hvm| |]; subst. simpl in P3.
    rewrite lookup_insert_eq in P3. rewrite <- P3. injection Hvm as <-. done.
  - intros name s. unfold profile_in_order, profile_requests.
    destruct (ps_upstream s !! name) as [up|] eqn:E; [|by left]. right.
    by eapply elem_of_union_r, existing_object.
Qed.

(** A cluster without faults. *)
Definition profile_answer (not_found : error) X (c : profile_call X) : profile_state -> X * profile_state :=
  match c in profile_call X return profile_state -> X * profile_state with
  | ForeignGetUsageProfile name => fun s =>
      (match ps_upstream s !! name with Some up => inr up | None => inl not_found end, s)
  | CreateOrUpdateProfile profile mutate => fun s =>
      match mutate (default profile (ps_profiles s !! zup_Name profile)) with
      | inl err => ((Some err, "unchanged"), s)
      | inr v => ((None, match ps_profiles s !! zup_Name profile with
                         | None => "created"
                         | Some p => if decide (v = p) then "unchanged" else "updated"
                         end), {| ps_upstream := ps_upstream s;
                   ps_profiles := <[zup_Name profile := v]> (ps_profiles s); ps_events := ps_events s |})
      end
  | GetProfile name => fun s =>
      (match ps_profiles s !! name with Some p => inr p | None => inl not_found end, s)
  | RecordProfileEvent n t r m => fun s =>
      (tt, {| ps_upstream := ps_upstream s; ps_profiles := ps_profiles s;
              ps_events := ps_events s ++ [(n, t, r, m)] |})
  end.

Lemma profile_answer_step not_found X (c : profile_call X) s :
  apierrors_IsNotFound not_found = true ->
  profile_step X c s (profile_answer not_found X c s).1 (profile_answer not_found X c s).2.
Proof.
  intros Hn. destruct c as [name|profile mutate|name|]; cbn; [| | |constructor].
  - destruct (ps_upstream s !! name) eqn:E; [by apply read_found|by apply read_missing].
  - destruct (mutate _) as [err|v] eqn:E; simpl; [|by apply write_profile, cou_done].
    destruct s. apply write_profile, cou_failed.
  - destruct (ps_profiles s !! name) eqn:E; [by apply read_found|by apply read_missing].
Qed.

(** The upstream profiles are stored by name. *)
Definition profiles_named (s : profile_state) : Prop :=
  forall name up, ps_upstream s !! name = Some up -> up_Name up = name.

Lemma profile_watch_same s s' :
  ps_profiles s' = ps_profiles s -> ps_upstream s' = ps_upstream s -> profile_watch s s' = ∅.
Proof. unfold profile_watch. intros -> ->. rewrite !watching_id. set_solver. Qed.

Lemma profile_run not_found zero name s up :
  ps_upstream s !! name = Some up -> up_Name up = name ->
  let p := ZoneUsageProfileSyncReconciler_Reconcile zero name in
  let local := default {| zup_Name := name; zup_Spec := zero |} (ps_profiles s !! name) in
  let new := {| zup_Name := zup_Name local; zup_Spec := {| UpstreamSpec := up_Spec up |} |} in
  (run (profile_answer not_found) p s).1 = None /\
  ps_upstream (run (profile_answer not_found) p s).2 = ps_upstream s /\
  ps_profiles (run (profile_answer not_found) p s).2 = <[name := new]> (ps_profiles s) /\
  run_requests profile_watch (profile_answer not_found) p s =
    watching always for_object (ps_profiles s) (<[name := new]> (ps_profiles s)).
Proof.
  intros Hup Hname p local new. unfold p. simpl. rewrite Hup. simpl. rewrite Hname.
  rewrite lookup_insert_eq. simpl. rewrite !profile_watch_same by done.
  split_and!; [done..|]. unfold profile_watch. simpl. rewrite watching_id. set_solver.
Qed.

#[export] Instance profile_in_order_dec name s : Decision (profile_in_order name s).
Proof. unfold profile_in_order. repeat case_match; solve_decision. Defined.

#[export] Instance profile_settles not_found zero :
  apierrors_IsNotFound not_found = true ->
  Settles (ZoneUsageProfileSyncReconciler_Reconcile zero) profile_watch (profile_answer not_found)
    profile_step profile_in_order profiles_named.
Proof.
  intros Hn.
  assert (Hmissing : forall name s, ps_upstream s !! name = None ->
    run (profile_answer not_found) (ZoneUsageProfileSyncReconciler_Reconcile zero name) s = (None, s) /\
    run_requests profile_watch (profile_answer not_found)
      (ZoneUsageProfileSyncReconciler_Reconcile zero name) s = ∅).
  { intros name s Hno. simpl. rewrite Hno. simpl. rewrite IgnoreNotFound_spec, Hn, profile_watch_same by done.
    split; [done|set_solver]. }
  split.
  - intros X c s. by apply profile_answer_step.
  - intros name s Hok. unfold profile_in_order. destruct (ps_upstream s !! name) as [up|] eqn:Eup.
    + destruct (profile_run not_found zero name s up Eup (Hok _ _ Eup)) as (-> & Hu & Hp & _).
      unfold profiles_named. rewrite Hu, Hp, Eup, lookup_insert_eq. done.
    + destruct (Hmissing name s Eup) as [-> _]. simpl. by rewrite Eup.
  - intros name s Hok. destruct (ps_upstream s !! name) as [up|] eqn:Eup.
    + destruct (profile_run not_found zero name s up Eup (Hok _ _ Eup)) as (_ & _ & _ & ->).
      apply watching_object.
    + destruct (Hmissing name s Eup) as [_ ->]. set_solver.
  - intros name s Hok. unfold profile_in_order. destruct (ps_upstream s !! name) as [up|] eqn:Eup.
    + intros Hs. destruct (profile_run not_found zero name s up Eup (Hok _ _ Eup)) as (_ & _ & _ & ->).
      specialize (Hs (Hok _ _ Eup)). apply fmap_Some in Hs as (p & Hp & Hspec).
      rewrite insert_id, watching_id; [done|]. rewrite Hp. simpl. rewrite Hspec.
      by destruct p as [? []].
    + by destruct (Hmissing name s Eup) as [_ ->].
Qed.

Abbreviation profile_controller zero :=
  (controller_step profile_step anything (ZoneUsageProfileSyncReconciler_Reconcile zero)
    profile_watch profile_requests id).

(** Whatever happens after the agent has started, when no request is queued every profile of the
    control API exists in the cluster with its specification. *)
Theorem profiles_in_order zero sys sys' :
  started profile_requests sys -> rtc (profile_controller zero) sys sys' -> sys_queue sys' = ∅ ->
  forall name, profile_in_order name (sys_state sys').
Proof. apply always_at_rest, profile_level. Qed.

(** When nothing fails any more and nobody else changes anything, the queue is empty after at
    most two reconciliations for each request in it, in whatever order they are taken. *)
Theorem profiles_converge zero not_found pick sys sys' :
  apierrors_IsNotFound not_found = true -> takes pick ->
  started profile_requests sys -> rtc (profile_controller zero) sys sys' ->
  profiles_named (sys_state sys') ->
  let rest := drain (ZoneUsageProfileSyncReconciler_Reconcile zero) profile_watch
                (profile_answer not_found) pick (2 * size (sys_queue sys')) sys' in
  sys_queue rest = ∅ /\ forall name, profile_in_order name (sys_state rest).
Proof.
  intros Hn Hp Hs Hr Hok. pose proof (profile_settles not_found zero Hn) as HS.
  exact (converges _ _ profile_requests id _ _ anything profile_in_order profiles_named pick sys sys' Hp Hs Hr Hok).
Qed.
End profile.

(** ** The theorems on the examples *)
Import Fake.

Definition uc_not_found : error := StatusError ReasonNotFound "not found".

Definition uc_started : system user_state string :=
  {| sys_state := us_before; sys_queue := user_requests us_before |}.

Definition uc_rest : system user_state string :=
  drain UserAttributeSyncReconciler_Reconcile user_watch (user_answer uc_not_found)
    (take_first "") (2 * size (sys_queue uc_started)) uc_started.

Lemma uc_named : users_named us_before.
Proof. intros name u. unfold us_before. simpl. rewrite lookup_singleton_Some. by intros [<- <-]. Qed.

Lemma uc_rest_empty : sys_queue uc_rest = ∅.
Proof.
  pose proof (user_settles uc_not_found eq_refl) as HS.
  refine (proj1 (converges _ _ user_requests id _ _ anything user_synced users_named (take_first "")
    uc_started uc_started (takes_first "") _ (rtc_refl _ _) uc_named)).
  unfold started. reflexivity.
Qed.

Lemma users_in_order_witness : user_synced "alice" (sys_state uc_rest).
Proof.
  refine (users_in_order uc_started uc_rest _ _ uc_rest_empty "alice").
  - unfold started. reflexivity.
  - pose proof (user_settles uc_not_found eq_refl) as HS.
    eapply drain_steps; [by eapply settles_answer|apply takes_first].
Defined.

Lemma users_converge_witness : sys_queue uc_rest = ∅ /\ user_synced "alice" (sys_state uc_rest).
Proof.
  destruct (users_converge uc_not_found (take_first "") uc_started uc_started)
    as [Hq Hs]; [reflexivity|apply takes_first|unfold started; reflexivity|apply rtc_refl|exact uc_named|].
  split; [exact Hq|apply Hs].
Defined.

Definition pc_zero : ZoneUsageProfileSpec := {| UpstreamSpec := {| NamespaceCount := 0; Resources := ∅ |} |}.

Definition pc_started : system profile_state string :=
  {| sys_state := ps_before; sys_queue := profile_requests ps_before |}.

Definition pc_rest : system profile_state string :=
  drain (ZoneUsageProfileSyncReconciler_Reconcile pc_zero) profile_watch (profile_answer uc_not_found)
    (take_first "") (2 * size (sys_queue pc_started)) pc_started.

Lemma pc_named : profiles_named ps_before.
Proof. intros name u. unfold ps_before. simpl. rewrite lookup_singleton_Some. by intros [<- <-]. Qed.

Lemma pc_rest_empty : sys_queue pc_rest = ∅.
Proof.
  pose proof (profile_settles uc_not_found pc_zero eq_refl) as HS.
  refine (proj1 (converges _ _ profile_requests id _ _ anything profile_in_order profiles_named (take_first "")
    pc_started pc_started (takes_first "") _ (rtc_refl _ _) pc_named)).
  unfold started. reflexivity.
Qed.

Lemma profiles_in_order_witness : profile_in_order "default" (sys_state pc_rest).
Proof.
  refine (profiles_in_order pc_zero pc_started pc_rest _ _ pc_rest_empty "default").
  - unfold started. reflexivity.
  - pose proof (profile_settles uc_not_found pc_zero eq_refl) as HS.
    eapply drain_steps; [by eapply settles_answer|apply takes_first].
Defined.

Lemma profiles_converge_witness :
  sys_queue pc_rest = ∅ /\ profile_in_order "default" (sys_state pc_rest).
Proof.
  destruct (profiles_converge pc_zero uc_not_found (take_first "") pc_started pc_started)
    as [Hq Hs]; [reflexivity|apply takes_first|unfold started; reflexivity|apply rtc_refl|exact pc_named|].
  split; [exact Hq|apply Hs].
Defined.
