(* ===== verification/Transformers.v ===== *)
(** * Overrides of resource quotas (controllers/transformers/resourcequota.go)

    The annotations of a namespace that start with the base override the hard limits of the
    resource quotas that are applied to it. *)
From S2P Require Import Prelude GoStd Kube Fake.

(** ** [transformers.Transformer]

    A transformer changes an unstructured object in place and may return an error; the object
    after the call is the first component. *)
Class Transformer (T : Type) := Transform : T -> json -> Namespace -> json * option error.

(** [encoding/json] into a [map[string]string], and the accessors of unstructured objects that
    the transformer uses. *)
Class JSONLib := json_Unmarshal : string -> error + gmap string string.

Class ObjectLib := {
  u_GroupVersionKind : json -> GroupVersionKind;
  u_GetName : json -> string;
  (** the object afterwards, and the error *)
  u_SetNestedField : json -> string -> list string -> json * option error;
}.

(** [SetNestedField] sets the value at the path, where it creates objects that are missing, and
    fails, without a change, when a value on the way is not an object. *)
Fixpoint json_set (p : list string) (v : json) (j : json) : option json :=
  match p, j with
  | [], _ => Some v
  | k :: p', JObj o =>
      c ← json_set p' v (default (JObj ∅) (o !! k)); Some (JObj (<[k := c]> o))
  | _ :: _, _ => None
  end.

Class ObjectLaws `{ObjectLib} : Prop := {
  SetNestedField_spec j v p :
    match json_set p (JStr v) j with
    | Some j' => u_SetNestedField j v p = (j', None)
    | None => exists err, u_SetNestedField j v p = (j, Some err)
    end;
}.

Record resourceQuotaTransformer := { LabelBase : string }.

Definition NewResourceQuotaTransformer (labelBase : string) : resourceQuotaTransformer :=
  {| LabelBase := strings.TrimSuffix labelBase "/" +:+ "/" |}.

Definition resourceQuotaSpecHardPath : list string := ["spec"; "hard"].
Definition resourceQuotaV1gvk : GroupVersionKind :=
  {| gvk_Group := ""; gvk_Version := "v1"; gvk_Kind := "ResourceQuota" |}.

Record kv := { kv_k : string; kv_v : string }.

Section transformer.
Context `{RangeOracle} `{Multierr} `{JSONLib} `{ObjectLib}.

(** [overrides[objName] = append(overrides[objName], kv{...})] *)
Definition append_override (overrides : gmap string (list kv)) (objName : string) (o : kv) :=
  <[objName := default [] (overrides !! objName) ++ [o]]> overrides.

(** The body of the loop over the annotations: the overrides and the errors so far. *)
Definition override_step (base : string) (acc : gmap string (list kv) * list (option error))
    (annotation : string * string) : gmap string (list kv) * list (option error) :=
  let '(overrides, errors) := acc in
  let '(k, v) := annotation in
  if negb (strings.HasPrefix k base) then (overrides, errors) else
  let '(objName, key, ok) := strings.Cut (strings.TrimPrefix k base) "." in
  if negb ok
  then (overrides, errors ++ [Some (ErrorString ("invalid annotation " +:+ strconv.Quote k))]) else
  if bool_decide (key = "storageclasses") then
    match json_Unmarshal v with
    | inl err =>
        (overrides, errors ++ [Some (WrapError "failed to unmarshal storageclasses: " err "")])
    | inr conf =>
        (foldl (fun overrides '(k, v) =>
           if strings.Contains k "storageclass.storage.k8s.io"
           then append_override overrides objName {| kv_k := k; kv_v := v |} else overrides)
          overrides (range_map 1 conf), errors)
    end
  else (append_override overrides objName
         {| kv_k := strings.ReplaceAll key "_" "/"; kv_v := v |}, errors).

Definition overridesFromObj (l : resourceQuotaTransformer) (obj : Namespace)
    : gmap string (list kv) * option error :=
  let '(overrides, errors) :=
    foldl (override_step (LabelBase l)) (∅, []) (range_map 0 (ns_Annotations obj)) in
  (overrides, multierr_Combine errors).

(** The loop that sets the overrides: the object and the errors so far. *)
Definition set_override (acc : json * list (option error)) (ov : kv)
    : json * list (option error) :=
  let '(u, errors) := acc in
  let '(u, err) := u_SetNestedField u (kv_v ov) (resourceQuotaSpecHardPath ++ [kv_k ov]) in
  (u, errors ++ [err]).

#[export] Instance resourceQuotaTransformer_Transform : Transformer resourceQuotaTransformer :=
  fun l u contextNs =>
    if negb (bool_decide (u_GroupVersionKind u = resourceQuotaV1gvk)) then (u, None) else
    let '(parsed, parseErr) := overridesFromObj l contextNs in
    match parsed !! u_GetName u with
    | None => (u, parseErr)
    | Some ovs =>
        let '(u, errors) := foldl set_override (u, [parseErr]) ovs in
        (u, multierr_Combine errors)
    end.

(** ** Specification *)

(** The annotation [annotation] overrides the key [key] of the quota [name] with [v]. *)
Inductive overrides_key (base name key v : string) : string * string -> Prop :=
| override_plain k rest :
    strings.HasPrefix k base = true -> strings.Cut (strings.TrimPrefix k base) "." = (name, rest, true) ->
    rest <> "storageclasses" -> key = strings.ReplaceAll rest "_" "/" ->
    overrides_key base name key v (k, v)
| override_storageclass k raw conf :
    strings.HasPrefix k base = true ->
    strings.Cut (strings.TrimPrefix k base) "." = (name, "storageclasses", true) ->
    json_Unmarshal raw = inr conf -> conf !! key = Some v ->
    strings.Contains key "storageclass.storage.k8s.io" = true ->
    overrides_key base name key v (k, raw).
End transformer.

(** ** Example: an override of the quota [compute] with a plain key and a storage class *)
Definition tf_object : json :=
  JObj {["spec" := JObj {["hard" := JObj {["limits.cpu" := JStr "4"]}]}]}.

Definition fake_json : JSONLib := fun s =>
  if bool_decide (s = "{gold}")
  then inr {["gold.storageclass.storage.k8s.io/pvcs" := "5"; "other" := "1"]}
  else inl (ErrorString "invalid character").

Definition fake_SetNestedField (j : json) (v : string) (p : list string) : json * option error :=
  match json_set p (JStr v) j with
  | Some j' => (j', None)
  | None => (j, Some (ErrorString "value cannot be set"))
  end.

Definition fake_objects : ObjectLib := {|
  u_GroupVersionKind := fun _ => resourceQuotaV1gvk;
  u_GetName := fun _ => "compute";
  u_SetNestedField := fake_SetNestedField;
|}.

Definition tf_transformer : resourceQuotaTransformer := NewResourceQuotaTransformer "resourcequota.appuio.io".

Definition tf_namespace : Namespace := {|
  ns_Name := "web"; ns_Labels := ∅; ns_DeletionTimestamp := None;
  ns_Annotations := {["resourcequota.appuio.io/compute.limits.cpu" := "8";
                      "resourcequota.appuio.io/compute.storageclasses" := "{gold}"]} |}.

(** ** Lemmas: setting a value *)

Lemma json_set_path p v j j' : json_set p v j = Some j' -> json_path p j' = Some v.
Proof.
  revert j j'. induction p as [|k p IH]; intros j j' E; simpl in E; [by simplify_eq|].
  destruct j; try done. apply bind_Some in E as (c & E & [= <-]).
  simpl. rewrite lookup_insert_eq. by apply (IH _ _ E).
Qed.

Lemma json_path_nothing q : q <> [] -> json_path q (JObj ∅) = None.
Proof. by destruct q. Qed.

Lemma json_set_other p v j j' q :
  json_set p v j = Some j' -> ~ p `prefix_of` q -> ~ q `prefix_of` p -> json_path q j' = json_path q j.
Proof.
  revert j j' q. induction p as [|k p IH]; intros j j' q E Hp Hq; [destruct Hp; apply prefix_nil|].
  destruct q as [|k' q]; [destruct Hq; apply prefix_nil|]. simpl in E. destruct j; try done.
  apply bind_Some in E as (c & E & [= <-]). simpl.
  destruct (decide (k = k')) as [<-|Hk]; [|by rewrite lookup_insert_ne].
  rewrite lookup_insert_eq. simpl.
  assert (Hp' : ~ p `prefix_of` q) by (intros ?; by apply Hp, prefix_cons).
  assert (Hq' : ~ q `prefix_of` p) by (intros ?; by apply Hq, prefix_cons).
  rewrite (IH _ _ _ E Hp' Hq'). destruct (o !! k) as [c'|]; simpl; [done|].
  apply json_path_nothing. intros ->. apply Hq', prefix_nil.
Qed.

Section lemmas.
Context `{RangeOracle} `{MultierrLaws} `{JSONLib} `{ObjectLaws}.

(** The overrides found for a quota. *)
Definition found (name : string) (overrides : gmap string (list kv)) : list kv :=
  default [] (overrides !! name).

Lemma append_override_elem overrides o x name y :
  y ∈ found name (append_override overrides o x) <-> y ∈ found name overrides \/ name = o /\ y = x.
Proof.
  unfold found, append_override. destruct (decide (name = o)) as [->|Hn].
  - rewrite lookup_insert_eq. simpl. rewrite elem_of_app, list_elem_of_singleton. naive_solver.
  - rewrite lookup_insert_ne by done. naive_solver.
Qed.

Lemma append_override_dom overrides o x name :
  is_Some (append_override overrides o x !! name) <-> is_Some (overrides !! name) \/ name = o.
Proof.
  unfold append_override. destruct (decide (name = o)) as [->|Hn].
  - rewrite lookup_insert_eq. split; [by right|by eexists].
  - rewrite lookup_insert_ne by done. naive_solver.
Qed.

Lemma storageclasses_elem objName (l : list (string * string)) overrides name key v :
  {| kv_k := key; kv_v := v |} ∈ found name (foldl (fun overrides '(k, v) =>
     if strings.Contains k "storageclass.storage.k8s.io"
     then append_override overrides objName {| kv_k := k; kv_v := v |} else overrides) overrides l) <->
  {| kv_k := key; kv_v := v |} ∈ found name overrides \/
  name = objName /\ (key, v) ∈ l /\ strings.Contains key "storageclass.storage.k8s.io" = true.
Proof.
  revert overrides. induction l as [|[k w] l IH]; intros overrides; simpl.
  { rewrite elem_of_nil. naive_solver. }
  rewrite IH, elem_of_cons. destruct (strings.Contains k _) eqn:Ek.
  - rewrite append_override_elem. split.
    + intros [[?|[-> [= -> ->]]]|(-> & ? & ?)]; [by left|right..]; (split_and!; [done|auto..]).
    + intros [?|(-> & [[= -> ->]|?] & ?)]; [by left; left|by left; right|by right].
  - split.
    + intros [?|(-> & ? & ?)]; [by left|right]. (split_and!; [done|auto..]).
    + intros [?|(-> & [[= -> ->]|?] & ?)]; [by left|congruence|by right].
Qed.

Lemma override_step_elem base acc a name key v :
  {| kv_k := key; kv_v := v |} ∈ found name (override_step base acc a).1 <->
  {| kv_k := key; kv_v := v |} ∈ found name acc.1 \/ overrides_key base name key v a.
Proof.
  destruct acc as [overrides errs], a as [k w]. unfold override_step.
  destruct (strings.HasPrefix k base) eqn:Ep; simpl.
  2:{ split; [by left|]. intros [|Ho]; [done|]. inversion Ho; congruence. }
  destruct (strings.Cut _ _) as [[objName rest] ok] eqn:Ec. destruct ok; simpl.
  2:{ split; [by left|]. intros [|Ho]; [done|]. inversion Ho; congruence. }
  case_bool_decide as Hs.
  - subst rest. destruct (json_Unmarshal w) as [err|conf] eqn:Ej; simpl.
    { split; [by left|]. intros [|Ho]; [done|]. inversion Ho; congruence. }
    rewrite storageclasses_elem, range_map_elem. split.
    + intros [?|(-> & ? & ?)]; [by left|right]. by eapply override_storageclass.
    + intros [?|Ho]; [by left|right]. inversion Ho; subst; split_and!; congruence.
  - cbn [fst]. rewrite append_override_elem. split.
    + intros [?|[-> [= -> ->]]]; [by left|right]. by eapply override_plain.
    + intros [?|Ho]; [by left|right]. inversion Ho; subst; split_and!; congruence.
Qed.

Lemma overridesFromObj_elem l ns name key v :
  {| kv_k := key; kv_v := v |} ∈ found name (overridesFromObj l ns).1 <->
  exists k w, ns_Annotations ns !! k = Some w /\ overrides_key (LabelBase l) name key v (k, w).
Proof.
  unfold overridesFromObj.
  assert (Hf : forall annotations acc,
    {| kv_k := key; kv_v := v |} ∈ found name (foldl (override_step (LabelBase l)) acc annotations).1 <->
    {| kv_k := key; kv_v := v |} ∈ found name acc.1 \/
    exists k w, (k, w) ∈ annotations /\ overrides_key (LabelBase l) name key v (k, w)).
  { induction annotations as [|[k w] annotations IH]; intros acc; simpl.
    - split; [by left|]. intros [|(? & ? & []%not_elem_of_nil & _)]; done.
    - rewrite IH, override_step_elem. setoid_rewrite elem_of_cons. naive_solver. }
  specialize (Hf (range_map 0 (ns_Annotations ns)) (∅, [])).
  destruct (foldl _ _ _) as [overrides errors]. simpl in *. rewrite Hf. split.
  - intros [Hn|(k & w & Hin & ?)]; [by apply not_elem_of_nil in Hn|]. rewrite range_map_elem in Hin. eauto.
  - intros (k & w & Hin & ?). right. exists k, w. by rewrite range_map_elem.
Qed.

Definition hard (key : string) : list string := resourceQuotaSpecHardPath ++ [key].

Lemma hard_unrelated k k' : k <> k' -> ~ hard k `prefix_of` hard k'.
Proof.
  intros Hk [r Hr]. unfold hard in Hr. rewrite <- app_assoc in Hr. apply app_inj_1 in Hr as [_ Hr]; [|done].
  by simplify_eq/=.
Qed.

(** The loop that sets the overrides, when none fails. *)
Lemma set_overrides (ovs : list kv) u errs u' errs' :
  foldl set_override (u, errs) ovs = (u', errs') -> Forall (fun e => e = None) errs' ->
  Forall (fun e => e = None) errs /\
  (forall key, (exists v, {| kv_k := key; kv_v := v |} ∈ ovs /\ json_path (hard key) u' = Some (JStr v)) \/
     (forall v, {| kv_k := key; kv_v := v |} ∉ ovs) /\ json_path (hard key) u' = json_path (hard key) u) /\
  forall q, ~ resourceQuotaSpecHardPath `prefix_of` q -> ~ q `prefix_of` resourceQuotaSpecHardPath ->
    json_path q u' = json_path q u.
Proof.
  revert u errs. induction ovs as [|[k v] ovs IH]; intros u errs E Herr; cbn [foldl] in E.
  { simplify_eq. split_and!; [done| |done]. intros key. right. split; [|done]. intros v. apply not_elem_of_nil. }
  unfold set_override at 2 in E. cbn [kv_k kv_v] in E. fold (hard k) in E.
  destruct (u_SetNestedField u v (hard k)) as [u1 e1] eqn:Es.
  destruct (IH _ _ E Herr) as (He & Hkeys & Hother). apply Forall_app in He as [He He1].
  apply Forall_singleton in He1 as ->.
  pose proof (SetNestedField_spec u v (hard k)) as Hset. rewrite Es in Hset.
  destruct (json_set (hard k) (JStr v) u) as [j'|] eqn:Ej; [|by destruct Hset].
  injection Hset as <-. split; [done|]. split.
  - intros key. destruct (Hkeys key) as [(w & Hw & Hp)|[Hno Hp]]; [left; exists w; split; [by right|done]|].
    destruct (decide (key = k)) as [->|Hk].
    + left. exists v. split; [left|]. rewrite Hp. by eapply json_set_path.
    + right. split; [|rewrite Hp; eapply json_set_other; [done|by apply hard_unrelated..]].
      intros w [[= -> ->]|Hin]%elem_of_cons; [done|by eapply Hno].
  - intros q Hq1 Hq2. rewrite Hother by done. eapply json_set_other; [done|..].
    + intros Hp. apply Hq1. etrans; [|exact Hp]. by apply prefix_app_r.
    + intros [r Hr]. destruct r as [|x r _] using rev_ind.
      * apply Hq1. exists [k]. by rewrite app_nil_r in Hr.
      * apply Hq2. exists r. unfold hard in Hr. rewrite app_assoc in Hr.
        by apply app_inj_tail in Hr as [-> _].
Qed.
End lemmas.

(** ** Properties *)
Section properties.
Context `{RangeOracle} `{MultierrLaws} `{JSONLib} `{ObjectLaws}.

(** C26: a resource quota that is transformed without an error has, for every key that an
    annotation of the namespace overrides, the value of such an annotation; every other hard
    limit and everything outside of the hard limits is as before, and objects of other kinds
    are not changed. *)
Theorem Transform_overrides l u ns u' :
  Transform l u ns = (u', None) ->
  (u_GroupVersionKind u <> resourceQuotaV1gvk -> u' = u) /\
  (u_GroupVersionKind u = resourceQuotaV1gvk -> forall key,
    let overriding v := exists k w, ns_Annotations ns !! k = Some w /\
      overrides_key (LabelBase l) (u_GetName u) key v (k, w) in
    (exists v, overriding v /\ json_path (hard key) u' = Some (JStr v)) \/
    (forall v, ~ overriding v) /\ json_path (hard key) u' = json_path (hard key) u) /\
  forall q, ~ resourceQuotaSpecHardPath `prefix_of` q -> ~ q `prefix_of` resourceQuotaSpecHardPath ->
    json_path q u' = json_path q u.
Proof.
  unfold Transform, resourceQuotaTransformer_Transform.
  case_bool_decide as Hk; cbn [negb]; [|by intros [= <-]]. intros E. split; [done|].
  pose proof (overridesFromObj_elem l ns (u_GetName u)) as Hel.
  destruct (overridesFromObj l ns) as [parsed parseErr]. unfold found in Hel. simpl in Hel.
  destruct (parsed !! u_GetName u) as [ovs|]; simpl in Hel.
  - destruct (foldl set_override (u, [parseErr]) ovs) as [u1 errs] eqn:Ef.
    injection E as <- Herr. apply multierr_Combine_nil in Herr.
    destruct (set_overrides _ _ _ _ _ Ef Herr) as (_ & Hkeys & Hother). split; [|done].
    intros _ key. destruct (Hkeys key) as [(v & Hv & Hp)|[Hno Hp]].
    + left. exists v. by rewrite <- Hel.
    + right. split; [|done]. intros v Hv. apply (Hno v). by apply Hel.
  - injection E as <- _. split; [|done]. intros _ key. right. split; [|done].
    intros v Hv%Hel. by apply not_elem_of_nil in Hv.
Qed.
End properties.

(** ** The theorem on the example *)
Import Fake.
#[local] Existing Instances fake_json fake_objects.

Lemma fake_objects_laws : ObjectLaws.
Proof.
  split. intros j v p. simpl. unfold fake_SetNestedField. destruct (json_set _ _ _); [done|].
  by eexists.
Qed.

#[local] Existing Instance fake_objects_laws.

Definition tf_result : json :=
  JObj {["spec" := JObj {["hard" := JObj {["limits.cpu" := JStr "8";
    "gold.storageclass.storage.k8s.io/pvcs" := JStr "5"]}]}]}.

Lemma Transform_overrides_witness :
  Transform tf_transformer tf_object tf_namespace = (tf_result, None) /\
  json_path (hard "limits.cpu") tf_result <> json_path (hard "limits.cpu") tf_object /\
  exists v k w, ns_Annotations tf_namespace !! k = Some w /\
    overrides_key (LabelBase tf_transformer) "compute" "limits.cpu" v (k, w).
Proof.
  assert (Ht : Transform tf_transformer tf_object tf_namespace = (tf_result, None)) by (by vm_compute).
  assert (Hne : json_path (hard "limits.cpu") tf_result <> json_path (hard "limits.cpu") tf_object)
    by (by vm_compute).
  split; [exact Ht|]. split; [exact Hne|].
  destruct (Transform_overrides tf_transformer tf_object tf_namespace tf_result Ht) as (_ & Ho & _).
  destruct (Ho eq_refl "limits.cpu") as [(v & (k & w & Hk & Hv) & _)|[_ Hsame]]; [|done].
  exists v, k, w. split; [exact Hk|exact Hv].
Defined.
