(* ===== verification/UsageProfile.v ===== *)
(** * The application of usage profiles (controllers/zoneusageprofileapply_controller.go)

    The reconciler that applies the resources of a profile to every namespace of an organization,
    refuses objects that another profile owns, and watches what it applies. *)
From S2P Require Import Prelude GoStd Kube Fake Api Transformers Effects.

Record ZoneUsageProfileApplyReconciler {T} := {
  (** whether [Cache] and [controller] are set *)
  ua_ready : bool;
  ua_OrganizationLabel : string;
  ua_Transformers : list T;
  ua_SelectedProfile : string;
}.
Arguments ZoneUsageProfileApplyReconciler : clear implicits.

Definition resourceOwnerLabel : string := "cloud-agent.appuio.io/usage-profile".

(** The accessors of unstructured objects that the reconciler calls, the conversion of raw
    resources, and [SetControllerReference]; setters change the object in place. *)
Class MetadataLib := {
  ToUnstructured : json -> error + json;
  gvk_Empty : GroupVersionKind -> bool;
  gvk_String : GroupVersionKind -> string;
  u_New : GroupVersionKind -> json;
  u_SetNamespace : string -> json -> json;
  u_SetName : string -> json -> json;
  u_SetLabels : gmap string string -> json -> json;
  u_SetControllerReference : string -> json -> error + json;
}.

(** The setters change the metadata only. *)
Definition same_outside_metadata (j j' : json) : Prop :=
  forall k q, k <> "metadata" -> json_path (k :: q) j' = json_path (k :: q) j.

Class MetadataLaws `{MetadataLib} `{UnstructuredLib} : Prop := {
  SetNamespace_outside n j : same_outside_metadata j (u_SetNamespace n j);
  SetName_outside n j : same_outside_metadata j (u_SetName n j);
  SetLabels_outside m j : same_outside_metadata j (u_SetLabels m j);
  SetLabels_labels m j : u_GetLabels (u_SetLabels m j) = m;
  SetControllerReference_outside o j j' :
    u_SetControllerReference o j = inr j' -> same_outside_metadata j j';
}.

(** The calls of the reconciler.  [LoadOrStoreOnce] is the use of the watch tracker: whether the
    function of the [Once] has run, and from now on it has. *)
Inductive apply_call : Type -> Type :=
| FetchProfile (name : string) : apply_call (error + ZoneUsageProfile)
| ListNamespaces (opts : list ListOption) : apply_call (error + list Namespace)
| Now : apply_call Z
| CreateOrUpdateObject (u : json) (gvk : GroupVersionKind) (key : ObjectKey)
    (mutate : json -> error + json) : apply_call (json * option error)
| LoadOrStoreOnce (gvk : GroupVersionKind) : apply_call bool
| Watch (gvk : GroupVersionKind) : apply_call (option error)
| RecordApplyEvent (profile type reason message : string) : apply_call unit.

Section reconcile.
Context `{RangeOracle} `{ApiErrors} `{Multierr} `{UnstructuredLib} `{ObjectLib} `{MetadataLib}.
Context `{Transformer T}.
Implicit Types r : ZoneUsageProfileApplyReconciler T.

Definition ensureWatch r (gvk : GroupVersionKind) : prog apply_call (option error) :=
  if negb (ua_ready r)
  then mret (Some (ErrorString "no cache or controller available, unable to install dynamic watch"))
  else if gvk_Empty gvk
  then mret (Some (ErrorString "unable to watch empty GroupVersionKind"))
  else
    ran ← trigger (LoadOrStoreOnce gvk);
    if ran : bool then mret None else trigger (Watch gvk).

(** The loop over the transformers: errors are logged only. *)
Definition transform_all (ts : list T) (u : json) (ns : Namespace) : json :=
  foldl (fun u t => (Transform t u ns).1) u ts.

(** The function passed to [CreateOrUpdate], for the object as it is in the cluster. *)
Definition set_content r (name : string) (orgNs : Namespace) (raw : json)
    (profile : ZoneUsageProfile) (u : json) : error + json :=
  let lbls := u_GetLabels u in
  let u := u_SetName name (u_SetNamespace (ns_Name orgNs) raw) in
  try u <- u_SetControllerReference (zup_Name profile) u
    catch err => inl (WrapError "unable to set controller reference: " err "");;
  let u := transform_all (ua_Transformers r) u orgNs in
  let owner := lbls !! resourceOwnerLabel in
  match owner with
  | Some p =>
      if negb (bool_decide (p = zup_Name profile))
      then inl (ErrorString ("conflict: resource " +:+ strconv.Quote (gvk_String (u_GroupVersionKind u))
        +:+ "/" +:+ strconv.Quote name +:+ " in " +:+ strconv.Quote (ns_Name orgNs) +:+
        " already has a different UsageProfile applied: " +:+ p))
      else inr (u_SetLabels (<[resourceOwnerLabel := zup_Name profile]> lbls) u)
  | None => inr (u_SetLabels (<[resourceOwnerLabel := zup_Name profile]> lbls) u)
  end.

Definition applyResourceToNamespace r (name : string) (orgNs : Namespace) (resource : json)
    (profile : ZoneUsageProfile) : prog apply_call (option error) :=
  match ToUnstructured resource with
  | inl err => mret (Some (WrapError "unable to convert RawExtension to Unstructured: " err ""))
  | inr raw =>
      let gvk := u_GroupVersionKind raw in
      let u := u_SetName name (u_SetNamespace (ns_Name orgNs) (u_New gvk)) in
      '(u, err) ← trigger (CreateOrUpdateObject u gvk
        {| key_Namespace := ns_Name orgNs; key_Name := name |} (set_content r name orgNs raw profile));
      watch_err ← ensureWatch r (u_GroupVersionKind u);
      match watch_err with
      | Some e => mret (Some (WrapError "unable to watch, object might not be reconciled: " e ""))
      | None => mret err
      end
  end.

(** The body of the loop over the resources. *)
Definition apply_one r (orgNs : Namespace) (profile : ZoneUsageProfile) (resource : string * json)
    : prog apply_call (option error) :=
  let '(name, resource) := resource in
  err ← applyResourceToNamespace r name orgNs resource profile;
  match err with
  | Some e =>
      _ ← trigger (RecordApplyEvent (zup_Name profile) "Warning" "ApplyFailed"
        ("unable to create or update resource " +:+ strconv.Quote name +:+ " in " +:+
         strconv.Quote (ns_Name orgNs) +:+ ": " +:+ errors.Error e));
      mret (Some e)
  | None => mret None
  end.

(** A namespace is skipped when its deletion lies in the past. *)
Definition deleted_already (orgNs : Namespace) : prog apply_call bool :=
  match ns_DeletionTimestamp orgNs with
  | None => mret false
  | Some t => now ← trigger Now; mret (t <? now)%Z
  end.

(** The body of the loop over the namespaces; [i] numbers its iterations. *)
Definition apply_to_namespace r (profile : ZoneUsageProfile) (entry : nat * Namespace)
    : prog apply_call (list (option error)) :=
  let '(i, orgNs) := entry in
  skip ← deleted_already orgNs;
  if skip : bool then mret []
  else for_each (range_map i (Resources (UpstreamSpec (zup_Spec profile)))) (apply_one r orgNs profile).

Definition ZoneUsageProfileApplyReconciler_Reconcile r (name : string)
    : prog apply_call (option error) :=
  if negb (bool_decide (ua_SelectedProfile r = "")) &&
     negb (bool_decide (ua_SelectedProfile r = name)) then mret None else
  got ← trigger (FetchProfile name);
  match got with
  | inl err => mret (client_IgnoreNotFound (Some err))
  | inr profile =>
      got ← trigger (ListNamespaces [HasLabels [ua_OrganizationLabel r]]);
      match got with
      | inl err => mret (Some err)
      | inr namespaces =>
          errs ← for_each (imap pair namespaces) (apply_to_namespace r profile);
          mret (multierr_Combine (filter is_Some (mjoin errs)))
      end
  end.

(** The requests that a change of a namespace causes. *)
Definition mapToAllUsageProfiles (list_profiles : error + ZoneUsageProfileList) : list string :=
  match list_profiles with
  | inl _ => []
  | inr profiles => zup_Name <$> zupl_Items profiles
  end.
End reconcile.

(** ** The cluster, and the watches of the agent *)
#[export] Instance GroupVersionKind_countable : Countable GroupVersionKind :=
  inj_countable' (fun g => (gvk_Group g, gvk_Version g, gvk_Kind g))
    (fun '(g, v, k) => {| gvk_Group := g; gvk_Version := v; gvk_Kind := k |}) ltac:(by intros []).

Record apply_state := {
  as_profiles : gmap string ZoneUsageProfile;
  as_namespaces : list Namespace;
  as_objects : gmap (GroupVersionKind * ObjectKey) json;
  as_tracker : gset GroupVersionKind;     (** whose [Once] has run *)
  as_watches : list GroupVersionKind;     (** that are installed *)
  as_ListError : option error;            (** of listing the profiles, when that fails *)
}.

Definition set_objects (objects : gmap (GroupVersionKind * ObjectKey) json) (s : apply_state)
    : apply_state := {|
  as_profiles := as_profiles s; as_namespaces := as_namespaces s; as_objects := objects;
  as_tracker := as_tracker s; as_watches := as_watches s; as_ListError := as_ListError s |}.

Definition set_tracker (tracker : gset GroupVersionKind) (s : apply_state) : apply_state := {|
  as_profiles := as_profiles s; as_namespaces := as_namespaces s; as_objects := as_objects s;
  as_tracker := tracker; as_watches := as_watches s; as_ListError := as_ListError s |}.

Definition add_watch (gvk : GroupVersionKind) (s : apply_state) : apply_state := {|
  as_profiles := as_profiles s; as_namespaces := as_namespaces s; as_objects := as_objects s;
  as_tracker := as_tracker s; as_watches := as_watches s ++ [gvk]; as_ListError := as_ListError s |}.

(** A list request answers with the namespaces that match, or fails. *)
Inductive list_step (opts : list ListOption) (s : apply_state)
    : error + list Namespace -> apply_state -> Prop :=
| list_found : list_step opts s
    (inr (filter (fun ns => Forall (fun opt => list_option_matches opt ns) opts) (as_namespaces s))) s
| list_failed err : list_step opts s (inl err) s.

Inductive write_object_step (u : json) (gvk : GroupVersionKind) (key : ObjectKey)
    (mutate : json -> error + json) (s : apply_state) : json * option error -> apply_state -> Prop :=
| write_object err m u' :
    created_or_updated (gvk, key) u mutate (as_objects s) err m ->
    write_object_step u gvk key mutate s (u', err) (set_objects m s).

Inductive once_step (gvk : GroupVersionKind) (s : apply_state) : bool -> apply_state -> Prop :=
| once_ran : once_step gvk s (bool_decide (gvk ∈ as_tracker s)) (set_tracker ({[gvk]} ∪ as_tracker s) s).

Inductive watch_step (gvk : GroupVersionKind) (s : apply_state) : option error -> apply_state -> Prop :=
| watch_done : watch_step gvk s None (add_watch gvk s)
| watch_failed err : watch_step gvk s (Some err) s.

Inductive any_step {X} (s : apply_state) : X -> apply_state -> Prop :=
| any x : any_step s x s.

Definition apply_step `{ApiErrors} X (c : apply_call X) : apply_state -> X -> apply_state -> Prop :=
  match c in apply_call X return apply_state -> X -> apply_state -> Prop with
  | FetchProfile name => read_step as_profiles name
  | ListNamespaces opts => list_step opts
  | Now => any_step
  | CreateOrUpdateObject u gvk key mutate => write_object_step u gvk key mutate
  | LoadOrStoreOnce gvk => once_step gvk
  | Watch gvk => watch_step gvk
  | RecordApplyEvent _ _ _ _ => any_step
  end.

(** ** Specification *)

(** An object that belongs to another profile than [name], where profiles have their own name. *)
Record owned_elsewhere (name : string) (key : GroupVersionKind * ObjectKey) (obj : json)
    (s : apply_state) : Prop := {
  owned_object : as_objects s !! key = Some obj;
  owned_names : forall n p, as_profiles s !! n = Some p -> zup_Name p = n;
}.

Section applied.
Context `{UnstructuredLib} `{ObjectLib} `{MetadataLib} `{Transformer T}.
Implicit Types r : ZoneUsageProfileApplyReconciler T.

(** Where the resource [raw] with name [rname] of a profile is put. *)
Definition resource_key (ns : Namespace) (rname : string) (raw : json) : GroupVersionKind * ObjectKey :=
  (u_GroupVersionKind raw, {| key_Namespace := ns_Name ns; key_Name := rname |}).

(** The resource is in place: the object that was there, or a new one, got its content. *)
Definition applied r (profile : ZoneUsageProfile) (ns : Namespace) (rname : string) (raw : json)
    (old new : option json) : Prop :=
  exists u', set_content r rname ns raw profile
      (default (u_SetName rname (u_SetNamespace (ns_Name ns) (u_New (u_GroupVersionKind raw)))) old) = inr u' /\
    new = Some u'.
End applied.

(** ** Example: the profile [default] with a limit range, for a namespace where the object of
    that name belongs to the profile [other] *)
Definition up_gvk : GroupVersionKind :=
  {| gvk_Group := ""; gvk_Version := "v1"; gvk_Kind := "ResourceQuota" |}.

Definition up_metadata (labels : gmap string string) : json :=
  JObj {["metadata" := JObj {["labels" := json_of_map labels]}]}.

(** Setters that only know the labels. *)
Definition fake_SetLabels (m : gmap string string) (j : json) : json :=
  match j with
  | JObj o => JObj (<["metadata" := JObj {["labels" := json_of_map m]}]> o)
  | _ => JObj {["metadata" := JObj {["labels" := json_of_map m]}]}
  end.

Definition up_raw : json := JObj {["spec" := JStr "limits"; "metadata" := JNull]}.

Definition up_profile : ZoneUsageProfile := {|
  zup_Name := "default";
  zup_Spec := {| UpstreamSpec := {| NamespaceCount := 5; Resources := {["limits" := up_raw]} |} |} |}.

Definition up_namespace : Namespace := {|
  ns_Name := "web"; ns_Labels := {["organization" := "acme"]}; ns_Annotations := ∅;
  ns_DeletionTimestamp := None |}.

Definition up_reconciler : ZoneUsageProfileApplyReconciler resourceQuotaTransformer := {|
  ua_ready := true; ua_OrganizationLabel := "organization"; ua_Transformers := [];
  ua_SelectedProfile := "default" |}.

Definition up_object : json := up_metadata {[resourceOwnerLabel := "other"]}.

Definition up_key : GroupVersionKind * ObjectKey :=
  (up_gvk, {| key_Namespace := "web"; key_Name := "limits" |}).

Definition up_state : apply_state := {|
  as_profiles := {["default" := up_profile]}; as_namespaces := [up_namespace];
  as_objects := {[up_key := up_object]}; as_tracker := ∅; as_watches := []; as_ListError := None |}.

(** ** Lemmas *)

Lemma same_outside_metadata_trans j1 j2 j3 :
  same_outside_metadata j1 j2 -> same_outside_metadata j2 j3 -> same_outside_metadata j1 j3.
Proof. intros E1 E2 k q Hk. by rewrite E2, E1. Qed.

Section lemmas.
Context `{RangeOracle} `{ApiErrors} `{Multierr} `{UnstructuredLib} `{ObjectLib} `{MetadataLib}.
Context `{Transformer T}.
Implicit Types r : ZoneUsageProfileApplyReconciler T.

(** The conflict check. *)
Lemma set_content_conflict r name ns raw profile u p :
  u_GetLabels u !! resourceOwnerLabel = Some p -> p <> zup_Name profile ->
  exists err, set_content r name ns raw profile u = inl err.
Proof.
  intros Ho Hp. unfold set_content. destruct (u_SetControllerReference _ _); [eauto|].
  rewrite Ho, bool_decide_eq_false_2 by done. simpl. eauto.
Qed.

Section safety.
Context (env : apply_state -> apply_state -> Prop).
Context (name p : string) (key : GroupVersionKind * ObjectKey) (obj : json).
Context (Hstable : stable env (owned_elsewhere name key obj)).
Context (Howner : u_GetLabels obj !! resourceOwnerLabel = Some p) (Hother : p <> name).

Abbreviation safe := (invariant apply_step env (owned_elsewhere name key obj)).

Lemma ensureWatch_safe r gvk : safe (ensureWatch r gvk).
Proof using Hstable.
  unfold ensureWatch. repeat case_match; try by apply invariant_ret.
  apply invariant_bind; [apply invariant_call; [done|]|].
  - intros s x s' Hs Hx. destruct Hx. destruct Hs. by split.
  - intros []; [by apply invariant_ret|]. apply invariant_call; [done|].
    intros s x s' Hs Hx. destruct Hs, Hx; by split.
Qed.

Lemma apply_one_safe r ns profile resource :
  zup_Name profile = name -> safe (apply_one r ns profile resource).
Proof using Hstable Howner Hother.
  intros Hname. destruct resource as [rname resource]. unfold apply_one, applyResourceToNamespace.
  apply invariant_bind.
  - destruct (ToUnstructured resource) as [err|raw]; [by apply invariant_ret|].
    apply invariant_bind; [apply invariant_call; [done|]|].
    + intros s x s' [Hobj Hnames] Hx. destruct Hx as [err m u' Hm]. split; [|done].
      simpl. inversion Hm as [v Hv|err'|err' v Hv]; subst; [|done|];
        (destruct (decide ((u_GroupVersionKind raw,
          {| key_Namespace := ns_Name ns; key_Name := rname |}) = key)) as [<-|];
          [|by rewrite lookup_insert_ne]);
        rewrite Hobj in Hv; simpl in Hv;
        destruct (set_content_conflict r rname ns raw profile obj p Howner) as [e He]; congruence.
    + intros [u err]. apply invariant_bind; [apply ensureWatch_safe|].
      intros []; by apply invariant_ret.
  - intros [err|]; [|by apply invariant_ret].
    apply invariant_bind; [apply invariant_call; [done|]|].
    + intros s x s' Hs Hx. by destruct Hx.
    + intros []. by apply invariant_ret.
Qed.

Lemma apply_to_namespace_safe r profile entry :
  zup_Name profile = name -> safe (apply_to_namespace r profile entry).
Proof using Hstable Howner Hother.
  intros Hname. destruct entry as [i ns]. unfold apply_to_namespace, deleted_already.
  apply invariant_bind.
  - destruct (ns_DeletionTimestamp ns); [|by apply invariant_ret].
    apply invariant_bind; [apply invariant_call; [done|]|].
    + intros s x s' Hs Hx. by destruct Hx.
    + intros now. by apply invariant_ret.
  - intros []; [by apply invariant_ret|]. apply invariant_for_each; [done|].
    intros [rname resource] _. by apply apply_one_safe.
Qed.
End safety.
End lemmas.

(** ** Lemmas: what the loops write *)
Section loops.
Context `{RangeOracle} `{ApiErrors} `{Multierr} `{UnstructuredLib} `{ObjectLib} `{MetadataLib}.
Context `{Transformer T}.
Implicit Types r : ZoneUsageProfileApplyReconciler T.

Lemma ensureWatch_objects r gvk s res s' :
  exec apply_step alone (ensureWatch r gvk) s res s' -> as_objects s' = as_objects s.
Proof.
  unfold ensureWatch. repeat case_match; try by intros [_ ->]%alone_ret.
  intros (ran & s1 & Hx & Hk)%alone_trigger. destruct Hx.
  case_match; [by apply alone_ret in Hk as [_ ->]|]. apply (alone_call apply_step (Watch gvk)) in Hk.
  by destruct Hk.
Qed.

(** The entries that one iteration of the inner loop changes, and how if it succeeds. *)
Definition resource_keys (ns : Namespace) (entry : string * json) : list (GroupVersionKind * ObjectKey) :=
  match ToUnstructured entry.2 with inr raw => [resource_key ns entry.1 raw] | inl _ => [] end.

Definition resource_post r profile ns (entry : string * json) (res : option error)
    (_ : GroupVersionKind * ObjectKey) (old new : option json) : Prop :=
  res = None -> exists raw, ToUnstructured entry.2 = inr raw /\ applied r profile ns entry.1 raw old new.

Lemma apply_one_exec r ns profile rname resource s res s' :
  exec apply_step alone (apply_one r ns profile (rname, resource)) s res s' ->
  match ToUnstructured resource with
  | inl _ => res <> None /\ as_objects s' = as_objects s
  | inr raw => exists err, created_or_updated (resource_key ns rname raw)
      (u_SetName rname (u_SetNamespace (ns_Name ns) (u_New (u_GroupVersionKind raw))))
      (set_content r rname ns raw profile) (as_objects s) err (as_objects s') /\
      (res = None -> err = None)
  end.
Proof.
  unfold apply_one, applyResourceToNamespace.
  intros (err & s1 & s2 & Hx & ->%rtc_alone & Hr)%exec_bind.
  assert (as_objects s' = as_objects s1 /\ res = err) as [-> ->].
  { destruct err as [e|]; [|by apply alone_ret in Hr as [-> ->]].
    apply alone_trigger in Hr as ([] & s3 & Hx3 & Hr). apply alone_ret in Hr as [-> ->].
    by inversion Hx3. }
  destruct (ToUnstructured resource) as [e|raw]; [by apply alone_ret in Hx as [-> ->]|].
  apply alone_trigger in Hx as ([u werr] & s3 & Hw & Hx). inversion Hw as [e m u' Hm]; subst.
  apply exec_bind in Hx as (watch & s4 & s5 & He & ->%rtc_alone & Hx).
  apply ensureWatch_objects in He. exists werr.
  assert (s1 = s4 /\ (err = None -> werr = None)) as [-> Hok].
  { destruct watch; by apply alone_ret in Hx as [-> ->]. }
  split; [|done]. by rewrite He.
Qed.

Lemma apply_one_footprint r ns profile entry :
  footprint apply_step (apply_one r ns profile) (fun s k => as_objects s !! k)
    (resource_keys ns) (resource_post r profile ns) entry.
Proof.
  destruct entry as [rname resource]. intros s res s' Hx%apply_one_exec. unfold resource_keys, resource_post.
  cbn [fst snd]. destruct (ToUnstructured resource) as [e|raw].
  { destruct Hx as [_ ->]. split; [|done]. by intros k ?%not_elem_of_nil. }
  destruct Hx as (err & Hc & Hok). split; intros k; rewrite list_elem_of_singleton.
  - intros -> Hres. specialize (Hok Hres). subst err. exists raw. split; [done|].
    inversion Hc as [v Hv| |]; subst. exists v. by rewrite lookup_insert_eq.
  - intros Hk. by apply (created_or_updated_other _ _ _ _ _ _ _ Hc).
Qed.

(** The same for the outer loop. *)
Definition namespace_keys (profile : ZoneUsageProfile) (entry : nat * Namespace)
    : list (GroupVersionKind * ObjectKey) :=
  map_to_list (Resources (UpstreamSpec (zup_Spec profile))) ≫= resource_keys entry.2.

Definition namespace_post r profile (entry : nat * Namespace) (errs : list (option error))
    (k : GroupVersionKind * ObjectKey) (old new : option json) : Prop :=
  ns_DeletionTimestamp entry.2 = None -> Forall (fun e => e = None) errs ->
  exists rname resource raw, Resources (UpstreamSpec (zup_Spec profile)) !! rname = Some resource /\
    ToUnstructured resource = inr raw /\ k = resource_key entry.2 rname raw /\
    applied r profile entry.2 rname raw old new.

Lemma resource_keys_spec ns entry k :
  k ∈ resource_keys ns entry <->
  exists raw, ToUnstructured entry.2 = inr raw /\ k = resource_key ns entry.1 raw.
Proof.
  unfold resource_keys. destruct (ToUnstructured entry.2) as [e|raw].
  - split; [by intros ?%not_elem_of_nil|]. by intros (? & ? & _).
  - rewrite list_elem_of_singleton. naive_solver.
Qed.

Lemma resource_keys_NoDup ns l : NoDup l.*1 -> NoDup (l ≫= resource_keys ns).
Proof.
  intros Hl. apply (NoDup_bind_proj _ fst (fun k => key_Name k.2)); [| |done].
  - intros entry _. unfold resource_keys. case_match; [constructor|]. apply NoDup_singleton.
  - intros entry k _ (raw & _ & ->)%resource_keys_spec. done.
Qed.

Lemma apply_to_namespace_exec r profile i ns s errs s' :
  exec apply_step alone (apply_to_namespace r profile (i, ns)) s errs s' ->
  (errs = [] /\ s' = s /\ ns_DeletionTimestamp ns <> None) \/
  exec apply_step alone (for_each (range_map i (Resources (UpstreamSpec (zup_Spec profile))))
    (apply_one r ns profile)) s errs s'.
Proof.
  unfold apply_to_namespace. intros (skip & s1 & s2 & Hs & ->%rtc_alone & Hx)%exec_bind.
  assert (s1 = s /\ (skip = true -> ns_DeletionTimestamp ns <> None)) as [-> Hskip].
  { unfold deleted_already in Hs. destruct (ns_DeletionTimestamp ns); [|by apply alone_ret in Hs as [-> ->]].
    apply alone_trigger in Hs as (now & s3 & Hn & Hs). apply alone_ret in Hs as [-> ->].
    split; [by inversion Hn|done]. }
  destruct skip; [apply alone_ret in Hx as [-> ->]; left; auto|by right].
Qed.

(** The inner loop as a whole. *)
Lemma resources_exec r profile i ns s errs s' :
  exec apply_step alone (for_each (range_map i (Resources (UpstreamSpec (zup_Spec profile))))
    (apply_one r ns profile)) s errs s' ->
  (forall rname resource, Resources (UpstreamSpec (zup_Spec profile)) !! rname = Some resource ->
    Forall (fun e => e = None) errs ->
    exists raw, ToUnstructured resource = inr raw /\ applied r profile ns rname raw
      (as_objects s !! resource_key ns rname raw) (as_objects s' !! resource_key ns rname raw)) /\
  (forall k, k ∉ namespace_keys profile (i, ns) -> as_objects s' !! k = as_objects s !! k).
Proof.
  intros Hx. apply (for_each_footprint apply_step _ (fun s k => as_objects s !! k) (resource_keys ns)
    (resource_post r profile ns)) in Hx as [Hpost Hframe];
    [|by intros; apply apply_one_footprint|apply resource_keys_NoDup, range_map_NoDup_keys].
  split.
  - intros rname resource Hin Hall. rewrite <- (range_map_elem i) in Hin.
    destruct (Hpost _ Hin) as (y & t1 & t2 & Hy & Hone & Hp). rewrite Forall_forall in Hall.
    apply Hall in Hy as ->. apply apply_one_exec in Hone. unfold resource_post in Hp. cbn [fst snd] in Hp.
    destruct (ToUnstructured resource) as [e|raw] eqn:Eraw; [by destruct Hone|]. exists raw. split; [done|].
    destruct (Hp (resource_key ns rname raw)) as (raw' & [= <-] & Happ); [|done..].
    apply resource_keys_spec. by exists raw.
  - intros k Hk. apply Hframe. intros Hin. apply Hk. revert Hin. unfold namespace_keys.
    rewrite !list_elem_of_bind. by setoid_rewrite range_map_perm.
Qed.

Lemma apply_to_namespace_footprint r profile entry :
  footprint apply_step (apply_to_namespace r profile) (fun s k => as_objects s !! k)
    (namespace_keys profile) (namespace_post r profile) entry.
Proof.
  destruct entry as [i ns]. intros s errs s' [(-> & -> & Hd)|Hx]%apply_to_namespace_exec.
  { split; [|done]. intros k _ Hd'. done. }
  apply resources_exec in Hx as [Hpost Hframe]. split; [|done].
  intros k ([rname resource] & Hk & Hin)%list_elem_of_bind Hd Hall.
  apply elem_of_map_to_list in Hin. destruct (Hpost _ _ Hin Hall) as (raw & Hraw & Happ).
  apply resource_keys_spec in Hk as (raw' & Hraw' & ->). simpl in *.
  assert (raw' = raw) as -> by congruence. by exists rname, resource, raw.
Qed.

Lemma namespace_keys_spec profile entry k :
  k ∈ namespace_keys profile entry <->
  exists rname resource raw, Resources (UpstreamSpec (zup_Spec profile)) !! rname = Some resource /\
    ToUnstructured resource = inr raw /\ k = resource_key entry.2 rname raw.
Proof.
  unfold namespace_keys. rewrite list_elem_of_bind. split.
  - intros ([rname resource] & (raw & Hraw & ->)%resource_keys_spec & Hin%elem_of_map_to_list).
    by exists rname, resource, raw.
  - intros (rname & resource & raw & Hin & Hraw & ->). exists (rname, resource).
    rewrite elem_of_map_to_list, resource_keys_spec. split; [by exists raw|done].
Qed.

Lemma namespace_keys_NoDup profile (nss : list Namespace) :
  NoDup (ns_Name <$> nss) -> NoDup (imap pair nss ≫= namespace_keys profile).
Proof.
  intros Hnd. apply (NoDup_bind_proj _ (ns_Name ∘ snd) (fun k => key_Namespace k.2)).
  - intros entry _. apply resource_keys_NoDup, NoDup_fst_map_to_list.
  - by intros entry k _ (rname & resource & raw & _ & _ & ->)%namespace_keys_spec.
  - by rewrite list_fmap_compose, imap_pair_snd.
Qed.
(** The namespaces that the reconciler visits. *)
Definition org_namespaces r (s : apply_state) : list Namespace :=
  filter (fun ns => Forall (fun opt => list_option_matches opt ns) [HasLabels [ua_OrganizationLabel r]])
    (as_namespaces s).

Lemma org_namespaces_elem r s ns :
  ns ∈ org_namespaces r s <-> ns ∈ as_namespaces s /\ is_Some (ns_Labels ns !! ua_OrganizationLabel r).
Proof.
  unfold org_namespaces. rewrite list_elem_of_filter, Forall_singleton. simpl.
  rewrite Forall_singleton. tauto.
Qed.

(** A reconciliation that succeeds is a run of the loops without an error. *)
Lemma reconcile_loops `{!ApiErrorsLaws} `{!MultierrLaws} r name profile s s' :
  ua_SelectedProfile r = "" \/ ua_SelectedProfile r = name ->
  as_profiles s !! name = Some profile ->
  exec apply_step alone (ZoneUsageProfileApplyReconciler_Reconcile r name) s None s' ->
  exists errs, exec apply_step alone
      (for_each (imap pair (org_namespaces r s)) (apply_to_namespace r profile)) s errs s' /\
    Forall (fun e => e = None) (mjoin errs).
Proof.
  intros Hsel Hprofile Hx. unfold ZoneUsageProfileApplyReconciler_Reconcile in Hx.
  assert (negb (bool_decide (ua_SelectedProfile r = "")) &&
    negb (bool_decide (ua_SelectedProfile r = name)) = false) as Hs.
  { destruct Hsel as [Hsel|Hsel]; rewrite (bool_decide_eq_true_2 _ Hsel); [done|]. apply andb_false_r. }
  rewrite Hs in Hx. apply alone_trigger in Hx as (got & s1 & Hg & Hx).
  destruct Hg as [p Hp|err ?|err Hn]; [|congruence|].
  2:{ apply alone_ret in Hx as [Hx _]. by rewrite IgnoreNotFound_spec, Hn in Hx. }
  simplify_eq. apply alone_trigger in Hx as (got & s1 & Hl & Hx).
  destruct Hl as [|err]; [|by apply alone_ret in Hx as []].
  apply exec_bind in Hx as (errs & s1 & s2 & Hf & ->%rtc_alone & Hx). apply alone_ret in Hx as [Herr ->].
  exists errs. split; [done|]. symmetry in Herr. apply multierr_Combine_nil in Herr.
  rewrite Forall_forall in *. intros [e|] He; [|done]. apply Herr, list_elem_of_filter.
  split; [by eexists|done].
Qed.
End loops.

(** ** Properties *)
Section properties.
Context `{RangeOracle} `{ApiErrors} `{Multierr} `{UnstructuredLib} `{ObjectLib} `{MetadataLib}.
Context `{Transformer T}.
Implicit Types r : ZoneUsageProfileApplyReconciler T.

(** C8: an object that carries the label of another profile is never changed: not by a
    reconciliation that completes, nor by one that is stopped anywhere, whatever calls fail, with
    or without having been carried out, and whatever others do that leaves the object alone. *)
Theorem profile_conflict_safe r env name key obj p s s' :
  stable env (owned_elsewhere name key obj) ->
  u_GetLabels obj !! resourceOwnerLabel = Some p -> p <> name ->
  owned_elsewhere name key obj s ->
  reach apply_step env (ZoneUsageProfileApplyReconciler_Reconcile r name) s s' ->
  as_objects s' !! key = Some obj.
Proof.
  intros Hst Ho Hp Hs Hr. unfold ZoneUsageProfileApplyReconciler_Reconcile in Hr.
  assert (Hret : forall a : option error, invariant apply_step env (owned_elsewhere name key obj) (mret a))
    by (intros; by apply invariant_ret).
  case_match; [by eapply owned_object, (Hret None)|].
  apply reach_bind in Hr as [Hr|(got & s1 & Hx & Hr)].
  { eapply owned_object, invariant_call; [done| |exact Hs|exact Hr].
    intros s0 x s1 Hs0 Hx. by destruct Hx. }
  destruct Hx as (s0 & x & s2 & Henv & Hf & -> & Henv').
  assert (Hs0 : owned_elsewhere name key obj s0) by (by eapply stable_rtc).
  assert (Hs1 : owned_elsewhere name key obj s1) by (eapply stable_rtc; [done..|]; by destruct Hf).
  destruct Hf as [profile Hprofile|err ?|err ?]; [|by eapply owned_object, Hret..].
  apply (owned_names _ _ _ _ Hs0) in Hprofile as Hname.
  eapply owned_object, invariant_bind; [| |exact Hs1|exact Hr].
  { apply invariant_call; [done|]. intros s2 x s3 Hs2 Hx. by destruct Hx. }
  intros [err|namespaces]; [apply Hret|].
  apply invariant_bind; [|intros; apply Hret].
  apply invariant_for_each; [done|]. intros entry _. by eapply apply_to_namespace_safe.
Qed.

(** C10: a reconciliation that succeeds leaves every resource of the profile in every namespace of
    an organization that is not being deleted, with the content described by [set_content]
    applied to the object that was there; it changes no object with another name or in another
    namespace, in whatever order namespaces and resources are visited. *)
Theorem profile_applied `{!ApiErrorsLaws} `{!MultierrLaws} r name profile s s' :
  ua_SelectedProfile r = "" \/ ua_SelectedProfile r = name ->
  as_profiles s !! name = Some profile -> NoDup (ns_Name <$> as_namespaces s) ->
  exec apply_step alone (ZoneUsageProfileApplyReconciler_Reconcile r name) s None s' ->
  (forall ns rname resource, ns ∈ as_namespaces s ->
    is_Some (ns_Labels ns !! ua_OrganizationLabel r) -> ns_DeletionTimestamp ns = None ->
    Resources (UpstreamSpec (zup_Spec profile)) !! rname = Some resource ->
    exists raw, ToUnstructured resource = inr raw /\
      applied r profile ns rname raw
        (as_objects s !! resource_key ns rname raw) (as_objects s' !! resource_key ns rname raw)) /\
  (forall k, as_objects s' !! k <> as_objects s !! k -> exists ns rname resource raw,
    ns ∈ as_namespaces s /\ is_Some (ns_Labels ns !! ua_OrganizationLabel r) /\
    Resources (UpstreamSpec (zup_Spec profile)) !! rname = Some resource /\
    ToUnstructured resource = inr raw /\ k = resource_key ns rname raw).
Proof.
  intros Hsel Hprofile Hnames Hx.
  apply (reconcile_loops _ _ _ _ _ Hsel Hprofile) in Hx as (errs & Hf & Hall).
  apply (for_each_footprint apply_step _ (fun s k => as_objects s !! k) (namespace_keys profile)
    (namespace_post r profile)) in Hf as [Hpost Hframe];
    [|by intros; apply apply_to_namespace_footprint|apply namespace_keys_NoDup].
  2:{ eapply sublist_NoDup; [exact Hnames|]. apply fmap_sublist, sublist_filter. }
  split.
  - intros ns rname resource Hns Horg Hdel Hres.
    destruct (proj1 (list_elem_of_lookup _ _) (proj2 (org_namespaces_elem r s ns) (conj Hns Horg))) as [i Hi].
    destruct (Hpost (i, ns)) as (y & t1 & t2 & Hy & Hb & Hp).
    { apply list_elem_of_lookup. exists i. by rewrite list_lookup_imap, Hi. }
    assert (Hally : Forall (fun e => e = None) y).
    { rewrite Forall_forall in *. intros e He. apply Hall, list_elem_of_join. by exists y. }
    apply apply_to_namespace_exec in Hb as [(_ & _ & Hb)|Hb]; [done|].
    apply resources_exec in Hb as [Hconv _]. destruct (Hconv _ _ Hres Hally) as (raw & Hraw & _).
    exists raw. split; [done|]. destruct (Hp (resource_key ns rname raw)) as
      (rname' & resource' & raw' & Hres' & Hraw' & [= Hgvk <-] & Happ);
      [by apply namespace_keys_spec; exists rname, resource, raw|done..|].
    assert (resource' = resource) as -> by (simpl in *; congruence).
    by assert (raw' = raw) as -> by congruence.
  - intros k Hk. destruct (decide (k ∈ imap pair (org_namespaces r s) ≫= namespace_keys profile)) as [Hin|Hnin];
      [|by rewrite Hframe in Hk].
    apply list_elem_of_bind in Hin as ([i ns] & Hin & Hns).
    apply namespace_keys_spec in Hin as (rname & resource & raw & Hres & Hraw & ->).
    apply list_elem_of_lookup in Hns as [j Hj]. rewrite list_lookup_imap in Hj.
    apply fmap_Some in Hj as (ns' & Hj & [= -> ->]). apply list_elem_of_lookup_2, org_namespaces_elem in Hj as [Hns Horg].
    by exists ns', rname, resource, raw.
Qed.

(** The function passed to [CreateOrUpdate] accepts an object exactly if it has no owner or
    the profile owns it, as long as the owner reference can be set; what is written is the
    resource of the profile, transformed, except for its metadata, and carries the labels that
    the object has in the cluster with the profile as owner. *)
Theorem set_content_spec `{!MetadataLaws} r name ns raw profile u :
  (forall o j, exists j', u_SetControllerReference o j = inr j') ->
  ((exists u', set_content r name ns raw profile u = inr u') <->
   (u_GetLabels u !! resourceOwnerLabel = None \/
    u_GetLabels u !! resourceOwnerLabel = Some (zup_Name profile))) /\
  forall u', set_content r name ns raw profile u = inr u' ->
    u_GetLabels u' = <[resourceOwnerLabel := zup_Name profile]> (u_GetLabels u) /\
    exists u0, same_outside_metadata raw u0 /\
      same_outside_metadata (transform_all (ua_Transformers r) u0 ns) u'.
Proof.
  intros Href.
  destruct (Href (zup_Name profile) (u_SetName name (u_SetNamespace (ns_Name ns) raw))) as (u0 & Hu0).
  assert (Hout : same_outside_metadata raw u0).
  { eapply same_outside_metadata_trans; [apply SetNamespace_outside|].
    eapply same_outside_metadata_trans; [apply SetName_outside|].
    by eapply SetControllerReference_outside. }
  unfold set_content. rewrite Hu0.
  destruct (u_GetLabels u !! resourceOwnerLabel) as [p|]; [case_bool_decide as Hp; simpl|].
  - split; [split; [right; by rewrite Hp|eauto]|]. intros u' [= <-].
    split; [apply SetLabels_labels|]. exists u0. split; [done|apply SetLabels_outside].
  - split; [|done]. split; [by intros []|]. intros [|[= ->]]; done.
  - split; [split; [by left|eauto]|]. intros u' [= <-].
    split; [apply SetLabels_labels|]. exists u0. split; [done|apply SetLabels_outside].
Qed.

(** A kind of object is watched once.  The first call for it installs the watch; later calls
    do nothing and report success, also when the first call failed, so that a watch that could
    not be installed is never tried again. *)
Theorem ensureWatch_once r gvk s res s1 :
  ua_ready r = true -> gvk_Empty gvk = false ->
  exec apply_step alone (ensureWatch r gvk) s res s1 ->
  (gvk ∈ as_tracker s -> res = None /\ s1 = s) /\
  (gvk ∉ as_tracker s ->
    as_watches s1 = if decide (res = None) then as_watches s ++ [gvk] else as_watches s) /\
  forall res2 s2, exec apply_step alone (ensureWatch r gvk) s1 res2 s2 -> res2 = None /\ s2 = s1.
Proof.
  intros Hr Hg. assert (Hagain : forall s res s1, gvk ∈ as_tracker s ->
    exec apply_step alone (ensureWatch r gvk) s res s1 -> res = None /\ s1 = s).
  { intros s0 res0 s2 Hin Hx. unfold ensureWatch in Hx. rewrite Hr, Hg in Hx. simpl negb in Hx.
    apply alone_trigger in Hx as (ran & s3 & Hx & Hk). destruct Hx.
    rewrite bool_decide_eq_true_2 in Hk by done. apply alone_ret in Hk as [-> ->].
    split; [done|]. destruct s0; unfold set_tracker; simpl in *. f_equal. set_solver. }
  intros Hx. split; [by intros ?; apply Hagain|].
  destruct (decide (gvk ∈ as_tracker s)) as [Hin|Hnin].
  { split; [done|]. destruct (Hagain _ _ _ Hin Hx) as [_ ->]. intros; by apply Hagain. }
  unfold ensureWatch in Hx. rewrite Hr, Hg in Hx. simpl negb in Hx.
  apply alone_trigger in Hx as (ran & s3 & Hx & Hk). destruct Hx.
  rewrite bool_decide_eq_false_2 in Hk by done.
  apply (alone_call apply_step (Watch gvk)) in Hk.
  assert (gvk ∈ as_tracker s1) as Hin by (destruct Hk; by apply elem_of_union_l, elem_of_singleton).
  split; [|intros; by apply Hagain]. intros _. by destruct Hk.
Qed.
End properties.

(** ** The theorems on the example *)
Import Fake.
#[local] Existing Instances fake_objects fake_json.

Definition fake_metadata : MetadataLib := {|
  ToUnstructured := inr;
  gvk_Empty := fun g => bool_decide (g = {| gvk_Group := ""; gvk_Version := ""; gvk_Kind := "" |});
  gvk_String := gvk_Kind;
  u_New := fun _ => JObj ∅;
  u_SetNamespace := fun _ j => j;
  u_SetName := fun _ j => j;
  u_SetLabels := fake_SetLabels;
  u_SetControllerReference := fun _ j => inr j;
|}.

Lemma fake_SetLabels_outside m j : same_outside_metadata j (fake_SetLabels m j).
Proof.
  intros k q Hk. destruct j; simpl; try rewrite lookup_singleton_ne by done; try done.
  by rewrite lookup_insert_ne.
Qed.

Lemma fake_metadata_laws : @MetadataLaws fake_metadata fake_unstructured.
Proof.
  split; try (by intros ? ? ? ?).
  - intros m j. apply fake_SetLabels_outside.
  - intros m j. apply GetLabels_path. destruct j; simpl;
      (rewrite lookup_insert_eq || rewrite lookup_singleton_eq); simpl; by rewrite lookup_singleton_eq.
  - by intros o j j' [= ->].
Qed.

#[local] Existing Instances fake_metadata fake_metadata_laws.

Lemma set_content_spec_witness :
  exists u', set_content up_reconciler "limits" up_namespace up_raw up_profile (JObj ∅) = inr u' /\
    u_GetLabels u' = {[resourceOwnerLabel := "default"]}.
Proof.
  destruct (set_content_spec up_reconciler "limits" up_namespace up_raw up_profile (JObj ∅))
    as [[_ Hok] Hw]; [by intros o j; exists j|].
  destruct Hok as [u' Hu']; [left; by rewrite GetLabels_empty|]. exists u'. split; [exact Hu'|].
  destruct (Hw u' Hu') as [Hl _]. by rewrite Hl, GetLabels_empty.
Defined.

Lemma up_metadata_labels m : u_GetLabels (up_metadata m) = m.
Proof.
  apply GetLabels_path. unfold up_metadata. simpl. rewrite lookup_singleton_eq. simpl.
  by rewrite lookup_singleton_eq.
Qed.

Lemma profile_conflict_safe_witness :
  as_objects up_state !! up_key = Some up_object.
Proof.
  apply (profile_conflict_safe up_reconciler alone "default" up_key up_object "other" up_state).
  - by intros ? ? [].
  - unfold up_object. rewrite up_metadata_labels. apply lookup_singleton_eq.
  - done.
  - split; [apply lookup_singleton_eq|].
    intros n p Hp. simpl in Hp. by apply lookup_singleton_Some in Hp as [<- <-].
  - left. apply rtc_refl.
Defined.

Lemma ensureWatch_once_witness :
  as_watches (set_tracker ({[up_gvk]} ∪ ∅) up_state) =
    if decide (Some (ErrorString "the cache is closed") = None)
    then as_watches up_state ++ [up_gvk] else as_watches up_state.
Proof.
  eapply (ensureWatch_once up_reconciler up_gvk up_state
    (Some (ErrorString "the cache is closed"))); [done|done| |by intros ?%elem_of_empty].
  apply alone_trigger. eexists _, _. split; [apply once_ran|]. apply alone_call. apply watch_failed.
Defined.

(** *** A run in a cluster without objects, and then in the one where another profile owns the
    object *)
Definition up_fresh : apply_state := {|
  as_profiles := {["default" := up_profile]}; as_namespaces := [up_namespace];
  as_objects := ∅; as_tracker := ∅; as_watches := []; as_ListError := None |}.

Definition up_rq_key : GroupVersionKind * ObjectKey :=
  (resourceQuotaV1gvk, {| key_Namespace := "web"; key_Name := "limits" |}).

Definition up_written : json := fake_SetLabels {[resourceOwnerLabel := "default"]} up_raw.

Definition up_done : apply_state := {|
  as_profiles := {["default" := up_profile]}; as_namespaces := [up_namespace];
  as_objects := <[up_rq_key := up_written]> ∅; as_tracker := {[resourceQuotaV1gvk]} ∪ ∅;
  as_watches := [resourceQuotaV1gvk]; as_ListError := None |}.

Lemma up_content :
  set_content up_reconciler "limits" up_namespace up_raw up_profile (JObj ∅) = inr up_written.
Proof.
  unfold set_content. rewrite GetLabels_empty. simpl. done.
Qed.

Lemma up_run :
  exec apply_step alone (ZoneUsageProfileApplyReconciler_Reconcile up_reconciler "default")
    up_fresh None up_done.
Proof.
  change (exec apply_step alone
    (got ← trigger (FetchProfile "default");
     match got with
     | inl err => mret (client_IgnoreNotFound (Some err))
     | inr profile =>
         got ← trigger (ListNamespaces [HasLabels ["organization"]]);
         match got with
         | inl err => mret (Some err)
         | inr namespaces =>
             errs ← for_each (imap pair namespaces) (apply_to_namespace up_reconciler profile);
             mret (multierr_Combine (filter is_Some (mjoin errs)))
         end
     end) up_fresh None up_done).
  apply alone_trigger. eexists _, _. split; [by apply (read_found _ _ _ up_profile), lookup_singleton_eq|].
  apply alone_trigger. eexists _, _. split; [apply list_found|].
  eapply (alone_bind _ _ _ _ [[None]] up_done); [|by apply alone_ret].
  eapply (alone_bind _ _ _ _ [None] up_done); [|by eapply alone_bind; apply alone_ret].
  eapply (alone_bind _ _ _ _ false); [by apply alone_ret|].
  change (exec apply_step alone (for_each [("limits", up_raw)] (apply_one up_reconciler up_namespace up_profile))
    up_fresh [None] up_done).
  eapply (alone_bind _ _ _ _ None up_done); [|by eapply alone_bind; apply alone_ret].
  eapply (alone_bind _ _ _ _ None up_done); [|by apply alone_ret].
  apply alone_trigger. exists (up_raw, None), (set_objects (<[up_rq_key := up_written]> ∅) up_fresh). split.
  { apply write_object, cou_done. apply up_content. }
  eapply (alone_bind _ _ _ _ None up_done); [|by apply alone_ret].
  apply alone_trigger. eexists _, _. split; [apply once_ran|]. apply alone_call. apply watch_done.
Qed.

Lemma profile_applied_witness :
  exists raw, ToUnstructured up_raw = inr raw /\
    applied up_reconciler up_profile up_namespace "limits" raw None (Some up_written).
Proof.
  destruct (profile_applied up_reconciler "default" up_profile up_fresh up_done) as [Happ _].
  - by right.
  - apply lookup_singleton_eq.
  - apply NoDup_singleton.
  - exact up_run.
  - destruct (Happ up_namespace "limits" up_raw) as (raw & Hraw & Ha).
    + apply list_elem_of_here.
    + by eexists.
    + reflexivity.
    + apply lookup_singleton_eq.
    + exists raw. split; [exact Hraw|]. injection Hraw as <-.
      unfold resource_key in Ha. cbn [as_objects up_fresh up_done] in Ha.
      rewrite lookup_empty in Ha.
      change (<[up_rq_key := up_written]> ∅ !! (u_GroupVersionKind up_raw,
        {| key_Namespace := ns_Name up_namespace; key_Name := "limits" |})) with
        ((<[up_rq_key := up_written]> ∅ : gmap _ _) !! up_rq_key) in Ha.
      by rewrite lookup_insert_eq in Ha.
Defined.
