(* ===== verification/ApplyController.v ===== *)
(** * The controller that applies usage profiles (controllers/zoneusageprofileapply_controller.go)

    What the controller watches, from the start and, with [ensureWatch], as it goes along; and that
    every resource of every profile is in place when its queue is empty, if no watch fails to
    start. *)
From S2P Require Import Prelude GoStd Kube Fake Api Effects Workqueue Transformers UsageProfile.

(** The names of the profiles among the owner references of an object. *)
Class OwnersLib := u_Owners : json -> list string.

Class OwnersLaws `{MetadataLib} `{OwnersLib} : Prop := {
  SetControllerReference_owner o j j' : u_SetControllerReference o j = inr j' -> o ∈ u_Owners j';
  SetLabels_owners m j : u_Owners (u_SetLabels m j) = u_Owners j;
  Owners_metadata j j' : json_path ["metadata"] j' = json_path ["metadata"] j -> u_Owners j' = u_Owners j;
}.

(** ** The watches ([SetupWithManager], [ensureWatch]) *)
Section watches.
Context `{UnstructuredLib} `{ObjectLib} `{MetadataLib} `{OwnersLib} `{Transformer T}.
Implicit Types r : ZoneUsageProfileApplyReconciler T.

(** A namespace of an organization is created, changed or deleted. *)
Definition namespace_event r (nss nss' : list Namespace) : bool :=
  existsb (fun ns => labelExistsPredicate (ua_OrganizationLabel r) ns && bool_decide (ns ∉ nss)) nss' ||
  existsb (fun ns => labelExistsPredicate (ua_OrganizationLabel r) ns &&
                     bool_decide (ns_Name ns ∉ ns_Name <$> nss')) nss.

(** The requests for all profiles, as the handler lists them; none when it cannot. *)
Definition all_profiles (s : apply_state) : gset string :=
  list_to_set (mapToAllUsageProfiles
    match as_ListError s with
    | Some err => inl err
    | None => inr {| zupl_Items := (map_to_list (as_profiles s)).*2 |}
    end).

(** [EnqueueRequestForOwner], for the objects of the kinds that are watched. *)
Definition object_requests (watched : list GroupVersionKind) (k : GroupVersionKind * ObjectKey)
    (obj : json) : list string :=
  if decide (k.1 ∈ watched) then u_Owners obj else [].

(** A watch that is started reports the objects that exist. *)
Definition apply_watch r (s s' : apply_state) : gset string :=
  watching always for_object (as_profiles s) (as_profiles s') ∪
  (if namespace_event r (as_namespaces s) (as_namespaces s') then all_profiles s' else ∅) ∪
  watching always (object_requests (as_watches s)) (as_objects s) (as_objects s') ∪
  existing always (object_requests (filter (fun gvk => gvk ∉ as_watches s) (as_watches s'))) (as_objects s').

Definition apply_requests r (s : apply_state) : gset string :=
  existing always for_object (as_profiles s) ∪
  (if namespace_event r [] (as_namespaces s) then all_profiles s else ∅).

(** The watches and their tracker are gone when the agent stops. *)
Definition without_watches (s : apply_state) : apply_state := {|
  as_profiles := as_profiles s; as_namespaces := as_namespaces s; as_objects := as_objects s;
  as_tracker := ∅; as_watches := []; as_ListError := as_ListError s |}.

(** The calls when no watch fails to start; what [CreateOrUpdate] leaves in the object that it is
    given has the kind that was asked for. *)
Definition watching_step `{ApiErrors} X (c : apply_call X) (s : apply_state) (x : X) (s' : apply_state)
    : Prop :=
  apply_step X c s x s' /\
  match c in apply_call X return X -> Prop with
  | Watch _ => fun err => err = None
  | CreateOrUpdateObject _ gvk _ _ => fun x => x.2 = None -> u_GroupVersionKind x.1 = gvk
  | _ => fun _ => True
  end x.

(** No event of a namespace is lost: the profiles can be listed, or no namespace changes. *)
Definition events_handled (s s' : apply_state) : Prop :=
  as_ListError s' = None \/ as_namespaces s' = as_namespaces s.

(** Others change profiles, namespaces and objects in any way, but leave objects alone that are of
    a kind that is not watched, and namespaces while the profiles cannot be listed.  Whether they
    can be listed may change at any time. *)
Definition apply_env (s s' : apply_state) : Prop :=
  as_tracker s' = as_tracker s /\ as_watches s' = as_watches s /\
  events_handled s s' /\
  forall k, k.1 ∉ as_watches s -> as_objects s' !! k = as_objects s !! k.

(** Every kind whose [Once] has run is watched. *)
Definition tracked (s : apply_state) : Prop := forall gvk, gvk ∈ as_tracker s -> gvk ∈ as_watches s.

(** A resource of a profile is in a namespace, and watched. *)
Definition resource_in_place r (profile : ZoneUsageProfile) (ns : Namespace) (rname : string)
    (resource : json) (s : apply_state) : Prop :=
  exists raw obj old, ToUnstructured resource = inr raw /\
    as_objects s !! resource_key ns rname raw = Some obj /\
    set_content r rname ns raw profile old = inr obj /\
    u_GroupVersionKind raw ∈ as_watches s.

Definition profile_in_place r (name : string) (s : apply_state) : Prop :=
  ua_SelectedProfile r = "" \/ ua_SelectedProfile r = name ->
  forall profile, as_profiles s !! name = Some profile -> zup_Name profile = name ->
  forall ns, ns ∈ as_namespaces s -> is_Some (ns_Labels ns !! ua_OrganizationLabel r) ->
    ns_DeletionTimestamp ns = None ->
  forall rname resource, Resources (UpstreamSpec (zup_Spec profile)) !! rname = Some resource ->
    resource_in_place r profile ns rname resource s.
End watches.

(** ** Lemmas *)
Section apply.
Context `{RangeOracle} `{ApiErrorsLaws} `{MultierrLaws} `{UnstructuredLib} `{ObjectLib} `{OwnersLaws}.
Context `{Transformer T} (r : ZoneUsageProfileApplyReconciler T).

(** The transformers leave the owners alone. *)
Context (Hkeep : forall t u ns, t ∈ ua_Transformers r -> u_Owners (Transform t u ns).1 = u_Owners u).

Lemma transform_all_owners u ns : u_Owners (transform_all (ua_Transformers r) u ns) = u_Owners u.
Proof.
  unfold transform_all. revert u Hkeep. induction (ua_Transformers r) as [|t ts IH]; intros u Hk; [done|].
  simpl. rewrite IH; [apply Hk; left|]. intros t' u' ns' Ht'. apply Hk. by right.
Qed.

Lemma set_content_owner rname ns raw profile old obj :
  set_content r rname ns raw profile old = inr obj -> zup_Name profile ∈ u_Owners obj.
Proof.
  unfold set_content. intros E.
  destruct (u_SetControllerReference _ _) as [|u] eqn:Eo; [done|].
  apply SetControllerReference_owner in Eo.
  destruct (u_GetLabels old !! resourceOwnerLabel); [destruct (negb _); [done|]|]; simplify_eq;
    by rewrite SetLabels_owners, transform_all_owners.
Qed.

(** What a quiet change leaves as it is. *)
Lemma apply_watch_profile name s s' :
  name ∉ apply_watch r s s' -> as_profiles s' !! name = as_profiles s !! name.
Proof.
  unfold apply_watch. rewrite !not_elem_of_union. intros [[[Hp _] _] _].
  eapply watching_same; [|exact Hp]. intros v. apply list_elem_of_here.
Qed.

Lemma all_profiles_elem name profile s :
  as_ListError s = None -> as_profiles s !! name = Some profile -> zup_Name profile = name -> name ∈ all_profiles s.
Proof.
  intros He Hp Hn. unfold all_profiles. rewrite He. apply elem_of_list_to_set. simpl.
  apply list_elem_of_fmap. exists profile. split; [done|]. apply list_elem_of_fmap.
  exists (name, profile). split; [done|]. by apply elem_of_map_to_list.
Qed.

Lemma apply_watch_namespace name profile ns s s' :
  name ∉ apply_watch r s s' -> events_handled s s' ->
  as_profiles s' !! name = Some profile -> zup_Name profile = name ->
  is_Some (ns_Labels ns !! ua_OrganizationLabel r) ->
  ns ∈ as_namespaces s' -> ns ∈ as_namespaces s.
Proof.
  unfold apply_watch. rewrite !not_elem_of_union. intros [[[_ Hn] _] _] [He | ->] Hp Hname Hl Hns; [|done].
  destruct (decide (ns ∈ as_namespaces s)) as [|Hnew]; [done|]. destruct Hn.
  assert (namespace_event r (as_namespaces s) (as_namespaces s') = true) as ->.
  { unfold namespace_event. apply orb_true_iff. left. apply existsb_exists. exists ns.
    split; [by apply list_elem_of_In|]. apply andb_true_iff.
    split; by apply bool_decide_eq_true. }
  by eapply all_profiles_elem.
Qed.

Lemma resource_in_place_stays profile ns rname resource s s' :
  zup_Name profile ∉ apply_watch r s s' -> as_watches s ⊆ as_watches s' ->
  resource_in_place r profile ns rname resource s -> resource_in_place r profile ns rname resource s'.
Proof.
  unfold apply_watch. rewrite !not_elem_of_union. intros [[_ Ho] _] Hw (raw & obj & old & Hraw & Hobj & Hc & Hin).
  exists raw, obj, old. split; [done|]. split; [|split; [done|by apply Hw]].
  eapply watching_stays; [|exact Ho|done]. unfold object_requests. rewrite decide_True by done.
  by eapply set_content_owner.
Qed.

(** *** The invariant of the watch tracker *)
Lemma tracked_stable : stable apply_env tracked.
Proof. intros s s' (Ht & Hw & _) Hs. unfold tracked. by rewrite Ht, Hw. Qed.

Lemma apply_env_rtc s s' :
  rtc apply_env s s' -> as_tracker s' = as_tracker s /\ as_watches s' = as_watches s /\
    forall k, k.1 ∉ as_watches s -> as_objects s' !! k = as_objects s !! k.
Proof.
  induction 1 as [|s1 s2 s3 (Ht & Hw & _ & Ho) _ (Ht' & Hw' & Ho')]; [done|].
  rewrite Ht', Hw', Ht, Hw. split_and!; [done..|]. intros k Hk. rewrite Ho', Ho; congruence.
Qed.

(** All calls but those of [ensureWatch] leave the watches alone. *)
Definition watches_alone {X} (c : apply_call X) : Prop :=
  match c with LoadOrStoreOnce _ | Watch _ => False | _ => True end.

Lemma watches_alone_step X (c : apply_call X) s x s' :
  watches_alone c -> apply_step X c s x s' ->
  as_tracker s' = as_tracker s /\ as_watches s' = as_watches s.
Proof. intros Hc Hx. destruct c; try done; by inversion Hx; subst. Qed.

Lemma watches_alone_tracked X (c : apply_call X) :
  watches_alone c -> preserves watching_step apply_env tracked (trigger c).
Proof.
  intros Hc. apply preserves_call; [apply tracked_stable|]. intros s x s' [Hx _] Hs.
  apply watches_alone_step in Hx as [Ht Hw]; [|done]. unfold tracked. by rewrite Ht, Hw.
Qed.

Lemma ensureWatch_tracked gvk : preserves watching_step apply_env tracked (ensureWatch r gvk).
Proof.
  pose proof tracked_stable as Hst. unfold ensureWatch.
  destruct (negb (ua_ready r)); [by apply preserves_ret|]. destruct (gvk_Empty gvk); [by apply preserves_ret|].
  intros s a s' Hs (s0 & ran & s1 & Hr0 & [Ho _] & Hx)%exec_trigger.
  assert (Hs0 : tracked s0) by (by eapply stable_rtc). inversion Ho; subst; clear Ho.
  case_bool_decide as Hin.
  - destruct Hx as [_ Hr]. eapply stable_rtc; [done|exact Hr|].
    intros g. simpl. rewrite elem_of_union, elem_of_singleton. intros [->|?]; by apply Hs0.
  - destruct Hx as (s2 & err & s3 & Hr2 & [Hw Hok] & _ & Hr3). simpl in Hok. subst err.
    eapply stable_rtc; [done|exact Hr3|]. inversion Hw; subst.
    apply apply_env_rtc in Hr2 as (Et & Ew & _). intros g. simpl in *.
    rewrite Et, Ew, elem_of_union, elem_of_singleton, elem_of_app.
    intros [->|Hg]; [right; left|left; by apply Hs0].
Qed.

Lemma apply_one_tracked ns profile entry :
  preserves watching_step apply_env tracked (apply_one r ns profile entry).
Proof.
  pose proof tracked_stable as Hst. destruct entry as [rname resource].
  unfold apply_one, applyResourceToNamespace. apply preserves_bind; [done| |].
  - destruct (ToUnstructured resource); [by apply preserves_ret|].
    apply preserves_bind; [done| |].
    { by apply watches_alone_tracked. }
    intros [u err]. apply preserves_bind; [done|apply ensureWatch_tracked|]. intros []; by apply preserves_ret.
  - intros [err|]; [|by apply preserves_ret]. apply preserves_bind; [done| |intros; by apply preserves_ret].
    by apply watches_alone_tracked.
Qed.

Lemma apply_to_namespace_tracked profile entry :
  preserves watching_step apply_env tracked (apply_to_namespace r profile entry).
Proof.
  pose proof tracked_stable as Hst. destruct entry as [i ns]. unfold apply_to_namespace, deleted_already.
  apply preserves_bind; [done| |].
  - destruct (ns_DeletionTimestamp ns); [|by apply preserves_ret].
    apply preserves_bind; [done| |intros; by apply preserves_ret].
    by apply watches_alone_tracked.
  - intros []; [by apply preserves_ret|]. apply preserves_for_each; [done|].
    intros x _. apply apply_one_tracked.
Qed.

Lemma Reconcile_tracked name :
  preserves watching_step apply_env tracked (ZoneUsageProfileApplyReconciler_Reconcile r name).
Proof.
  pose proof tracked_stable as Hst. unfold ZoneUsageProfileApplyReconciler_Reconcile.
  destruct (_ && _); [by apply preserves_ret|]. apply preserves_bind; [done| |].
  { by apply watches_alone_tracked. }
  intros [err|profile]; [by apply preserves_ret|]. apply preserves_bind; [done| |].
  { by apply watches_alone_tracked. }
  intros [err|nss]; [by apply preserves_ret|].
  apply preserves_bind; [done| |intros; by apply preserves_ret].
  apply preserves_for_each; [done|]. intros x _. apply apply_to_namespace_tracked.
Qed.

(** *** A run that causes no request *)
Abbreviation quiet name :=
  (exec (quiet_step watching_step (apply_watch r) name) (quiet_env apply_env (apply_watch r) name)).
Abbreviation quiet_changes name := (quiet_env apply_env (apply_watch r) name).

Lemma quiet_changes_env name s s' : rtc (quiet_changes name) s s' -> rtc apply_env s s'.
Proof. induction 1 as [|s1 s2 s3 [He _] _ IH]; [done|]. by eapply rtc_l. Qed.

Lemma watches_grow X (c : apply_call X) s x s' : apply_step X c s x s' -> as_watches s ⊆ as_watches s'.
Proof. intros Hx. destruct c; inversion Hx; subst; simpl; set_solver. Qed.

Lemma resource_in_place_kept profile ns rname resource :
  kept (quiet_step watching_step (apply_watch r) (zup_Name profile)) (quiet_changes (zup_Name profile))
    (resource_in_place r profile ns rname resource).
Proof.
  split.
  - intros s s' [(_ & Hw & _) Hq]. apply resource_in_place_stays; [done|by rewrite Hw].
  - intros X c s x s' [[Hx _] Hq]. apply resource_in_place_stays; [done|by eapply watches_grow].
Qed.

(** When the object has been written and its kind is watched in the end, nothing was missed. *)
Lemma ensureWatch_in_place profile ns rname resource raw obj old gvk s s' :
  ToUnstructured resource = inr raw -> gvk = u_GroupVersionKind raw ->
  as_objects s !! resource_key ns rname raw = Some obj ->
  set_content r rname ns raw profile old = inr obj -> tracked s ->
  quiet (zup_Name profile) (ensureWatch r gvk) s None s' ->
  resource_in_place r profile ns rname resource s'.
Proof.
  intros Hraw -> Hobj Hc Hs Hx.
  destruct (decide (u_GroupVersionKind raw ∈ as_watches s)) as [Hin|Hnin].
  { eapply exec_keeps; [apply resource_in_place_kept|exact Hx|]. by exists raw, obj, old. }
  exfalso. unfold ensureWatch in Hx.
  destruct (negb (ua_ready r)); [by destruct Hx|]. destruct (gvk_Empty _); [by destruct Hx|].
  apply exec_trigger in Hx as (s0 & ran & s1 & Hr0 & [[Ho _] _] & Hx).
  apply quiet_changes_env, apply_env_rtc in Hr0 as (Et & Ew & Eo). inversion Ho; subst; clear Ho.
  rewrite bool_decide_eq_false_2 in Hx by (rewrite Et; intros Ht; by apply Hnin, Hs).
  destruct Hx as (s2 & err & s3 & Hr2 & [[Hw Hok] Hq] & _). simpl in Hok. subst err.
  inversion Hw; subst; clear Hw.
  apply quiet_changes_env, apply_env_rtc in Hr2 as (Et2 & Ew2 & Eo2). simpl in *.
  apply Hq. unfold apply_watch. apply elem_of_union_r, elem_of_existing.
  exists (resource_key ns rname raw), obj. split; [|split; [done|]].
  - simpl. rewrite Eo2, Eo by (simpl; by rewrite ?Ew). done.
  - unfold object_requests. rewrite decide_True; [by eapply set_content_owner|].
    simpl. apply list_elem_of_filter. rewrite Ew2, Ew. split; [done|].
    apply elem_of_app. right. left.
Qed.

Lemma apply_one_in_place ns profile rname resource s s' :
  tracked s -> quiet (zup_Name profile) (apply_one r ns profile (rname, resource)) s None s' ->
  resource_in_place r profile ns rname resource s'.
Proof.
  intros Hs Hx. unfold apply_one, applyResourceToNamespace in Hx.
  apply exec_bind in Hx as (err & s1 & s2 & Hx & Hr2 & Hend).
  destruct err as [e|]; [by destruct Hend as (? & ? & ? & _ & _ & ? & _)|]. destruct Hend as [_ Hr3].
  eapply stable_rtc; [apply resource_in_place_kept|exact Hr3|].
  eapply stable_rtc; [apply resource_in_place_kept|exact Hr2|]. clear Hr2 Hr3.
  destruct (ToUnstructured resource) as [e|raw] eqn:Eraw; [by destruct Hx|].
  rewrite exec_trigger in Hx. destruct Hx as (s3 & [u err] & s4 & Hr3 & [[Hw Hgvk] _] & Hx).
  apply exec_bind in Hx as (werr & s5 & s6 & Hen & Hr5 & Hend).
  destruct werr as [e|]; [by destruct Hend|]. destruct Hend as [<- Hr6].
  eapply stable_rtc; [apply resource_in_place_kept|exact Hr6|].
  eapply stable_rtc; [apply resource_in_place_kept|exact Hr5|].
  simpl in Hgvk. rewrite (Hgvk eq_refl) in Hen. inversion Hw as [err m u' Hm]; subst.
  inversion Hm as [v Hv| |]; subst.
  refine (ensureWatch_in_place _ _ _ _ raw v _ _ _ _ Eraw eq_refl _ Hv _ Hen); [apply lookup_insert_eq|].
  apply quiet_changes_env in Hr3. by apply (stable_rtc _ _ _ _ tracked_stable) in Hr3.
Qed.

(** Complete runs that cause no request preserve the invariant as well. *)
Lemma quiet_tracked name {A} (p : prog apply_call A) :
  preserves watching_step apply_env tracked p ->
  preserves (quiet_step watching_step (apply_watch r) name) (quiet_changes name) tracked p.
Proof.
  intros Hp s a s' Hs Hx. eapply Hp; [exact Hs|]. clear Hp Hs. revert s Hx.
  induction p as [b|X c k IH]; intros s; [by intros [-> Hr%quiet_changes_env]|].
  intros (s0 & x & s1 & Hr%quiet_changes_env & [Hx _] & Hk). exists s0, x, s1. auto.
Qed.

Lemma quiet_tracked_stable name : stable (quiet_changes name) tracked.
Proof. intros s s' [He _]. by apply tracked_stable. Qed.

(** What the loop body does for one namespace. *)
Definition namespace_in_place (profile : ZoneUsageProfile) (entry : nat * Namespace) (s : apply_state)
    : Prop :=
  ns_DeletionTimestamp entry.2 = None ->
  forall rname resource, Resources (UpstreamSpec (zup_Spec profile)) !! rname = Some resource ->
    resource_in_place r profile entry.2 rname resource s.

Lemma namespace_in_place_kept profile entry :
  kept (quiet_step watching_step (apply_watch r) (zup_Name profile)) (quiet_changes (zup_Name profile))
    (namespace_in_place profile entry).
Proof.
  split.
  - intros s s' Hq Hs Hd rname resource Hres.
    by eapply (proj1 (resource_in_place_kept profile entry.2 rname resource)); [exact Hq|apply Hs].
  - intros X c s x s' Hq Hs Hd rname resource Hres.
    by eapply (proj2 (resource_in_place_kept profile entry.2 rname resource)); [exact Hq|apply Hs].
Qed.

Abbreviation no_errors errs := (Forall (fun e : option error => e = None) errs).

Lemma apply_to_namespace_in_place profile entry s errs s' :
  tracked s -> quiet (zup_Name profile) (apply_to_namespace r profile entry) s errs s' ->
  no_errors errs -> namespace_in_place profile entry s'.
Proof.
  destruct entry as [i ns]. intros Hs Hx Hall Hd rname resource Hres. simpl in Hd.
  unfold apply_to_namespace, deleted_already in Hx. rewrite Hd in Hx.
  rewrite <- (range_map_elem i) in Hres.
  refine (for_each_establishes_under _ _ tracked (apply_one r ns profile) (fun e => e = None)
    (fun entry => resource_in_place r profile ns entry.1 entry.2) _ _ _ _ (quiet_tracked_stable _)
    _ (fun x _ => resource_in_place_kept _ _ _ _) _ Hs Hx Hall (rname, resource) Hres).
  - intros x _. apply quiet_tracked, apply_one_tracked.
  - intros [n res] s1 e s2 _ Hs1 Hx1 ->. by eapply apply_one_in_place.
Qed.

(** A profile that is reconciled, and a namespace of an organization, were there before. *)
Lemma profile_kept name profile :
  kept (quiet_step watching_step (apply_watch r) name) (quiet_changes name)
    (fun s => as_profiles s !! name = Some profile).
Proof.
  split; [intros s s' [_ Hq]|intros X c s x s' [_ Hq]]; intros Hp;
    rewrite <- Hp; by apply apply_watch_profile.
Qed.

(** The calls of the controller change no namespace. *)
Lemma own_namespaces X (c : apply_call X) s x s' : apply_step X c s x s' -> as_namespaces s' = as_namespaces s.
Proof. intros Hx. destruct c; by inversion Hx; subst. Qed.

Lemma own_events_handled X (c : apply_call X) s x s' : apply_step X c s x s' -> events_handled s s'.
Proof. intros Hx. right. by eapply own_namespaces. Qed.

Lemma namespace_new_kept name profile ns :
  zup_Name profile = name -> is_Some (ns_Labels ns !! ua_OrganizationLabel r) ->
  kept (quiet_step watching_step (apply_watch r) name) (quiet_changes name)
    (fun s => as_profiles s !! name = Some profile /\ ns ∉ as_namespaces s).
Proof.
  intros Hname Hl.
  assert (Hone : forall s s', name ∉ apply_watch r s s' -> events_handled s s' ->
    as_profiles s !! name = Some profile /\ ns ∉ as_namespaces s ->
    as_profiles s' !! name = Some profile /\ ns ∉ as_namespaces s').
  { intros s s' Hq He [Hp Hn]. rewrite <- (apply_watch_profile name s s' Hq) in Hp. split; [done|].
    intros Hns. by apply Hn, (apply_watch_namespace name profile ns s s'). }
  split; [intros s s' [(_ & _ & He & _) Hq]|intros X c s x s' [[Hx%own_events_handled _] Hq]]; by apply Hone.
Qed.

Lemma profile_in_place_stays name s s' :
  name ∉ apply_watch r s s' -> events_handled s s' -> as_watches s ⊆ as_watches s' ->
  profile_in_place r name s -> profile_in_place r name s'.
Proof.
  intros Hq He Hw Hs Hsel profile Hp Hname ns Hns Hl Hd rname resource Hres.
  assert (Hq' : zup_Name profile ∉ apply_watch r s s') by by rewrite Hname.
  apply (resource_in_place_stays _ _ _ _ _ _ Hq' Hw). eapply Hs; try done.
  - by rewrite <- (apply_watch_profile name s s' Hq).
  - by apply (apply_watch_namespace name profile ns s s').
Qed.

(** The loop over the namespaces, from a state where they have been listed. *)
Lemma namespaces_in_place profile ns s errs s1 :
  tracked s -> ns ∈ org_namespaces r s ->
  quiet (zup_Name profile) (for_each (imap pair (org_namespaces r s)) (apply_to_namespace r profile)) s errs s1 ->
  no_errors (mjoin errs) -> exists i, namespace_in_place profile (i, ns) s1.
Proof.
  intros Hs Hns Hx Hall. apply list_elem_of_lookup in Hns as [i Hi]. exists i.
  refine (for_each_establishes_under _ _ tracked (apply_to_namespace r profile)
    (fun errs => no_errors errs) (namespace_in_place profile) _ _ errs _ (quiet_tracked_stable _)
    _ (fun x _ => namespace_in_place_kept _ _) _ Hs Hx _ (i, ns) _).
  - intros x _. apply quiet_tracked, apply_to_namespace_tracked.
  - intros x s2 es s3 _. apply apply_to_namespace_in_place.
  - apply Forall_forall. intros es Hes. apply Forall_forall. intros e He.
    rewrite Forall_forall in Hall. apply Hall, list_elem_of_join. by exists es.
  - apply list_elem_of_lookup. exists i. by rewrite list_lookup_imap, Hi.
Qed.

Lemma Reconcile_in_place name s s' :
  tracked s -> quiet name (ZoneUsageProfileApplyReconciler_Reconcile r name) s None s' ->
  profile_in_place r name s'.
Proof.
  intros Hs Hx Hsel profile Hp Hname ns Hns Hl Hd rname resource Hres.
  unfold ZoneUsageProfileApplyReconciler_Reconcile in Hx.
  assert (negb (bool_decide (ua_SelectedProfile r = "")) &&
    negb (bool_decide (ua_SelectedProfile r = name)) = false) as Hif.
  { destruct Hsel as [Hsel|Hsel]; rewrite (bool_decide_eq_true_2 _ Hsel); [done|]. apply andb_false_r. }
  rewrite Hif in Hx.
  rewrite exec_trigger in Hx. destruct Hx as (s0 & got & s1 & Hr0 & [[Hg _] Hq0] & Hx).
  pose proof (quiet_exec_view _ _ _ _ name (apply_watch_profile name) _ _ _ _ Hx) as Hv.
  cbn beta in Hv. rewrite (apply_watch_profile name s0 s1 Hq0), Hp in Hv.
  assert (Hs0 : tracked s0) by (eapply stable_rtc; [apply quiet_tracked_stable|done..]).
  destruct Hg as [p Hpr|err ?|err Hn]; [|congruence|].
  2:{ destruct Hx as [Hx _]. by rewrite IgnoreNotFound_spec, Hn in Hx. }
  assert (p = profile) as -> by congruence. clear Hpr Hv Hr0 Hq0.
  rewrite exec_trigger in Hx. destruct Hx as (s1 & got & s2 & Hr1 & [[Hg _] _] & Hx).
  assert (Hs1 : tracked s1) by (eapply stable_rtc; [apply quiet_tracked_stable|done..]).
  inversion Hg; subst; [|by destruct Hx]. clear Hg Hr1. rename s2 into s1.
  assert (Hns1 : ns ∈ org_namespaces r s1).
  { apply org_namespaces_elem. split; [|done].
    destruct (decide (ns ∈ as_namespaces s1)) as [|Hnew]; [done|].
    pose proof (quiet_exec_view _ _ _ _ _ (apply_watch_profile (zup_Name profile)) _ _ _ _ Hx) as Hv.
    cbn beta in Hv. rewrite Hp in Hv.
    by destruct (exec_keeps _ _ _ _ _ _ _ (namespace_new_kept _ profile ns eq_refl Hl) Hx
      (conj (eq_sym Hv) Hnew)) as [_ Hno]. }
  apply exec_bind in Hx as (errs & s3 & s4 & Hf & Hr4 & Herr & Hr5).
  symmetry in Herr. apply multierr_Combine_nil in Herr.
  destruct (namespaces_in_place profile ns s1 errs s3 Hs1 Hns1 Hf) as [i Hin].
  { rewrite Forall_forall in *. intros [e|] He; [|done]. apply Herr, list_elem_of_filter.
    split; [by eexists|done]. }
  eapply stable_rtc; [apply resource_in_place_kept|exact Hr5|].
  eapply stable_rtc; [apply resource_in_place_kept|exact Hr4|]. by apply Hin.
Qed.

#[export] Instance apply_level :
  Level watching_step apply_env (ZoneUsageProfileApplyReconciler_Reconcile r) (apply_watch r)
    (apply_requests r) without_watches tracked (profile_in_place r).
Proof.
  split.
  - apply tracked_stable.
  - intros name s res s' Hx Hs. by eapply Reconcile_tracked.
  - intros name s s' _ _ gvk Hg. by apply elem_of_empty in Hg.
  - intros s _ gvk Hg. by apply elem_of_empty in Hg.
  - intros name s s' (_ & Hw & He & _) Hs Hq. eapply profile_in_place_stays; [done|done|by rewrite Hw|done].
  - intros name other s res s' _ _ Hx Hs.
    eapply (exec_keeps _ _ (profile_in_place r name)) in Hx; [done| |done]. split.
    + intros s1 s2 [(_ & Hw & He & _) Hq] Hs1. eapply profile_in_place_stays; [done|done|by rewrite Hw|done].
    + intros X c s1 x s2 [[Hx1 _] Hq] Hs1. eapply profile_in_place_stays; [done|by eapply own_events_handled|by eapply watches_grow|done].
  - intros name s s' Hs. by apply Reconcile_in_place.
  - intros name s. destruct (as_profiles s !! name) as [p|] eqn:E.
    + right. unfold apply_requests. apply elem_of_union_l. by eapply existing_object.
    + left. intros _ p. by rewrite E.
Qed.
End apply.

(** The transformer of the agent leaves everything but the spec alone. *)
Lemma set_overrides_other `{ObjectLaws} k ovs u errs :
  k <> "spec" -> json_path [k] (foldl set_override (u, errs) ovs).1 = json_path [k] u.
Proof.
  intros Hk. revert u errs. induction ovs as [|[key v] ovs IH]; intros u errs; [done|]. cbn [foldl].
  unfold set_override at 2. cbn [kv_k kv_v]. fold (hard key).
  pose proof (SetNestedField_spec u v (hard key)) as Hset.
  destruct (u_SetNestedField u v (hard key)) as [u1 e1]. rewrite IH.
  destruct (json_set (hard key) (JStr v) u) as [j'|] eqn:Ej; [|by destruct Hset as (? & [= -> _])].
  injection Hset as -> _. eapply json_set_other; [done|..]; intros [l Hl]; unfold hard, resourceQuotaSpecHardPath in Hl; simpl in Hl; congruence.
Qed.

Lemma Transform_other `{RangeOracle} `{Multierr} `{JSONLib} `{ObjectLaws}
    (t : resourceQuotaTransformer) u ns k :
  k <> "spec" -> json_path [k] (Transform t u ns).1 = json_path [k] u.
Proof.
  intros Hk. unfold Transform, resourceQuotaTransformer_Transform. destruct (negb _); [done|].
  destruct (overridesFromObj t ns) as [parsed parseErr]. destruct (parsed !! u_GetName u) as [ovs|]; [|done].
  pose proof (set_overrides_other k ovs u [parseErr] Hk) as Hm. by destruct (foldl _ _ _).
Qed.

(** ** Changes without requests *)
Section calm_changes.
Context `{OwnersLib}.

Lemma namespace_event_id {T} (r : ZoneUsageProfileApplyReconciler T) nss : namespace_event r nss nss = false.
Proof.
  unfold namespace_event. apply orb_false_iff.
  split; apply not_true_iff_false; rewrite existsb_exists; intros (ns & Hns%list_elem_of_In & Hb);
    apply andb_true_iff in Hb as [_ Hb]; apply bool_decide_eq_true in Hb; [done|].
  by apply Hb, list_elem_of_fmap_2.
Qed.

(** What causes no request: profiles and namespaces stay, and either objects and watches do, or no
    kind of object is watched before and nothing of a watched kind exists after. *)
Lemma apply_watch_calm {T} (r : ZoneUsageProfileApplyReconciler T) s s' :
  as_profiles s' = as_profiles s -> as_namespaces s' = as_namespaces s ->
  as_objects s' = as_objects s \/ as_watches s = [] ->
  as_watches s' = as_watches s \/ as_objects s' = ∅ -> apply_watch r s s' = ∅.
Proof.
  intros Hp Hn Ho Hw. unfold apply_watch. rewrite Hp, Hn, watching_id, namespace_event_id.
  apply set_eq. intros name. rewrite !elem_of_union.
  split; [intros [[[?%elem_of_empty|?%elem_of_empty]|Hr]|Hr]; try done|by intros ?%elem_of_empty].
  - destruct Ho as [Ho|Ho]; [by rewrite Ho, watching_id in Hr|]. rewrite Ho in Hr.
    apply elem_of_set_bind in Hr as (k & _ & Hr). unfold object_requests in Hr.
    destruct (as_objects s' !! k), (as_objects s !! k); set_solver.
  - apply elem_of_existing in Hr as (k & v & Hk & _ & Hr). destruct Hw as [Hw|Hw].
    + rewrite Hw in Hr. unfold object_requests in Hr. case_decide as Hin; [|set_solver].
      by apply list_elem_of_filter in Hin as [].
    + by rewrite Hw, lookup_empty in Hk.
Qed.

Lemma apply_watch_id {T} (r : ZoneUsageProfileApplyReconciler T) s : apply_watch r s s = ∅.
Proof. apply apply_watch_calm; auto. Qed.

(** Profiles that have their own name are the only requests. *)
Lemma apply_requests_profiles {T} (r : ZoneUsageProfileApplyReconciler T) s :
  (forall n p, as_profiles s !! n = Some p -> zup_Name p = n) -> apply_requests r s ⊆ dom (as_profiles s).
Proof.
  intros Hn name. unfold apply_requests. rewrite elem_of_union, elem_of_existing. intros [Hp|Ha].
  - destruct Hp as (n & p & Hp & _ & ->%list_elem_of_singleton). by eapply elem_of_dom_2.
  - assert (Hall : name ∈ all_profiles s) by (revert Ha; by case_match; [|intros ?%elem_of_empty]).
    unfold all_profiles in Hall. apply elem_of_list_to_set in Hall. simpl in Hall.
    destruct (as_ListError s); [by apply elem_of_nil in Hall|]. simpl in Hall.
    apply list_elem_of_fmap in Hall as (p & -> & Hp). apply list_elem_of_fmap in Hp as ([n p'] & -> & Hp).
    apply elem_of_map_to_list in Hp. simpl. rewrite (Hn n p') by done. by eapply elem_of_dom_2.
Qed.
End calm_changes.

(** ** Properties *)
Section properties.
Context `{RangeOracle} `{ApiErrorsLaws} `{MultierrLaws} `{UnstructuredLib} `{JSONLib} `{ObjectLaws}.
Context `{OwnersLaws}.
Implicit Types r : ZoneUsageProfileApplyReconciler resourceQuotaTransformer.

(** C11: whatever happens after the agent has started, when no request is queued every resource of
    every profile that the agent applies is in every namespace of an organization that is not
    being deleted, with the content that [set_content] gives it, and its kind is watched: as long
    as no watch fails to start, the API server answers a write with an object of the kind that was
    asked for, others leave objects alone of a kind that is not yet watched, and no namespace
    changes while the handler of namespace events cannot list the profiles (it drops the event
    then). *)
Theorem resources_in_place r sys sys' :
  tracked (sys_state sys) -> started (apply_requests r) sys ->
  rtc (controller_step watching_step apply_env (ZoneUsageProfileApplyReconciler_Reconcile r)
        (apply_watch r) (apply_requests r) without_watches) sys sys' ->
  sys_queue sys' = ∅ -> forall name, profile_in_place r name (sys_state sys').
Proof.
  apply at_rest, apply_level. intros t u ns _. by apply Owners_metadata, Transform_other.
Qed.
End properties.

(** ** The theorem on an example: the next reconciliation leaves everything as it is *)
Import Fake.
#[local] Existing Instances fake_objects fake_json.

(** Metadata with labels and one owner. *)
Definition ac_set (k : string) (v j : json) : json :=
  match j with
  | JObj o =>
      JObj (<["metadata" := JObj (<[k := v]> match o !! "metadata" with Some (JObj m) => m | _ => ∅ end)]> o)
  | _ => JObj {["metadata" := JObj {[k := v]}]}
  end.

Definition ac_metadata : MetadataLib := {|
  ToUnstructured := inr;
  gvk_Empty := fun g => bool_decide (g = {| gvk_Group := ""; gvk_Version := ""; gvk_Kind := "" |});
  gvk_String := gvk_Kind;
  u_New := fun _ => JObj ∅;
  u_SetNamespace := fun _ j => j;
  u_SetName := fun _ j => j;
  u_SetLabels := fun m => ac_set "labels" (json_of_map m);
  u_SetControllerReference := fun o j => inr (ac_set "owner" (JStr o) j);
|}.

Definition ac_owners : OwnersLib := fun j =>
  match json_path ["metadata"; "owner"] j with Some (JStr o) => [o] | _ => [] end.

#[local] Existing Instances ac_metadata ac_owners fake_objects_laws.

Lemma ac_set_path k v j : json_path ["metadata"; k] (ac_set k v j) = Some v.
Proof.
  destruct j; simpl; rewrite ?lookup_insert_eq, ?lookup_singleton_eq; simpl;
    by rewrite ?lookup_insert_eq, ?lookup_singleton_eq.
Qed.

Lemma ac_set_other k k' v j :
  k' <> k -> json_path ["metadata"; k'] (ac_set k v j) = json_path ["metadata"; k'] j.
Proof.
  intros Hk. destruct j; simpl; rewrite ?lookup_insert_eq, ?lookup_singleton_eq; simpl;
    rewrite ?lookup_insert_ne, ?lookup_singleton_ne by done; try done.
  destruct (o !! "metadata") as [[]|]; simpl; by rewrite ?lookup_empty.
Qed.

#[local] Instance ac_owners_laws : OwnersLaws.
Proof.
  split.
  - intros o j j' [= <-]. unfold u_Owners, ac_owners. rewrite ac_set_path. apply list_elem_of_here.
  - intros m j. unfold u_Owners, ac_owners.
    change (u_SetLabels m j) with (ac_set "labels" (json_of_map m) j). by rewrite ac_set_other.
  - intros j j' Hm. unfold u_Owners, ac_owners.
    assert (forall j, json_path ["metadata"; "owner"] j = json_path ["metadata"] j ≫= json_path ["owner"]) as Hp.
    { intros []; try done. simpl. by destruct (_ !! _). }
    by rewrite !Hp, Hm.
Qed.

Definition ac_object : json :=
  ac_set "labels" (json_of_map {[resourceOwnerLabel := "default"]}) (ac_set "owner" (JStr "default") up_raw).

Definition ac_state : apply_state := {|
  as_profiles := {["default" := up_profile]}; as_namespaces := [up_namespace];
  as_objects := <[up_rq_key := ac_object]> ∅; as_tracker := {[resourceQuotaV1gvk]};
  as_watches := [resourceQuotaV1gvk]; as_ListError := None |}.

Lemma ac_labels : u_GetLabels ac_object = {[resourceOwnerLabel := "default"]}.
Proof. apply GetLabels_path. unfold ac_object. apply ac_set_path. Qed.

Lemma ac_content :
  set_content up_reconciler "limits" up_namespace up_raw up_profile ac_object = inr ac_object.
Proof.
  unfold set_content. rewrite ac_labels, lookup_singleton_eq.
  change (zup_Name up_profile) with "default". rewrite insert_singleton_eq. reflexivity.
Qed.

Abbreviation ac_steady := (fun X (e : apply_call X) s x s' => watching_step X e s x s' /\ s' = s).

Lemma ac_run :
  exec ac_steady alone (ZoneUsageProfileApplyReconciler_Reconcile up_reconciler "default")
    ac_state None ac_state.
Proof.
  change (exec ac_steady alone
    (got ← trigger (FetchProfile "default");
     match got with
     | inl err => mret (client_IgnoreNotFound (Some err))
     | inr profile =>
         got ← trigger (ListNamespaces [HasLabels ["organization"]]);
         match got with
         | inl err => mret (Some err)
         | inr namespaces =>
             errs ← for_each (imap pair namespaces) (apply_to_namespace up_reconciler profile);
             mret (multierr_Combine (filter is_Some (mjoin errs)))
         end
     end) ac_state None ac_state).
  apply (alone_trigger ac_steady). eexists (inr up_profile), ac_state.
  split; [split; [split; [by apply read_found, lookup_singleton_eq|done]|done]|].
  apply (alone_trigger ac_steady). eexists _, ac_state.
  split; [split; [split; [apply list_found|done]|done]|].
  eapply (alone_bind _ _ _ _ [[None]] ac_state); [|by apply alone_ret].
  eapply (alone_bind _ _ _ _ [None] ac_state); [|by eapply alone_bind; apply alone_ret].
  eapply (alone_bind _ _ _ _ false); [by apply alone_ret|].
  change (exec ac_steady alone (for_each [("limits", up_raw)] (apply_one up_reconciler up_namespace up_profile))
    ac_state [None] ac_state).
  eapply (alone_bind _ _ _ _ None ac_state); [|by eapply alone_bind; apply alone_ret].
  eapply (alone_bind _ _ _ _ None ac_state); [|by apply alone_ret].
  apply (alone_trigger ac_steady). exists (ac_object, None), ac_state. split.
  { split; [|done]. split; [|done].
    replace ac_state with (set_objects (<[up_rq_key := ac_object]> (as_objects ac_state)) ac_state) at 2
      by (by unfold set_objects; rewrite insert_id by (by apply lookup_insert_eq)).
    apply write_object, cou_done. simpl. rewrite lookup_insert_eq. exact ac_content. }
  eapply (alone_bind _ _ _ _ None ac_state); [|by apply alone_ret].
  apply (alone_trigger ac_steady). exists true, ac_state. split; [|by apply alone_ret].
  split; [|done]. split; [|done].
  replace ac_state with (set_tracker ({[resourceQuotaV1gvk]} ∪ as_tracker ac_state) ac_state) at 2
    by (unfold set_tracker; simpl; by rewrite (idemp_L (∪))).
  change true with (bool_decide (resourceQuotaV1gvk ∈ as_tracker ac_state)). apply once_ran.
Qed.

Lemma ac_started s :
  as_profiles s = {["default" := up_profile]} ->
  started (apply_requests up_reconciler) {| sys_state := s; sys_queue := {["default"]} |}.
Proof.
  intros Hs. unfold started. cbn [sys_state sys_queue]. etrans; [apply apply_requests_profiles|]; rewrite Hs.
  - intros n p. rewrite lookup_singleton_Some. by intros [<- <-].
  - by rewrite (dom_singleton_L (M := gmap string)).
Qed.

Lemma resources_in_place_witness :
  resource_in_place up_reconciler up_profile up_namespace "limits" up_raw ac_state.
Proof.
  refine (resources_in_place up_reconciler {| sys_state := ac_state; sys_queue := {["default"]} |}
    {| sys_state := ac_state; sys_queue := ∅ |} _ _ _ eq_refl "default" (or_intror eq_refl) up_profile
    (lookup_singleton_eq _ _) eq_refl up_namespace _ _ eq_refl "limits" up_raw (lookup_singleton_eq _ _)).
  - intros gvk Hg. apply (elem_of_singleton gvk resourceQuotaV1gvk) in Hg as ->. left.
  - by apply ac_started.
  - apply rtc_once. refine (process_step _ _ _ _ _ _ "default" ac_state {["default"]} None ac_state ∅ _ _);
      [set_solver|].
    replace ({["default"]} ∖ {["default"]}) with (∅ : gset string) by set_solver.
    exact (queued_steady _ _ _ _ _ _ _ _ (apply_watch_id _) ac_run).
  - left.
  - by eexists.
Defined.

(** *** The order of the write and the watch *)

(** Others that may change everything but what the agent has in memory. *)
Definition apply_others (s s' : apply_state) : Prop :=
  as_tracker s' = as_tracker s /\ as_watches s' = as_watches s.

Abbreviation ac_calm := (calm_step watching_step (apply_watch up_reconciler)).
Abbreviation ac_others := (calm_env apply_others (apply_watch up_reconciler)).

Definition ac_lost : apply_state := add_watch resourceQuotaV1gvk
  (set_tracker ({[resourceQuotaV1gvk]} ∪ ∅) up_fresh).

Lemma ac_created :
  set_content up_reconciler "limits" up_namespace up_raw up_profile (JObj ∅) = inr ac_object.
Proof. unfold set_content. rewrite GetLabels_empty, lookup_empty. reflexivity. Qed.

(** The object is deleted after it has been written and before its kind is watched. *)
Lemma ac_lost_run :
  exec ac_calm ac_others (ZoneUsageProfileApplyReconciler_Reconcile up_reconciler "default")
    up_fresh None ac_lost.
Proof.
  change (exec ac_calm ac_others
    (got ← trigger (FetchProfile "default");
     match got with
     | inl err => mret (client_IgnoreNotFound (Some err))
     | inr profile =>
         got ← trigger (ListNamespaces [HasLabels ["organization"]]);
         match got with
         | inl err => mret (Some err)
         | inr namespaces =>
             errs ← for_each (imap pair namespaces) (apply_to_namespace up_reconciler profile);
             mret (multierr_Combine (filter is_Some (mjoin errs)))
         end
     end) up_fresh None ac_lost).
  apply (exec_trigger ac_calm). eexists up_fresh, (inr up_profile), up_fresh. split; [apply rtc_refl|].
  split; [split; [split; [by apply read_found, lookup_singleton_eq|done]|apply apply_watch_id]|].
  apply (exec_trigger ac_calm). eexists up_fresh, _, up_fresh. split; [apply rtc_refl|].
  split; [split; [split; [apply list_found|done]|apply apply_watch_id]|].
  assert (Hret : forall A (a : A) s, exec ac_calm ac_others (mret a) s a s) by by split.
  eapply (bind_exec _ _ _ _ _ [[None]] ac_lost); [|by apply Hret].
  eapply (bind_exec _ _ _ _ _ [None] ac_lost); [|by eapply bind_exec; apply Hret].
  eapply (bind_exec _ _ _ _ _ false); [by apply Hret|].
  change (exec ac_calm ac_others
    (for_each [("limits", up_raw)] (apply_one up_reconciler up_namespace up_profile)) up_fresh [None] ac_lost).
  eapply (bind_exec _ _ _ _ _ None ac_lost); [|by eapply bind_exec; apply Hret].
  eapply (bind_exec _ _ _ _ _ None ac_lost); [|by apply Hret].
  apply (exec_trigger ac_calm).
  exists up_fresh, (ac_object, None), (set_objects (<[up_rq_key := ac_object]> ∅) up_fresh).
  split; [apply rtc_refl|]. split.
  { split; [|by apply apply_watch_calm; auto]. split; [|done].
    apply write_object, cou_done. simpl. rewrite lookup_empty. exact ac_created. }
  eapply (bind_exec _ _ _ _ _ None ac_lost); [|by apply Hret].
  apply (exec_trigger ac_calm). exists up_fresh, false, (set_tracker ({[resourceQuotaV1gvk]} ∪ ∅) up_fresh).
  split; [apply rtc_once; split; [done|by apply apply_watch_calm; auto]|]. split.
  { split; [|by apply apply_watch_calm; auto]. split; [|done].
    change false with (bool_decide (resourceQuotaV1gvk ∈ (∅ : gset GroupVersionKind))). apply once_ran. }
  exists (set_tracker ({[resourceQuotaV1gvk]} ∪ ∅) up_fresh), None, ac_lost.
  split; [apply rtc_refl|]. split; [|by split].
  split; [|by apply apply_watch_calm; auto]. split; [apply watch_done|done].
Qed.

(** The watch of a kind is started only after the first object of the kind has been written:
    when another client deletes that object in between, no request is queued, and the resource is
    missing until something else happens. *)
Theorem apply_window :
  exists sys sys',
    tracked (sys_state sys) /\ started (apply_requests up_reconciler) sys /\
    rtc (controller_step watching_step apply_others (ZoneUsageProfileApplyReconciler_Reconcile up_reconciler)
      (apply_watch up_reconciler) (apply_requests up_reconciler) without_watches) sys sys' /\
    sys_queue sys' = ∅ /\ ~ profile_in_place up_reconciler "default" (sys_state sys').
Proof.
  exists {| sys_state := up_fresh; sys_queue := {["default"]} |}, {| sys_state := ac_lost; sys_queue := ∅ |}.
  split_and!; [|by apply ac_started| |done|].
  - intros gvk Hg. by apply elem_of_empty in Hg.
  - apply rtc_once. refine (process_step _ _ _ _ _ _ "default" up_fresh {["default"]} None ac_lost ∅ _ _);
      [set_solver|].
    replace ({["default"]} ∖ {["default"]}) with (∅ : gset string) by set_solver.
    exact (queued_calm _ _ _ _ _ _ _ _ ac_lost_run).
  - intros Hp. destruct (Hp (or_intror eq_refl) up_profile (lookup_singleton_eq _ _) eq_refl up_namespace
      (list_elem_of_here _ _) ltac:(by eexists) eq_refl "limits" up_raw (lookup_singleton_eq _ _))
      as (raw & obj & old & _ & Hobj & _).
    change (as_objects _) with (∅ : gmap (GroupVersionKind * ObjectKey) json) in Hobj.
    by rewrite lookup_empty in Hobj.
Qed.

(** *** Namespaces while the profiles cannot be listed *)

(** A namespace is created that no request is queued for. *)
Definition ac_unlisted : apply_state := {|
  as_profiles := as_profiles ac_state;
  as_namespaces := [up_namespace; {| ns_Name := "shop"; ns_Labels := {["organization" := "acme"]};
                                     ns_Annotations := ∅; ns_DeletionTimestamp := None |}];
  as_objects := as_objects ac_state; as_tracker := as_tracker ac_state; as_watches := as_watches ac_state;
  as_ListError := Some (ErrorString "unavailable") |}.

Lemma ac_unlisted_watch : apply_watch up_reconciler ac_state ac_unlisted = ∅.
Proof. by vm_compute. Qed.

(** Without [events_handled] the resources are not always in place: the handler of namespace events
    returns no requests when it cannot list the profiles, and is not called again. *)
Theorem apply_event_lost :
  exists sys sys',
    tracked (sys_state sys) /\ started (apply_requests up_reconciler) sys /\
    rtc (controller_step watching_step apply_others (ZoneUsageProfileApplyReconciler_Reconcile up_reconciler)
      (apply_watch up_reconciler) (apply_requests up_reconciler) without_watches) sys sys' /\
    sys_queue sys' = ∅ /\ ~ profile_in_place up_reconciler "default" (sys_state sys').
Proof.
  exists {| sys_state := ac_state; sys_queue := {["default"]} |}, {| sys_state := ac_unlisted; sys_queue := ∅ |}.
  split_and!; [|by apply ac_started| |done|].
  - intros gvk Hg. apply (elem_of_singleton gvk resourceQuotaV1gvk) in Hg as ->. left.
  - eapply rtc_l; [|apply rtc_once, others_step].
    + refine (process_step _ _ _ _ _ _ "default" ac_state {["default"]} None ac_state ∅ _ _);
        [set_solver|].
      replace ({["default"]} ∖ {["default"]}) with (∅ : gset string) by set_solver.
      exact (queued_steady _ _ _ _ _ _ _ _ (apply_watch_id _) ac_run).
    + split; [by split|]. cbn [sys_queue sys_state]. rewrite ac_unlisted_watch. set_solver.
  - intros Hp. destruct (Hp (or_intror eq_refl) up_profile (lookup_singleton_eq _ _) eq_refl _
      (list_elem_of_further _ _ _ (list_elem_of_here _ _)) ltac:(by eexists) eq_refl "limits" up_raw
      (lookup_singleton_eq _ _)) as (raw & obj & old & [= <-] & Hobj & _).
    change (as_objects _ !! _) with ((<[up_rq_key := ac_object]> ∅ : gmap _ json) !!
      (resourceQuotaV1gvk, {| key_Namespace := "shop"; key_Name := "limits" |})) in Hobj.
    by rewrite lookup_insert_ne, lookup_empty in Hobj.
Qed.
