(* ===== verification/ApplyConverge.v ===== *)
(** * Usage profiles on a cluster without faults

    The controller of [ApplyController] comes to rest: a reconciliation puts the resources of its
    profile in place and leaves those of the other profiles alone, and one that finds everything in
    place changes nothing.  It may start watches, which report what exists, so one reconciliation
    may wake up the others; the argument is [Drain.Quiesces]. *)
From S2P Require Import Prelude GoStd Kube Fake Api Effects Workqueue Drain Transformers UsageProfile.
From S2P Require Import ApplyController.

(** The kind of an unstructured object is in its fields [apiVersion] and [kind]; a new object has
    no labels. *)
Class KindLaws `{UnstructuredLib} `{ObjectLib} `{MetadataLib} : Prop := {
  GroupVersionKind_fields j j' :
    json_path ["apiVersion"] j' = json_path ["apiVersion"] j -> json_path ["kind"] j' = json_path ["kind"] j ->
    u_GroupVersionKind j' = u_GroupVersionKind j;
  New_labels g n m : u_GetLabels (u_SetName n (u_SetNamespace m (u_New g))) = ∅;
}.

(** ** The answers of the cluster *)
Section answer.
Context `{ObjectLib} (not_found mismatch : error) (now : Z).

(** No call fails, and no time passes; the API server refuses an object of another kind than the
    request is for. *)
Definition apply_answer X (c : apply_call X) : apply_state -> X * apply_state :=
  match c in apply_call X return apply_state -> X * apply_state with
  | FetchProfile name => fun s =>
      (match as_profiles s !! name with Some profile => inr profile | None => inl not_found end, s)
  | ListNamespaces opts => fun s =>
      (inr (filter (fun ns => Forall (fun opt => list_option_matches opt ns) opts) (as_namespaces s)), s)
  | Now => fun s => (now, s)
  | CreateOrUpdateObject u gvk key mutate => fun s =>
      match mutate (default u (as_objects s !! (gvk, key))) with
      | inl err => ((u, Some err), s)
      | inr obj =>
          if decide (u_GroupVersionKind obj = gvk)
          then ((obj, None), set_objects (<[(gvk, key) := obj]> (as_objects s)) s)
          else ((obj, Some mismatch), s)
      end
  | LoadOrStoreOnce gvk => fun s =>
      (bool_decide (gvk ∈ as_tracker s), set_tracker ({[gvk]} ∪ as_tracker s) s)
  | Watch gvk => fun s => (None, add_watch gvk s)
  | RecordApplyEvent _ _ _ _ => fun s => (tt, s)
  end.

Lemma set_objects_id s : set_objects (as_objects s) s = s.
Proof. by destruct s. Qed.

Lemma apply_answer_step `{ApiErrors} :
  apierrors_IsNotFound not_found = true -> FaultFree apply_answer watching_step.
Proof.
  intros Hnf X c s.
  assert (refused : forall u gvk key mutate u' err, write_object_step u gvk key mutate s (u', Some err) s).
  { intros u gvk key mutate u' err. rewrite <- (set_objects_id s) at 2. apply write_object, cou_failed. }
  split.
  - destruct c; simpl; [|apply list_found|apply any| |apply once_ran|apply watch_done|apply any].
    + destruct (as_profiles s !! name) eqn:E; [by apply read_found|by apply read_missing].
    + destruct (mutate _) as [err|obj] eqn:E.
      { by apply refused. }
      case_decide; [by apply write_object, cou_done|by apply refused].
  - destruct c; simpl; try done. destruct (mutate _); [done|]. by case_decide.
Qed.
End answer.

(** ** What is assumed of profiles, namespaces and objects *)
Section assumptions.
Context `{UnstructuredLib} `{ObjectLib} `{MetadataLib} {T : Type}.
Implicit Types (r : ZoneUsageProfileApplyReconciler T) (profiles : gmap string ZoneUsageProfile).

(** [raw] is the resource [rname] of a profile that is applied to the namespace. *)
Record target r profiles (nss : list Namespace) (profile : ZoneUsageProfile) (ns : Namespace)
    (rname : string) (resource raw : json) : Prop := {
  target_selected : ua_SelectedProfile r = "" \/ ua_SelectedProfile r = zup_Name profile;
  target_profile : profiles !! zup_Name profile = Some profile;
  target_namespace : ns ∈ nss;
  target_resource : Resources (UpstreamSpec (zup_Spec profile)) !! rname = Some resource;
  target_raw : ToUnstructured resource = inr raw;
}.

(** The profiles can be applied: their resources are objects that may have an owner, and no two of
    the profiles that are applied have a resource of the same kind and name. *)
Record applicable r (now : Z) profiles (nss : list Namespace) : Prop := {
  app_named n profile : profiles !! n = Some profile -> zup_Name profile = n;
  app_namespaces : NoDup (ns_Name <$> nss);
  app_deleted ns t : ns ∈ nss -> ns_DeletionTimestamp ns = Some t -> (t < now)%Z;
  app_converts n profile rname resource :
    ua_SelectedProfile r = "" \/ ua_SelectedProfile r = n -> profiles !! n = Some profile ->
    Resources (UpstreamSpec (zup_Spec profile)) !! rname = Some resource ->
    exists raw, ToUnstructured resource = inr raw /\ gvk_Empty (u_GroupVersionKind raw) = false /\
      forall ns, ns ∈ nss -> exists u, u_SetControllerReference (zup_Name profile)
        (u_SetName rname (u_SetNamespace (ns_Name ns) raw)) = inr u;
  app_distinct profile profile' ns ns' rname resource resource' raw raw' :
    target r profiles nss profile ns rname resource raw ->
    target r profiles nss profile' ns' rname resource' raw' ->
    u_GroupVersionKind raw = u_GroupVersionKind raw' -> profile = profile';
}.

(** Nobody else owns the objects that are written, and every watch was started that was tracked. *)
Record unowned r profiles (nss : list Namespace) (s : apply_state) : Prop := {
  uo_profiles : as_profiles s = profiles;
  uo_namespaces : as_namespaces s = nss;
  uo_tracker gvk : gvk ∈ as_tracker s <-> gvk ∈ as_watches s;
  uo_objects profile ns rname resource raw obj p :
    target r profiles nss profile ns rname resource raw ->
    as_objects s !! resource_key ns rname raw = Some obj ->
    u_GetLabels obj !! resourceOwnerLabel = Some p -> p = zup_Name profile;
}.

Record apply_free r (now : Z) (s : apply_state) : Prop := {
  free_ready : ua_ready r = true;
  free_applicable : applicable r now (as_profiles s) (as_namespaces s);
  free_unowned : unowned r (as_profiles s) (as_namespaces s) s;
}.

(** Targets have different places. *)
Lemma target_key r now profiles nss profile profile' ns ns' rname rname' resource resource' raw raw' :
  applicable r now profiles nss ->
  target r profiles nss profile ns rname resource raw ->
  target r profiles nss profile' ns' rname' resource' raw' ->
  resource_key ns rname raw = resource_key ns' rname' raw' ->
  profile = profile' /\ ns = ns' /\ rname = rname' /\ raw = raw'.
Proof.
  intros Happ Ht Ht' [= Hkind Hns <-].
  assert (profile = profile') as <- by (by eapply app_distinct).
  split_and!; [done| |done|].
  - eapply NoDup_fmap_eq; [apply (app_namespaces _ _ _ _ Happ)|by eapply target_namespace..|done].
  - destruct Ht as [_ _ _ Hres Hraw], Ht' as [_ _ _ Hres' Hraw']. congruence.
Qed.
End assumptions.

(** ** What [set_content] does to an object that may be written *)
Section content.
Context `{RangeOracle} `{MetadataLaws} `{ObjectLib} `{!KindLaws} `{Transformer T}.
Context (r : ZoneUsageProfileApplyReconciler T).
Context (Hkind : forall t u ns, t ∈ ua_Transformers r ->
  u_GroupVersionKind (Transform t u ns).1 = u_GroupVersionKind u).

Lemma same_outside_kind j j' : same_outside_metadata j j' -> u_GroupVersionKind j' = u_GroupVersionKind j.
Proof using Type*. intros Hj. by apply GroupVersionKind_fields; apply Hj. Qed.

Lemma transform_all_kind u ns : u_GroupVersionKind (transform_all (ua_Transformers r) u ns) = u_GroupVersionKind u.
Proof using Type*.
  unfold transform_all. revert u Hkind. induction (ua_Transformers r) as [|t ts IH]; intros u Hk; [done|].
  simpl. rewrite IH; [apply Hk; left|]. intros t' u' ns' Ht'. apply Hk. by right.
Qed.

(** The content in terms of the labels that the object has. *)
Lemma set_content_labels rname ns raw profile old obj :
  set_content r rname ns raw profile old = inr obj ->
  u_GetLabels obj = <[resourceOwnerLabel := zup_Name profile]> (u_GetLabels old).
Proof using Type*.
  unfold set_content. destruct (u_SetControllerReference _ _) as [|u]; [done|].
  destruct (_ !! _); [destruct (negb _); [done|]|]; intros [= <-]; apply SetLabels_labels.
Qed.

Lemma set_content_again rname ns raw profile old obj :
  set_content r rname ns raw profile old = inr obj -> set_content r rname ns raw profile obj = inr obj.
Proof using Type*.
  intros E. pose proof (set_content_labels _ _ _ _ _ _ E) as Hl. revert E. unfold set_content.
  rewrite Hl, lookup_insert_eq, bool_decide_eq_true_2, insert_insert_eq by done. simpl.
  destruct (u_SetControllerReference _ _) as [|u]; [done|].
  by destruct (_ !! _); [destruct (negb _); [done|]|].
Qed.

Lemma set_content_kind rname ns raw profile old obj :
  set_content r rname ns raw profile old = inr obj -> u_GroupVersionKind obj = u_GroupVersionKind raw.
Proof using Type*.
  unfold set_content. destruct (u_SetControllerReference _ _) as [|u] eqn:Eu; [done|].
  assert (Hu : u_GroupVersionKind (transform_all (ua_Transformers r) u ns) = u_GroupVersionKind raw).
  { rewrite transform_all_kind. rewrite (same_outside_kind _ _ (SetControllerReference_outside _ _ _ Eu)).
    rewrite (same_outside_kind _ _ (SetName_outside _ _)). apply same_outside_kind, SetNamespace_outside. }
  destruct (_ !! _); [destruct (negb _); [done|]|]; intros [= <-];
    by rewrite (same_outside_kind _ _ (SetLabels_outside _ _)).
Qed.

Lemma set_content_succeeds rname ns raw profile old u :
  u_SetControllerReference (zup_Name profile) (u_SetName rname (u_SetNamespace (ns_Name ns) raw)) = inr u ->
  (forall p, u_GetLabels old !! resourceOwnerLabel = Some p -> p = zup_Name profile) ->
  exists obj, set_content r rname ns raw profile old = inr obj.
Proof using Type.
  intros Hu Hl. unfold set_content. rewrite Hu. destruct (_ !! _) as [p|] eqn:E; [|by eexists].
  rewrite bool_decide_eq_true_2 by by apply Hl. by eexists.
Qed.
End content.

(** ** What the parts of the reconciler do

    For given profiles and namespaces, which no reconciliation changes. *)
Section parts.
Context `{RangeOracle} `{ApiErrorsLaws} `{MultierrLaws} `{MetadataLaws} `{ObjectLib} `{!KindLaws} `{OwnersLib}.
Context `{Transformer T} (r : ZoneUsageProfileApplyReconciler T).
Context (Hkind : forall t u ns, t ∈ ua_Transformers r ->
  u_GroupVersionKind (Transform t u ns).1 = u_GroupVersionKind u).
Context (not_found mismatch : error) (now : Z) (profiles : gmap string ZoneUsageProfile) (nss : list Namespace).
Context (Hready : ua_ready r = true) (Happ : applicable r now profiles nss).

Abbreviation answer := (apply_answer not_found mismatch now).

(** The object of a target has its content. *)
Definition content_in_place (profile : ZoneUsageProfile) (ns : Namespace) (rname : string) (raw : json)
    (s : apply_state) : Prop :=
  exists obj old, as_objects s !! resource_key ns rname raw = Some obj /\
    set_content r rname ns raw profile old = inr obj.

Lemma resource_in_place_content profile ns rname resource raw s :
  ToUnstructured resource = inr raw ->
  resource_in_place r profile ns rname resource s <->
  content_in_place profile ns rname raw s /\ u_GroupVersionKind raw ∈ as_watches s.
Proof using Type.
  intros Hraw. split.
  - intros (raw' & obj & old & Hraw' & Hobj & Hc & Hw). assert (raw' = raw) as -> by congruence.
    split; [by exists obj, old|done].
  - intros [(obj & old & Hobj & Hc) Hw]. by exists raw, obj, old.
Qed.

Definition targets_kept (s s' : apply_state) : Prop :=
  (forall profile ns rname resource raw, target r profiles nss profile ns rname resource raw ->
    content_in_place profile ns rname raw s -> content_in_place profile ns rname raw s') /\
  as_watches s ⊆ as_watches s'.

#[export] Instance targets_kept_preorder : PreOrder targets_kept.
Proof using Type.
  split; [split; [done|apply reflexivity]|].
  intros s1 s2 s3 [Hc Hw] [Hc' Hw']. split; [eauto|by etrans].
Qed.

Abbreviation settles :=
  (settles_to (apply_watch r) answer (unowned r profiles nss) targets_kept (fun _ => True)).

(** The object that is mutated and written for a target. *)
Definition init_object (ns : Namespace) (rname : string) (raw : json) : json :=
  u_SetName rname (u_SetNamespace (ns_Name ns) (u_New (u_GroupVersionKind raw))).

Definition written (ns : Namespace) (rname : string) (raw obj : json) (s : apply_state) : apply_state :=
  set_objects (<[resource_key ns rname raw := obj]> (as_objects s)) s.

Lemma target_content profile ns rname resource raw s :
  target r profiles nss profile ns rname resource raw -> unowned r profiles nss s ->
  exists obj, set_content r rname ns raw profile
    (default (init_object ns rname raw) (as_objects s !! resource_key ns rname raw)) = inr obj.
Proof using Type*.
  intros Ht Huo. destruct (app_converts _ _ _ _ Happ _ _ _ _ (target_selected _ _ _ _ _ _ _ _ Ht)
    (target_profile _ _ _ _ _ _ _ _ Ht) (target_resource _ _ _ _ _ _ _ _ Ht)) as (raw' & Hraw & _ & Hu).
  assert (raw' = raw) as -> by (pose proof (target_raw _ _ _ _ _ _ _ _ Ht); congruence).
  destruct (Hu ns (target_namespace _ _ _ _ _ _ _ _ Ht)) as [u Hu'].
  apply (set_content_succeeds r rname ns raw profile _ u Hu'). intros p.
  destruct (as_objects s !! _) as [o|] eqn:E; simpl; [by eapply uo_objects|].
  unfold init_object. by rewrite New_labels, lookup_empty.
Qed.

Lemma written_unowned profile ns rname resource raw old obj s :
  target r profiles nss profile ns rname resource raw -> unowned r profiles nss s ->
  set_content r rname ns raw profile old = inr obj -> unowned r profiles nss (written ns rname raw obj s).
Proof using Type*.
  intros Ht [Hp Hn Htr Ho] Hobj. split; [done..|].
  intros profile' ns' rname' resource' raw' o p Ht'. simpl. rewrite lookup_insert_Some.
  intros [[Hkey <-]|[_ Hl]]; [|by eapply Ho].
  rewrite (set_content_labels r Hkind _ _ _ _ _ _ Hobj), lookup_insert_eq.
  by destruct (target_key _ _ _ _ _ _ _ _ _ _ _ _ _ _ Happ Ht Ht' Hkey) as [<- _]; intros [= <-].
Qed.

Lemma written_kept profile ns rname resource raw old obj s :
  target r profiles nss profile ns rname resource raw ->
  set_content r rname ns raw profile old = inr obj -> targets_kept s (written ns rname raw obj s).
Proof using Type*.
  intros Ht Hobj. split; [|done]. intros profile' ns' rname' resource' raw' Ht' (o & old' & Hl & Hc).
  destruct (decide (resource_key ns rname raw = resource_key ns' rname' raw')) as [Hkey|Hne].
  - destruct (target_key _ _ _ _ _ _ _ _ _ _ _ _ _ _ Happ Ht Ht' Hkey) as (<- & <- & <- & <-).
    exists obj, old. split; [apply lookup_insert_eq|done].
  - exists o, old'. simpl. by rewrite lookup_insert_ne.
Qed.

(** The object of a target is written. *)
Lemma write_settles profile ns rname resource raw s :
  target r profiles nss profile ns rname resource raw -> unowned r profiles nss s ->
  exists obj s', u_GroupVersionKind obj = u_GroupVersionKind raw /\
    settles (trigger (CreateOrUpdateObject (init_object ns rname raw) (u_GroupVersionKind raw)
        {| key_Namespace := ns_Name ns; key_Name := rname |} (set_content r rname ns raw profile)))
      (content_in_place profile ns rname raw) s (obj, None) s'.
Proof using Type*.
  intros Ht Huo. destruct (target_content profile ns rname resource raw s Ht Huo) as [obj Hobj].
  pose proof (set_content_kind r Hkind _ _ _ _ _ _ Hobj) as Hk.
  exists obj, (written ns rname raw obj s). split; [done|].
  assert (Hrun : answer _ (CreateOrUpdateObject (init_object ns rname raw) (u_GroupVersionKind raw)
      {| key_Namespace := ns_Name ns; key_Name := rname |} (set_content r rname ns raw profile)) s =
    ((obj, None), written ns rname raw obj s)).
  { simpl. fold (resource_key ns rname raw). rewrite Hobj. by rewrite decide_True. }
  simpl in Hrun. split; [simpl; by rewrite Hrun|by eapply written_unowned|by eapply written_kept| |done|].
  - eexists obj, _. split; [apply lookup_insert_eq|exact Hobj].
  - intros (o & old & Hl & Hc). apply (set_content_again r Hkind) in Hc.
    assert (o = obj) as -> by (rewrite Hl in Hobj; simpl in Hobj; congruence).
    assert (Hid : written ns rname raw obj s = s) by (unfold written; rewrite insert_id by done; apply set_objects_id).
    split; [done|]. simpl. rewrite Hrun, Hid, apply_watch_id. apply (left_id_L ∅ (∪)).
Qed.

(** The kind is watched. *)
Lemma ensureWatch_settles gvk s :
  gvk_Empty gvk = false -> unowned r profiles nss s ->
  exists s', settles (ensureWatch r gvk) (fun t => gvk ∈ as_watches t) s None s'.
Proof using Type*.
  intros He Huo. unfold ensureWatch. rewrite Hready, He. cbn [negb].
  pose proof (uo_tracker _ _ _ _ Huo gvk) as Htr. destruct (decide (gvk ∈ as_tracker s)) as [Hin|Hno].
  - assert (Hid : set_tracker ({[gvk]} ∪ as_tracker s) s = s).
    { unfold set_tracker. rewrite (subseteq_union_1_L _ _ (proj2 (singleton_subseteq_l _ _) Hin)). by destruct s. }
    exists s. split; [|done|done|by apply Htr|done|intros _; split; [done|]]; simpl;
      rewrite Hid, bool_decide_eq_true_2 by done; simpl; [done|].
    by rewrite apply_watch_id, (left_id_L ∅ (∪)).
  - exists (add_watch gvk (set_tracker ({[gvk]} ∪ as_tracker s) s)).
    split; [simpl; by rewrite bool_decide_eq_false_2| | | |done|].
    + destruct Huo as [Hp Hn Htr' Ho]. split; [done..| |done]. intros g. simpl.
      rewrite elem_of_union, elem_of_singleton, elem_of_app, list_elem_of_singleton, Htr'. tauto.
    + split; [done|]. simpl. intros g Hg. apply elem_of_app. by left.
    + simpl. apply elem_of_app. right. left.
    + intros Hw. by destruct Hno; apply Htr.
Qed.
(** A resource of a profile that is applied has a target in every namespace. *)
Definition applied_profile (profile : ZoneUsageProfile) : Prop :=
  (ua_SelectedProfile r = "" \/ ua_SelectedProfile r = zup_Name profile) /\
  profiles !! zup_Name profile = Some profile.

Lemma target_of profile ns rname resource :
  applied_profile profile -> ns ∈ nss ->
  Resources (UpstreamSpec (zup_Spec profile)) !! rname = Some resource ->
  exists raw, target r profiles nss profile ns rname resource raw /\ gvk_Empty (u_GroupVersionKind raw) = false.
Proof using Happ.
  intros [Hsel Hp] Hns Hres. destruct (app_converts _ _ _ _ Happ _ _ _ _ Hsel Hp Hres) as (raw & Hraw & He & _).
  exists raw. by split.
Qed.

Lemma resource_in_place_targets profile ns rname resource s s' :
  applied_profile profile -> ns ∈ nss ->
  Resources (UpstreamSpec (zup_Spec profile)) !! rname = Some resource -> targets_kept s s' ->
  resource_in_place r profile ns rname resource s -> resource_in_place r profile ns rname resource s'.
Proof using Happ.
  intros Hp Hns Hres [Hc Hw]. destruct (target_of profile ns rname resource Hp Hns Hres) as (raw & Ht & _).
  rewrite !(resource_in_place_content _ _ _ _ raw) by apply Ht. intros [Hin Hwatch].
  split; [by eapply Hc|by apply Hw].
Qed.

Lemma apply_one_settles profile ns rname resource s :
  applied_profile profile -> ns ∈ nss ->
  Resources (UpstreamSpec (zup_Spec profile)) !! rname = Some resource -> unowned r profiles nss s ->
  exists s', settles (apply_one r ns profile (rname, resource)) (resource_in_place r profile ns rname resource) s None s'.
Proof using Type*.
  intros Hp Hns Hres Huo. destruct (target_of profile ns rname resource Hp Hns Hres) as (raw & Ht & He).
  destruct (write_settles profile ns rname resource raw s Ht Huo) as (obj & s1 & Hk & H1').
  destruct (ensureWatch_settles (u_GroupVersionKind raw) s1 He) as [s2 H2']; [by eapply to_ok|].
  exists s2. apply (settles_iff _ _ _ _ _ _ (fun t =>
    (content_in_place profile ns rname raw t /\ u_GroupVersionKind raw ∈ as_watches t /\ True) /\ True)).
  { intros t. rewrite (resource_in_place_content _ _ _ _ raw) by apply Ht. tauto. }
  assert (Hcontent : forall t t', targets_kept t t' ->
    content_in_place profile ns rname raw t -> content_in_place profile ns rname raw t')
    by (intros t t' [Hc _]; by eapply Hc).
  assert (Hwatch : forall t t', targets_kept t t' ->
    u_GroupVersionKind raw ∈ as_watches t -> u_GroupVersionKind raw ∈ as_watches t')
    by (intros t t' [_ Hw]; by apply Hw).
  unfold apply_one, applyResourceToNamespace. rewrite (target_raw _ _ _ _ _ _ _ _ Ht).
  eapply settles_bind with (a := None); [apply _| | |apply settles_ret; [apply _|by eapply to_ok|done]].
  { intros t t' Hk' (Hc & Hw & _). eauto. }
  eapply settles_bind; [apply _|exact Hcontent|exact H1'|]. cbv beta iota. rewrite Hk.
  eapply settles_bind; [apply _|exact Hwatch|exact H2'|apply settles_ret; [apply _|by eapply to_ok|done]].
Qed.

Lemma apply_to_namespace_settles profile entry s :
  applied_profile profile -> entry.2 ∈ nss -> unowned r profiles nss s ->
  exists errs s', Forall (fun e => e = None) errs /\
    settles (apply_to_namespace r profile entry) (namespace_in_place r profile entry) s errs s'.
Proof using Type*.
  intros Hp Hns Huo. destruct entry as [i ns]. simpl in Hns. unfold apply_to_namespace, deleted_already.
  destruct (ns_DeletionTimestamp ns) as [d|] eqn:Hd.
  - exists [], s. split; [constructor|].
    apply (settles_iff _ _ _ _ _ _ (fun t => (True /\ True) /\ True)).
    { intros t. split; [|done]. intros _ Hd'. simpl in Hd'. congruence. }
    assert ((d <? now)%Z = true) as Hlt by by apply Z.ltb_lt, (app_deleted _ _ _ _ Happ ns).
    eapply settles_bind with (a := true); [apply _|done| |apply settles_ret; [apply _|done|done]].
    rewrite <- Hlt. eapply settles_bind; [apply _|done|apply settles_read;
      [apply _|apply apply_watch_id|done|done]|apply settles_ret; [apply _|done|done]].
  - destruct (settles_for_each (apply_watch r) answer (unowned r profiles nss) targets_kept (fun _ => True)
      (apply_one r ns profile) (fun entry => resource_in_place r profile ns entry.1 entry.2) (fun err => err = None)
      (range_map i (Resources (UpstreamSpec (zup_Spec profile)))) s) as (errs & s' & Hnone & Hs'); [| |done|].
    + intros [rname resource] t t' Hres%range_map_elem. by apply resource_in_place_targets.
    + intros [rname resource] t Hres%range_map_elem Ht.
      destruct (apply_one_settles profile ns rname resource t Hp Hns Hres Ht) as [t' Ht']. by exists None, t'.
    + exists errs, s'. split; [done|]. apply (settles_iff _ _ _ _ _ _ (fun t => True /\
        Forall (fun entry => resource_in_place r profile ns entry.1 entry.2 t)
          (range_map i (Resources (UpstreamSpec (zup_Spec profile)))))).
      { intros t. unfold namespace_in_place. rewrite Forall_forall. simpl. split.
        - intros [_ Hall] _ rname resource Hres. apply (Hall (rname, resource)). by apply range_map_elem.
        - intros Hall. split; [done|]. intros [rname resource] Hres%range_map_elem. by apply Hall. }
      eapply settles_bind; [apply _|done|apply settles_ret; [apply _|done|done]|exact Hs'].
Qed.
(** Everything that a profile asks for. *)
Definition all_in_place (profile : ZoneUsageProfile) (s : apply_state) : Prop :=
  Forall (fun entry => namespace_in_place r profile entry s)
    (imap pair (filter (fun ns => is_Some (ns_Labels ns !! ua_OrganizationLabel r)) nss)).

Lemma all_in_place_spec profile s :
  all_in_place profile s <->
  forall ns, ns ∈ nss -> is_Some (ns_Labels ns !! ua_OrganizationLabel r) -> ns_DeletionTimestamp ns = None ->
  forall rname resource, Resources (UpstreamSpec (zup_Spec profile)) !! rname = Some resource ->
    resource_in_place r profile ns rname resource s.
Proof using Type.
  unfold all_in_place, namespace_in_place. rewrite Forall_forall. split.
  - intros Hall ns Hns Hl. assert (Hin : ns ∈ filter (fun ns => is_Some (ns_Labels ns !! ua_OrganizationLabel r)) nss)
      by (by apply list_elem_of_filter).
    apply list_elem_of_lookup in Hin as [i Hi]. apply (Hall (i, ns)), list_elem_of_lookup. exists i.
    by rewrite list_lookup_imap, Hi.
  - intros Hall entry Hin. assert (Hns : entry.2 ∈ filter (fun ns => is_Some (ns_Labels ns !! ua_OrganizationLabel r)) nss).
    { rewrite <- (imap_pair_snd (filter _ nss)). by apply list_elem_of_fmap_2. }
    apply list_elem_of_filter in Hns as [Hl Hns]. by apply Hall.
Qed.

Lemma Reconcile_settles profile s :
  applied_profile profile -> unowned r profiles nss s ->
  exists s', settles (ZoneUsageProfileApplyReconciler_Reconcile r (zup_Name profile)) (all_in_place profile) s None s'.
Proof using Type*.
  intros Hp Huo.
  destruct (settles_for_each (apply_watch r) answer (unowned r profiles nss) targets_kept (fun _ => True)
    (apply_to_namespace r profile) (fun entry => namespace_in_place r profile entry)
    (fun errs => Forall (fun e => e = None) errs)
    (imap pair (filter (fun ns => is_Some (ns_Labels ns !! ua_OrganizationLabel r)) nss)) s)
    as (errs & s' & Hnone & Hs'); [| |done|].
  - intros entry t t' Hin Hk Hall Hd rname resource Hres.
    eapply resource_in_place_targets; [done| |done|done|by apply Hall].
    assert (Hns : entry.2 ∈ (imap pair (filter (fun ns => is_Some (ns_Labels ns !! ua_OrganizationLabel r)) nss)).*2)
      by (by apply list_elem_of_fmap_2).
    rewrite imap_pair_snd in Hns. by apply list_elem_of_filter in Hns as [].
  - intros entry t Hin Ht.
    assert (Hns : entry.2 ∈ (imap pair (filter (fun ns => is_Some (ns_Labels ns !! ua_OrganizationLabel r)) nss)).*2)
      by (by apply list_elem_of_fmap_2).
    rewrite imap_pair_snd in Hns. apply list_elem_of_filter in Hns as [_ Hns].
    by apply apply_to_namespace_settles.
  - exists s'. apply (settles_iff _ _ _ _ _ _ (fun t => True /\ True /\ all_in_place profile t /\ True)); [tauto|].
    destruct Hp as [Hsel Hp]. unfold ZoneUsageProfileApplyReconciler_Reconcile.
    assert (negb (bool_decide (ua_SelectedProfile r = "")) &&
      negb (bool_decide (ua_SelectedProfile r = zup_Name profile)) = false) as ->.
    { destruct Hsel as [Hsel|Hsel]; rewrite (bool_decide_eq_true_2 _ Hsel); [done|]. apply andb_false_r. }
    pose proof (uo_profiles _ _ _ _ Huo) as Eps. pose proof (uo_namespaces _ _ _ _ Huo) as Ens.
    eapply settles_bind; [apply _|done|apply settles_read;
      [apply _|apply apply_watch_id|simpl; by rewrite Eps, Hp|done]|]. cbv beta iota.
    eapply settles_bind; [apply _|done|apply settles_read;
      [apply _|apply apply_watch_id|simpl; by rewrite Ens|done]|]. cbv beta iota.
    assert (filter (fun ns => Forall (fun opt => list_option_matches opt ns) [HasLabels [ua_OrganizationLabel r]]) nss =
      filter (fun ns => is_Some (ns_Labels ns !! ua_OrganizationLabel r)) nss) as ->.
    { apply list_filter_iff. intros ns. rewrite Forall_singleton. simpl. by rewrite Forall_singleton. }
    eapply settles_bind; [apply _| |exact Hs'|].
    { intros t t' Hk. rewrite !all_in_place_spec. intros Hall ns Hns Hl Hd rname resource Hres.
      eapply resource_in_place_targets; [by split|done..|]. by apply Hall. }
    rewrite combine_none.
    + apply settles_ret; [apply _|by eapply to_ok|done].
    + apply Forall_forall. intros e (l & Hel & Hl)%list_elem_of_join. rewrite Forall_forall in Hnone.
      specialize (Hnone l Hl). rewrite Forall_forall in Hnone. by apply Hnone.
Qed.
End parts.

(** ** The controller *)
Section controller.
Context `{RangeOracle} `{ApiErrorsLaws} `{MultierrLaws} `{MetadataLaws} `{ObjectLib} `{!KindLaws} `{OwnersLib}.
Context `{Transformer T} (r : ZoneUsageProfileApplyReconciler T).
Context (Hkind : forall t u ns, t ∈ ua_Transformers r ->
  u_GroupVersionKind (Transform t u ns).1 = u_GroupVersionKind u).
Context (not_found mismatch : error) (now : Z) (Hnf : apierrors_IsNotFound not_found = true).

Abbreviation answer := (apply_answer not_found mismatch now).
Abbreviation reconcile := (ZoneUsageProfileApplyReconciler_Reconcile r).

(** Whether a resource is in place can be read off its object, because the content does not change
    when it is set again. *)
#[export] Instance resource_in_place_dec profile ns rname resource s :
  Decision (resource_in_place r profile ns rname resource s).
Proof using Type*.
  unfold resource_in_place. destruct (ToUnstructured resource) as [err|raw]; [right; by intros (? & ? & ? & ? & _)|].
  destruct (as_objects s !! resource_key ns rname raw) as [obj|] eqn:Eo.
  2:{ right. intros (raw' & obj & old & [= <-] & Ho & _). congruence. }
  destruct (set_content r rname ns raw profile obj) as [err|obj'] eqn:Ec.
  { right. intros (raw' & obj' & old & [= <-] & Ho & Hc & _). apply (set_content_again r Hkind) in Hc. congruence. }
  destruct (decide (obj' = obj /\ u_GroupVersionKind raw ∈ as_watches s)) as [[-> Hw]|Hno].
  { left. by exists raw, obj, obj. }
  right. intros (raw' & obj'' & old & [= <-] & Ho & Hc & Hw). apply Hno. split; [|done].
  apply (set_content_again r Hkind) in Hc. congruence.
Defined.

#[export] Instance profile_in_place_dec name s : Decision (profile_in_place r name s).
Proof using Type*.
  unfold profile_in_place. destruct (as_profiles s !! name) as [profile|]; [|left; by intros _ ?].
  destruct (decide ((ua_SelectedProfile r = "" \/ ua_SelectedProfile r = name) /\ zup_Name profile = name))
    as [[Hsel Hname]|Hno].
  2:{ left. intros Hsel p [= <-] Hname. by destruct Hno. }
  destruct (decide (Forall (fun ns => is_Some (ns_Labels ns !! ua_OrganizationLabel r) ->
    ns_DeletionTimestamp ns = None -> map_Forall (fun rname resource => resource_in_place r profile ns rname resource s)
      (Resources (UpstreamSpec (zup_Spec profile)))) (as_namespaces s))) as [Hall|Hno].
  - left. intros _ p [= <-] _ ns Hns Hl Hd rname resource Hres. rewrite Forall_forall in Hall. by apply (Hall ns).
  - right. intros Hp. apply Hno, Forall_forall. intros ns Hns Hl Hd rname resource Hres.
    by apply (Hp Hsel profile eq_refl Hname ns).
Defined.

(** A request is for a profile that is applied, or there is nothing to do. *)
Lemma apply_cases name s :
  apply_free r now s ->
  (exists profile, as_profiles s !! name = Some profile /\ zup_Name profile = name /\
     applied_profile r (as_profiles s) profile) \/
  (run answer (reconcile name) s = (None, s) /\ run_requests (apply_watch r) answer (reconcile name) s = ∅ /\
   profile_in_place r name s).
Proof using Type*.
  intros Hf. unfold ZoneUsageProfileApplyReconciler_Reconcile.
  destruct (decide (ua_SelectedProfile r = "" \/ ua_SelectedProfile r = name)) as [Hsel|Hsel].
  - destruct (as_profiles s !! name) as [profile|] eqn:E.
    + left. exists profile. pose proof (app_named _ _ _ _ (free_applicable _ _ _ Hf) _ _ E) as <-. by split_and!.
    + right. assert (negb (bool_decide (ua_SelectedProfile r = "")) &&
        negb (bool_decide (ua_SelectedProfile r = name)) = false) as ->.
      { destruct Hsel as [Hsel|Hsel]; rewrite (bool_decide_eq_true_2 _ Hsel); [done|]. apply andb_false_r. }
      split_and!; [simpl; rewrite E; simpl; by rewrite IgnoreNotFound_spec, Hnf| |].
      * simpl. rewrite E, apply_watch_id. apply (left_id_L ∅ (∪)).
      * intros _ p. by rewrite E.
  - right. rewrite !bool_decide_eq_false_2 by tauto. split_and!; [done..|]. by intros ?.
Qed.

(** What the request for a profile that is applied leaves. *)
Lemma apply_run profile s :
  apply_free r now s -> applied_profile r (as_profiles s) profile ->
  exists s', settles_to (apply_watch r) answer (unowned r (as_profiles s) (as_namespaces s))
    (targets_kept r (as_profiles s) (as_namespaces s)) (fun _ => True)
    (reconcile (zup_Name profile)) (all_in_place r (as_namespaces s) profile) s None s'.
Proof using Type*. intros [Hr Ha Hu] Hp. by apply Reconcile_settles. Qed.

Lemma all_in_place_profile profile nss s :
  as_profiles s !! zup_Name profile = Some profile -> as_namespaces s = nss ->
  (ua_SelectedProfile r = "" \/ ua_SelectedProfile r = zup_Name profile) ->
  profile_in_place r (zup_Name profile) s <-> all_in_place r nss profile s.
Proof using Type.
  intros Hp <- Hsel. rewrite all_in_place_spec. unfold profile_in_place. split.
  - intros Hall ns Hns Hl Hd rname resource Hres. by apply (Hall Hsel profile).
  - intros Hall _ p. rewrite Hp. intros [= <-] _. apply Hall.
Qed.

(** The assumptions, for given profiles and namespaces. *)
Definition free_with (profiles : gmap string ZoneUsageProfile) (nss : list Namespace) (s : apply_state) : Prop :=
  apply_free r now s /\ as_profiles s = profiles /\ as_namespaces s = nss.

#[export] Instance apply_quiesces profiles nss :
  Quiesces reconcile (apply_watch r) answer watching_step (profile_in_place r)
    (fun s => dom (as_profiles s)) (free_with profiles nss).
Proof using Type*.
  split.
  - by apply apply_answer_step.
  - intros name s [Hf Hgiven]. destruct (apply_cases name s Hf) as [(profile & Hp & <- & Ha)|(-> & _ & Hs)]; [|done].
    destruct (apply_run profile s Hf Ha) as [s' [Hrun Hok _ Hgood _ _]]. rewrite Hrun.
    pose proof (uo_profiles _ _ _ _ Hok) as Eps. pose proof (uo_namespaces _ _ _ _ Hok) as Ens.
    destruct Hf as [Hr Happ _]. split_and!; [done| |].
    + unfold free_with. simpl. rewrite Eps, Ens. split; [|done]. split; [done|by rewrite Eps, Ens..].
    + apply (all_in_place_profile profile (as_namespaces s)); [simpl; by rewrite Eps|done|apply Ha|done].
  - intros name' name s [Hf _] Hs.
    destruct (apply_cases name s Hf) as [(profile & Hp & <- & Ha)|(-> & _ & _)]; [|done].
    destruct (apply_run profile s Hf Ha) as [s' [Hrun Hok Hkept _ _ _]]. rewrite Hrun. simpl.
    intros Hsel p. rewrite (uo_profiles _ _ _ _ Hok), (uo_namespaces _ _ _ _ Hok).
    intros Hp' Hname ns Hns Hl Hd rname resource Hres.
    eapply resource_in_place_targets; [by eapply free_applicable|split; by rewrite Hname|done..|].
    by apply (Hs Hsel p).
  - intros name s [Hf _] Hs. destruct (apply_cases name s Hf) as [(profile & Hp & <- & Ha)|(_ & Hq & _)]; [|done].
    destruct (apply_run profile s Hf Ha) as [s' [_ _ _ _ _ Hquiet]]. apply Hquiet.
    apply (all_in_place_profile profile (as_namespaces s)); [done|done|apply Ha|done].
  - intros name s _ Hs. apply elem_of_dom. destruct (as_profiles s !! name) as [p|] eqn:E; [by eexists|].
    destruct Hs. intros _ p. by rewrite E.
Qed.
End controller.

(** ** Properties *)
Section properties.
Context `{RangeOracle} `{ApiErrorsLaws} `{MultierrLaws} `{MetadataLaws} `{JSONLib} `{ObjectLaws} `{!KindLaws}.
Context `{!OwnersLib} `{!OwnersLaws}.
Context (not_found mismatch : error) (now : Z) (Hnf : apierrors_IsNotFound not_found = true).
Implicit Types r : ZoneUsageProfileApplyReconciler resourceQuotaTransformer.

(** The transformer of the agent changes neither the owners nor the kind. *)
Lemma Transform_owners r t u ns : t ∈ ua_Transformers r -> u_Owners (Transform t u ns).1 = u_Owners u.
Proof using Type*. intros _. by apply Owners_metadata, Transform_other. Qed.

Lemma Transform_kind r t u ns :
  t ∈ ua_Transformers r -> u_GroupVersionKind (Transform t u ns).1 = u_GroupVersionKind u.
Proof using Type*. intros _. by apply GroupVersionKind_fields; apply Transform_other. Qed.

(** C12: from every state that the controller may be in after it has been set up and under the
    conditions of C11, so that no watch ever failed to start, in which exactly the kinds are watched
    whose [Once] has run, the profiles can be applied (their resources are objects that may have an
    owner, and no two of the profiles that the agent applies have one of the same kind and name),
    and nobody else owns what they ask for: when nothing fails any more and nobody else changes
    anything, and a loop over a map visits it in the same order in every reconciliation, the queue
    is empty after finitely many reconciliations, in whatever order the requests are taken, and
    although the reconciliations may wake up each other; profiles and namespaces are as before, and
    every resource of every profile that the agent applies is in every namespace of an organization
    that is not being deleted. *)
Theorem resources_converge r sys sys' :
  tracked (sys_state sys) -> started (apply_requests r) sys ->
  rtc (controller_step watching_step apply_env (ZoneUsageProfileApplyReconciler_Reconcile r)
        (apply_watch r) (apply_requests r) without_watches) sys sys' ->
  apply_free r now (sys_state sys') ->
  exists n, forall fuel, n <= fuel -> forall pick, takes pick ->
    let rest := drain (ZoneUsageProfileApplyReconciler_Reconcile r) (apply_watch r)
                  (apply_answer not_found mismatch now) pick fuel sys' in
    sys_queue rest = ∅ /\
    as_profiles (sys_state rest) = as_profiles (sys_state sys') /\
    as_namespaces (sys_state rest) = as_namespaces (sys_state sys') /\
    forall name, profile_in_place r name (sys_state rest).
Proof using Type*.
  intros Ht Hs Hr Hf. pose proof (apply_level r (Transform_owners r)) as HL.
  pose proof (apply_quiesces r (Transform_kind r) not_found mismatch now Hnf
    (as_profiles (sys_state sys')) (as_namespaces (sys_state sys'))) as HQ.
  pose proof (profile_in_place_dec r (Transform_kind r)) as Hdec.
  destruct (quiesces_at_rest _ _ _ _ _ _ _ _ _ _ tracked sys sys' Ht Hs Hr) as [n Hn]; [by split|].
  exists n. intros fuel Hle pick Hp. destruct (Hn fuel Hle pick Hp) as (Hq & (_ & Hps & Hns) & Hsync).
  by split_and!.
Qed.
End properties.

(** ** The theorem on an example: a profile that has not been applied yet *)
Import Fake.
#[local] Existing Instances fake_objects fake_json ac_metadata ac_owners fake_objects_laws ac_owners_laws.

Lemma ac_set_outside k v j : same_outside_metadata j (ac_set k v j).
Proof. intros k' q Hk. destruct j; simpl; by rewrite ?lookup_singleton_ne, ?lookup_insert_ne. Qed.

#[local] Instance ac_metadata_laws : MetadataLaws.
Proof.
  split; [by intros ? ? ? ?|by intros ? ? ? ?|intros m j; apply ac_set_outside|..].
  - intros m j. apply GetLabels_path, ac_set_path.
  - intros o j j' [= <-]. apply ac_set_outside.
Qed.

#[local] Instance ac_kind_laws : KindLaws.
Proof. split; [done|]. intros g n m. apply GetLabels_empty. Qed.

Definition up_not_found : error := StatusError ReasonNotFound "not found".

Lemma up_fresh_free : apply_free up_reconciler 0 up_fresh.
Proof.
  assert (Hone : forall n p, as_profiles up_fresh !! n = Some p -> n = "default" /\ p = up_profile)
    by (intros n p Hp; simpl in Hp; by apply lookup_singleton_Some in Hp as [<- <-]).
  split; [done| |]; split.
  - by intros n p [-> ->]%Hone.
  - apply NoDup_singleton.
  - by intros ns t ->%list_elem_of_singleton.
  - intros n p rname resource _ [-> ->]%Hone Hres. exists resource. split_and!; [done|done|]. by eexists.
  - intros p p' ns ns' rname resource resource' raw raw' [_ Hp _ _ _] [_ Hp' _ _ _].
    apply Hone in Hp as [_ ->]. by apply Hone in Hp' as [_ ->].
  - done.
  - done.
  - intros gvk. simpl. by rewrite elem_of_empty, elem_of_nil.
  - intros p ns rname resource raw obj o _ Hl. simpl in Hl; by apply lookup_empty_Some in Hl.
Qed.

Lemma resources_converge_witness :
  exists n, forall fuel, n <= fuel ->
    let rest := drain (ZoneUsageProfileApplyReconciler_Reconcile up_reconciler) (apply_watch up_reconciler)
                  (apply_answer up_not_found up_not_found 0) (take_first "default") fuel
                  {| sys_state := up_fresh; sys_queue := {["default"]} |} in
    sys_queue rest = ∅ /\ resource_in_place up_reconciler up_profile up_namespace "limits" up_raw (sys_state rest).
Proof.
  assert (Hnf : apierrors_IsNotFound up_not_found = true) by reflexivity.
  destruct (resources_converge up_not_found up_not_found 0 Hnf up_reconciler
    {| sys_state := up_fresh; sys_queue := {["default"]} |} {| sys_state := up_fresh; sys_queue := {["default"]} |})
    as [n Hn].
  - intros gvk Hg. by apply elem_of_empty in Hg.
  - by apply ac_started.
  - apply rtc_refl.
  - apply up_fresh_free.
  - exists n. intros fuel Hf. destruct (Hn fuel Hf (take_first "default") (takes_first "default")) as (Hq & Hp & Hns & Hall).
    split; [exact Hq|].
    refine (Hall "default" (or_intror eq_refl) up_profile _ eq_refl up_namespace _ _ eq_refl "limits" up_raw _).
    + rewrite Hp. by apply lookup_singleton_eq.
    + rewrite Hns. left.
    + by eexists.
    + by apply lookup_singleton_eq.
Defined.
