(* ===== verification/ProfilePipeline.v ===== *)
(** * Usage profiles from the control API to the namespaces

    The controller that copies usage profiles from the control API
    (controllers/zoneusageprofilesync_controller.go) and the one that applies them
    (controllers/zoneusageprofileapply_controller.go) run in one process and share the profiles of
    the cluster: what the first writes, the second is woken up by.  Here they run together, call
    by call. *)
From S2P Require Import Prelude GoStd Kube Fake Api Effects Workqueue Workers UserSync.
From S2P Require Import UserController Transformers UsageProfile ApplyController.

(** The profiles that the two controllers see are those of one cluster. *)
Definition one_cluster (sync : profile_state) (apply : apply_state) : Prop :=
  ps_profiles sync = as_profiles apply.

Lemma profile_stay (s : profile_state) : anything s s /\ profile_watch s s = ∅.
Proof. split; [done|]. unfold profile_watch. rewrite !watching_id. set_solver. Qed.

Section pipeline.
Context `{RangeOracle} `{ApiErrorsLaws} `{MultierrLaws} `{UnstructuredLib} `{JSONLib} `{ObjectLaws}.
Context `{OwnersLaws}.
Implicit Types r : ZoneUsageProfileApplyReconciler resourceQuotaTransformer.

Lemma apply_stay r (s : apply_state) : apply_env s s /\ apply_watch r s s = ∅.
Proof. split; [split_and!; [done|done|by right|done]|apply apply_watch_id]. Qed.

(** The two controllers in the process of the agent. *)
Definition pipeline_step zero r
    : relation (worker profile_call profile_state string * worker apply_call apply_state string) :=
  together profile_step anything (ZoneUsageProfileSyncReconciler_Reconcile zero) profile_watch
    profile_requests id
    watching_step apply_env (ZoneUsageProfileApplyReconciler_Reconcile r) (apply_watch r)
    (apply_requests r) without_watches one_cluster.

Definition pipeline_starting r
    : worker profile_call profile_state string * worker apply_call apply_state string -> Prop :=
  starting profile_requests (apply_requests r) one_cluster any_state tracked.

(** C13: whatever happens after the agent has started, in whatever order the two controllers and
    others make their calls, when both have nothing to do every resource of every profile of the
    control API that the agent applies (the selected one, or all if none is selected) is in every
    namespace of an organization that is not being deleted, with the content that the profile of
    the control API says: as long as no watch fails to start, the API server answers a write with
    an object of the kind that was asked for, others leave objects alone of a kind that is not yet
    watched, and no namespace changes while the handler of namespace events cannot list the
    profiles. *)
Theorem upstream_in_place zero r w w' :
  pipeline_starting r w -> rtc (pipeline_step zero r) w w' -> resting w' ->
  let sync := sys_state (wk_system w'.1) in
  let apply := sys_state (wk_system w'.2) in
  forall name up, ps_upstream sync !! name = Some up -> up_Name up = name ->
  ua_SelectedProfile r = "" \/ ua_SelectedProfile r = name ->
  exists profile, as_profiles apply !! name = Some profile /\
    UpstreamSpec (zup_Spec profile) = up_Spec up /\
    (zup_Name profile = name ->
     forall ns, ns ∈ as_namespaces apply -> is_Some (ns_Labels ns !! ua_OrganizationLabel r) ->
       ns_DeletionTimestamp ns = None ->
     forall rname resource, Resources (up_Spec up) !! rname = Some resource ->
       resource_in_place r profile ns rname resource apply).
Proof.
  intros Hs Hr Hw sync apply name up Hup Hname Hsel.
  pose proof (apply_level r (fun t u ns _ => Owners_metadata _ _ (Transform_other t u ns "metadata" ltac:(done)))) as HL.
  destruct (together_at_rest _ _ _ _ _ _ _ _ _ _ _ _ one_cluster any_state profile_in_order
    tracked (profile_in_place r) w w' Hs Hr Hw) as (Hc & Hsync & Happly).
  specialize (Hsync name). unfold profile_in_order in Hsync. fold sync in Hsync. rewrite Hup in Hsync.
  specialize (Hsync Hname). apply fmap_Some in Hsync as (profile & Hp & Hspec).
  replace (ps_profiles sync) with (as_profiles apply) in Hp by (symmetry; exact Hc).
  exists profile. split_and!; [done..|]. intros Hpn ns Hns Horg Hdel rname resource Hres.
  eapply (Happly name); try done. by rewrite <- Hspec.
Qed.
End pipeline.

(** ** The theorem on an example: a profile that is new in the control API *)
Import Fake.
#[local] Existing Instances fake_objects fake_json ac_metadata ac_owners fake_objects_laws ac_owners_laws.

Definition pp_upstream : UsageProfile :=
  {| up_Name := "default"; up_Spec := UpstreamSpec (zup_Spec up_profile) |}.

(** The cluster without and with the profile. *)
Definition pp_sync (profiles : gmap string ZoneUsageProfile) events : profile_state := {|
  ps_upstream := {["default" := pp_upstream]}; ps_profiles := profiles; ps_events := events |}.

Definition pp_apply (profiles : gmap string ZoneUsageProfile) : apply_state := {|
  as_profiles := profiles; as_namespaces := [up_namespace];
  as_objects := <[up_rq_key := ac_object]> ∅; as_tracker := {[resourceQuotaV1gvk]};
  as_watches := [resourceQuotaV1gvk]; as_ListError := None |}.

Lemma pp_env profiles profiles' : apply_env (pp_apply profiles) (pp_apply profiles').
Proof. split_and!; [done|done|by right|done]. Qed.

Definition pp_profiles : gmap string ZoneUsageProfile := {["default" := up_profile]}.

Lemma pp_sync_watch : profile_watch (pp_sync ∅ []) (pp_sync pp_profiles []) = {["default"]}.
Proof. by vm_compute. Qed.

Lemma pp_apply_watch :
  apply_watch up_reconciler (pp_apply ∅) (pp_apply pp_profiles) = {["default"]}.
Proof. by vm_compute. Qed.

Abbreviation pp_queued s q := {| sys_state := s; sys_queue := q |}.
Abbreviation pp_step := (pipeline_step pc_zero up_reconciler).
Abbreviation pp_at_work j := (at_work j None None).

Lemma pp_started :
  started profile_requests (pp_queued (pp_sync ∅ []) {["default"]}) /\
  started (apply_requests up_reconciler) (pp_queued (pp_apply ∅) ∅).
Proof. unfold started. split; [|by vm_compute]. cbn. set_solver. Qed.

(** The calls of the first controller while the second one waits. *)
Abbreviation pp_call := (call1 profile_step profile_watch apply_env (apply_watch up_reconciler) one_cluster).

Lemma pp_quiet X (c : profile_call X) profiles events x events' q1 q2 :
  profile_step X c (pp_sync profiles events) x (pp_sync profiles events') ->
  pp_call X c (pp_queued (pp_sync profiles events) q1, pp_queued (pp_apply profiles) q2) x
    (pp_queued (pp_sync profiles events') q1, pp_queued (pp_apply profiles) q2).
Proof.
  intros Hx. split_and!; [split; [done|]|split; [apply pp_env|]|done]; cbn.
  - unfold profile_watch. cbn. rewrite !watching_id. set_solver.
  - rewrite apply_watch_id. set_solver.
Qed.

Lemma pp_run profiles events q1 q2 :
  set_upstream_spec (up_Spec pp_upstream)
    (default {| zup_Name := "default"; zup_Spec := pc_zero |} (profiles !! "default")) = inr up_profile ->
  <["default" := up_profile]> profiles = pp_profiles -> exists events',
  exec pp_call alone (ZoneUsageProfileSyncReconciler_Reconcile pc_zero "default")
    (pp_queued (pp_sync profiles events) q1, pp_queued (pp_apply profiles) q2) None
    (pp_queued (pp_sync pp_profiles events')
       (q1 ∪ profile_watch (pp_sync profiles events) (pp_sync pp_profiles events)),
     pp_queued (pp_apply pp_profiles)
       (q2 ∪ apply_watch up_reconciler (pp_apply profiles) (pp_apply pp_profiles))).
Proof.
  intros Hm Hp. eexists. apply (alone_trigger pp_call). exists (inr pp_upstream).
  eexists (_, _). split; [by apply pp_quiet, (read_found _ _ _ pp_upstream)|].
  apply (alone_trigger pp_call). exists (None, "written"),
    (pp_queued (pp_sync pp_profiles events)
       (q1 ∪ profile_watch (pp_sync profiles events) (pp_sync pp_profiles events)),
     pp_queued (pp_apply pp_profiles)
       (q2 ∪ apply_watch up_reconciler (pp_apply profiles) (pp_apply pp_profiles))). split.
  { split_and!; [split; [|reflexivity]|split; [apply pp_env|reflexivity]|done].
    cbn [fst snd sys_state]. unfold pp_sync at 2. rewrite <- Hp. by apply write_profile, cou_done. }
  apply (alone_trigger pp_call). exists (inr up_profile). eexists (_, _).
  split; [by apply pp_quiet, (read_found _ _ _ up_profile)|].
  apply (alone_trigger pp_call). eexists tt, (_, _). split; [apply pp_quiet, profile_event|].
  by apply alone_ret.
Qed.

Abbreviation pp_pair := (worker profile_call profile_state string * worker apply_call apply_state string)%type.

Definition pp_before : pp_pair :=
  pp_at_work (pp_queued (pp_sync ∅ []) {["default"]}, pp_queued (pp_apply ∅) ∅).

Definition pp_after events : pp_pair :=
  pp_at_work (pp_queued (pp_sync pp_profiles events) ∅, pp_queued (pp_apply pp_profiles) ∅).

(** The first controller writes the profile, which wakes up both; then each looks at it again. *)
Lemma pp_runs : exists events, rtc pp_step pp_before (pp_after events).
Proof.
  assert (Hq : ∅ ∪ {["default"]} = ({["default"]} : gset string)) by set_solver.
  assert (Hd : {["default"]} ∖ {["default"]} = (∅ : gset string)) by set_solver.
  assert (Hin : "default" ∈ ({["default"]} : gset string)) by set_solver.
  destruct (pp_run ∅ [] ∅ ∅) as [events Hx]; [done..|]. rewrite pp_sync_watch, pp_apply_watch, Hq in Hx.
  destruct (pp_run pp_profiles events ∅ {["default"]}) as [events' Hy]; [done|by apply insert_id|].
  rewrite (proj2 (profile_stay _)), (proj2 (apply_stay _ _)), !(right_id_L ∅ (∪)) in Hy.
  exists events'. unfold pp_after. etrans; [|etrans].
  - eapply run1; [apply (apply_stay up_reconciler)|exact Hin|reflexivity|]. rewrite Hd. exact Hx.
  - eapply run1; [apply (apply_stay up_reconciler)|exact Hin|reflexivity|]. cbn [requeue]. rewrite Hd. exact Hy.
  - cbn [requeue].
    eapply (run2 _ _ _ _ _ _ _ _ _ _ _ _ _ profile_stay "default" (pp_apply pp_profiles) {["default"]} _
      None (pp_apply pp_profiles) ∅); [exact Hin|reflexivity|]. rewrite Hd.
    eapply steady2; [apply profile_stay|apply (apply_stay up_reconciler)|done|reflexivity|exact ac_run].
Qed.

Lemma upstream_in_place_witness :
  resource_in_place up_reconciler up_profile up_namespace "limits" up_raw (pp_apply pp_profiles).
Proof.
  destruct pp_runs as [events Hr].
  destruct (upstream_in_place pc_zero up_reconciler pp_before (pp_after events)) with (name := "default")
    (up := pp_upstream) as (profile & Hp & _ & Hplace); [|exact Hr|done|done|done|by right|].
  - destruct pp_started as [H1 H2]. split; [done|done|done| |exact H1|exact H2].
    intros gvk Hg. apply (elem_of_singleton gvk resourceQuotaV1gvk) in Hg as ->. left.
  - change (pp_profiles !! "default" = Some profile) in Hp. unfold pp_profiles in Hp.
    rewrite lookup_singleton_eq in Hp. injection Hp as <-.
    apply Hplace; [done|left|by eexists|done|by apply lookup_singleton_eq].
Defined.
