(* ===== verification/LegacyQuota.v ===== *)
(** * Legacy resource quotas (controllers/legacy_resource_quota_controller.go)

    The reconciler that writes the default resource quotas, with the overrides in the annotations
    of the namespace, and the default limit range to the namespaces of organizations. *)
From S2P Require Import Prelude GoStd Kube Fake Effects.

(** The hard limits of a quota, and the fields of its specification that are only copied. *)
Record ResourceQuotaSpec {Quantity Scopes} := { Hard : gmap string Quantity; Scopes_ : Scopes }.
Arguments ResourceQuotaSpec : clear implicits.
Arguments Build_ResourceQuotaSpec {Quantity Scopes}.

Record ResourceQuota {Quantity Scopes} := {
  rq_Spec : option (ResourceQuotaSpec Quantity Scopes);   (** none in a new object *)
  rq_OwnerReferences : list string;
}.
Arguments ResourceQuota : clear implicits.
Arguments Build_ResourceQuota {Quantity Scopes}.

Record LimitRange {LimitRangeSpec} := {
  lr_Spec : option LimitRangeSpec;
  lr_OwnerReferences : list string;
}.
Arguments LimitRange : clear implicits.
Arguments Build_LimitRange {LimitRangeSpec}.

Record LegacyResourceQuotaReconciler {Quantity Scopes LimitRangeSpec} := {
  lq_OrganizationLabel : string;
  lq_ResourceQuotaAnnotationBase : string;
  lq_DefaultResourceQuotas : gmap string (ResourceQuotaSpec Quantity Scopes);
  lq_LimitRangeName : string;
  lq_DefaultLimitRange : LimitRangeSpec;
}.
Arguments LegacyResourceQuotaReconciler : clear implicits.

(** [resource.ParseQuantity], and [json.Unmarshal] into a [corev1.ResourceList]. *)
Class ParseLib (Quantity : Type) := {
  ParseQuantity : string -> error + Quantity;
  Unmarshal_ResourceList : string -> error + gmap string Quantity;
}.

(** The calls of the reconciler.  [CreateOrUpdate] may fail before it calls the function, which
    collects errors; the first component of the answer is whether it was called. *)
Inductive quota_call (RQ LR : Type) : Type -> Type :=
| GetNamespace (key : ObjectKey) : quota_call RQ LR (error + Namespace)
| CreateOrUpdateQuota (key : ObjectKey) (init : RQ) (mutate : RQ -> error + RQ)
    : quota_call RQ LR (bool * option error)
| CreateOrUpdateLimitRange (key : ObjectKey) (init : LR) (mutate : LR -> error + LR)
    : quota_call RQ LR (option error)
| RecordEvent (namespace type reason message : string) : quota_call RQ LR unit.
Arguments GetNamespace {RQ LR}.
Arguments CreateOrUpdateQuota {RQ LR}.
Arguments CreateOrUpdateLimitRange {RQ LR}.
Arguments RecordEvent {RQ LR}.

Section reconcile.
Context `{RangeOracle} `{ApiErrors} `{Multierr} `{ControllerReference}.
Context {Quantity Scopes LRS : Type} `{ParseLib Quantity}.
Abbreviation RQS := (ResourceQuotaSpec Quantity Scopes).
Abbreviation RQ := (ResourceQuota Quantity Scopes).
Abbreviation LR := (LimitRange LRS).
Implicit Types r : LegacyResourceQuotaReconciler Quantity Scopes LRS.

(** The storage quotas in the annotation of a quota, and the errors. *)
Definition storage_quotas r (ns : Namespace) (name : string)
    : gmap string Quantity * list (option error) :=
  let sqa := map_get (ns_Annotations ns)
    (lq_ResourceQuotaAnnotationBase r +:+ "/" +:+ name +:+ ".storageclasses") in
  if bool_decide (sqa = "") then (∅, []) else
  match Unmarshal_ResourceList sqa with
  | inl err => (∅, [Some (WrapError "failed to unmarshal storage classes: " err "")])
  | inr quotas => (quotas, [])
  end.

Definition annotation_of r (name k : string) : string :=
  lq_ResourceQuotaAnnotationBase r +:+ "/" +:+ name +:+ "." +:+ strings.ReplaceAll k "/" "_".

(** The body of the loop over the hard limits: the limits and the errors so far. *)
Definition hard_step r (ns : Namespace) (name : string) (storageQuotas : gmap string Quantity)
    (acc : gmap string Quantity * list (option error)) (entry : string * Quantity)
    : gmap string Quantity * list (option error) :=
  let '(hard, errs) := acc in
  let k := entry.1 in
  let an := annotation_of r name k in
  if strings.Contains k "storageclass.storage.k8s.io" then
    match storageQuotas !! k with
    | Some q => (<[k := q]> hard, errs)
    | None => (hard, errs)
    end
  else
    let a := map_get (ns_Annotations ns) an in
    if bool_decide (a = "") then (hard, errs) else
    match ParseQuantity a with
    | inl err =>
        (hard, errs ++ [Some (WrapError ("failed to parse quantity " +:+ an +:+ "=" +:+ a +:+ ": ") err "")])
    | inr po => (<[k := po]> hard, errs)
    end.

(** The hard limits of a namespace; [i] numbers the loop. *)
Definition override_hard r (ns : Namespace) (i : nat) (name : string)
    (storageQuotas hard : gmap string Quantity) : gmap string Quantity * list (option error) :=
  foldl (hard_step r ns name storageQuotas) (hard, []) (range_map i hard).

Definition set_quota_spec (ns : Namespace) (spec : RQS) (rq : RQ) : error + RQ :=
  try owners <- SetControllerReference (ns_Name ns) (rq_OwnerReferences rq) catch err => inl err;;
  inr {| rq_Spec := Some spec; rq_OwnerReferences := owners |}.

Definition set_limit_range (ns : Namespace) (spec : LRS) (lr : LR) : error + LR :=
  try owners <- SetControllerReference (ns_Name ns) (lr_OwnerReferences lr) catch err => inl err;;
  inr {| lr_Spec := Some spec; lr_OwnerReferences := owners |}.

(** The body of the loop over the default quotas: its errors. *)
Definition put_quota r (ns : Namespace) (entry : nat * (string * RQS))
    : prog (quota_call RQ LR) (list (option error)) :=
  let '(i, (name, s)) := entry in
  let '(storageQuotas, errs) := storage_quotas r ns name in
  let '(hard, parse_errs) := override_hard r ns (S i) name storageQuotas (Hard s) in
  let spec := {| Hard := hard; Scopes_ := Scopes_ s |} in
  '(called, err) ← trigger (CreateOrUpdateQuota
    {| key_Namespace := ns_Name ns; key_Name := name |}
    {| rq_Spec := None; rq_OwnerReferences := [] |} (set_quota_spec ns spec));
  let errs := errs ++ (if called : bool then parse_errs else []) in
  mret (match err with
        | Some e => errs ++ [Some (WrapError ("failed to reconcile ResourceQuota " +:+ name +:+ ": ") e "")]
        | None => errs
        end).

Definition LegacyResourceQuotaReconciler_Reconcile r (key : ObjectKey)
    : prog (quota_call RQ LR) (option error) :=
  got ← trigger (GetNamespace key);
  match got with
  | inl err => mret (client_IgnoreNotFound (Some err))
  | inr ns =>
      match ns_DeletionTimestamp ns with
      | Some _ => mret None
      | None =>
          if negb (bool_decide (is_Some (ns_Labels ns !! lq_OrganizationLabel r))) then mret None else
          errs ← for_each (imap pair (range_map 0 (lq_DefaultResourceQuotas r))) (put_quota r ns);
          err ← trigger (CreateOrUpdateLimitRange
            {| key_Namespace := ns_Name ns; key_Name := lq_LimitRangeName r |}
            {| lr_Spec := None; lr_OwnerReferences := [] |}
            (set_limit_range ns (lq_DefaultLimitRange r)));
          let errs := mjoin errs ++
            match err with
            | Some e => [Some (WrapError ("failed to reconcile LimitRange " +:+ lq_LimitRangeName r +:+
                                          ": ") e "")]
            | None => []
            end in
          match multierr_Combine errs with
          | Some err =>
              _ ← trigger (RecordEvent (ns_Name ns) "Warning" "ReconcileError"
                ("Failed to reconcile ResourceQuotas and LimitRanges: " +:+ errors.Error err));
              mret (Some (WrapError "failed to reconcile ResourceQuotas and LimitRanges: " err ""))
          | None => mret None
          end
      end
  end.

(** ** Specification *)

(** The limit for a key of a quota that is [q] by default. *)
Definition overridden r (ns : Namespace) (name k : string) (q : Quantity) : Quantity :=
  if strings.Contains k "storageclass.storage.k8s.io"
  then default q ((storage_quotas r ns name).1 !! k)
  else
    let a := map_get (ns_Annotations ns) (annotation_of r name k) in
    if bool_decide (a = "") then q
    else match ParseQuantity a with inr po => po | inl _ => q end.

(** No annotation of the quota is invalid. *)
Definition readable r (ns : Namespace) (name : string) (hard : gmap string Quantity) : Prop :=
  (storage_quotas r ns name).2 = [] /\
  forall k q, hard !! k = Some q -> strings.Contains k "storageclass.storage.k8s.io" = false ->
    map_get (ns_Annotations ns) (annotation_of r name k) <> "" ->
    exists po, ParseQuantity (map_get (ns_Annotations ns) (annotation_of r name k)) = inr po.
End reconcile.

(** ** The cluster *)
Record legacy_state {RQ LR} := {
  ls_namespaces : gmap ObjectKey Namespace;
  ls_quotas : gmap ObjectKey RQ;
  ls_limits : gmap ObjectKey LR;
  ls_events : list (string * string * string * string);
}.
Arguments legacy_state : clear implicits.
Arguments Build_legacy_state {RQ LR}.

Section cluster.
Context `{ApiErrors} {RQ LR : Type}.
Implicit Types s : legacy_state RQ LR.

Definition set_quotas m s : legacy_state RQ LR := {|
  ls_namespaces := ls_namespaces s; ls_quotas := m; ls_limits := ls_limits s; ls_events := ls_events s |}.

Definition set_limits m s : legacy_state RQ LR := {|
  ls_namespaces := ls_namespaces s; ls_quotas := ls_quotas s; ls_limits := m; ls_events := ls_events s |}.

(** When the function was not called, nothing is written. *)
Inductive legacy_quota_step (key : ObjectKey) (init : RQ) (mutate : RQ -> error + RQ) s
    : bool * option error -> legacy_state RQ LR -> Prop :=
| quota_called err m : created_or_updated key init mutate (ls_quotas s) err m ->
    legacy_quota_step key init mutate s (true, err) (set_quotas m s)
| quota_not_called err : legacy_quota_step key init mutate s (false, Some err) s.

Inductive legacy_limit_step (key : ObjectKey) (init : LR) (mutate : LR -> error + LR) s
    : option error -> legacy_state RQ LR -> Prop :=
| limit_written err m : created_or_updated key init mutate (ls_limits s) err m ->
    legacy_limit_step key init mutate s err (set_limits m s).

Inductive legacy_event_step (e : string * string * string * string) s
    : unit -> legacy_state RQ LR -> Prop :=
| legacy_event : legacy_event_step e s tt {|
    ls_namespaces := ls_namespaces s; ls_quotas := ls_quotas s; ls_limits := ls_limits s;
    ls_events := ls_events s ++ [e] |}.

Definition legacy_step X (c : quota_call RQ LR X)
    : legacy_state RQ LR -> X -> legacy_state RQ LR -> Prop :=
  match c in quota_call _ _ X return legacy_state RQ LR -> X -> legacy_state RQ LR -> Prop with
  | GetNamespace key => read_step ls_namespaces key
  | CreateOrUpdateQuota key init mutate => legacy_quota_step key init mutate
  | CreateOrUpdateLimitRange key init mutate => legacy_limit_step key init mutate
  | RecordEvent n t r m => legacy_event_step (n, t, r, m)
  end.
End cluster.

(** Only quotas and limit ranges with the configured names differ between two states. *)
Definition written_names {Quantity Scopes LRS}
    (r : LegacyResourceQuotaReconciler Quantity Scopes LRS)
    (s s' : legacy_state (ResourceQuota Quantity Scopes) (LimitRange LRS)) : Prop :=
  (forall k, ls_quotas s' !! k <> ls_quotas s !! k ->
    is_Some (lq_DefaultResourceQuotas r !! key_Name k)) /\
  (forall k, ls_limits s' !! k <> ls_limits s !! k -> key_Name k = lq_LimitRangeName r).

(** ** Example: one quota with an override, in a namespace of an organization *)
Definition lq_reconciler : LegacyResourceQuotaReconciler Z unit Z := {|
  lq_OrganizationLabel := "organization";
  lq_ResourceQuotaAnnotationBase := "resourcequota.appuio.io";
  lq_DefaultResourceQuotas := {["compute" := {| Hard := {["limits/cpu" := 4%Z]}; Scopes_ := () |}]};
  lq_LimitRangeName := "organization";
  lq_DefaultLimitRange := 7%Z;
|}.

Definition lq_namespace : Namespace := {|
  ns_Name := "web"; ns_Labels := {["organization" := "acme"]};
  ns_Annotations := {["resourcequota.appuio.io/compute.limits_cpu" := "8"]};
  ns_DeletionTimestamp := None |}.

Definition fake_parse : ParseLib Z := {|
  ParseQuantity := strconv.Atoi;
  Unmarshal_ResourceList := fun _ => inl (ErrorString "invalid character") |}.

Definition lq_owned : ControllerReference := fun o owners => inr [o].

Abbreviation lq_state := (legacy_state (ResourceQuota Z unit) (LimitRange Z)).

Definition lq_before : lq_state := {|
  ls_namespaces := {[name_key "web" := lq_namespace]}; ls_quotas := ∅; ls_limits := ∅;
  ls_events := [] |}.

Definition lq_quota : ResourceQuota Z unit := {|
  rq_Spec := Some {| Hard := {["limits/cpu" := 8%Z]}; Scopes_ := () |};
  rq_OwnerReferences := ["web"] |}.

Definition lq_limit : LimitRange Z := {| lr_Spec := Some 7%Z; lr_OwnerReferences := ["web"] |}.

Definition lq_key (name : string) : ObjectKey := {| key_Namespace := "web"; key_Name := name |}.

Definition lq_after : lq_state :=
  set_limits (<[lq_key "organization" := lq_limit]> ∅)
    (set_quotas (<[lq_key "compute" := lq_quota]> ∅) lq_before).

(** ** Lemmas *)
Section lemmas.
Context `{RangeOracle} `{ApiErrorsLaws} `{MultierrLaws} `{ControllerReference}.
Context {Quantity Scopes LRS : Type} `{ParseLib Quantity}.
Implicit Types r : LegacyResourceQuotaReconciler Quantity Scopes LRS.

(** One step of the loop: only its key changes. *)
Lemma hard_step_lookup r ns name acc k q :
  acc.1 !! k = Some q ->
  (hard_step r ns name (storage_quotas r ns name).1 acc (k, q)).1 =
    <[k := overridden r ns name k q]> acc.1 /\
  (Forall (fun e => e = None) (hard_step r ns name (storage_quotas r ns name).1 acc (k, q)).2 <->
   Forall (fun e => e = None) acc.2 /\
   (strings.Contains k "storageclass.storage.k8s.io" = false ->
    map_get (ns_Annotations ns) (annotation_of r name k) <> "" ->
    exists po, ParseQuantity (map_get (ns_Annotations ns) (annotation_of r name k)) = inr po)).
Proof.
  destruct acc as [hard errs]. intros Hk. unfold hard_step, overridden. simpl in *.
  destruct (strings.Contains k _).
  { destruct ((storage_quotas r ns name).1 !! k); simpl; rewrite ?(insert_id hard) by done;
      (split; [done|]); (split; [by intros ?; split|by intros []]). }
  case_bool_decide as Ha; simpl; [split; [by rewrite insert_id|by split; [intros ?; split|intros []]]|].
  destruct (ParseQuantity _) as [err|po] eqn:Ep; simpl.
  - split; [by rewrite insert_id|]. rewrite Forall_app, Forall_singleton. split; [by intros []|].
    intros [_ Hp]. by destruct Hp as [? ?].
  - split; [done|]. split; [intros ?; split; [done|eauto]|tauto].
Qed.

Lemma hard_steps r ns name l acc :
  NoDup l.*1 -> (forall k q, (k, q) ∈ l -> acc.1 !! k = Some q) ->
  (forall k, (forall q, (k, q) ∉ l) ->
    (foldl (hard_step r ns name (storage_quotas r ns name).1) acc l).1 !! k = acc.1 !! k) /\
  (forall k q, (k, q) ∈ l ->
    (foldl (hard_step r ns name (storage_quotas r ns name).1) acc l).1 !! k =
      Some (overridden r ns name k q)) /\
  (Forall (fun e => e = None) (foldl (hard_step r ns name (storage_quotas r ns name).1) acc l).2 <->
   Forall (fun e => e = None) acc.2 /\
   forall k q, (k, q) ∈ l -> strings.Contains k "storageclass.storage.k8s.io" = false ->
    map_get (ns_Annotations ns) (annotation_of r name k) <> "" ->
    exists po, ParseQuantity (map_get (ns_Annotations ns) (annotation_of r name k)) = inr po).
Proof.
  revert acc. induction l as [|[k0 q0] l IH]; intros acc Hnd Hin; cbn [foldl].
  { split_and!; [done|by intros ? ? ?%not_elem_of_nil|].
    split; [intros ?; split; [done|by intros ? ? ?%not_elem_of_nil]|tauto]. }
  apply NoDup_cons in Hnd as [Hk0 Hnd].
  destruct (hard_step_lookup r ns name acc k0 q0 (Hin _ _ (list_elem_of_here _ _))) as [E1 E2].
  assert (Hne : forall k q, (k, q) ∈ l -> k <> k0).
  { intros k q Hl ->. apply Hk0, list_elem_of_fmap. by exists (k0, q). }
  destruct (IH (hard_step r ns name (storage_quotas r ns name).1 acc (k0, q0)) Hnd)
    as (Ho & Hs & Hf).
  { intros k q Hl. rewrite E1, lookup_insert_ne by (intros <-; by eapply Hne).
    apply Hin. by right. }
  split; [|split].
  - intros k Hk. rewrite Ho by (intros q Hl; apply (Hk q); by right).
    rewrite E1, lookup_insert_ne; [done|]. intros <-. apply (Hk q0). left.
  - intros k q [[= -> ->]|Hl]%elem_of_cons; [|by apply Hs].
    rewrite Ho by (intros q' Hl; by destruct (Hne _ _ Hl)). by rewrite E1, lookup_insert_eq.
  - rewrite Hf, E2. setoid_rewrite elem_of_cons. split.
    + intros [[Ha Hk] Hl]. split; [done|]. intros k q [[= -> ->]|?]; eauto.
    + intros [Ha Hl]. split_and!; [done| |]; intros; eapply Hl; eauto.
Qed.

Lemma override_hard_lookup r ns i name hard k :
  (override_hard r ns i name (storage_quotas r ns name).1 hard).1 !! k =
  overridden r ns name k <$> hard !! k.
Proof.
  destruct (hard_steps r ns name (range_map i hard) (hard, []) (range_map_NoDup_keys i hard))
    as (Ho & Hs & _); [intros ? ?; by rewrite range_map_elem|].
  destruct (hard !! k) as [q|] eqn:E; simpl.
  - apply Hs. by rewrite range_map_elem.
  - unfold override_hard. rewrite Ho; [done|]. intros q. rewrite range_map_elem. congruence.
Qed.

Lemma override_hard_errors r ns i name hard :
  Forall (fun e => e = None) (override_hard r ns i name (storage_quotas r ns name).1 hard).2 <->
  forall k q, hard !! k = Some q -> strings.Contains k "storageclass.storage.k8s.io" = false ->
    map_get (ns_Annotations ns) (annotation_of r name k) <> "" ->
    exists po, ParseQuantity (map_get (ns_Annotations ns) (annotation_of r name k)) = inr po.
Proof.
  destruct (hard_steps r ns name (range_map i hard) (hard, []) (range_map_NoDup_keys i hard))
    as (_ & _ & Hf); [intros ? ?; by rewrite range_map_elem|].
  unfold override_hard. rewrite Hf. setoid_rewrite range_map_elem. simpl. split; [by intros []|].
  intros Hk. split; [constructor|done].
Qed.

(** The quota that a successful step writes. *)
Definition quota_of r (ns : Namespace) (name : string) (s : ResourceQuotaSpec Quantity Scopes)
    (rq : ResourceQuota Quantity Scopes) : Prop :=
  exists spec, rq_Spec rq = Some spec /\ Scopes_ spec = Scopes_ s /\
    forall k, Hard spec !! k = overridden r ns name k <$> Hard s !! k.

(** What an iteration without an error does, whatever the others do meanwhile. *)
Lemma put_quota_writes (step : forall X, quota_call _ _ X -> _ -> X -> _ -> Prop) env
    r ns i name s st errs st' :
  (forall X c s0 x s1, step X c s0 x s1 -> legacy_step X c s0 x s1) ->
  exec step env (put_quota r ns (i, (name, s))) st errs st' ->
  Forall (fun e => e = None) errs ->
  readable r ns name (Hard s) /\
  exists st1 rq owners, quota_of r ns name s rq /\
    SetControllerReference (ns_Name ns) owners = inr (rq_OwnerReferences rq) /\
    rtc env st st1 /\
    rtc env (set_quotas (<[{| key_Namespace := ns_Name ns; key_Name := name |} := rq]> (ls_quotas st1)) st1) st'.
Proof.
  intros Hstep. unfold put_quota.
  pose proof (override_hard_lookup r ns (S i) name (Hard s)) as Hlookup.
  pose proof (override_hard_errors r ns (S i) name (Hard s)) as Herrs.
  unfold readable. destruct (storage_quotas r ns name) as [storage errs0] eqn:Es.
  cbn [fst snd] in *.
  destruct (override_hard r ns (S i) name storage (Hard s)) as [hard perrs]. cbn [fst snd] in *.
  intros (st1 & [called err] & s1 & Hr1 & Hw%Hstep & Hr) Hall. apply exec_ret in Hr as [-> Hr].
  inversion Hw as [err' m Hm|err']; subst.
  2:{ rewrite app_nil_r, Forall_app, Forall_singleton in Hall. by destruct Hall. }
  destruct err as [e|]; [rewrite Forall_app, Forall_singleton in Hall; by destruct Hall|].
  apply Forall_app in Hall as [Hs Hp]. split.
  { split; [|by apply Herrs]. unfold storage_quotas in Es. repeat case_match; simplify_eq; [done| |done].
    inversion Hs; congruence. }
  inversion Hm as [v Hv| |]; subst. exists st1, v, (rq_OwnerReferences
    (default {| rq_Spec := None; rq_OwnerReferences := [] |}
       (ls_quotas st1 !! {| key_Namespace := ns_Name ns; key_Name := name |}))).
  unfold set_quota_spec in Hv. destruct (SetControllerReference _ _) eqn:Eo; simplify_eq.
  split_and!; [|done..]. eexists. split; [done|]. split; [done|]. exact Hlookup.
Qed.

Lemma put_quota_exec r ns i name s st errs st' :
  exec legacy_step alone (put_quota r ns (i, (name, s))) st errs st' ->
  Forall (fun e => e = None) errs ->
  readable r ns name (Hard s) /\ ls_namespaces st' = ls_namespaces st /\
  ls_limits st' = ls_limits st /\
  exists rq, quota_of r ns name s rq /\
    ls_quotas st' = <[{| key_Namespace := ns_Name ns; key_Name := name |} := rq]> (ls_quotas st).
Proof.
  intros Hx Hall. apply put_quota_writes in Hx as (Hread & st1 & rq & owners & Hrq & _ & Hst1 & Hst2); [|done..].
  apply rtc_alone in Hst1 as ->. apply rtc_alone in Hst2 as ->. split_and!; [done..|]. by exists rq.
Qed.

(** Whatever the result, one iteration leaves everything but its quota alone. *)
Lemma put_quota_other r ns entry st errs st' :
  exec legacy_step alone (put_quota r ns entry) st errs st' ->
  ls_limits st' = ls_limits st /\
  forall k, k <> {| key_Namespace := ns_Name ns; key_Name := entry.2.1 |} ->
    ls_quotas st' !! k = ls_quotas st !! k.
Proof.
  destruct entry as [i [name s]]. unfold put_quota.
  destruct (storage_quotas _ _ _), (override_hard _ _ _ _ _ _).
  intros ([called err] & s1 & Hw & Hr)%alone_trigger. apply alone_ret in Hr as [_ ->].
  inversion Hw as [err' m Hm|err']; subst; [|done]. split; [done|]. intros k Hk.
  by apply (created_or_updated_other _ _ _ _ _ _ _ Hm).
Qed.

(** What one iteration without an error does to its quota. *)
Definition put_post r (ns : Namespace) (entry : nat * (string * ResourceQuotaSpec Quantity Scopes))
    (errs : list (option error)) (_ : ObjectKey) (_ new : option (ResourceQuota Quantity Scopes)) : Prop :=
  Forall (fun e => e = None) errs ->
  readable r ns entry.2.1 (Hard entry.2.2) /\ exists rq, quota_of r ns entry.2.1 entry.2.2 rq /\ new = Some rq.

Lemma put_quota_footprint r ns entry :
  footprint legacy_step (put_quota r ns) (fun st k => ls_quotas st !! k)
    (fun entry => [{| key_Namespace := ns_Name ns; key_Name := entry.2.1 |}]) (put_post r ns) entry.
Proof.
  intros st errs st' Hx. pose proof (put_quota_other _ _ _ _ _ _ Hx) as [_ Hother].
  destruct entry as [i [name s]]. split; intros k; rewrite list_elem_of_singleton; [|apply Hother].
  intros -> Hall. destruct (put_quota_exec _ _ _ _ _ _ _ _ Hx Hall) as (Hread & _ & _ & rq & Hrq & ->).
  split; [done|]. exists rq. by rewrite lookup_insert_eq.
Qed.

Lemma put_quotas_exec r ns l st errs st' :
  NoDup (l.*2).*1 ->
  exec legacy_step alone (for_each l (put_quota r ns)) st errs st' ->
  Forall (fun e => e = None) (mjoin errs) ->
  ls_limits st' = ls_limits st /\
  (forall key, (forall i name s, (i, (name, s)) ∈ l ->
      key <> {| key_Namespace := ns_Name ns; key_Name := name |}) ->
    ls_quotas st' !! key = ls_quotas st !! key) /\
  forall i name s, (i, (name, s)) ∈ l ->
    readable r ns name (Hard s) /\
    exists rq, quota_of r ns name s rq /\
      ls_quotas st' !! {| key_Namespace := ns_Name ns; key_Name := name |} = Some rq.
Proof.
  intros Hnd Hx Hall. split.
  { apply (for_each_keeps legacy_step (put_quota r ns) ls_limits l _ errs); [|done].
    by intros x s y s' _ [Hl _]%put_quota_other. }
  apply (for_each_keyed legacy_step _ (fun st k => ls_quotas st !! k)
    (fun entry => {| key_Namespace := ns_Name ns; key_Name := entry.2.1 |}) (put_post r ns)) in Hx
    as [Hin Hother]; [|by intros; apply put_quota_footprint|].
  2:{ rewrite <- list_fmap_compose in Hnd. revert Hnd. clear. induction l as [|x l IH]; [constructor|].
      rewrite !fmap_cons, !NoDup_cons. intros [Hx Hnd]. split; [|by apply IH].
      intros ([i [n s]] & [= Hn] & Hl)%list_elem_of_fmap. apply Hx, list_elem_of_fmap. by exists (i, (n, s)). }
  split.
  - intros key Hkey. apply Hother. intros ([i [n s]] & -> & Hl)%list_elem_of_fmap. by apply (Hkey i n s).
  - intros i name s Hl. destruct (Hin _ Hl) as (es & Hes & Hp). apply Hp.
    apply Forall_forall. intros e He. rewrite Forall_forall in Hall. apply Hall.
    apply list_elem_of_join. exists es. by split.
Qed.

(** Whatever fails or is lost, and wherever the reconciler stops. *)
Lemma reconcile_writes r key s :
  invariant legacy_step alone (written_names r s) (LegacyResourceQuotaReconciler_Reconcile r key).
Proof.
  assert (Hst : stable alone (written_names r s)) by by intros ? ? [].
  apply invariant_bind; [apply invariant_call; [done|]; by intros s1 x s2 Hi []|].
  intros [err|ns]; [by apply invariant_ret|].
  case_match; [by apply invariant_ret|]. case_match; [by apply invariant_ret|].
  apply invariant_bind.
  { apply invariant_for_each; [done|]. intros [i [name spec]] Hin.
    apply list_elem_of_lookup in Hin as [j Hj]. rewrite list_lookup_imap in Hj.
    apply fmap_Some in Hj as ([name' spec'] & Hj & [= -> -> ->]).
    apply list_elem_of_lookup_2 in Hj. rewrite range_map_elem in Hj.
    unfold put_quota. destruct (storage_quotas _ _ _), (override_hard _ _ _ _ _ _).
    apply invariant_bind; [|intros []; by apply invariant_ret]. apply invariant_call; [done|].
    intros s1 x s2 [Hq Hl] [err m Hm|err]; [|done]. split; [|done]. intros k Hk. simpl in Hk.
    destruct (decide (k = {| key_Namespace := ns_Name ns; key_Name := name' |})) as [->|Hne]; [by eexists|].
    apply Hq. by rewrite <- (created_or_updated_other _ _ _ _ _ _ _ Hm Hne). }
  intros errs. apply invariant_bind.
  { apply invariant_call; [done|]. intros s1 x s2 [Hq Hl] [err m Hm]. split; [done|].
    intros k Hk. simpl in Hk. set (k0 := {| key_Namespace := _; key_Name := _ |}) in Hm.
    destruct (decide (k = k0)) as [->|Hne]; [done|].
    apply Hl. by rewrite <- (created_or_updated_other _ _ _ _ _ _ _ Hm Hne). }
  intros err. cbv zeta. case_match; [|by apply invariant_ret].
  apply invariant_bind; [|intros; by apply invariant_ret]. apply invariant_call; [done|].
  by intros s1 x s2 Hi [].
Qed.
End lemmas.

(** ** Properties *)
Section properties.
Context `{RangeOracle} `{ApiErrorsLaws} `{MultierrLaws} `{ControllerReference}.
Context {Quantity Scopes LRS : Type} `{ParseLib Quantity}.
Implicit Types r : LegacyResourceQuotaReconciler Quantity Scopes LRS.

(** C19: in a namespace of an organization that is not being deleted, a reconciliation that
    succeeds leaves every default quota with its default limits, except those that an annotation
    overrides, and the default limit range; it succeeds only if no annotation is invalid, and
    changes no other quota or limit range, in whatever order quotas and limits are visited. *)
Theorem legacy_quotas r key ns s s' :
  ls_namespaces s !! key = Some ns -> ns_DeletionTimestamp ns = None ->
  is_Some (ns_Labels ns !! lq_OrganizationLabel r) ->
  exec legacy_step alone (LegacyResourceQuotaReconciler_Reconcile r key) s None s' ->
  (forall name spec, lq_DefaultResourceQuotas r !! name = Some spec ->
    readable r ns name (Hard spec) /\
    exists rq, quota_of r ns name spec rq /\
      ls_quotas s' !! {| key_Namespace := ns_Name ns; key_Name := name |} = Some rq) /\
  (forall k, (forall name, is_Some (lq_DefaultResourceQuotas r !! name) ->
      k <> {| key_Namespace := ns_Name ns; key_Name := name |}) ->
    ls_quotas s' !! k = ls_quotas s !! k) /\
  exists lr, lr_Spec lr = Some (lq_DefaultLimitRange r) /\
    ls_limits s' = <[{| key_Namespace := ns_Name ns; key_Name := lq_LimitRangeName r |} := lr]>
      (ls_limits s).
Proof.
  intros Hns Hdel Horg (got & s1 & Hg & Hr)%alone_trigger.
  destruct Hg as [ns' Hns'|err ?|err Hn]; [|congruence|].
  2:{ apply alone_ret in Hr as [Hr _]. by rewrite IgnoreNotFound_spec, Hn in Hr. }
  simplify_eq. rewrite Hdel, bool_decide_eq_true_2 in Hr by done. cbn [negb] in Hr.
  apply exec_bind in Hr as (errs & s2 & s3 & Hf & ->%rtc_alone & Hr).
  apply alone_trigger in Hr as (err & s4 & Hw & Hr). inversion Hw as [err' m Hm]; subst.
  destruct (multierr_Combine _) as [e|] eqn:Ec.
  { apply alone_trigger in Hr as ([] & s5 & [] & Hr). by apply alone_ret in Hr as []. }
  apply alone_ret in Hr as [_ ->]. apply multierr_Combine_nil, Forall_app in Ec as [Hall Hlr].
  apply put_quotas_exec in Hf as (Hlim & Ho & Hin); [|by rewrite imap_pair_snd; auto with agent|done].
  split; [|split].
  - intros name spec Hname. rewrite <- (range_map_elem 0) in Hname.
    apply (list_elem_of_lookup_1) in Hname as [i Hi].
    apply (Hin i). apply list_elem_of_lookup. exists i. by rewrite list_lookup_imap, Hi.
  - intros k Hk. apply Ho. intros i name spec Hl. apply Hk.
    apply list_elem_of_lookup in Hl as [j Hj]. rewrite list_lookup_imap in Hj.
    apply fmap_Some in Hj as ([name' spec'] & Hj & [= -> -> ->]).
    apply list_elem_of_lookup_2 in Hj. rewrite range_map_elem in Hj. by exists spec'.
  - destruct err as [e|]; [inversion Hlr; congruence|].
    inversion Hm as [v Hv| |]; subst. exists v. unfold set_limit_range in Hv.
    destruct (SetControllerReference _ _); simplify_eq. split; [done|]. by rewrite <- Hlim.
Qed.
End properties.

(** ** The theorem on the example *)
Import Fake.
#[local] Existing Instances fake_parse lq_owned.

Lemma lq_run :
  exec legacy_step alone (LegacyResourceQuotaReconciler_Reconcile lq_reconciler (name_key "web"))
    lq_before None lq_after.
Proof.
  apply alone_trigger. eexists _, _. split; [by apply (read_found _ _ _ lq_namespace); vm_compute|].
  change (exec legacy_step alone
    (for_each [(0%nat, ("compute", {| Hard := {["limits/cpu" := 4%Z]}; Scopes_ := () |}))]
       (put_quota lq_reconciler lq_namespace) ≫= fun errs =>
     trigger (CreateOrUpdateLimitRange (lq_key "organization")
       {| lr_Spec := None; lr_OwnerReferences := [] |} (set_limit_range lq_namespace 7%Z)) ≫= fun err =>
     let errs := mjoin errs ++
       match err with
       | Some e => [Some (WrapError "failed to reconcile LimitRange organization: " e "")]
       | None => []
       end in
     match multierr_Combine errs with
     | Some err =>
         _ ← trigger (RecordEvent "web" "Warning" "ReconcileError"
           ("Failed to reconcile ResourceQuotas and LimitRanges: " +:+ errors.Error err));
         mret (Some (WrapError "failed to reconcile ResourceQuotas and LimitRanges: " err ""))
     | None => mret None
     end) lq_before None lq_after).
  eapply (alone_bind _ _ _ _ [[]] (set_quotas (<[lq_key "compute" := lq_quota]> ∅) lq_before)).
  - eapply alone_bind; [|by eapply alone_bind; [by apply alone_ret|by apply alone_ret]].
    apply alone_trigger. eexists (true, None), _. split; [|by apply alone_ret].
    apply (quota_called _ _ _ lq_before None), (cou_done _ _ _ (ls_quotas lq_before) lq_quota).
    by vm_compute.
  - apply alone_trigger. eexists None, lq_after. split; [|by apply alone_ret].
    apply (limit_written _ _ _ _ None), (cou_done _ _ _ _ lq_limit). by vm_compute.
Qed.

Lemma legacy_quotas_witness :
  exists rq, quota_of lq_reconciler lq_namespace "compute"
      {| Hard := {["limits/cpu" := 4%Z]}; Scopes_ := () |} rq /\
    ls_quotas lq_after !! lq_key "compute" = Some rq.
Proof.
  destruct (legacy_quotas lq_reconciler (name_key "web") lq_namespace lq_before lq_after)
    as [Hq _]; [apply lookup_singleton_eq|done|by eexists|exact lq_run|].
  apply (Hq "compute"). apply lookup_singleton_eq.
Defined.
