(* ===== verification/LegacyController.v ===== *)
(** * The controller of legacy resource quotas (controllers/legacy_resource_quota_controller.go)

    What the controller watches, and that the quotas and the limit range of every namespace of an
    organization are as configured when its queue is empty, which it gets on a cluster without
    faults unless an annotation is invalid. *)
From S2P Require Import Prelude GoStd Kube Fake Effects Workqueue Drain LegacyQuota.

#[export] Instance ResourceQuotaSpec_eq_dec `{EqDecision Quantity} `{EqDecision Scopes} :
  EqDecision (ResourceQuotaSpec Quantity Scopes).
Proof. solve_decision. Defined.
#[export] Instance ResourceQuota_eq_dec `{EqDecision Quantity} `{EqDecision Scopes} :
  EqDecision (ResourceQuota Quantity Scopes).
Proof. solve_decision. Defined.
#[export] Instance LimitRange_eq_dec `{EqDecision LRS} : EqDecision (LimitRange LRS).
Proof. solve_decision. Defined.

(** ** The watches ([SetupWithManager]) *)
Section watches.
Context `{ControllerOf} `{RangeOracle} {Quantity Scopes LRS : Type} `{ParseLib Quantity}.
Context `{EqDecision Quantity} `{EqDecision Scopes} `{EqDecision LRS}.
Implicit Types r : LegacyResourceQuotaReconciler Quantity Scopes LRS.
Abbreviation state := (legacy_state (ResourceQuota Quantity Scopes) (LimitRange LRS)).

Definition controller_requests (owners : list string) : list ObjectKey :=
  name_key <$> option_list (GetControllerOf owners).

Definition quota_requests (k : ObjectKey) (rq : ResourceQuota Quantity Scopes) : list ObjectKey :=
  controller_requests (rq_OwnerReferences rq).
Definition limit_requests (k : ObjectKey) (lr : LimitRange LRS) : list ObjectKey :=
  controller_requests (lr_OwnerReferences lr).

Definition legacy_watch r (s s' : state) : gset ObjectKey :=
  watching (labelExistsPredicate (lq_OrganizationLabel r)) for_object (ls_namespaces s) (ls_namespaces s') ∪
  watching always quota_requests (ls_quotas s) (ls_quotas s') ∪
  watching always limit_requests (ls_limits s) (ls_limits s').

Definition legacy_requests r (s : state) : gset ObjectKey :=
  existing (labelExistsPredicate (lq_OrganizationLabel r)) for_object (ls_namespaces s) ∪
  existing always quota_requests (ls_quotas s) ∪ existing always limit_requests (ls_limits s).

(** A default quota, and the limit range, of a namespace. *)
Definition quota_in_order r (ns : Namespace) (name : string) (spec : ResourceQuotaSpec Quantity Scopes)
    (s : state) : Prop :=
  exists rq, ls_quotas s !! {| key_Namespace := ns_Name ns; key_Name := name |} = Some rq /\
    quota_of r ns name spec rq /\ GetControllerOf (rq_OwnerReferences rq) = Some (ns_Name ns).

Definition limit_in_order r (ns : Namespace) (s : state) : Prop :=
  exists lr, ls_limits s !! {| key_Namespace := ns_Name ns; key_Name := lq_LimitRangeName r |} = Some lr /\
    lr_Spec lr = Some (lq_DefaultLimitRange r) /\
    GetControllerOf (lr_OwnerReferences lr) = Some (ns_Name ns).

Definition legacy_synced r (key : ObjectKey) (s : state) : Prop :=
  forall ns, ls_namespaces s !! key = Some ns -> key = name_key (ns_Name ns) ->
    ns_DeletionTimestamp ns = None -> is_Some (ns_Labels ns !! lq_OrganizationLabel r) ->
    (forall name spec, lq_DefaultResourceQuotas r !! name = Some spec ->
      quota_in_order r ns name spec s) /\
    limit_in_order r ns s.
End watches.

Section legacy.
Context `{RangeOracle} `{ApiErrorsLaws} `{MultierrLaws} `{ControllerLaws}.
Context {Quantity Scopes LRS : Type} `{ParseLib Quantity}.
Context `{EqDecision Quantity} `{EqDecision Scopes} `{EqDecision LRS}.
Implicit Types r : LegacyResourceQuotaReconciler Quantity Scopes LRS.
Abbreviation state := (legacy_state (ResourceQuota Quantity Scopes) (LimitRange LRS)).

(** Without a request a namespace of an organization was the same before; it may have stopped to
    be one. *)
Lemma legacy_namespace_was r key ns (s s' : state) :
  key ∉ legacy_watch r s s' -> is_Some (ns_Labels ns !! lq_OrganizationLabel r) ->
  ls_namespaces s' !! key = Some ns -> ls_namespaces s !! key = Some ns.
Proof.
  unfold legacy_watch. rewrite !not_elem_of_union. intros [[Hn _] _] Hl.
  apply (watching_was (labelExistsPredicate (lq_OrganizationLabel r)) for_object key ns key); [by apply bool_decide_eq_true|apply list_elem_of_here|exact Hn].
Qed.

Lemma quota_in_order_stays r ns name spec (s s' : state) :
  name_key (ns_Name ns) ∉ legacy_watch r s s' ->
  quota_in_order r ns name spec s -> quota_in_order r ns name spec s'.
Proof.
  unfold legacy_watch. rewrite !not_elem_of_union. intros [[_ Hq] _] (rq & Hrq & Hof & Ho).
  exists rq. split; [|done]. eapply watching_stays; [|exact Hq|done].
  unfold quota_requests, controller_requests. rewrite Ho. apply list_elem_of_here.
Qed.

Lemma limit_in_order_stays r ns (s s' : state) :
  name_key (ns_Name ns) ∉ legacy_watch r s s' -> limit_in_order r ns s -> limit_in_order r ns s'.
Proof.
  unfold legacy_watch. rewrite !not_elem_of_union. intros [_ Hq] (lr & Hlr & Hof & Ho).
  exists lr. split; [|done]. eapply watching_stays; [|exact Hq|done].
  unfold limit_requests, controller_requests. rewrite Ho. apply list_elem_of_here.
Qed.

Lemma legacy_synced_stays r key (s s' : state) :
  key ∉ legacy_watch r s s' -> legacy_synced r key s -> legacy_synced r key s'.
Proof.
  intros Hq Hs ns Hns Hkey Hdel Hl. pose proof (legacy_namespace_was _ _ _ _ _ Hq Hl Hns) as Hns0.
  destruct (Hs ns Hns0 Hkey Hdel Hl) as [Hquotas Hlimit]. subst key. split.
  - intros name spec Hname. by eapply quota_in_order_stays; [|apply Hquotas].
  - by eapply limit_in_order_stays.
Qed.

Abbreviation quiet_legacy r key := (quiet_step legacy_step (legacy_watch r) key).
Abbreviation quiet_changes r key := (quiet_env anything (legacy_watch r) key).

Lemma quota_in_order_kept r ns name spec :
  kept (quiet_legacy r (name_key (ns_Name ns))) (quiet_changes r (name_key (ns_Name ns)))
    (quota_in_order r ns name spec).
Proof. split; [intros s s' [_ Hq]|intros X e s x s' [_ Hq]]; by apply quota_in_order_stays. Qed.

Lemma limit_in_order_kept r ns :
  kept (quiet_legacy r (name_key (ns_Name ns))) (quiet_changes r (name_key (ns_Name ns)))
    (limit_in_order r ns).
Proof. split; [intros s s' [_ Hq]|intros X e s x s' [_ Hq]]; by apply limit_in_order_stays. Qed.

Lemma put_quota_in_order r ns i name spec s errs s' :
  exec (quiet_legacy r (name_key (ns_Name ns))) (quiet_changes r (name_key (ns_Name ns)))
    (put_quota r ns (i, (name, spec))) s errs s' ->
  Forall (fun e => e = None) errs -> quota_in_order r ns name spec s'.
Proof.
  intros Hx Hall. apply put_quota_writes in Hx as (_ & s1 & rq & owners & Hof & Ho & _ & Hr);
    [|by intros X c s0 x s1 [? _]|done].
  eapply stable_rtc; [apply quota_in_order_kept|exact Hr|]. exists rq. split; [apply lookup_insert_eq|].
  split; [done|]. by eapply SetControllerReference_controller.
Qed.

(** After the loop and the call for the limit range. *)
Lemma puts_in_order r ns s1 errs s2 s3 err s4 :
  exec (quiet_legacy r (name_key (ns_Name ns))) (quiet_changes r (name_key (ns_Name ns)))
    (for_each (imap pair (range_map 0 (lq_DefaultResourceQuotas r))) (put_quota r ns)) s1 errs s2 ->
  quiet_legacy r (name_key (ns_Name ns)) _
    (CreateOrUpdateLimitRange {| key_Namespace := ns_Name ns; key_Name := lq_LimitRangeName r |}
       {| lr_Spec := None; lr_OwnerReferences := [] |} (set_limit_range ns (lq_DefaultLimitRange r)))
    s3 err s4 ->
  rtc (quiet_changes r (name_key (ns_Name ns))) s2 s3 ->
  Forall (fun e => e = None) (mjoin errs) -> err = None ->
  (forall name spec, lq_DefaultResourceQuotas r !! name = Some spec -> quota_in_order r ns name spec s4) /\
  limit_in_order r ns s4.
Proof.
  intros Hf Hc Hr Hall ->. split.
  - intros name spec Hname. apply (quota_in_order_kept r ns name spec) in Hc; [done|].
    eapply stable_rtc; [apply quota_in_order_kept|exact Hr|].
    rewrite <- (range_map_elem 0) in Hname. apply list_elem_of_lookup_1 in Hname as [i Hi].
    refine (for_each_establishes _ _ _ (Forall (fun e => e = None))
      (fun entry => quota_in_order r ns entry.2.1 entry.2.2) _ _ errs _
      (fun x _ => quota_in_order_kept r ns x.2.1 x.2.2) _ Hf _ (i, (name, spec)) _).
    + intros [j [n sp]] s5 es s6 _. apply put_quota_in_order.
    + apply Forall_forall. intros es Hes. apply Forall_forall. intros e He.
      rewrite Forall_forall in Hall. apply Hall, list_elem_of_join. by exists es.
    + apply list_elem_of_lookup. exists i. by rewrite list_lookup_imap, Hi.
  - destruct Hc as [Hc _]. inversion Hc as [err' m Hm]; subst. inversion Hm as [v Hv| |]; subst.
    exists v. split; [apply lookup_insert_eq|]. unfold set_limit_range in Hv.
    destruct (SetControllerReference _ _) eqn:Eo; simplify_eq. split; [done|].
    by eapply SetControllerReference_controller.
Qed.

#[export] Instance legacy_level r :
  Level legacy_step anything (LegacyResourceQuotaReconciler_Reconcile r) (legacy_watch r)
    (legacy_requests r) id any_state (legacy_synced r).
Proof.
  apply level_keeps; [by intros; eapply legacy_synced_stays|..].
  - intros key s s' Hx. unfold LegacyResourceQuotaReconciler_Reconcile in Hx.
    rewrite exec_trigger in Hx. destruct Hx as (s0 & got & s1 & Hr0 & Hg & Hx). intros ns Hns -> Hdel Hl.
    assert (Hback : ls_namespaces s1 !! name_key (ns_Name ns) = Some ns).
    { destruct (decide (ls_namespaces s1 !! name_key (ns_Name ns) = Some ns)) as [|Hne]; [done|].
      apply (exec_keeps _ _ (fun s => ls_namespaces s !! name_key (ns_Name ns) <> Some ns)) in Hx; [done| |done].
      split; [intros s2 s3 [_ Hq]|intros X e s2 x s3 [_ Hq]]; intros Hn2 Hn3;
        by apply Hn2, (legacy_namespace_was _ _ _ _ _ Hq Hl). }
    destruct Hg as [Hg _]. destruct Hg as [ns' Hns'|err ?|err Hn]; [|congruence|].
    2:{ destruct Hx as [Hx _]. by rewrite IgnoreNotFound_spec, Hn in Hx. }
    rewrite Hback in Hns'. injection Hns' as <-.
    rewrite Hdel, bool_decide_eq_true_2 in Hx by done. cbn [negb] in Hx.
    apply exec_bind in Hx as (errs & s2 & s3 & Hf & Hr2 & Hx).
    rewrite exec_trigger in Hx. destruct Hx as (s4 & err & s5 & Hr3 & Hc & Hx).
    destruct (multierr_Combine _) as [e|] eqn:Ec; [by destruct Hx as (? & ? & ? & _ & _ & ? & _)|].
    destruct Hx as [_ Hx]. apply multierr_Combine_nil, Forall_app in Ec as [Hall Herr].
    destruct err as [e|]; [inversion Herr; congruence|].
    destruct (puts_in_order r ns s0 errs s2 s4 None s5 Hf Hc) as [Hquotas Hlimit];
      [by etrans|done..|].
    split; [intros name spec Hname|]; (eapply stable_rtc; [|exact Hx|]).
    + apply quota_in_order_kept.
    + by apply Hquotas.
    + apply limit_in_order_kept.
    + done.
  - intros key s. destruct (ls_namespaces s !! key) as [ns|] eqn:E; [|left; intros ns; by rewrite E].
    destruct (decide (is_Some (ns_Labels ns !! lq_OrganizationLabel r))) as [Hl|Hl].
    + right. unfold legacy_requests. apply elem_of_union_l, elem_of_union_l, elem_of_existing.
      exists key, ns. split; [done|]. split; [by apply bool_decide_eq_true|]. apply list_elem_of_here.
    + left. intros ns'. rewrite E. by intros [= <-].
Qed.

(** C20: whatever happens after the agent has started, when no request is queued every namespace of
    an organization that is not being deleted has the default quotas, with the overrides of its
    annotations, and the default limit range, and owns them. *)
Theorem quotas_in_order r sys sys' :
  started (legacy_requests r) sys ->
  rtc (controller_step legacy_step anything (LegacyResourceQuotaReconciler_Reconcile r) (legacy_watch r)
        (legacy_requests r) id) sys sys' ->
  sys_queue sys' = ∅ -> forall key, legacy_synced r key (sys_state sys').
Proof. apply always_at_rest, legacy_level. Qed.
End legacy.

(** ** A cluster without faults *)
Section answer.
Context {RQ LR : Type} (not_found : error).
Abbreviation raw := (legacy_state RQ LR).

Definition legacy_answer X (c : quota_call RQ LR X) : raw -> X * raw :=
  match c in quota_call _ _ X return raw -> X * raw with
  | GetNamespace key => fun s =>
      (match ls_namespaces s !! key with Some ns => inr ns | None => inl not_found end, s)
  | CreateOrUpdateQuota key init mutate => fun s =>
      match mutate (default init (ls_quotas s !! key)) with
      | inl err => ((true, Some err), s)
      | inr rq => ((true, None), set_quotas (<[key := rq]> (ls_quotas s)) s)
      end
  | CreateOrUpdateLimitRange key init mutate => fun s =>
      match mutate (default init (ls_limits s !! key)) with
      | inl err => (Some err, s)
      | inr lr => (None, set_limits (<[key := lr]> (ls_limits s)) s)
      end
  | RecordEvent n t r m => fun s =>
      (tt, {| ls_namespaces := ls_namespaces s; ls_quotas := ls_quotas s; ls_limits := ls_limits s;
              ls_events := ls_events s ++ [(n, t, r, m)] |})
  end.

Lemma legacy_answer_step `{ApiErrors} X (c : quota_call RQ LR X) s :
  apierrors_IsNotFound not_found = true ->
  legacy_step X c s (legacy_answer X c s).1 (legacy_answer X c s).2.
Proof.
  intros Hnf. destruct c as [key|key init mutate|key init mutate|n t r m]; simpl.
  - destruct (ls_namespaces s !! key) eqn:E; [by apply read_found|by apply read_missing].
  - destruct (mutate _) as [err|rq] eqn:E.
    + destruct s as [nss qs ls es]. apply (quota_called _ _ _ (Build_legacy_state nss qs ls es) _ qs), cou_failed.
    + by apply quota_called, cou_done.
  - destruct (mutate _) as [err|lr] eqn:E.
    + destruct s as [nss qs ls es]. apply (limit_written _ _ _ (Build_legacy_state nss qs ls es) _ ls), cou_failed.
    + by apply limit_written, cou_done.
  - apply legacy_event.
Qed.
End answer.

(** A namespace that the reconciler manages. *)
Definition legacy_managed {Quantity Scopes LRS} (r : LegacyResourceQuotaReconciler Quantity Scopes LRS)
    (ns : Namespace) : Prop :=
  ns_DeletionTimestamp ns = None /\ is_Some (ns_Labels ns !! lq_OrganizationLabel r).

Section free.
Context `{ControllerOf} {Quantity Scopes LRS : Type} `{ParseLib Quantity}.

Definition free_of (owners : list string) (o : string) : Prop :=
  GetControllerOf owners = None \/ GetControllerOf owners = Some o.

(** A namespace is found under its name, its annotations are valid, and nothing else controls the
    default quotas and limit ranges. *)
Record legacy_free (r : LegacyResourceQuotaReconciler Quantity Scopes LRS)
    (s : legacy_state (ResourceQuota Quantity Scopes) (LimitRange LRS)) : Prop := {
  legacy_named key ns : ls_namespaces s !! key = Some ns -> key = name_key (ns_Name ns);
  legacy_readable key ns name spec : ls_namespaces s !! key = Some ns -> legacy_managed r ns ->
    lq_DefaultResourceQuotas r !! name = Some spec -> readable r ns name (Hard spec);
  legacy_quotas_free k rq : is_Some (lq_DefaultResourceQuotas r !! key_Name k) ->
    ls_quotas s !! k = Some rq -> free_of (rq_OwnerReferences rq) (key_Namespace k);
  legacy_limits_free k lr : key_Name k = lq_LimitRangeName r ->
    ls_limits s !! k = Some lr -> free_of (lr_OwnerReferences lr) (key_Namespace k);
}.
End free.

Section settles.
Context `{RangeOracle} `{ApiErrorsLaws} `{MultierrLaws} `{ControllerLaws} `{!ControllerSetLaws}.
Context {Quantity Scopes LRS : Type} `{ParseLib Quantity}.
Context `{EqDecision Quantity} `{EqDecision Scopes} `{EqDecision LRS}.
Context (not_found : error) (Hnf : apierrors_IsNotFound not_found = true).
Implicit Types r : LegacyResourceQuotaReconciler Quantity Scopes LRS.
Abbreviation state := (legacy_state (ResourceQuota Quantity Scopes) (LimitRange LRS)).
Abbreviation answer := (legacy_answer (RQ := ResourceQuota Quantity Scopes) (LR := LimitRange LRS) not_found).

Lemma legacy_watch_id r (s : state) : legacy_watch r s s = ∅.
Proof using Type. unfold legacy_watch. by rewrite !watching_id, !(left_id_L ∅ (∪)). Qed.

(** The specification that the reconciler writes. *)
Definition expected_spec r (ns : Namespace) (name : string) (spec : ResourceQuotaSpec Quantity Scopes) :
    ResourceQuotaSpec Quantity Scopes := {|
  Hard := map_imap (fun k q => Some (overridden r ns name k q)) (Hard spec); Scopes_ := Scopes_ spec |}.

Lemma quota_of_expected r ns name spec rq :
  quota_of r ns name spec rq <-> rq_Spec rq = Some (expected_spec r ns name spec).
Proof using Type.
  split.
  - intros ([hard scopes] & -> & Hsc & Hh). simpl in *. subst scopes. unfold expected_spec. do 2 f_equal.
    apply map_eq. intros k. rewrite Hh, map_lookup_imap. by destruct (Hard spec !! k).
  - intros Hs. exists (expected_spec r ns name spec). split_and!; [done..|]. intros k.
    cbn [expected_spec Hard]. rewrite map_lookup_imap. by destruct (Hard spec !! k).
Qed.

(** Without an invalid annotation there is no error. *)
Lemma hard_steps_errors r ns name storage l acc :
  Forall is_Some acc.2 -> Forall is_Some (foldl (hard_step r ns name storage) acc l).2.
Proof using Type.
  revert acc. induction l as [|[k q] l IH]; intros [hard errs] Ha; [done|]. apply IH. simpl in *.
  unfold hard_step. repeat case_match; simpl; try done. apply Forall_app. split; [done|].
  by apply Forall_singleton.
Qed.

Lemma override_hard_readable r ns i name spec :
  readable r ns name (Hard spec) ->
  override_hard r ns i name (storage_quotas r ns name).1 (Hard spec) =
    (Hard (expected_spec r ns name spec), []).
Proof using Type.
  intros [_ Hread]. pose proof (proj2 (override_hard_errors r ns i name (Hard spec)) Hread) as Hnone.
  pose proof (hard_steps_errors r ns name (storage_quotas r ns name).1 (range_map i (Hard spec))
    (Hard spec, []) (Forall_nil_2 _)) as Hsome.
  pose proof (override_hard_lookup r ns i name (Hard spec)) as Hlookup. unfold override_hard in *.
  destruct (foldl _ _ _) as [hard errs]. cbn [fst snd] in *. f_equal.
  - apply map_eq. intros k. rewrite Hlookup. cbn [expected_spec Hard]. rewrite map_lookup_imap.
    by destruct (Hard spec !! k).
  - destruct errs as [|e errs]; [done|]. apply Forall_cons in Hnone as [-> _].
    apply Forall_cons in Hsome as [[? ?] _]. done.
Qed.
(** The loop for one quota. *)
Lemma put_quota_readable r ns i name spec :
  readable r ns name (Hard spec) ->
  put_quota (LRS := LRS) r ns (i, (name, spec)) =
    ('(called, err) ← trigger (CreateOrUpdateQuota {| key_Namespace := ns_Name ns; key_Name := name |}
      {| rq_Spec := None; rq_OwnerReferences := [] |} (set_quota_spec ns (expected_spec r ns name spec)));
     let errs := if called : bool then [] else [] in
     mret (match err with
           | Some e => errs ++ [Some (WrapError ("failed to reconcile ResourceQuota " +:+ name +:+ ": ") e "")]
           | None => errs
           end)).
Proof using Type.
  intros Hread. unfold put_quota. pose proof (override_hard_readable r ns (S i) name spec Hread) as Ho.
  destruct Hread as [Hs _]. destruct (storage_quotas r ns name) as [storage errs]. cbn [fst snd] in *. subst errs.
  by rewrite Ho.
Qed.

(** What is kept for a namespace. *)
Definition legacy_kept r ns (s s' : state) : Prop :=
  ls_namespaces s' = ls_namespaces s /\
  (forall name spec, lq_DefaultResourceQuotas r !! name = Some spec ->
    quota_in_order r ns name spec s -> quota_in_order r ns name spec s') /\
  (limit_in_order r ns s -> limit_in_order r ns s').

#[export] Instance legacy_kept_preorder r ns : PreOrder (legacy_kept r ns).
Proof using Type. split; [done|]. intros s1 s2 s3 (Hn & Hq & Hl) (Hn' & Hq' & Hl'). split_and!; [congruence|eauto..]. Qed.

Abbreviation settles r ns :=
  (settles_to (legacy_watch r) answer (legacy_free r) (legacy_kept r ns)
    (fun j => j ∈ ({[name_key (ns_Name ns)]} : gset ObjectKey))).

Lemma put_quota_settles r ns i name spec s :
  legacy_free r s -> lq_DefaultResourceQuotas r !! name = Some spec -> readable r ns name (Hard spec) ->
  exists s', settles r ns (put_quota r ns (i, (name, spec))) (quota_in_order r ns name spec) s [] s'.
Proof using Type*.
  intros Hf Hname Hread. rewrite put_quota_readable by done.
  set (k := {| key_Namespace := ns_Name ns; key_Name := name |}).
  set (init := {| rq_Spec := None; rq_OwnerReferences := [] |} : ResourceQuota Quantity Scopes).
  destruct (SetControllerReference_own (ns_Name ns) (rq_OwnerReferences (default init (ls_quotas s !! k))))
    as (owners & Hset & Hown & Hsame).
  { destruct (ls_quotas s !! k) as [rq|] eqn:E; [|left; apply GetControllerOf_nil].
    by apply (legacy_quotas_free _ _ Hf k rq); [eexists|]. }
  set (rq := {| rq_Spec := Some (expected_spec r ns name spec); rq_OwnerReferences := owners |}).
  assert (Hm : set_quota_spec ns (expected_spec r ns name spec) (default init (ls_quotas s !! k)) = inr rq)
    by (unfold set_quota_spec; by rewrite Hset).
  assert (Hrq : quota_of r ns name spec rq) by by apply quota_of_expected.
  exists (set_quotas (<[k := rq]> (ls_quotas s)) s). split.
  - simpl. by rewrite Hm.
  - destruct Hf as [Hn Hr Hq Hl]. split; [exact Hn|exact Hr| |exact Hl]. intros k' rq' Hk'.
    cbn [set_quotas ls_quotas]. rewrite lookup_insert_Some. intros [[<- <-]|[_ Hrq']]; [by right|by apply Hq].
  - split_and!; [done| |done]. intros name' spec' Hname' (rq' & Hl & Hin).
    destruct (decide (name' = name)) as [->|Hne].
    + exists rq. cbn [set_quotas ls_quotas]. rewrite lookup_insert_eq. simplify_eq. done.
    + exists rq'. cbn [set_quotas ls_quotas]. by rewrite lookup_insert_ne by (by intros [= ->]).
  - exists rq. cbn [set_quotas ls_quotas]. by rewrite lookup_insert_eq.
  - simpl. rewrite Hm. simpl. rewrite (right_id_L ∅ (∪)). unfold legacy_watch.
    cbn [set_quotas ls_namespaces ls_quotas ls_limits]. rewrite !watching_id, (left_id_L ∅ (∪)), (right_id_L ∅ (∪)).
    apply watching_write. unfold quota_requests, controller_requests. intros u q Hu.
    assert (Ho : free_of (rq_OwnerReferences u) (ns_Name ns)).
    { destruct Hu as [->|Hu]; [by right|]. by apply (legacy_quotas_free _ _ Hf k u); [eexists|]. }
    destruct Ho as [-> | ->]; [by intros ?%not_elem_of_nil|]. by intros ->%list_elem_of_singleton; apply elem_of_singleton.
  - intros (rq' & Hl & Hof%quota_of_expected & Ho). unfold k in *. rewrite Hl in Hsame. cbn [default] in Hsame.
    assert (rq' = rq) as ->.
    { unfold rq. rewrite (Hsame Ho). destruct rq'. simpl in *. by subst. }
    assert (Hid : set_quotas (<[k := rq]> (ls_quotas s)) s = s)
      by (unfold set_quotas; rewrite insert_id by done; by destruct s).
    unfold k in Hid. rewrite Hid. split; [done|]. simpl. rewrite Hm. simpl.
    by rewrite Hid, legacy_watch_id, (left_id_L ∅ (∪)).
Qed.

Lemma put_limit_settles r ns s :
  legacy_free r s ->
  exists s', settles r ns (trigger (CreateOrUpdateLimitRange
      {| key_Namespace := ns_Name ns; key_Name := lq_LimitRangeName r |}
      {| lr_Spec := None; lr_OwnerReferences := [] |} (set_limit_range ns (lq_DefaultLimitRange r))))
    (limit_in_order r ns) s None s'.
Proof using Type*.
  intros Hf. set (k := {| key_Namespace := ns_Name ns; key_Name := lq_LimitRangeName r |}).
  set (init := {| lr_Spec := None; lr_OwnerReferences := [] |} : LimitRange LRS).
  destruct (SetControllerReference_own (ns_Name ns) (lr_OwnerReferences (default init (ls_limits s !! k))))
    as (owners & Hset & Hown & Hsame).
  { destruct (ls_limits s !! k) as [lr|] eqn:E; [|left; apply GetControllerOf_nil].
    by apply (legacy_limits_free _ _ Hf k lr). }
  set (lr := {| lr_Spec := Some (lq_DefaultLimitRange r); lr_OwnerReferences := owners |}).
  assert (Hm : set_limit_range ns (lq_DefaultLimitRange r) (default init (ls_limits s !! k)) = inr lr)
    by (unfold set_limit_range; by rewrite Hset).
  assert (Hlr : limit_in_order r ns (set_limits (<[k := lr]> (ls_limits s)) s)).
  { exists lr. cbn [set_limits ls_limits]. by rewrite lookup_insert_eq. }
  exists (set_limits (<[k := lr]> (ls_limits s)) s). split; [|..|done| |].
  - simpl. by rewrite Hm.
  - destruct Hf as [Hn Hr Hq Hl]. split; [exact Hn|exact Hr|exact Hq|]. intros k' lr' Hk'.
    cbn [set_limits ls_limits]. rewrite lookup_insert_Some. intros [[<- <-]|[_ Hlr']]; [by right|by apply Hl].
  - done.
  - simpl. rewrite Hm. simpl. rewrite (right_id_L ∅ (∪)). unfold legacy_watch.
    cbn [set_limits ls_namespaces ls_quotas ls_limits]. rewrite !watching_id, !(left_id_L ∅ (∪)).
    apply watching_write. unfold limit_requests, controller_requests. intros u q Hu.
    assert (Ho : free_of (lr_OwnerReferences u) (ns_Name ns)).
    { destruct Hu as [->|Hu]; [by right|]. by apply (legacy_limits_free _ _ Hf k u). }
    destruct Ho as [-> | ->]; [by intros ?%not_elem_of_nil|]. by intros ->%list_elem_of_singleton; apply elem_of_singleton.
  - intros (lr' & Hl & Hs & Ho). unfold k in *. rewrite Hl in Hsame. cbn [default] in Hsame.
    assert (lr' = lr) as ->.
    { unfold lr. rewrite (Hsame Ho). destruct lr'. simpl in *. by subst. }
    assert (Hid : set_limits (<[k := lr]> (ls_limits s)) s = s)
      by (unfold set_limits; rewrite insert_id by done; by destruct s).
    unfold k in Hid. rewrite Hid. split; [done|]. simpl. rewrite Hm. simpl.
    by rewrite Hid, legacy_watch_id, (left_id_L ∅ (∪)).
Qed.

Definition all_in_order r ns (s : state) : Prop :=
  (forall name spec, lq_DefaultResourceQuotas r !! name = Some spec -> quota_in_order r ns name spec s) /\
  limit_in_order r ns s.

Lemma legacy_settles_to r key ns s :
  ls_namespaces s !! key = Some ns -> legacy_managed r ns -> legacy_free r s ->
  exists s', settles r ns (LegacyResourceQuotaReconciler_Reconcile r (name_key (ns_Name ns)))
    (all_in_order r ns) s None s'.
Proof using Type*.
  intros Hns Hm Hf. pose proof (legacy_named _ _ Hf _ _ Hns) as ->.
  assert (Hread : forall name spec, lq_DefaultResourceQuotas r !! name = Some spec ->
    readable r ns name (Hard spec)) by (intros name spec; exact (legacy_readable _ _ Hf _ _ name spec Hns Hm)).
  set (l := imap pair (range_map 0 (lq_DefaultResourceQuotas r))).
  assert (Hl : forall name spec, lq_DefaultResourceQuotas r !! name = Some spec <->
    exists i, (i, (name, spec)) ∈ l).
  { intros name spec. rewrite <- (range_map_elem 0). unfold l. split.
    - intros [i Hi]%list_elem_of_lookup. exists i. apply list_elem_of_lookup. exists i. by rewrite list_lookup_imap, Hi.
    - intros (i & [j Hj]%list_elem_of_lookup). rewrite list_lookup_imap in Hj.
      apply fmap_Some in Hj as ([? ?] & Hj & [= -> -> ->]). by eapply list_elem_of_lookup_2. }
  destruct (settles_for_each (legacy_watch r) answer (legacy_free r) (legacy_kept r ns)
    (fun j => j ∈ ({[name_key (ns_Name ns)]} : gset ObjectKey)) (put_quota r ns)
    (fun entry => quota_in_order r ns entry.2.1 entry.2.2) (fun errs => errs = []) l s) as (errs & s1 & Hnil & H1').
  { intros [i [name spec]] t t' Hin (_ & Hq & _). apply Hq, Hl. by exists i. }
  { intros [i [name spec]] t Hin Ht. assert (lq_DefaultResourceQuotas r !! name = Some spec) by (apply Hl; by exists i).
    destruct (put_quota_settles r ns i name spec t) as [t' Ht']; [auto..|]. by exists [], t'. }
  { done. }
  destruct (put_limit_settles r ns s1) as [s2 H2']; [by eapply to_ok|].
  exists s2. destruct Hm as [Hdel Horg].
  apply (settles_iff _ _ _ _ _ _ (fun t => True /\ Forall (fun entry : nat * (string * ResourceQuotaSpec Quantity Scopes) =>
    quota_in_order r ns entry.2.1 entry.2.2 t) l /\ limit_in_order r ns t /\ True)).
  { intros t. unfold all_in_order. rewrite Forall_forall. split.
    - intros (_ & Hall & Hlim & _). split; [|done]. intros name spec [i Hi]%Hl. by apply (Hall (i, (name, spec))).
    - intros [Hall Hlim]. split_and!; [done| |done..]. intros [i [name spec]] Hi. apply Hall, Hl. by exists i. }
  eapply settles_bind; [apply _|done|apply settles_read;
    [apply _|apply legacy_watch_id|simpl; by rewrite Hns|done]|].
  cbv beta iota. rewrite Hdel, bool_decide_eq_true_2 by done. cbn [negb].
  eapply settles_bind; [apply _| |exact H1'|].
  { intros t t' (_ & Ht & _). rewrite !Forall_forall. intros Hall [i [name spec]] Hi.
    apply Ht; [apply Hl; by exists i|]. by apply (Hall (i, (name, spec))). }
  eapply settles_bind; [apply _|by intros t t' (_ & _ & Ht)|exact H2'|]. cbv zeta.
  assert (mjoin errs = []) as -> by (clear H1'; induction Hnil as [|e es -> _ IH]; [done|exact IH]).
  rewrite (proj2 (multierr_Combine_nil [])) by constructor.
  apply settles_ret; [apply _|by eapply to_ok|done].
Qed.

(** The namespace has nothing to reconcile. *)
Lemma legacy_unmanaged_run r key s :
  (forall ns, ls_namespaces s !! key = Some ns -> ~ legacy_managed r ns) ->
  run answer (LegacyResourceQuotaReconciler_Reconcile r key) s = (None, s) /\
  run_requests (legacy_watch r) answer (LegacyResourceQuotaReconciler_Reconcile r key) s = ∅.
Proof using Type*.
  intros Hno. simpl. rewrite legacy_watch_id, (left_id_L ∅ (∪)).
  destruct (ls_namespaces s !! key) as [ns|] eqn:E; simpl; [|by rewrite IgnoreNotFound_spec, Hnf].
  specialize (Hno ns eq_refl). unfold legacy_managed in Hno.
  destruct (ns_DeletionTimestamp ns); [done|]. case_bool_decide; [by destruct Hno|done].
Qed.

#[export] Instance legacy_managed_dec r ns : Decision (legacy_managed r ns).
Proof using Type. unfold legacy_managed. solve_decision. Defined.

#[export] Instance quota_in_order_dec r ns name spec s : Decision (quota_in_order r ns name spec s).
Proof using Type*.
  unfold quota_in_order. destruct (ls_quotas s !! _) as [rq|].
  - destruct (decide (rq_Spec rq = Some (expected_spec r ns name spec) /\
      GetControllerOf (rq_OwnerReferences rq) = Some (ns_Name ns))) as [[Hs Ho]|Hno].
    + left. exists rq. by rewrite quota_of_expected.
    + right. intros (rq' & [= <-] & Hs%quota_of_expected & Ho). by destruct Hno.
  - right. by intros (rq & ? & _).
Defined.

#[export] Instance limit_in_order_dec r ns s : Decision (limit_in_order r ns s).
Proof using Type*.
  unfold limit_in_order. destruct (ls_limits s !! _) as [lr|].
  - destruct (decide (lr_Spec lr = Some (lq_DefaultLimitRange r) /\
      GetControllerOf (lr_OwnerReferences lr) = Some (ns_Name ns))) as [Hd|Hno]; [left; by exists lr|].
    right. by intros (lr' & [= <-] & ?).
  - right. by intros (lr & ? & _).
Defined.

#[export] Instance legacy_synced_dec r key s : Decision (legacy_synced r key s).
Proof using Type*.
  unfold legacy_synced. destruct (ls_namespaces s !! key) as [ns|]; [|by left].
  destruct (decide (key = name_key (ns_Name ns) /\ legacy_managed r ns)) as [[Hk [Hd Ho]]|Hno].
  2:{ left. intros ns' [= <-] ? ? ?. by destruct Hno. }
  destruct (decide (map_Forall (fun name spec => quota_in_order r ns name spec s) (lq_DefaultResourceQuotas r) /\
    limit_in_order r ns s)) as [[Hq Hl]|Hno].
  - left. intros ns' [= <-] _ _ _. by split.
  - right. intros Hs. apply Hno. by apply (Hs ns).
Defined.

#[export] Instance legacy_settles r :
  Settles (LegacyResourceQuotaReconciler_Reconcile r) (legacy_watch r) answer legacy_step
    (legacy_synced r) (legacy_free r).
Proof using Type*.
  assert (Hcases : forall key s, legacy_free r s ->
    (exists ns s', ls_namespaces s !! key = Some ns /\ legacy_managed r ns /\ key = name_key (ns_Name ns) /\
      settles r ns (LegacyResourceQuotaReconciler_Reconcile r key) (all_in_order r ns) s None s') \/
    (forall ns, ls_namespaces s !! key = Some ns -> ~ legacy_managed r ns)).
  { intros key s Hf. destruct (ls_namespaces s !! key) as [ns|] eqn:Hns; [|by right].
    destruct (decide (legacy_managed r ns)) as [Hm|Hno]; [left|right; by intros ? [= <-]].
    pose proof (legacy_named _ _ Hf _ _ Hns) as ->.
    destruct (legacy_settles_to r _ ns s Hns Hm Hf) as [s' Hs]. by exists ns, s'. }
  split.
  - intros X e s. by apply legacy_answer_step.
  - intros key s Hf. destruct (Hcases key s Hf) as [(ns & s' & Hns & _ & -> & [])|Hno].
    + rewrite to_run. destruct to_kept as [Hsame _]. split_and!; [done..|]. cbn [snd].
      intros ns'. rewrite Hsame, Hns. by intros [= <-] _ _ _.
    + destruct (legacy_unmanaged_run r key s Hno) as [-> _]. split_and!; [done..|].
      intros ns Hns _ Hdel Horg. by destruct (Hno ns Hns).
  - intros key s Hf. destruct (Hcases key s Hf) as [(ns & s' & _ & _ & -> & [])|Hno]; [done|].
    destruct (legacy_unmanaged_run r key s Hno) as [_ ->]. apply empty_subseteq.
  - intros key s Hf Hs. destruct (Hcases key s Hf) as [(ns & s' & Hns & [Hdel Horg] & Hk & [])|Hno].
    + apply to_quiet. by apply (Hs ns).
    + by destruct (legacy_unmanaged_run r key s Hno).
Qed.

(** C21: from every state that the controller may be in, in which the annotations of the namespaces
    are valid and nothing else controls a default quota or limit range: when nothing fails any
    more and nobody else changes anything, and the loop over the quotas has the same order in every
    reconciliation, the queue is empty after at most two reconciliations for each request in it, in
    whatever order they are taken, and every namespace of an organization that is not being deleted
    has its quotas and its limit range, and owns them. *)
Theorem quotas_converge r pick sys sys' :
  takes pick -> started (legacy_requests r) sys ->
  rtc (controller_step legacy_step anything (LegacyResourceQuotaReconciler_Reconcile r) (legacy_watch r)
        (legacy_requests r) id) sys sys' ->
  legacy_free r (sys_state sys') ->
  let rest := drain (LegacyResourceQuotaReconciler_Reconcile r) (legacy_watch r) answer pick
                (2 * size (sys_queue sys')) sys' in
  sys_queue rest = ∅ /\ forall key, legacy_synced r key (sys_state rest).
Proof using Type*.
  intros Hp Hs Hr Hf. exact (converges _ _ (legacy_requests r) id _ _ anything (legacy_synced r) (legacy_free r)
    pick sys sys' Hp Hs Hr Hf).
Qed.
End settles.

(** ** The theorem on the example: the next reconciliation leaves everything as it is *)
Import Fake.

Definition lc_controller : ControllerOf := head.

#[local] Existing Instances fake_parse lq_owned lc_controller.

#[local] Instance lc_laws : ControllerLaws.
Proof. split. by intros o owners owners' [= <-]. Qed.

Abbreviation lc_steady := (fun X (e : quota_call (ResourceQuota Z unit) (LimitRange Z) X) s x s' =>
  legacy_step X e s x s' /\ s' = s).

Lemma lc_run :
  exec lc_steady alone (LegacyResourceQuotaReconciler_Reconcile lq_reconciler (name_key "web"))
    lq_after None lq_after.
Proof.
  apply (alone_trigger lc_steady). eexists (inr lq_namespace), lq_after.
  split; [split; [by apply (read_found _ _ _ lq_namespace); vm_compute|done]|].
  change (exec lc_steady alone
    (for_each [(0%nat, ("compute", {| Hard := {["limits/cpu" := 4%Z]}; Scopes_ := () |}))]
       (put_quota lq_reconciler lq_namespace) ≫= fun errs =>
     trigger (CreateOrUpdateLimitRange (lq_key "organization")
       {| lr_Spec := None; lr_OwnerReferences := [] |} (set_limit_range lq_namespace 7%Z)) ≫= fun err =>
     let errs := mjoin errs ++
       match err with
       | Some e => [Some (WrapError "failed to reconcile LimitRange organization: " e "")]
       | None => []
       end in
     match multierr_Combine errs with
     | Some err =>
         _ ← trigger (RecordEvent "web" "Warning" "ReconcileError"
           ("Failed to reconcile ResourceQuotas and LimitRanges: " +:+ errors.Error err));
         mret (Some (WrapError "failed to reconcile ResourceQuotas and LimitRanges: " err ""))
     | None => mret None
     end) lq_after None lq_after).
  eapply (alone_bind _ _ _ _ [[]] lq_after).
  - eapply alone_bind; [|by eapply alone_bind; [by apply alone_ret|by apply alone_ret]].
    apply (alone_trigger lc_steady). eexists (true, None), lq_after. split; [|by apply alone_ret].
    split; [|done].
    replace lq_after with (set_quotas (<[lq_key "compute" := lq_quota]> (ls_quotas lq_after)) lq_after) at 2
      by (by rewrite insert_id by (by apply lookup_insert_eq)).
    apply (quota_called _ _ _ lq_after None), (cou_done _ _ _ (ls_quotas lq_after) lq_quota).
    by vm_compute.
  - apply (alone_trigger lc_steady). eexists None, lq_after. split; [|by apply alone_ret].
    split; [|done].
    replace lq_after with (set_limits (<[lq_key "organization" := lq_limit]> (ls_limits lq_after)) lq_after) at 2
      by (by rewrite insert_id by (by apply lookup_insert_eq)).
    apply (limit_written _ _ _ _ None), (cou_done _ _ _ _ lq_limit). by vm_compute.
Qed.

Lemma quotas_in_order_witness : legacy_synced lq_reconciler (name_key "web") lq_after.
Proof.
  refine (quotas_in_order lq_reconciler {| sys_state := lq_after; sys_queue := {[name_key "web"]} |}
    {| sys_state := lq_after; sys_queue := ∅ |} _ _ eq_refl (name_key "web")).
  - unfold started, legacy_requests. simpl. intros k. rewrite !elem_of_union, !elem_of_existing.
    intros [[(j & v & Hj & _ & Hr)|(j & v & Hj & _ & Hr)]|(j & v & Hj & _ & Hr)];
      [apply lookup_singleton_Some in Hj as [<- <-]|apply lookup_insert_Some in Hj as [[<- <-]|[_ Hj]]..];
      try (by rewrite lookup_empty in Hj); apply list_elem_of_singleton in Hr as ->; set_solver.
  - apply rtc_once.
    refine (process_step _ _ _ _ _ _ (name_key "web") lq_after {[name_key "web"]} None lq_after ∅ _ _);
      [set_solver|].
    replace ({[name_key "web"]} ∖ {[name_key "web"]}) with (∅ : gset ObjectKey) by set_solver.
    refine (queued_steady _ _ _ _ _ _ _ _ _ lc_run).
    intros s. unfold legacy_watch. rewrite !watching_id. set_solver.
Defined.

(** The example on a cluster without faults, with a function that refuses a second controller. *)
#[local] Instance lc_owned : ControllerReference := fun o owners =>
  match owners with
  | [] => inr [o]
  | o' :: _ => if decide (o = o') then inr owners else inl (ErrorString "already owned")
  end.

#[local] Instance lc_owned_laws : ControllerLaws.
Proof.
  split. intros o [|o' owners] owners'; unfold SetControllerReference, lc_owned; [by intros [= <-]|].
  case_decide as Ho; [|done]. by intros [= <-]; subst.
Qed.

#[local] Instance lc_owned_set_laws : ControllerSetLaws.
Proof.
  split; [done|..].
  - by intros o [|o' owners]; [exists [o]|].
  - intros o [|o' owners]; [done|]. intros [= ->]. unfold SetControllerReference, lc_owned. by rewrite decide_True.
Qed.

Definition lc_not_found : error := StatusError ReasonNotFound "not found".

Definition lc_started : system lq_state ObjectKey :=
  {| sys_state := lq_before; sys_queue := legacy_requests lq_reconciler lq_before |}.

Definition lc_rest : system lq_state ObjectKey :=
  drain (LegacyResourceQuotaReconciler_Reconcile lq_reconciler) (legacy_watch lq_reconciler)
    (legacy_answer lc_not_found) (take_first (name_key "")) (2 * size (sys_queue lc_started)) lc_started.

Lemma quotas_converge_witness :
  sys_queue lc_rest = ∅ /\ legacy_synced lq_reconciler (name_key "web") (sys_state lc_rest).
Proof.
  destruct (quotas_converge (Quantity := Z) (Scopes := unit) (LRS := Z) lc_not_found) with (r := lq_reconciler)
    (pick := take_first (name_key "")) (sys := lc_started) (sys' := lc_started) as [Hq Hs];
    [reflexivity|apply takes_first|unfold started; reflexivity|apply rtc_refl| |by split; [exact Hq|apply Hs]].
  assert (Hns : forall key ns, ls_namespaces lq_before !! key = Some ns -> key = name_key "web" /\ ns = lq_namespace)
    by (intros key ns; cbn [lq_before ls_namespaces]; rewrite lookup_singleton_Some; by intros [<- <-]).
  split; cbn [lc_started sys_state].
  - by intros key ns [-> ->]%Hns.
  - intros key ns name spec [-> ->]%Hns _. cbn [lq_reconciler lq_DefaultResourceQuotas].
    rewrite lookup_singleton_Some. intros [<- <-]. split; [by vm_compute|]. intros k q. cbn [Hard].
    rewrite lookup_singleton_Some. intros [<- <-] _ _. eexists. by vm_compute.
  - intros k rq _. cbn [lq_before ls_quotas]. by rewrite lookup_empty.
  - intros k lr _. cbn [lq_before ls_limits]. by rewrite lookup_empty.
Defined.
