(* ===== verification/ZoneVersion.v ===== *)
(** * The versions of a zone (controllers/zonek8sversion_controller.go)

    The reconciler that writes the versions of Kubernetes and OpenShift to the zones of the
    control API, with its panics: a version without a dot, an update without a completion time
    and a zone without a feature map. *)
From S2P Require Import Prelude GoStd Kube Fake Effects.

Record ZoneK8sVersionReconciler := { ZoneID : string }.

Definition upstreamZoneIdentifierLabelKey : string := "control.appuio.io/zone-cluster-id".
Definition kubernetesVersionFeatureKey : string := "kubernetesVersion".
Definition openshiftVersionFeatureKey : string := "openshiftVersion".

(** An entry of the update history.  Times are in nanoseconds; the zero time is 0 and the
    completion time of an update that is not completed is a nil pointer. *)
Record UpdateHistory := {
  h_State : string;
  h_Verified : bool;
  h_CompletionTime : option Z;
  h_Version : string;
}.

Record ClusterVersion := { cv_History : list UpdateHistory; cv_Desired_Version : string }.

(** [version.Info], by the fields used. *)
Record VersionInfo := { Major : string; Minor : string }.

(** A zone of the control API; its feature map may be nil.  The version is that of the object. *)
Record Zone := {
  zone_Name : string;
  zone_Labels : gmap string string;
  zone_Features : option (gmap string string);
  zone_Version : nat;
}.

Definition with_features (features : gmap string string) (z : Zone) : Zone := {|
  zone_Name := zone_Name z; zone_Labels := zone_Labels z; zone_Features := Some features;
  zone_Version := zone_Version z |}.

Definition formatVersion (v : VersionInfo) : string := Major v +:+ "." +:+ Minor v.

(** The loop over the history: the current version and the time of the last update, or [None]
    when a nil pointer is dereferenced. *)
Definition latest_step (acc : option (string * Z)) (h : UpdateHistory) : option (string * Z) :=
  '(currentVersion, lastUpdate) ← acc;
  if bool_decide (h_State h = "Completed") && h_Verified h then
    completed ← h_CompletionTime h;
    if (lastUpdate <? completed)%Z then Some (h_Version h, completed)
    else Some (currentVersion, lastUpdate)
  else Some (currentVersion, lastUpdate).

(** [None] is a panic. *)
Definition extractOpenShiftVersion (cv : ClusterVersion) : option (error + VersionInfo) :=
  '(currentVersion, _) ← foldl latest_step (Some ("", 0%Z)) (cv_History cv);
  let currentVersion :=
    if bool_decide (currentVersion = "") then cv_Desired_Version cv else currentVersion in
  if bool_decide (currentVersion = "")
  then Some (inl (ErrorString "Unable to extract current OpenShift version"))
  else match strings.Split currentVersion "." with
       | major :: minor :: _ => Some (inr {| Major := major; Minor := minor |})
       | _ => None
       end.

(** The calls of the reconciler. *)
Inductive zone_call : Type -> Type :=
| GetClusterVersion (name : string) : zone_call (error + ClusterVersion)
| GetServerVersion : zone_call (error + string)
| ForeignListZones (opts : list ListOption) : zone_call (error + list Zone)
| ForeignUpdateZone (z : Zone) : zone_call (option error).

(** How a reconciliation ends. *)
Inductive outcome := Returned (err : option error) | Panicked.

Section reconcile.
Context `{Multierr}.
(** [json.Unmarshal] into a [version.Info]. *)
Context (json_Unmarshal : string -> error + VersionInfo).

(** The loop over the zones, with the errors so far. *)
Fixpoint update_zones (k8sVersion ocpVersion : VersionInfo) (errs : list (option error))
    (zones : list Zone) : prog zone_call outcome :=
  match zones with
  | [] => mret (Returned (multierr_Combine errs))
  | z :: zones' =>
      match zone_Features z with
      | None => mret Panicked
      | Some features =>
          let features := <[kubernetesVersionFeatureKey := formatVersion k8sVersion]> features in
          let features := <[openshiftVersionFeatureKey := formatVersion ocpVersion]> features in
          err ← trigger (ForeignUpdateZone (with_features features z));
          match err with
          | Some e => update_zones k8sVersion ocpVersion (errs ++ [Some e]) zones'
          | None => update_zones k8sVersion ocpVersion errs zones'
          end
      end
  end.

Definition ZoneK8sVersionReconciler_Reconcile (r : ZoneK8sVersionReconciler) (name : string)
    : prog zone_call outcome :=
  got ← trigger (GetClusterVersion name);
  match got with
  | inl err => mret (Returned (Some err))
  | inr cv =>
      match extractOpenShiftVersion cv with
      | None => mret Panicked
      | Some (inl err) => mret (Returned (Some err))
      | Some (inr ocpVersion) =>
          body ← trigger GetServerVersion;
          match body with
          | inl err => mret (Returned (Some err))
          | inr body =>
              match json_Unmarshal body with
              | inl err => mret (Returned (Some err))
              | inr k8sVersion =>
                  zones ← trigger (ForeignListZones
                    [MatchingLabels {[upstreamZoneIdentifierLabelKey := ZoneID r]}]);
                  match zones with
                  | inl err => mret (Returned (Some err))
                  | inr zones => update_zones k8sVersion ocpVersion [] zones
                  end
              end
          end
      end
  end.
End reconcile.

(** ** The clusters *)
Record zone_state := {
  zs_versions : gmap string ClusterVersion;
  zs_server : string;                          (** what the API server answers at [/version] *)
  zs_zones : gmap string Zone;
}.

Definition write_zone (z : Zone) (s : zone_state) : zone_state := {|
  zs_versions := zs_versions s; zs_server := zs_server s;
  zs_zones := <[zone_Name z := {|
    zone_Name := zone_Name z; zone_Labels := zone_Labels z; zone_Features := zone_Features z;
    zone_Version := S (zone_Version z) |}]> (zs_zones s) |}.

Definition zone_matches (opt : ListOption) (z : Zone) : Prop :=
  match opt with
  | InNamespace _ => True
  | MatchingLabels m => m ⊆ zone_Labels z
  | HasLabels ls => Forall (fun l => is_Some (zone_Labels z !! l)) ls
  end.

Section cluster.
Context `{ApiErrors}.

Inductive server_step (s : zone_state) : error + string -> zone_state -> Prop :=
| server_answers : server_step s (inr (zs_server s)) s
| server_fails err : server_step s (inl err) s.

(** A list holds every zone that matches once, in any order. *)
Inductive list_zones_step (opts : list ListOption) (s : zone_state)
    : error + list Zone -> zone_state -> Prop :=
| zones_listed zones :
    NoDup (zone_Name <$> zones) ->
    (forall z, z ∈ zones <-> zs_zones s !! zone_Name z = Some z /\ Forall (fun opt => zone_matches opt z) opts) ->
    list_zones_step opts s (inr zones) s
| list_zones_fails err : list_zones_step opts s (inl err) s.

(** An update succeeds only for the version that is stored. *)
Inductive update_zone_step (z : Zone) (s : zone_state) : option error -> zone_state -> Prop :=
| zone_updated cur : zs_zones s !! zone_Name z = Some cur -> zone_Version cur = zone_Version z ->
    update_zone_step z s None (write_zone z s)
| zone_update_fails err : update_zone_step z s (Some err) s
| zone_update_lost cur err : zs_zones s !! zone_Name z = Some cur -> zone_Version cur = zone_Version z ->
    update_zone_step z s (Some err) (write_zone z s).

Definition zone_step X (c : zone_call X) : zone_state -> X -> zone_state -> Prop :=
  match c in zone_call X return zone_state -> X -> zone_state -> Prop with
  | GetClusterVersion name => read_step zs_versions name
  | GetServerVersion => server_step
  | ForeignListZones opts => list_zones_step opts
  | ForeignUpdateZone z => update_zone_step z
  end.
End cluster.

(** ** Specification *)

(** The zone has the versions, and all else is as it was. *)
Record versions_written (k8sVersion ocpVersion : VersionInfo) (z z' : Zone) : Prop := {
  written_name : zone_Name z' = zone_Name z;
  written_labels : zone_Labels z' = zone_Labels z;
  written_features : exists features, zone_Features z = Some features /\
    zone_Features z' = Some (<[openshiftVersionFeatureKey := formatVersion ocpVersion]>
      (<[kubernetesVersionFeatureKey := formatVersion k8sVersion]> features));
}.

(** A completed and verified update. *)
Definition done_at (h : UpdateHistory) (t : Z) : Prop :=
  h_State h = "Completed" /\ h_Verified h = true /\ h_CompletionTime h = Some t.

(** The version that is current: of the last update that was completed and verified, and among
    several at the same time the first of the history; without one, or when it is empty, the
    version that is desired. *)
Inductive current_version (cv : ClusterVersion) : string -> Prop :=
| current_latest h t l1 l2 :
    cv_History cv = l1 ++ h :: l2 -> done_at h t -> (0 < t)%Z -> h_Version h <> "" ->
    (forall h' t', h' ∈ l1 -> done_at h' t' -> (t' < t)%Z) ->
    (forall h' t', h' ∈ l2 -> done_at h' t' -> (t' <= t)%Z) ->
    current_version cv (h_Version h)
| current_unnamed h t l1 l2 :
    cv_History cv = l1 ++ h :: l2 -> done_at h t -> (0 < t)%Z -> h_Version h = "" ->
    (forall h' t', h' ∈ l1 -> done_at h' t' -> (t' < t)%Z) ->
    (forall h' t', h' ∈ l2 -> done_at h' t' -> (t' <= t)%Z) ->
    current_version cv (cv_Desired_Version cv)
| current_desired :
    (forall h t, h ∈ cv_History cv -> done_at h t -> (t <= 0)%Z) ->
    current_version cv (cv_Desired_Version cv).

(** ** Example *)
Definition zv_update (version : string) (t : option Z) : UpdateHistory :=
  {| h_State := "Completed"; h_Verified := true; h_CompletionTime := t; h_Version := version |}.

Definition zv_cluster : ClusterVersion := {|
  cv_History := [zv_update "4.15.8" (Some 20%Z); zv_update "4.14.3" (Some 10%Z)];
  cv_Desired_Version := "4.16.0" |}.

(** ** Lemmas *)

(** The state of the loop after a prefix of the history. *)
Inductive scanned (seen : list UpdateHistory) : string * Z -> Prop :=
| scanned_none : (forall h t, h ∈ seen -> done_at h t -> (t <= 0)%Z) -> scanned seen ("", 0%Z)
| scanned_latest h t l1 l2 :
    seen = l1 ++ h :: l2 -> done_at h t -> (0 < t)%Z ->
    (forall h' t', h' ∈ l1 -> done_at h' t' -> (t' < t)%Z) ->
    (forall h' t', h' ∈ l2 -> done_at h' t' -> (t' <= t)%Z) ->
    scanned seen (h_Version h, t).

Lemma latest_step_scanned seen acc h acc' :
  scanned seen acc -> latest_step (Some acc) h = Some acc' -> scanned (seen ++ [h]) acc'.
Proof.
  intros Hs E. unfold latest_step in E. destruct acc as [v last]. cbn in E.
  assert (Hskip : (forall t, done_at h t -> (t <= last)%Z) -> scanned (seen ++ [h]) (v, last)).
  { intros Hle. inversion Hs as [Hno Hv|h0 t0 l1 l2 -> Hd Ht H1 H2]; subst.
    - apply scanned_none. intros h' t' [Hin| ->%list_elem_of_singleton]%elem_of_app; eauto.
    - eapply (scanned_latest _ h0 last l1 (l2 ++ [h])); [by rewrite <- app_assoc|done..|].
      intros h' t' [Hin| ->%list_elem_of_singleton]%elem_of_app; eauto. }
  destruct (bool_decide (h_State h = "Completed")) eqn:Es; simpl in E.
  2:{ injection E as <-. apply Hskip. intros t (? & _). apply bool_decide_eq_false in Es. done. }
  apply bool_decide_eq_true in Es. destruct (h_Verified h) eqn:Ev; simpl in E.
  2:{ injection E as <-. apply Hskip. intros t (_ & ? & _). congruence. }
  destruct (h_CompletionTime h) as [t|] eqn:Et; simpl in E; [|done].
  destruct (Z.ltb_spec last t) as [Hlt|Hle]; injection E as <-.
  2:{ apply Hskip. intros t' (_ & _ & ?). congruence. }
  apply (scanned_latest _ h t seen []); [done|done| |..].
  - inversion Hs; subst; lia.
  - intros h' t' Hin Hd. inversion Hs as [Hno Hv|h0 t0 l1 l2 -> Hd0 Ht0 H1 H2]; subst.
    + specialize (Hno _ _ Hin Hd). lia.
    + apply elem_of_app in Hin as [Hin|[->|Hin]%elem_of_cons].
      * specialize (H1 _ _ Hin Hd). lia.
      * destruct Hd as (_ & _ & Hd), Hd0 as (_ & _ & Hd0). assert (t' = last) by congruence. lia.
      * specialize (H2 _ _ Hin Hd). lia.
  - by intros ? ? ?%not_elem_of_nil.
Qed.

Lemma latest_step_none l : foldl latest_step None l = None.
Proof. by induction l. Qed.

Lemma latest_scanned l seen acc acc' :
  scanned seen acc -> foldl latest_step (Some acc) l = Some acc' -> scanned (seen ++ l) acc'.
Proof.
  revert seen acc. induction l as [|h l IH]; intros seen acc Hs E.
  { injection E as <-. by rewrite app_nil_r. }
  cbn [foldl] in E. destruct (latest_step (Some acc) h) as [acc1|] eqn:E1;
    [|by rewrite latest_step_none in E].
  rewrite (cons_middle h seen l), app_assoc. eapply IH; [|exact E]. by eapply latest_step_scanned.
Qed.

(** The loop is stopped exactly by a completed and verified update without a time. *)
Lemma latest_panics l acc :
  foldl latest_step (Some acc) l = None <->
  exists h, h ∈ l /\ h_State h = "Completed" /\ h_Verified h = true /\ h_CompletionTime h = None.
Proof.
  revert acc. induction l as [|h l IH]; intros [v last]; cbn [foldl].
  { split; [done|]. by intros (? & ?%not_elem_of_nil & _). }
  unfold latest_step at 2. cbn.
  destruct (bool_decide (h_State h = "Completed")) eqn:Es; simpl.
  2:{ apply bool_decide_eq_false in Es. rewrite IH. symmetry. apply exists_elem_cons. by intros (? & _). }
  apply bool_decide_eq_true in Es. destruct (h_Verified h) eqn:Ev; simpl.
  2:{ rewrite IH. symmetry. apply exists_elem_cons. intros (_ & ? & _). congruence. }
  destruct (h_CompletionTime h) as [t|] eqn:Et; simpl.
  2:{ rewrite latest_step_none. split; [|done]. intros _. exists h. split; [left|done]. }
  destruct (last <? t)%Z; rewrite IH; symmetry; apply exists_elem_cons; intros (_ & _ & ?); congruence.
Qed.

(** What the loop does to the zones, given that every zone was read as it is stored. *)
Section zones.
Context `{ApiErrors} `{MultierrLaws}.
Context (k8sVersion ocpVersion : VersionInfo).

Abbreviation written := (versions_written k8sVersion ocpVersion).

(** One update: the zone is as it was, or has the versions. *)
Lemma update_zone_exec z features s err s' :
  zs_zones s !! zone_Name z = Some z -> zone_Features z = Some features ->
  zone_step _ (ForeignUpdateZone (with_features
    (<[openshiftVersionFeatureKey := formatVersion ocpVersion]>
      (<[kubernetesVersionFeatureKey := formatVersion k8sVersion]> features)) z)) s err s' ->
  (forall k, k <> zone_Name z -> zs_zones s' !! k = zs_zones s !! k) /\
  exists z', zs_zones s' !! zone_Name z = Some z' /\ (z' = z /\ err <> None \/ written z z').
Proof using Type.
  intros Hz Hf Hx.
  assert (Hw : forall d, d = with_features (<[openshiftVersionFeatureKey := formatVersion ocpVersion]>
      (<[kubernetesVersionFeatureKey := formatVersion k8sVersion]> features)) z ->
    (forall k, k <> zone_Name z -> zs_zones (write_zone d s) !! k = zs_zones s !! k) /\
    exists z', zs_zones (write_zone d s) !! zone_Name z = Some z' /\ (z' = z /\ err <> None \/ written z z')).
  { intros d ->. cbn [write_zone zs_zones with_features zone_Name].
    split; [intros k Hk; by rewrite lookup_insert_ne|]. eexists. rewrite lookup_insert_eq.
    split; [done|]. right. split; [done..|]. by exists features. }
  destruct Hx as [cur Hc Hv|err|cur err Hc Hv]; [by apply Hw| |by apply Hw].
  split; [done|]. exists z. split; [done|]. by left.
Qed.

Lemma update_zones_exec errs zones s res s' :
  NoDup (zone_Name <$> zones) -> (forall z, z ∈ zones -> zs_zones s !! zone_Name z = Some z) ->
  exec zone_step alone (update_zones k8sVersion ocpVersion errs zones) s res s' ->
  (forall k, k ∉ zone_Name <$> zones -> zs_zones s' !! k = zs_zones s !! k) /\
  (forall z, z ∈ zones -> exists z', zs_zones s' !! zone_Name z = Some z' /\
    (z' = z /\ res <> Returned None \/ written z z')) /\
  (res = Returned None -> Forall (fun e => e = None) errs).
Proof using Type*.
  revert errs s. induction zones as [|z zones IH]; intros errs s Hnd Hz Hx.
  { apply alone_ret in Hx as [-> ->]. split_and!; [done|by intros ? ?%not_elem_of_nil|].
    intros [= E]. by apply multierr_Combine_nil in E. }
  rewrite fmap_cons, NoDup_cons in Hnd. destruct Hnd as [Hnew Hnd]. cbn [update_zones] in Hx.
  pose proof (Hz z (list_elem_of_here _ _)) as Hzs.
  destruct (zone_Features z) as [features|] eqn:Ef.
  2:{ apply alone_ret in Hx as [-> ->]. split_and!; [done| |done]. intros z' Hz'. exists z'.
      split; [by apply Hz|]. by left. }
  cbv zeta in Hx. apply alone_trigger in Hx as (err & s1 & Hu & Hx).
  destruct (update_zone_exec z features s err s1 Hzs Ef Hu) as [Hother (z1 & Hz1 & Hcase)].
  assert (Hrest : forall z', z' ∈ zones -> zs_zones s1 !! zone_Name z' = Some z').
  { intros z' Hz'. rewrite Hother; [apply Hz; by right|]. intros E. apply Hnew. rewrite <- E.
    by apply list_elem_of_fmap_2. }
  assert (Hgo : exists errs', exec zone_step alone (update_zones k8sVersion ocpVersion errs' zones) s1 res s' /\
    (Forall (fun e => e = None) errs' -> Forall (fun e => e = None) errs /\ err = None)).
  { destruct err as [e|]; eexists; (split; [exact Hx|]); [|done].
    intros [_ He]%Forall_app. rewrite Forall_singleton in He. discriminate He. }
  destruct Hgo as (errs' & Hx' & Herrs). destruct (IH errs' s1 Hnd Hrest Hx') as (IHo & IHz & IHe).
  split_and!.
  - intros k. rewrite fmap_cons, not_elem_of_cons. intros [Hk Hk']. by rewrite IHo, Hother.
  - intros z' [->|Hz']%elem_of_cons; [|by apply IHz]. exists z1. rewrite IHo by done. split; [done|].
    destruct Hcase as [[-> He]|Hw]; [left|by right]. split; [done|]. intros Er.
    by apply He, Herrs, IHe.
  - intros Er. by apply Herrs, IHe.
Qed.
End zones.

(** ** Properties *)

(** The version found is, by its first two parts, the one of the last completed and verified
    update, or the desired one; an error means there is neither. *)
Theorem extractOpenShiftVersion_spec cv res :
  extractOpenShiftVersion cv = Some res ->
  exists v, current_version cv v /\
    match res with
    | inl _ => v = ""
    | inr info => v <> "" /\ exists rest, strings.Split v "." = Major info :: Minor info :: rest
    end.
Proof.
  unfold extractOpenShiftVersion. intros E.
  apply bind_Some in E as ([v last] & Hf & E).
  apply (latest_scanned _ []) in Hf; [|apply scanned_none; by intros ? ? ?%not_elem_of_nil].
  simpl in Hf. set (w := if bool_decide (v = "") then cv_Desired_Version cv else v) in E.
  exists w. split.
  - unfold w. inversion Hf as [Hno Hv|h t l1 l2 Hl Hd Ht H1 H2]; subst.
    + by apply current_desired.
    + clear E. case_bool_decide; [by eapply current_unnamed|by eapply current_latest].
  - case_bool_decide as Hw; [by injection E as <-|].
    destruct (strings.Split w ".") as [|a [|b rest]]; [done..|]. injection E as <-. eauto.
Qed.

(** C34: a reconciliation that succeeds has read the version of OpenShift from the cluster version,
    where it is that of the last update that was completed and verified, or else the desired one,
    and the version of Kubernetes from the API server, and both are in the features of every zone of the
    control API that has the label of this zone.  One that fails, or panics, has written the
    versions to some of these zones and nothing to the others.  The other zones, and all else in
    the zones, stay as they are. *)
Theorem zone_versions `{ApiErrors} `{MultierrLaws} json_Unmarshal r name s res s' :
  (forall k z, zs_zones s !! k = Some z -> zone_Name z = k) ->
  exec zone_step alone (ZoneK8sVersionReconciler_Reconcile json_Unmarshal r name) s res s' ->
  let labelled z := zone_Labels z !! upstreamZoneIdentifierLabelKey = Some (ZoneID r) in
  s' = s /\ res <> Returned None \/
  exists cv ocpVersion k8sVersion,
    zs_versions s !! name = Some cv /\ extractOpenShiftVersion cv = Some (inr ocpVersion) /\
    (exists v rest, current_version cv v /\ strings.Split v "." = Major ocpVersion :: Minor ocpVersion :: rest) /\
    json_Unmarshal (zs_server s) = inr k8sVersion /\
    (forall k z, zs_zones s !! k = Some z -> exists z', zs_zones s' !! k = Some z' /\
      (z' = z /\ (labelled z -> res <> Returned None) \/
       labelled z /\ versions_written k8sVersion ocpVersion z z')) /\
    (forall k, zs_zones s !! k = None -> zs_zones s' !! k = None).
Proof.
  intros Hnamed (got & s1 & Hg & Hx)%alone_trigger labelled.
  destruct Hg as [cv Hcv|err ? ?|err ?]; [|by apply alone_ret in Hx as [-> ->]; left..].
  destruct (extractOpenShiftVersion cv) as [[err|ocp]|] eqn:Ee; [by apply alone_ret in Hx as [-> ->]; left| |
    by apply alone_ret in Hx as [-> ->]; left].
  apply alone_trigger in Hx as (body & s2 & Hb & Hx).
  destruct Hb as [|err]; [|by apply alone_ret in Hx as [-> ->]; left].
  destruct (json_Unmarshal (zs_server s)) as [err|k8s] eqn:Ej; [by apply alone_ret in Hx as [-> ->]; left|].
  apply alone_trigger in Hx as (zones & s3 & Hl & Hx).
  destruct Hl as [zones Hnd Hzones|err]; [|by apply alone_ret in Hx as [-> ->]; left].
  destruct (extractOpenShiftVersion_spec cv _ Ee) as (v & Hv & _ & rest & Hrest).
  right. exists cv, ocp, k8s. split_and!; [done|done|by exists v, rest|done| |].
  all: apply update_zones_exec in Hx as (Hother & Hin & _); [|done|by intros z [? _]%Hzones].
  - intros k z Hz. pose proof (Hnamed _ _ Hz) as Hk. destruct (decide (labelled z)) as [Hl|Hl].
    + destruct (Hin z) as (z' & Hz' & Hcase).
      { apply Hzones. rewrite Hk. split; [done|]. rewrite Forall_singleton. by apply map_singleton_subseteq_l. }
      rewrite Hk in Hz'. exists z'. split; [done|]. destruct Hcase as [[-> ?]|?]; [by left|by right].
    + exists z. split; [|left; by split]. rewrite Hother; [done|].
      intros (z' & Ek & [Hz' Hm]%Hzones)%list_elem_of_fmap. rewrite <- Ek in Hz'.
      assert (z' = z) as -> by congruence. rewrite Forall_singleton in Hm.
      apply Hl. by apply map_singleton_subseteq_l in Hm.
  - intros k Hk. rewrite Hother; [done|]. intros (z' & Ek & [Hz' _]%Hzones)%list_elem_of_fmap. congruence.
Qed.

(** Reading the version panics exactly when a completed and verified update has no
    completion time, or the current version is not empty and has no dot. *)
Theorem extractOpenShiftVersion_panics cv :
  extractOpenShiftVersion cv = None <->
  (exists h, h ∈ cv_History cv /\ h_State h = "Completed" /\ h_Verified h = true /\
     h_CompletionTime h = None) \/
  exists v last, foldl latest_step (Some ("", 0%Z)) (cv_History cv) = Some (v, last) /\
    let current := if bool_decide (v = "") then cv_Desired_Version cv else v in
    current <> "" /\ strings.ContainsRune current "." = false.
Proof.
  unfold extractOpenShiftVersion. rewrite <- (latest_panics _ ("", 0%Z)).
  destruct (foldl _ _ _) as [[v last]|]; simpl; [|tauto].
  set (w := if bool_decide (v = "") then cv_Desired_Version cv else v). split.
  - intros E. right. exists v, last. split; [done|]. fold w. case_bool_decide as Hw; [done|].
    split; [done|]. destruct (strings.ContainsRune w ".") eqn:Ec; [|done].
    destruct (Split_two w "." Ec) as (a & b & rest & Hs). rewrite Hs in E. done.
  - intros [?|(v' & last' & [= <- <-] & Hw & Hc)]; [done|]. fold w in Hw, Hc.
    by rewrite bool_decide_eq_false_2, Split_single.
Qed.

Lemma extractOpenShiftVersion_spec_witness :
  extractOpenShiftVersion zv_cluster = Some (inr {| Major := "4"; Minor := "15" |}) /\
  exists v, current_version zv_cluster v /\ v <> "".
Proof.
  assert (E : extractOpenShiftVersion zv_cluster = Some (inr {| Major := "4"; Minor := "15" |}))
    by (by vm_compute).
  split; [exact E|]. destruct (extractOpenShiftVersion_spec zv_cluster _ E) as (v & Hv & Hn & _).
  eauto.
Defined.

(** One zone with the label. *)
Import Fake.

Definition zv_zone (features : gmap string string) (version : nat) : Zone := {|
  zone_Name := "lpg"; zone_Labels := {[upstreamZoneIdentifierLabelKey := "z1"]};
  zone_Features := Some features; zone_Version := version |}.

Definition zv_state (zone : Zone) : zone_state := {|
  zs_versions := {["version" := zv_cluster]}; zs_server := "{}"; zs_zones := <["lpg" := zone]> ∅ |}.

Definition zv_unmarshal (body : string) : error + VersionInfo := inr {| Major := "1"; Minor := "28" |}.

Definition zv_features : gmap string string :=
  {[openshiftVersionFeatureKey := "4.15"; kubernetesVersionFeatureKey := "1.28"]}.

Lemma zv_run :
  exec zone_step alone (ZoneK8sVersionReconciler_Reconcile zv_unmarshal {| ZoneID := "z1" |} "version")
    (zv_state (zv_zone ∅ 0)) (Returned None) (zv_state (zv_zone zv_features 1)).
Proof.
  apply alone_trigger. eexists (inr zv_cluster), _. split; [by apply (read_found _ _ _ zv_cluster); vm_compute|].
  apply alone_trigger. eexists (inr "{}"), _. split; [apply server_answers|].
  apply alone_trigger. eexists (inr [zv_zone ∅ 0]), _. split.
  - apply zones_listed; [apply NoDup_singleton|]. intros z. rewrite list_elem_of_singleton, Forall_singleton.
    cbn [zv_state zs_zones]. split.
    + intros ->. by split; [vm_compute|apply map_singleton_subseteq_l].
    + intros [Hz _]. apply lookup_insert_Some in Hz as [[_ ->]|[_ Hz]]; [done|]. by rewrite lookup_empty in Hz.
  - apply alone_trigger. eexists None, _. split; [|by apply alone_ret].
    refine (zone_updated (with_features zv_features (zv_zone ∅ 0)) (zv_state (zv_zone ∅ 0)) (zv_zone ∅ 0) _ _);
      by vm_compute.
Qed.

Lemma zone_versions_witness :
  exists z', zs_zones (zv_state (zv_zone zv_features 1)) !! "lpg" = Some z' /\
    versions_written {| Major := "1"; Minor := "28" |} {| Major := "4"; Minor := "15" |} (zv_zone ∅ 0) z'.
Proof.
  destruct (zone_versions zv_unmarshal {| ZoneID := "z1" |} "version" (zv_state (zv_zone ∅ 0)) (Returned None)
    (zv_state (zv_zone zv_features 1))) as [[_ ?]|(cv & ocp & k8s & Hcv & Ho & _ & [= <-] & Hz & _)]; [|exact zv_run|done|].
  - intros k z. cbn [zv_state zs_zones]. intros [[<- <-]|[_ Hz]]%lookup_insert_Some; [done|]. by rewrite lookup_empty in Hz.
  - assert (ocp = {| Major := "4"; Minor := "15" |}) as ->.
    { injection Hcv as <-. vm_compute in Ho. by injection Ho as <-. }
    destruct (Hz "lpg" (zv_zone ∅ 0)) as (z' & Hz' & [[_ Hl]|[_ Hw]]); [by vm_compute| |by exists z'].
    by destruct (Hl eq_refl).
Defined.
