(* ===== verification/Labels.v ===== *)
(** * Allowed labels (validate/labels.go)

    Labels are validated against pairs of anchored regular expressions.  The regular expressions
    are the standard library's and an interface here. *)
From S2P Require Import Prelude GoStd Kube Fake.

Class RegexpLib (Regexp : Type) := {
  regexp_Compile : string -> error + Regexp;
  MatchString : Regexp -> string -> bool;
  regexp_String : Regexp -> string;
}.

Record regexKV {Regexp} := { K : Regexp; V : Regexp }.
Arguments regexKV : clear implicits.
Arguments Build_regexKV {Regexp}.

Record AllowedLabels {Regexp} := { allowed : list (regexKV Regexp) }.
Arguments AllowedLabels : clear implicits.
Arguments Build_AllowedLabels {Regexp}.

Section labels.
Context `{RangeOracle} `{Multierr} `{RegexpLib Regexp}.
Implicit Types l : AllowedLabels Regexp.

Definition regexKV_String (r : regexKV Regexp) : string :=
  regexp_String (K r) +:+ "=" +:+ regexp_String (V r).

Definition anchor (s : string) : string := "^(?:" +:+ s +:+ ")$".

(** The labels after the call, and the error. *)
Definition Add l (key value : string) : AllowedLabels Regexp * option error :=
  try keyR <- regexp_Compile (anchor key) catch err => (l, Some (WrapError "invalid key: " err ""));;
  try valueR <- regexp_Compile (anchor value)
    catch err => (l, Some (WrapError "invalid value: " err ""));;
  ({| allowed := allowed l ++ [{| K := keyR; V := valueR |}] |}, None).

Definition ValidateLabel l (key value : string) : option error :=
  if existsb (fun a => MatchString (K a) key && MatchString (V a) value) (allowed l) then None
  else Some (ErrorString ("label " +:+ key +:+ "=" +:+ value +:+ " is not allowed")).

Definition formatLabels l : string :=
  "{ " +:+ strings.Join (regexKV_String <$> allowed l) ", " +:+ " }".

Definition AllowedLabels_String l : string := "allowed " +:+ formatLabels l.

Definition Validate l (lbls : gmap string string) : option error :=
  let violations :=
    foldl (fun violations '(k, v) => violations ++ [ValidateLabel l k v]) [] (range_map 0 lbls) in
  match multierr_Combine violations with
  | Some err => Some (WrapError "label validation failed: " err
                        (", allowed labels: " +:+ formatLabels l))
  | None => None
  end.

(** A label is allowed by one pair. *)
Definition label_allowed l (key value : string) : Prop :=
  exists a, a ∈ allowed l /\ MatchString (K a) key = true /\ MatchString (V a) value = true.
End labels.

(** ** Example: expressions that match a text as it is *)
Definition fake_regexp : RegexpLib string := {|
  regexp_Compile := fun s => if strings.Contains s "[" then inl (ErrorString "missing closing ]") else inr s;
  MatchString := fun r s => bool_decide (r = anchor s);
  regexp_String := id;
|}.

Definition al_labels : AllowedLabels string :=
  {| allowed := [{| K := anchor "team"; V := anchor "blue" |}] |}.

(** ** Lemmas *)
Section lemmas.
Context `{RangeOracle} `{MultierrLaws} `{RegexpLib Regexp}.
Implicit Types l : AllowedLabels Regexp.

Lemma ValidateLabel_spec l key value : ValidateLabel l key value = None <-> label_allowed l key value.
Proof.
  unfold ValidateLabel, label_allowed. setoid_rewrite <- andb_true_iff. rewrite <- existsb_elem.
  by destruct (existsb _ _).
Qed.

Lemma foldl_snoc_entries {B} (f : string -> string -> B) (xs : list (string * string)) acc :
  foldl (fun acc '(k, v) => acc ++ [f k v]) acc xs = acc ++ ((fun e => f e.1 e.2) <$> xs).
Proof.
  revert acc. induction xs as [|[k v] xs IH]; intros acc; simpl; [by rewrite app_nil_r|].
  by rewrite IH, <- app_assoc.
Qed.
End lemmas.

(** ** Properties *)
Section properties.
Context `{RangeOracle} `{MultierrLaws} `{RegexpLib Regexp}.
Implicit Types l : AllowedLabels Regexp.

(** A set of labels is valid exactly when every label is matched, key and value, by one of
    the allowed pairs; the zero value allows no label. *)
Theorem Validate_spec l (lbls : gmap string string) :
  (Validate l lbls = None <-> forall k v, lbls !! k = Some v -> label_allowed l k v) /\
  (allowed l = [] -> Validate l lbls = None -> lbls = ∅).
Proof.
  assert (Hs : Validate l lbls = None <-> forall k v, lbls !! k = Some v -> label_allowed l k v).
  { unfold Validate. rewrite (foldl_snoc_entries (ValidateLabel l)), app_nil_l.
    setoid_rewrite <- ValidateLabel_spec. setoid_rewrite <- (range_map_elem 0).
    transitivity (multierr_Combine ((fun e => ValidateLabel l e.1 e.2) <$> range_map 0 lbls) = None).
    { by destruct (multierr_Combine _). }
    rewrite multierr_Combine_nil, Forall_fmap, Forall_forall. split.
    - intros Hall k v Hin. exact (Hall (k, v) Hin).
    - intros Hall [k v] Hin. by apply Hall. }
  split; [done|]. intros Hl Hv. apply map_eq. intros k. rewrite lookup_empty.
  destruct (lbls !! k) as [v|] eqn:E; [|done].
  destruct (proj1 Hs Hv k v E) as (a & Ha & _). rewrite Hl in Ha. by apply not_elem_of_nil in Ha.
Qed.

(** Adding a pair allows what it matches and nothing else, and an invalid expression changes
    nothing. *)
Theorem Add_spec l l' key value err :
  Add l key value = (l', err) ->
  (err <> None -> l' = l) /\
  (err = None -> exists keyR valueR, regexp_Compile (anchor key) = inr keyR /\
    regexp_Compile (anchor value) = inr valueR /\
    forall k v, label_allowed l' k v <->
      label_allowed l k v \/ MatchString keyR k = true /\ MatchString valueR v = true).
Proof.
  unfold Add. destruct (regexp_Compile (anchor key)) as [e|keyR]; [by intros [= <- <-]|].
  destruct (regexp_Compile (anchor value)) as [e|valueR]; [by intros [= <- <-]|].
  intros [= <- <-]. split; [done|]. intros _. exists keyR, valueR. split_and!; [done..|].
  intros k v. unfold label_allowed. simpl. setoid_rewrite elem_of_app.
  setoid_rewrite list_elem_of_singleton. split.
  - intros (a & [Ha| ->] & Hm); eauto.
  - intros [(a & Ha & Hm)|Hm]; [eauto|]. eexists. split; [by right|done].
Qed.
End properties.

(** ** The theorems on the example *)
Import Fake.
#[local] Existing Instances fake_regexp.

Lemma Validate_spec_witness :
  Validate al_labels {["team" := "blue"]} = None.
Proof.
  apply (Validate_spec al_labels). intros k v [<- <-]%lookup_singleton_Some.
  eexists. split; [left|]. split; by vm_compute.
Defined.

Lemma Add_spec_witness :
  exists l', Add al_labels "[" "blue" = (l', Some (WrapError "invalid key: "
    (ErrorString "missing closing ]") "")) /\ l' = al_labels.
Proof.
  eexists. split; [by vm_compute|].
  by apply (Add_spec al_labels _ "[" "blue" (Some (WrapError "invalid key: "
    (ErrorString "missing closing ]") "")) ltac:(by vm_compute)).
Defined.
