(* ===== verification/Config.v ===== *)
(** * The configuration of the agent (config.go)

    The configuration, its validation, the migration of the deprecated limit, and the reading of
    the file, where the file system and the YAML decoder are parameters. *)
From S2P Require Import Prelude GoStd Kube Fake Limits.

(** The field [MemoryPerCoreLimits] is nil when the file does not set it, which the migration
    tests for.  The specifications of quotas and limit ranges are only passed on. *)
Record Config {LS Quantity Dec ResourceQuotaSpec LimitRangeSpec : Type} := {
  OrganizationLabel : string;
  UserDefaultOrganizationAnnotation : string;
  QuotaOverrideNamespace : string;
  MemoryPerCoreLimit : option Quantity;
  MemoryPerCoreLimits : option (Limits LS Quantity);
  MemoryPerCoreWarnThreshold : option Dec;
  PrivilegedGroups : list string;
  PrivilegedUsers : list string;
  PrivilegedClusterRoles : list string;
  DefaultNodeSelector : gmap string string;
  DefaultNamespaceNodeSelectorAnnotation : string;
  DefaultOrganizationClusterRoles : gmap string string;
  ReservedNamespaces : list string;
  AllowedAnnotations : list string;
  AllowedLabels : list string;
  LegacyNamespaceQuota : Z;
  PodRunOnceActiveDeadlineSecondsOverrideAnnotation : string;
  PodRunOnceActiveDeadlineSecondsDefault : Z;
  LegacyResourceQuotaAnnotationBase : string;
  LegacyDefaultResourceQuotas : gmap string ResourceQuotaSpec;
  LegacyLimitRangeName : string;
  LegacyDefaultLimitRange : LimitRangeSpec;
}.
Arguments Config : clear implicits.
Arguments Build_Config {LS Quantity Dec ResourceQuotaSpec LimitRangeSpec}.

Definition set_MemoryPerCoreLimits {LS Quantity Dec RQS LRS}
    (limits : Limits LS Quantity) (c : Config LS Quantity Dec RQS LRS) : Config LS Quantity Dec RQS LRS := {|
  OrganizationLabel := OrganizationLabel c;
  UserDefaultOrganizationAnnotation := UserDefaultOrganizationAnnotation c;
  QuotaOverrideNamespace := QuotaOverrideNamespace c;
  MemoryPerCoreLimit := MemoryPerCoreLimit c;
  MemoryPerCoreLimits := Some limits;
  MemoryPerCoreWarnThreshold := MemoryPerCoreWarnThreshold c;
  PrivilegedGroups := PrivilegedGroups c;
  PrivilegedUsers := PrivilegedUsers c;
  PrivilegedClusterRoles := PrivilegedClusterRoles c;
  DefaultNodeSelector := DefaultNodeSelector c;
  DefaultNamespaceNodeSelectorAnnotation := DefaultNamespaceNodeSelectorAnnotation c;
  DefaultOrganizationClusterRoles := DefaultOrganizationClusterRoles c;
  ReservedNamespaces := ReservedNamespaces c;
  AllowedAnnotations := AllowedAnnotations c;
  AllowedLabels := AllowedLabels c;
  LegacyNamespaceQuota := LegacyNamespaceQuota c;
  PodRunOnceActiveDeadlineSecondsOverrideAnnotation :=
    PodRunOnceActiveDeadlineSecondsOverrideAnnotation c;
  PodRunOnceActiveDeadlineSecondsDefault := PodRunOnceActiveDeadlineSecondsDefault c;
  LegacyResourceQuotaAnnotationBase := LegacyResourceQuotaAnnotationBase c;
  LegacyDefaultResourceQuotas := LegacyDefaultResourceQuotas c;
  LegacyLimitRangeName := LegacyLimitRangeName c;
  LegacyDefaultLimitRange := LegacyDefaultLimitRange c;
|}.

Section config.
Context `{Multierr} {LS Quantity Dec RQS LRS : Type}.
(** the zero [metav1.LabelSelector] *)
Context (zero_selector : LS).
Implicit Types c : Config LS Quantity Dec RQS LRS.

Definition Validate c : option error :=
  let errs := if bool_decide (OrganizationLabel c = "")
              then [Some (ErrorString "OrganizationLabel must not be empty")] else [] in
  multierr_Combine errs.

Definition migrateConfig c : Config LS Quantity Dec RQS LRS * list string :=
  match MemoryPerCoreLimit c, MemoryPerCoreLimits c with
  | Some _, None =>
      (set_MemoryPerCoreLimits [{| lim_NodeSelector := zero_selector;
                                   lim_Limit := MemoryPerCoreLimit c |}] c,
       ["MemoryPerCoreLimit is deprecated and will be removed in a future version. Use MemoryPerCoreLimits: {Limit: " +:+
        strconv.Quote "XGi" +:+ "} instead."])
  | _, _ => (c, [])
  end.

(** [os.ReadFile], and [yaml.Unmarshal] with [yaml.DisallowUnknownFields]. *)
Context (os_ReadFile : string -> error + string).
Context (yaml_Unmarshal : string -> error + Config LS Quantity Dec RQS LRS).

Definition ConfigFromFile (path : string) : error + (Config LS Quantity Dec RQS LRS * list string) :=
  try raw <- os_ReadFile path catch err => inl err;;
  try conf <- yaml_Unmarshal raw catch err => inl err;;
  inr (migrateConfig conf).
End config.

Section lookup.
Context `{LabelSelectorLib LS} {Quantity Dec RQS LRS : Type} (zero_selector : LS).
Implicit Types c : Config LS Quantity Dec RQS LRS.

(** The limit in force for a node selector; a nil list has no entries. *)
Definition limit_for c (nodeSelector : gmap string string) : option Quantity :=
  GetLimitForNodeSelector (default [] (MemoryPerCoreLimits c)) nodeSelector.

(** Migration keeps limits that are configured; without them the deprecated limit becomes
    the limit of every node selector, with a warning, when the empty selector matches
    everything.  Migrating again changes nothing and warns about nothing. *)
Theorem migrateConfig_limits c :
  (exists sel, LabelSelectorAsSelector zero_selector = inr sel /\ forall ns, sel ns = true) ->
  (forall ns, limit_for (migrateConfig zero_selector c).1 ns =
    match MemoryPerCoreLimits c with
    | Some _ => limit_for c ns
    | None => MemoryPerCoreLimit c
    end) /\
  ((migrateConfig zero_selector c).2 = [] <->
    MemoryPerCoreLimit c = None \/ MemoryPerCoreLimits c <> None) /\
  migrateConfig zero_selector (migrateConfig zero_selector c).1 = ((migrateConfig zero_selector c).1, []).
Proof.
  intros (sel & Hsel & Hall). unfold migrateConfig, limit_for.
  destruct (MemoryPerCoreLimit c) as [q|] eqn:Eq, (MemoryPerCoreLimits c) as [l|] eqn:El;
    simpl; rewrite ?Eq, ?El; simpl; split_and!; try done.
  - split; [intros _; by right|done].
  - intros ns. by rewrite Hsel, Hall.
  - split; [done|]. by intros [].
  - split; [intros _; by left|done].
  - split; [intros _; by left|done].
Qed.
End lookup.

(** ** The theorem on an example: a configuration with the deprecated limit only *)
Definition cf_old : Config (gmap string string) Z unit unit unit := {|
  OrganizationLabel := "organization"; UserDefaultOrganizationAnnotation := "";
  QuotaOverrideNamespace := ""; MemoryPerCoreLimit := Some 4%Z; MemoryPerCoreLimits := None;
  MemoryPerCoreWarnThreshold := None; PrivilegedGroups := []; PrivilegedUsers := [];
  PrivilegedClusterRoles := []; DefaultNodeSelector := ∅;
  DefaultNamespaceNodeSelectorAnnotation := ""; DefaultOrganizationClusterRoles := ∅;
  ReservedNamespaces := []; AllowedAnnotations := []; AllowedLabels := [];
  LegacyNamespaceQuota := 0; PodRunOnceActiveDeadlineSecondsOverrideAnnotation := "";
  PodRunOnceActiveDeadlineSecondsDefault := 0; LegacyResourceQuotaAnnotationBase := "";
  LegacyDefaultResourceQuotas := ∅; LegacyLimitRangeName := ""; LegacyDefaultLimitRange := tt |}.

#[local] Instance cf_selectors : LabelSelectorLib (gmap string string) := fun m =>
  inr (fun m' => bool_decide (m ⊆ m')).

Lemma migrateConfig_limits_witness :
  limit_for (migrateConfig ∅ cf_old).1 {["class" := "plus"]} = Some 4%Z.
Proof.
  refine (proj1 (migrateConfig_limits ∅ cf_old _) _).
  eexists. split; [reflexivity|]. intros ns. apply bool_decide_eq_true, map_empty_subseteq.
Defined.
