(* ===== verification/Shutdown.v ===== *)
(** * Running and stopping (the end of main.go)

    When everything is set up, the agent runs the connection to the control API and the manager in
    two goroutines, which share a context, and waits for a value from each. *)
From S2P Require Import Prelude GoStd Kube Fake.

(** What a goroutine does: its [Start] runs, has returned and is to be sent, has been sent and the
    context is to be cancelled, or the goroutine has ended. *)
Inductive goroutine := Running | Returned (err : option error) | Sent | Ended.

Record agent := {
  ag_cluster : goroutine;               (** runs [controlAPICluster.Start] *)
  ag_manager : goroutine;               (** runs [mgr.Start] *)
  ag_cancelled : bool;                  (** the context *)
  ag_received : list (option error);    (** by the main goroutine, over the channel *)
  ag_exit : option Z;                   (** the exit code of the process *)
}.

Definition started_agent : agent := {|
  ag_cluster := Running; ag_manager := Running; ag_cancelled := false; ag_received := [];
  ag_exit := None |}.

(** The steps of a goroutine.  The channel has no buffer: a value is sent when the main goroutine
    takes it. *)
Inductive goroutine_step (received : list (option error)) (cancelled : bool)
    : goroutine -> goroutine -> list (option error) -> bool -> Prop :=
| start_returns err : goroutine_step received cancelled Running (Returned err) received cancelled
| value_sent err : length received < 2 ->
    goroutine_step received cancelled (Returned err) Sent (received ++ [err]) cancelled
| cancel_called : goroutine_step received cancelled Sent Ended received true.

Section agent.
Context `{Multierr}.

(** The main goroutine, when it has both values. *)
Definition exit_code (received : list (option error)) : Z :=
  match multierr_Combine received with Some _ => 1 | None => 0 end.

(** The steps of the process until it exits; a signal cancels the context. *)
Inductive agent_step (s : agent) : agent -> Prop :=
| cluster_step g received cancelled :
    ag_exit s = None ->
    goroutine_step (ag_received s) (ag_cancelled s) (ag_cluster s) g received cancelled ->
    agent_step s {| ag_cluster := g; ag_manager := ag_manager s; ag_cancelled := cancelled;
                    ag_received := received; ag_exit := None |}
| manager_step g received cancelled :
    ag_exit s = None ->
    goroutine_step (ag_received s) (ag_cancelled s) (ag_manager s) g received cancelled ->
    agent_step s {| ag_cluster := ag_cluster s; ag_manager := g; ag_cancelled := cancelled;
                    ag_received := received; ag_exit := None |}
| signal_received :
    ag_exit s = None -> ag_cancelled s = false ->
    agent_step s {| ag_cluster := ag_cluster s; ag_manager := ag_manager s; ag_cancelled := true;
                    ag_received := ag_received s; ag_exit := None |}
| main_exits :
    ag_exit s = None -> length (ag_received s) = 2 ->
    agent_step s {| ag_cluster := ag_cluster s; ag_manager := ag_manager s;
                    ag_cancelled := ag_cancelled s; ag_received := ag_received s;
                    ag_exit := Some (exit_code (ag_received s)) |}.

(** A step that depends on the libraries or the operating system only: a [Start] that returns, or a
    signal. *)
Definition outside_step (s s' : agent) : Prop :=
  ag_received s' = ag_received s /\ ag_exit s' = ag_exit s /\
  (ag_cluster s = Running /\ ag_cluster s' <> Running /\ ag_manager s' = ag_manager s \/
   ag_manager s = Running /\ ag_manager s' <> Running /\ ag_cluster s' = ag_cluster s \/
   ag_cluster s' = ag_cluster s /\ ag_manager s' = ag_manager s).

(** ** The invariant and the measure *)
Definition sent (g : goroutine) : nat := match g with Sent | Ended => 1 | _ => 0 end.

Record agent_ok (s : agent) : Prop := {
  ok_received : length (ag_received s) = sent (ag_cluster s) + sent (ag_manager s);
  ok_cancelled : ag_cluster s = Ended \/ ag_manager s = Ended -> ag_cancelled s = true;
  ok_exit code : ag_exit s = Some code ->
    length (ag_received s) = 2 /\ code = exit_code (ag_received s);
}.

Definition goroutine_rank (g : goroutine) : nat :=
  match g with Running => 3 | Returned _ => 2 | Sent => 1 | Ended => 0 end.

Definition agent_rank (s : agent) : nat :=
  goroutine_rank (ag_cluster s) + goroutine_rank (ag_manager s) +
  (if ag_cancelled s then 0 else 1) + (if ag_exit s is Some _ then 0 else 1).

Lemma goroutine_step_rank received cancelled g g' received' cancelled' :
  goroutine_step received cancelled g g' received' cancelled' ->
  goroutine_rank g' < goroutine_rank g /\ (cancelled = true -> cancelled' = true) /\
  length received' + sent g = length received + sent g' /\
  (g' = Ended -> cancelled' = true) /\ g <> Ended.
Proof. intros []; rewrite ?length_app; simpl; split_and!; try done; lia. Qed.

Lemma agent_step_rank s s' : agent_step s s' -> agent_rank s' < agent_rank s.
Proof.
  unfold agent_rank. intros [g r c He Hg|g r c He Hg|He Hc|He Hr]; simpl; rewrite ?He, ?Hc.
  - apply goroutine_step_rank in Hg as (Hr & Hc & _).
    destruct (ag_cancelled s); [rewrite Hc by done|destruct c]; lia.
  - apply goroutine_step_rank in Hg as (Hr & Hc & _).
    destruct (ag_cancelled s); [rewrite Hc by done|destruct c]; lia.
  - lia.
  - lia.
Qed.

Lemma agent_step_ok s s' : agent_step s s' -> agent_ok s -> agent_ok s'.
Proof.
  intros [g r c He Hg|g r c He Hg|He Hc|He Hr] [Hrec Hcan Hexit].
  - apply goroutine_step_rank in Hg as (_ & Hc & Hl & Hend & _).
    split; simpl; [lia| |done]. intros [?|Hm]; [by apply Hend|]. apply Hc, Hcan. by right.
  - apply goroutine_step_rank in Hg as (_ & Hc & Hl & Hend & _).
    split; simpl; [lia| |done]. intros [Hm|?]; [|by apply Hend]. apply Hc, Hcan. by left.
  - by split.
  - split; simpl; [done|done|]. by intros code [= <-].
Qed.

Lemma agent_reachable_ok s : rtc agent_step started_agent s -> agent_ok s.
Proof.
  intros Hr. assert (agent_ok started_agent) as Hs by (split; simpl; [done|by intros []|done]).
  revert Hs. induction Hr; eauto using agent_step_ok.
Qed.

Lemma agent_steps_rank n s s' : nsteps agent_step n s s' -> n + agent_rank s' <= agent_rank s.
Proof. induction 1 as [|n s1 s2 s3 Hr%agent_step_rank _ IH]; lia. Qed.

(** A goroutine of which only outside steps are possible is running or has ended. *)
Lemma cluster_waits s :
  agent_ok s -> ag_exit s = None -> (forall s', agent_step s s' -> outside_step s s') ->
  ag_cluster s = Running \/ ag_cluster s = Ended.
Proof.
  intros [Hrec _ _] He Hno.
  assert (Hg : forall g r c, goroutine_step (ag_received s) (ag_cancelled s) (ag_cluster s) g r c ->
    ag_cluster s = Running).
  { intros g r c Hg. destruct (Hno _ (cluster_step s g r c He Hg)) as (_ & _ & Ho). simpl in Ho.
    apply goroutine_step_rank in Hg as [Hg _].
    destruct Ho as [[? _]|[(Hm & Hn & _)|[-> _]]]; [done|by destruct Hn|lia]. }
  destruct (ag_cluster s) as [|err| |]; [by left| |left; eapply Hg; apply cancel_called|by right].
  left. eapply Hg, value_sent. rewrite Hrec. simpl. destruct (ag_manager s); simpl; lia.
Qed.

Lemma manager_waits s :
  agent_ok s -> ag_exit s = None -> (forall s', agent_step s s' -> outside_step s s') ->
  ag_manager s = Running \/ ag_manager s = Ended.
Proof.
  intros [Hrec _ _] He Hno.
  assert (Hg : forall g r c, goroutine_step (ag_received s) (ag_cancelled s) (ag_manager s) g r c ->
    ag_manager s = Running).
  { intros g r c Hg. destruct (Hno _ (manager_step s g r c He Hg)) as (_ & _ & Ho). simpl in Ho.
    apply goroutine_step_rank in Hg as [Hg _].
    destruct Ho as [(Hm & Hn & _)|[[? _]|[_ ->]]]; [by destruct Hn|done|lia]. }
  destruct (ag_manager s) as [|err| |]; [by left| |left; eapply Hg; apply cancel_called|by right].
  left. eapply Hg, value_sent. rewrite Hrec. simpl. destruct (ag_cluster s); simpl; lia.
Qed.
End agent.

(** ** Properties *)
Section properties.
Context `{MultierrLaws}.

(** The process exits only when both [Start]s have returned, and with code 0 exactly when
    neither of them returned an error. *)
Theorem shutdown_exit s code :
  rtc agent_step started_agent s -> ag_exit s = Some code ->
  sent (ag_cluster s) = 1 /\ sent (ag_manager s) = 1 /\
  exists err1 err2, ag_received s = [err1; err2] /\ code = (if decide (err1 = None /\ err2 = None) then 0 else 1)%Z.
Proof.
  intros [Hrec _ Hexit]%agent_reachable_ok Hs. destruct (Hexit code Hs) as [Hl ->].
  split_and!; try (rewrite Hl in Hrec; destruct (ag_cluster s), (ag_manager s); simpl in *; lia).
  destruct (ag_received s) as [|e1 [|e2 [|]]]; try done. exists e1, e2. split; [done|].
  unfold exit_code. destruct (multierr_Combine [e1; e2]) as [e|] eqn:Ec.
  - rewrite decide_False; [done|]. intros [-> ->].
    assert (multierr_Combine [None; None] = None) by (apply multierr_Combine_nil; repeat constructor).
    congruence.
  - apply multierr_Combine_nil in Ec. inversion Ec as [|? ? H1 H2]; subst. inversion H2; subst.
    by rewrite decide_True.
Qed.

(** C37: the agent does not hang.  It takes at most eight steps; and whenever it has no step of
    its own, it has exited, or both [Start]s run, or one of them still runs and its context has
    been cancelled: when one [Start] returns, the other one is told to. *)
Theorem shutdown_terminates n s :
  nsteps agent_step n started_agent s ->
  n <= 8 /\
  ((forall s', agent_step s s' -> outside_step s s') ->
   ag_exit s <> None \/ ag_cluster s = Running /\ ag_manager s = Running \/
   (ag_cluster s = Running \/ ag_manager s = Running) /\ ag_cancelled s = true).
Proof.
  intros Hn. split.
  { pose proof (agent_steps_rank _ _ _ Hn). change (agent_rank started_agent) with 8 in *. lia. }
  intros Hno. pose proof (agent_reachable_ok s (rtc_nsteps_2 _ _ _ Hn)) as Hok.
  destruct (ag_exit s) as [code|] eqn:He; [by left|right].
  destruct (cluster_waits s Hok He Hno) as [Hc|Hc], (manager_waits s Hok He Hno) as [Hm|Hm]; [by left|..].
  - right. split; [by left|]. apply (ok_cancelled s Hok). by right.
  - right. split; [by right|]. apply (ok_cancelled s Hok). by left.
  - pose proof (ok_received s Hok) as Hl. rewrite Hc, Hm in Hl.
    destruct (Hno _ (main_exits s He Hl)) as (_ & Hx & _). simpl in Hx. congruence.
Qed.
End properties.

(** ** The theorems on an example: the connection to the control API is lost *)
Import Fake.

Definition sd_error : option error := Some (ErrorString "connection lost").

Definition sd_exited : agent := {|
  ag_cluster := Ended; ag_manager := Sent; ag_cancelled := true; ag_received := [sd_error; None];
  ag_exit := Some 1%Z |}.

Definition sd_agent (g1 g2 : goroutine) (cancelled : bool) (received : list (option error)) : agent := {|
  ag_cluster := g1; ag_manager := g2; ag_cancelled := cancelled; ag_received := received;
  ag_exit := None |}.

(** The manager still runs when the connection has been given up. *)
Definition sd_waiting : agent := sd_agent Ended Running true [sd_error].

Lemma sd_lost : nsteps agent_step 3 started_agent sd_waiting.
Proof.
  apply (nsteps_l _ _ _ (sd_agent (Returned sd_error) Running false [])).
  { apply (cluster_step started_agent); [done|]. apply start_returns. }
  apply (nsteps_l _ _ _ (sd_agent Sent Running false [sd_error])).
  { apply (cluster_step (sd_agent (Returned sd_error) Running false [])); [done|].
    apply (value_sent []). simpl. lia. }
  apply nsteps_once. apply (cluster_step (sd_agent Sent Running false [sd_error])); [done|].
  apply cancel_called.
Qed.

Lemma sd_run : rtc agent_step started_agent sd_exited.
Proof.
  etrans; [exact (rtc_nsteps_2 _ _ _ sd_lost)|].
  apply rtc_l with (sd_agent Ended (Returned None) true [sd_error]).
  { apply (manager_step sd_waiting); [done|]. apply start_returns. }
  apply rtc_l with (sd_agent Ended Sent true [sd_error; None]).
  { apply (manager_step (sd_agent Ended (Returned None) true [sd_error])); [done|].
    apply (value_sent [sd_error]). simpl. lia. }
  apply rtc_once. exact (main_exits (sd_agent Ended Sent true [sd_error; None]) eq_refl eq_refl).
Qed.

Lemma shutdown_exit_witness : sent (ag_cluster sd_exited) = 1 /\ sent (ag_manager sd_exited) = 1.
Proof.
  destruct (shutdown_exit sd_exited 1 sd_run eq_refl) as (Hc & Hm & _).
  split; [exact Hc|exact Hm].
Defined.

Lemma shutdown_terminates_witness :
  ag_cluster sd_waiting = Running /\ ag_manager sd_waiting = Running \/
  (ag_cluster sd_waiting = Running \/ ag_manager sd_waiting = Running) /\ ag_cancelled sd_waiting = true.
Proof.
  destruct (shutdown_terminates 3 sd_waiting sd_lost) as [_ Hw].
  destruct Hw as [Hx|Hw]; [|by destruct Hx|exact Hw].
  intros s' Hs. destruct Hs as [g r c _ Hg|g r c _ Hg|_ Hc|_ Hl]; [| |discriminate Hc|discriminate Hl].
  - inversion Hg.
  - inversion Hg; subst. split; [done|]. split; [done|]. right. left. done.
Defined.
