(* ===== verification/CommandLine.v ===== *)
(** * The command line (main.go)

    The flags that [main] declares, and how the package [flag] of Go's standard library parses the
    arguments: what each flag is in the end, or why the agent ends before it starts. *)
From S2P Require Import Prelude GoStd.

(** ** The variables of [main] *)
Record Flags := {
  metricsAddr : string;
  enableLeaderElection : bool;
  probeAddr : string;
  webhookCertDir : string;
  webhookPort : Z;
  configFilePath : string;
  controlAPIKubeconfig : string;
  controlAPIURL : string;
  upstreamZoneIdentifier : string;
  selectedUsageProfile : string;
  cloudscaleLoadbalancerValidationEnabled : bool;
  namespaceProjectOrganizationMutatorEnabled : bool;
  namespaceMetadataValidatorEnabled : bool;
  legacyNamespaceQuotaEnabled : bool;
  legacyResourceQuotaEnabled : bool;
  podRunOnceActiveDeadlineSecondsMutatorEnabled : bool;
  qps : Z;
  burst : Z;
  disableUserAttributeSync : bool;
  disableGroupSync : bool;
  disableUsageProfiles : bool;
}.

(** ** The package [flag] *)
Inductive flag_value := StringValue (s : string) | BoolValue (b : bool) | IntValue (n : Z).

Abbreviation flag_values := (gmap string flag_value).

Definition IsBoolFlag (v : flag_value) : bool := match v with BoolValue _ => true | _ => false end.

Definition errParse : error := ErrorVar "errParse" "parse error".
Definition errRange : error := ErrorVar "errRange" "value out of range".

(** [numError]. *)
Definition numError (err : error) : error :=
  match err with
  | NumError _ _ ErrSyntax => errParse
  | NumError _ _ ErrRange => errRange
  | _ => err
  end.

(** The method [Set] of a value. *)
Definition flag_Set (v : flag_value) (s : string) : error + flag_value :=
  match v with
  | StringValue _ => inr (StringValue s)
  | BoolValue _ => try b <- strconv.ParseBool s catch err => inl errParse;; inr (BoolValue b)
  | IntValue _ => try n <- strconv.ParseInt0 s catch err => inl (numError err);; inr (IntValue n)
  end.

(** How parsing ends: the process exits with the code after a message, or goes on with the values
    and the arguments that are not flags. *)
Inductive parsed := ExitCode (code : Z) (message : string) | Parsed (values : flag_values) (rest : list string).

(** The name of a flag, and the value after the first equals sign, which cannot be the first
    character. *)
Definition name_and_value (arg : string) : string * option string :=
  match arg with
  | "" => ("", None)
  | String c arg' =>
      let '(before, after, found) := strings.Cut arg' "=" in
      (String c before, if found then Some after else None)
  end.

(** The text of an argument without its one or two minus signs; [None] if it is not a flag. *)
Definition flag_text (arg : string) : option string :=
  match arg with
  | String "-" (String "-" name) => Some name
  | String "-" (String c name) => Some (String c name)
  | _ => None
  end.

Definition bad_syntax (name : string) : bool :=
  match name with "" | String "-" _ | String "=" _ => true | _ => false end.

Section parse.
(** The flags that libraries declare on the command line: whether there is one of the name, whether
    it is boolean, and what its [Set] returns. *)
Context (library_flag : string -> option bool) (library_Set : string -> string -> option error).

(** [f.failf], with the policy of the command line. *)
Definition failf (message : string) : parsed := ExitCode 2 message.

(** One flag is set; the continuation parses the rest. *)
Definition set_flag (values : flag_values) (name value : string) (k : flag_values -> parsed) : parsed :=
  match values !! name with
  | Some v =>
      try v' <- flag_Set v value catch err =>
        failf ((if IsBoolFlag v then "invalid boolean value " +:+ strconv.Quote value +:+ " for -"
                else "invalid value " +:+ strconv.Quote value +:+ " for flag -") +:+
               name +:+ ": " +:+ errors.Error err);;
      k (<[name := v']> values)
  | None =>
      match library_Set name value with
      | Some err => failf ("invalid value " +:+ strconv.Quote value +:+ " for flag -" +:+ name +:+
                           ": " +:+ errors.Error err)
      | None => k values
      end
  end.

(** [FlagSet.Parse]: [parseOne] until it stops. *)
Fixpoint flag_Parse (values : flag_values) (args : list string) : parsed :=
  match args with
  | [] => Parsed values []
  | arg :: rest =>
      match flag_text arg with
      | None => Parsed values args
      | Some text =>
          if bool_decide (arg = "--") then Parsed values rest else
          if bad_syntax text then failf ("bad flag syntax: " +:+ arg) else
          let '(name, value) := name_and_value text in
          match (IsBoolFlag <$> values !! name) ∪ library_flag name with
          | None =>
              if bool_decide (name = "help" \/ name = "h") then ExitCode 0 "usage"
              else failf ("flag provided but not defined: -" +:+ name)
          | Some true =>
              set_flag values name (default "true" value) (fun values => flag_Parse values rest)
          | Some false =>
              match value, rest with
              | Some value, _ => set_flag values name value (fun values => flag_Parse values rest)
              | None, value :: rest => set_flag values name value (fun values => flag_Parse values rest)
              | None, [] => failf ("flag needs an argument: -" +:+ name)
              end
          end
      end
  end.
End parse.

(** ** The flags of the agent, with their defaults *)
Definition CommandLine : list (string * flag_value) := [
  ("metrics-bind-address", StringValue ":8080");
  ("leader-elect", BoolValue false);
  ("health-probe-bind-address", StringValue ":8082");
  ("webhook-cert-dir", StringValue "");
  ("webhook-port", IntValue 9443);
  ("config-file", StringValue "./config.yaml");
  ("kubeconfig-control-api", StringValue "kubeconfig-control-api");
  ("control-api-url", StringValue "");
  ("upstream-zone-identifier", StringValue "");
  ("usage-profile", StringValue "");
  ("cloudscale-loadbalancer-validation-enabled", BoolValue false);
  ("namespace-project-organization-mutator-enabled", BoolValue false);
  ("namespace-metadata-validator-enabled", BoolValue false);
  ("legacy-namespace-quota-enabled", BoolValue false);
  ("legacy-resource-quota-enabled", BoolValue false);
  ("pod-run-once-active-deadline-seconds-mutator-enabled", BoolValue false);
  ("qps", IntValue 20);
  ("burst", IntValue 100);
  ("disable-user-attribute-sync", BoolValue false);
  ("disable-group-sync", BoolValue false);
  ("disable-usage-profiles", BoolValue false)].

Definition default_values : flag_values := list_to_map CommandLine.

Definition string_of (m : flag_values) (name : string) : string :=
  match m !! name with Some (StringValue s) => s | _ => "" end.
Definition bool_of (m : flag_values) (name : string) : bool :=
  match m !! name with Some (BoolValue b) => b | _ => false end.
Definition int_of (m : flag_values) (name : string) : Z :=
  match m !! name with Some (IntValue n) => n | _ => 0%Z end.

(** The variables after parsing. *)
Definition flags_of (m : flag_values) : Flags := {|
  metricsAddr := string_of m "metrics-bind-address";
  enableLeaderElection := bool_of m "leader-elect";
  probeAddr := string_of m "health-probe-bind-address";
  webhookCertDir := string_of m "webhook-cert-dir";
  webhookPort := int_of m "webhook-port";
  configFilePath := string_of m "config-file";
  controlAPIKubeconfig := string_of m "kubeconfig-control-api";
  controlAPIURL := string_of m "control-api-url";
  upstreamZoneIdentifier := string_of m "upstream-zone-identifier";
  selectedUsageProfile := string_of m "usage-profile";
  cloudscaleLoadbalancerValidationEnabled := bool_of m "cloudscale-loadbalancer-validation-enabled";
  namespaceProjectOrganizationMutatorEnabled := bool_of m "namespace-project-organization-mutator-enabled";
  namespaceMetadataValidatorEnabled := bool_of m "namespace-metadata-validator-enabled";
  legacyNamespaceQuotaEnabled := bool_of m "legacy-namespace-quota-enabled";
  legacyResourceQuotaEnabled := bool_of m "legacy-resource-quota-enabled";
  podRunOnceActiveDeadlineSecondsMutatorEnabled :=
    bool_of m "pod-run-once-active-deadline-seconds-mutator-enabled";
  qps := int_of m "qps";
  burst := int_of m "burst";
  disableUserAttributeSync := bool_of m "disable-user-attribute-sync";
  disableGroupSync := bool_of m "disable-group-sync";
  disableUsageProfiles := bool_of m "disable-usage-profiles";
|}.

(** ** Specification *)

(** The arguments that ask for given flags. *)
Definition value_text (v : flag_value) : string :=
  match v with
  | StringValue s => s
  | BoolValue b => if b then "true" else "false"
  | IntValue n => pretty n
  end.

Definition argument (entry : string * flag_value) : string :=
  "-" +:+ entry.1 +:+ "=" +:+ value_text entry.2.

Definition values_of (fl : Flags) : list (string * flag_value) := [
  ("metrics-bind-address", StringValue (metricsAddr fl));
  ("leader-elect", BoolValue (enableLeaderElection fl));
  ("health-probe-bind-address", StringValue (probeAddr fl));
  ("webhook-cert-dir", StringValue (webhookCertDir fl));
  ("webhook-port", IntValue (webhookPort fl));
  ("config-file", StringValue (configFilePath fl));
  ("kubeconfig-control-api", StringValue (controlAPIKubeconfig fl));
  ("control-api-url", StringValue (controlAPIURL fl));
  ("upstream-zone-identifier", StringValue (upstreamZoneIdentifier fl));
  ("usage-profile", StringValue (selectedUsageProfile fl));
  ("cloudscale-loadbalancer-validation-enabled", BoolValue (cloudscaleLoadbalancerValidationEnabled fl));
  ("namespace-project-organization-mutator-enabled",
    BoolValue (namespaceProjectOrganizationMutatorEnabled fl));
  ("namespace-metadata-validator-enabled", BoolValue (namespaceMetadataValidatorEnabled fl));
  ("legacy-namespace-quota-enabled", BoolValue (legacyNamespaceQuotaEnabled fl));
  ("legacy-resource-quota-enabled", BoolValue (legacyResourceQuotaEnabled fl));
  ("pod-run-once-active-deadline-seconds-mutator-enabled",
    BoolValue (podRunOnceActiveDeadlineSecondsMutatorEnabled fl));
  ("qps", IntValue (qps fl));
  ("burst", IntValue (burst fl));
  ("disable-user-attribute-sync", BoolValue (disableUserAttributeSync fl));
  ("disable-group-sync", BoolValue (disableGroupSync fl));
  ("disable-usage-profiles", BoolValue (disableUsageProfiles fl))].

Definition is_int (n : Z) : Prop := (strconv.min_int <= n <= strconv.max_int)%Z.

(** The argument sets the flag [name], or is taken for its name. *)
Definition names (name arg : string) : Prop :=
  exists text, flag_text arg = Some text /\ (name_and_value text).1 = name.

(** ** Lemmas *)
Definition proper_name (name : string) : bool :=
  match name with
  | "" => false
  | String c name' =>
      negb (bool_decide (c = "-"%char)) && negb (bool_decide (c = "="%char)) &&
      negb (strings.ContainsRune name' "=")
  end.

Definition same_kind (v v' : flag_value) : Prop :=
  match v, v' with
  | StringValue _, StringValue _ | BoolValue _, BoolValue _ => True
  | IntValue _, IntValue n => is_int n
  | _, _ => False
  end.

Lemma flag_text_plain c s : c <> "-"%char -> flag_text (String "-" (String c s)) = Some (String c s).
Proof. intros Hc. destruct c as [[] [] [] [] [] [] [] []]; done. Qed.

Lemma bad_syntax_plain c s : c <> "-"%char -> c <> "="%char -> bad_syntax (String c s) = false.
Proof. intros H1 H2. destruct c as [[] [] [] [] [] [] [] []]; done. Qed.

Lemma proper_argument name v :
  proper_name name = true ->
  flag_text (argument (name, v)) = Some (name +:+ "=" +:+ value_text v) /\
  argument (name, v) <> "--" /\ bad_syntax (name +:+ "=" +:+ value_text v) = false /\
  name_and_value (name +:+ "=" +:+ value_text v) = (name, Some (value_text v)).
Proof.
  destruct name as [|c name]; [done|]. cbn [proper_name].
  intros [[Hm%negb_true_iff%bool_decide_eq_false He%negb_true_iff%bool_decide_eq_false]%andb_true_iff
    Hn%negb_true_iff]%andb_true_iff.
  unfold argument. cbn [fst snd]. rewrite !string_app_cons. change ("" +:+ ?s) with s.
  rewrite ?string_app_nil_l. split_and!.
  - by apply flag_text_plain.
  - by intros [= ? _].
  - by apply bad_syntax_plain.
  - cbn [name_and_value]. by rewrite (Cut_app_char name _ "="%char).
Qed.

Lemma flag_Set_text v v' : same_kind v v' -> flag_Set v (value_text v') = inr v'.
Proof.
  destruct v, v'; simpl; try done.
  - by destruct b0.
  - intros Hn. by rewrite ParseInt0_pretty.
Qed.

Section parsing.
Context (library_flag : string -> option bool) (library_Set : string -> string -> option error).

Abbreviation Parse := (flag_Parse library_flag library_Set).

Lemma parse_argument values name v v' rest :
  proper_name name = true -> values !! name = Some v -> same_kind v v' ->
  Parse values (argument (name, v') :: rest) = Parse (<[name := v']> values) rest.
Proof.
  intros Hp Hv Hk. destruct (proper_argument name v' Hp) as (Ht & Hd & Hb & Hn). cbn [flag_Parse].
  rewrite Ht, (bool_decide_eq_false_2 _ Hd), Hb, Hn, Hv. cbn [fmap option_fmap option_map].
  assert (Some (IsBoolFlag v) ∪ library_flag name = Some (IsBoolFlag v)) as ->
    by (by destruct (library_flag name)).
  unfold set_flag. rewrite Hv. destruct (IsBoolFlag v); simpl; by rewrite flag_Set_text.
Qed.

(** The arguments for known flags, one after the other. *)
Lemma parse_arguments l values rest :
  Forall (fun '(name, v) => proper_name name = true /\ exists v0, values !! name = Some v0 /\ same_kind v0 v) l ->
  Parse values ((argument <$> l) ++ rest) = Parse (foldl (fun m '(name, v) => <[name := v]> m) values l) rest.
Proof.
  revert values. induction l as [|[name v] l IH]; intros values Hl; [done|].
  apply Forall_cons in Hl as [(Hp & v0 & Hv0 & Hk) Hl]. rewrite fmap_cons. cbn [app].
  rewrite (parse_argument values name v0 v) by done. apply IH.
  apply Forall_forall. intros [name' v'] Hin. rewrite Forall_forall in Hl.
  destruct (Hl _ Hin) as (Hp' & v1 & Hv1 & Hk'). split; [done|].
  destruct (decide (name = name')) as [<-|Hne]; [|exists v1; by rewrite lookup_insert_ne].
  exists v. rewrite lookup_insert_eq. split; [done|]. assert (v1 = v0) as -> by congruence.
  by destruct v0, v, v'.
Qed.

(** What is set is one flag. *)
Lemma set_flag_cases values name value k res :
  set_flag library_Set values name value k = res ->
  (exists code message, res = ExitCode code message) \/
  exists values', k values' = res /\ forall name', name' <> name -> values' !! name' = values !! name'.
Proof.
  unfold set_flag, failf. destruct (values !! name) as [v|].
  - destruct (flag_Set v value) as [err|v']; [left; eauto|]. intros Hk. right. exists (<[name := v']> values).
    split; [done|]. intros name' Hne. by rewrite lookup_insert_ne.
  - destruct (library_Set name value); [left; eauto|right; eauto].
Qed.

Lemma parse_unnamed name args values values' rest :
  Parse values args = Parsed values' rest -> (forall arg, arg ∈ args -> ~ names name arg) ->
  values' !! name = values !! name.
Proof.
  remember (length args) as n eqn:En. revert args En values.
  induction (lt_wf n) as [n _ IH]. intros [|arg args] -> values Hp Hno; [by injection Hp as <- _|].
  cbn [flag_Parse] in Hp. destruct (flag_text arg) as [text|] eqn:Et; [|by injection Hp as <- _].
  case_bool_decide; [by injection Hp as <- _|]. destruct (bad_syntax text); [done|].
  destruct (name_and_value text) as [name' value] eqn:En.
  assert (Hne : name <> name').
  { intros ->. apply (Hno arg); [left|]. exists text. by rewrite En. }
  assert (Hgo : forall args' values1, length args' < S (length args) -> (forall a, a ∈ args' -> a ∈ args) ->
    (forall n', n' <> name' -> values1 !! n' = values !! n') -> Parse values1 args' = Parsed values' rest ->
    values' !! name = values !! name).
  { intros args' values1 Hlen Hin Hv Hp'. rewrite <- (Hv name Hne).
    apply (IH (length args') Hlen args' eq_refl values1 Hp'). intros a Ha. apply Hno. right. auto. }
  destruct ((IsBoolFlag <$> values !! name') ∪ library_flag name') as [[]|].
  - apply set_flag_cases in Hp as [(? & ? & ?)|(values1 & Hp & Hv)]; [done|].
    apply (Hgo args values1); auto with lia.
  - destruct value as [value|]; [|destruct args as [|value args]; [done|]];
      (apply set_flag_cases in Hp as [(? & ? & ?)|(values1 & Hp & Hv)]; [done|]).
    + apply (Hgo args values1); auto with lia.
    + apply (Hgo args values1); [simpl; lia|intros a Ha; by right|done..].
  - by case_bool_decide.
Qed.

(** ** Properties *)

(** C39: whatever the flags of the agent are to be, the arguments that name each flag with its value
    give the variables of [main] exactly these values: strings of any content, integers in the
    whole range of [int], and both values of boolean flags. *)
Theorem flags_roundtrip fl :
  is_int (webhookPort fl) -> is_int (qps fl) -> is_int (burst fl) ->
  exists values, Parse default_values (argument <$> values_of fl) = Parsed values [] /\ flags_of values = fl.
Proof.
  intros Hp Hq Hb.
  assert (Hl : Forall (fun '(name, v) => proper_name name = true /\
    exists v0, default_values !! name = Some v0 /\ same_kind v0 v) (values_of fl)).
  { unfold values_of. repeat (apply Forall_cons; split; [split; [by vm_compute|]|]); [..|by apply Forall_nil];
      (eexists; split; [by vm_compute|done]). }
  pose proof (parse_arguments (values_of fl) default_values [] Hl) as Hparse. rewrite app_nil_r in Hparse.
  eexists. split; [exact Hparse|]. by destruct fl.
Qed.

(** A flag that no argument names keeps its default. *)
Theorem flags_default name args values rest :
  Parse default_values args = Parsed values rest -> (forall arg, arg ∈ args -> ~ names name arg) ->
  values !! name = default_values !! name.
Proof. apply parse_unnamed. Qed.
End parsing.

(** ** The theorems on an example *)
Definition cl_flags : Flags := {|
  metricsAddr := ":8080"; enableLeaderElection := true; probeAddr := ""; webhookCertDir := "/certs";
  webhookPort := 9443; configFilePath := "a=b -- c"; controlAPIKubeconfig := "kubeconfig";
  controlAPIURL := "https://api"; upstreamZoneIdentifier := "z1"; selectedUsageProfile := "default";
  cloudscaleLoadbalancerValidationEnabled := true;
  namespaceProjectOrganizationMutatorEnabled := true; namespaceMetadataValidatorEnabled := true;
  legacyNamespaceQuotaEnabled := false; legacyResourceQuotaEnabled := false;
  podRunOnceActiveDeadlineSecondsMutatorEnabled := true; qps := -1; burst := 0;
  disableUserAttributeSync := false; disableGroupSync := false; disableUsageProfiles := false |}.

Definition no_library_flag (name : string) : option bool := None.
Definition no_library_Set (name value : string) : option error := None.

Lemma flags_roundtrip_witness :
  exists values, flag_Parse no_library_flag no_library_Set default_values (argument <$> values_of cl_flags) =
    Parsed values [] /\ flags_of values = cl_flags.
Proof. by apply (flags_roundtrip no_library_flag no_library_Set cl_flags). Defined.

(** Other ways to write flags, and ways in which parsing ends. *)
Example parse_forms :
  flags_of <$> (match flag_Parse no_library_flag no_library_Set default_values
    ["--leader-elect"; "-webhook-port"; "0x24_E3"; "--usage-profile=default"; "-qps=017"; "--"; "-burst=1"] with
    | Parsed values ["-burst=1"] => Some values | _ => None end) =
  Some (flags_of (<["leader-elect" := BoolValue true]> (<["webhook-port" := IntValue 9443]>
    (<["usage-profile" := StringValue "default"]> (<["qps" := IntValue 15]> default_values))))).
Proof. by vm_compute. Qed.

Example parse_fails :
  (fun args => match flag_Parse no_library_flag no_library_Set default_values args with
               | ExitCode code _ => code | Parsed _ _ => (-1)%Z end) <$>
    [["-h"]; ["-zone=z1"]; ["-qps=1_"]; ["-qps=9223372036854775808"]; ["-leader-elect=yes"]; ["-burst"]; ["-=x"];
     ["-leader-elect"; "yes"; "-zone=z1"]] = [0; 2; 2; 2; 2; 2; 2; (-1)]%Z.
Proof. by vm_compute. Qed.
