(* ===== verification/Main.v ===== *)
(** * The agent as a whole (main.go, whoami/whoami.go, controllers/clustersource/clustersource.go)

    The start of the agent: the checks after which it exits, the controllers it sets up and the
    webhooks it registers, each with the skipper and the part of the configuration it is given;
    and what the parts guarantee together. *)
From S2P Require Import Prelude GoStd Kube Fake Skipper Api Webhook NamespaceQuota.
From S2P Require Import ProjectOrganization NamespaceMetadata ReservedObjects PodMutators Quantity.
From S2P Require Import Ratio Limits RatioValidator Effects GroupSync OrgRBAC UserSync.
From S2P Require Import Transformers UsageProfile LegacyQuota ZoneVersion Config CommandLine.

(** ** [whoami.go] *)
Section whoami.
(** [authenticationv1cli.NewForConfigAndClient], and [Create] of a self subject review. *)
Context (NewForConfigAndClient : option error) (SelfSubjectReviews_Create : error + UserInfo).

Definition WhoamiForConfigAndClient : option error :=
  match NewForConfigAndClient with
  | Some err => Some (WrapError "error while creating self subject review client: " err "")
  | None => None
  end.

Definition Whoami : error + UserInfo :=
  try ssr <- SelfSubjectReviews_Create catch err =>
    inl (WrapError "error while creating self subject review: " err "");;
  inr ssr.
End whoami.

(** ** [clustersource.go] *)
Section clustersource.
(** [rest.Config], of which the URL and the token are set, and [cluster.Cluster]. *)
Context {RestConfig Cluster : Type} (rest_Config : string -> string -> RestConfig).
Context (RESTConfigFromKubeConfig : string -> error + RestConfig).
Context (cluster_New : RestConfig -> error + Cluster).

Definition FromKubeConfig (kubeconfig : string) : error + Cluster :=
  try rc <- RESTConfigFromKubeConfig kubeconfig catch err =>
    inl (WrapError "unable to create rest config from kubeconfig: " err "");;
  try clst <- cluster_New rc catch err => inl (WrapError "unable to setup cluster: " err "");;
  inr clst.

Definition FromURLAndBearerToken (url token : string) : error + Cluster :=
  try clst <- cluster_New (rest_Config url token) catch err =>
    inl (WrapError "unable to setup cluster: " err "");;
  inr clst.
End clustersource.

(** ** The manager: what has been set up *)
Section manager.
Context {LS Quantity Dec Scopes LRS : Type}.

(** The reconcilers, with the fetcher that the ratio reconciler is given. *)
Inductive Controller :=
| RatioController (r : RatioReconciler LS Quantity Dec) (f : Fetcher)
| OrganizationRBACController (r : OrganizationRBACReconciler)
| ZoneK8sVersionController (r : ZoneK8sVersionReconciler)
| UserAttributeSyncController
| GroupSyncController (r : GroupSyncReconciler)
| ZoneUsageProfileSyncController
| ZoneUsageProfileApplyController (r : ZoneUsageProfileApplyReconciler resourceQuotaTransformer)
| LegacyResourceQuotaController (r : LegacyResourceQuotaReconciler Quantity Scopes LRS).

(** The values of the interface type [admission.Handler]. *)
Inductive Webhook :=
| RatioWebhook (v : RatioValidator LS Quantity Dec) (f : Fetcher)
| NodeSelectorWebhook (v : PodNodeSelectorMutator)
| QuotaWebhook (v : NamespaceQuotaValidator)
| CloudscaleWebhook (v : ServiceCloudscaleLBValidator)
| ReservedWebhook (v : ReservedResourceQuotaLimitRangeValidator)
| OrganizationWebhook (v : NamespaceProjectOrganizationMutator)
| MetadataWebhook (v : NamespaceMetadataValidator)
| DeadlineWebhook (v : PodRunOnceActiveDeadlineSecondsMutator).

Record Manager := {
  mgr_Webhooks : gmap string Webhook;
  mgr_Controllers : list Controller;
}.

Definition new_manager : Manager := {| mgr_Webhooks := ∅; mgr_Controllers := [] |}.
End manager.
Arguments Controller : clear implicits.
Arguments Webhook : clear implicits.
Arguments Manager : clear implicits.

(** How the start ends early: [os.Exit(1)] after an error message, or a panic. *)
Inductive stop := Exit (msg : string) | Panic (msg : string).

(** The start is a sequence of steps on the manager, any of which may end it. *)
Definition setup (M A : Type) : Type := M -> stop + (A * M).

#[export] Instance setup_mret M : MRet (setup M) := fun A a m => inr (a, m).
#[export] Instance setup_mbind M : MBind (setup M) := fun A B f p m =>
  match p m with inl e => inl e | inr (a, m') => f a m' end.

Definition exit_if {M} (err : option error) (msg : string) : setup M unit := fun m =>
  match err with Some _ => inl (Exit msg) | None => inr (tt, m) end.

Definition or_exit {M A} (r : error + A) (msg : string) : setup M A := fun m =>
  match r with inl _ => inl (Exit msg) | inr a => inr (a, m) end.

Definition exit_when {M} (b : bool) (msg : string) : setup M unit := fun m =>
  if b then inl (Exit msg) else inr (tt, m).

Definition when {M} (b : bool) (p : setup M unit) : setup M unit :=
  if b then p else mret tt.

(** [float32] of an [int]: the nearest integer of 24 significant bits, half to even. *)
Definition float32 (n : Z) : Z :=
  let e := (Z.log2 (Z.abs n) - 23)%Z in
  if (e <=? 0)%Z then n else
  let q := (Z.abs n / 2 ^ e)%Z in
  let r := (Z.abs n mod 2 ^ e)%Z in
  let q := if (2 ^ e <? 2 * r)%Z || (2 ^ e =? 2 * r)%Z && Z.odd q then (q + 1)%Z else q in
  (Z.sgn n * (q * 2 ^ e))%Z.

(** The client configuration and the options that [ctrl.NewManager] is given. *)
Record ManagerOptions := {
  mo_QPS : Z;
  mo_Burst : Z;
  mo_MetricsBindAddress : string;
  mo_HealthProbeBindAddress : string;
  mo_LeaderElection : bool;
  mo_LeaderElectionID : string;
  mo_WebhookPort : Z;
  mo_WebhookCertDir : string;
}.

Definition manager_options (fl : Flags) : ManagerOptions := {|
  mo_QPS := float32 (qps fl);
  mo_Burst := burst fl;
  mo_MetricsBindAddress := metricsAddr fl;
  mo_HealthProbeBindAddress := probeAddr fl;
  mo_LeaderElection := enableLeaderElection fl;
  mo_LeaderElectionID := "f2g2bc31.appuio-cloud-agent.appuio.io";
  mo_WebhookPort := webhookPort fl;
  mo_WebhookCertDir := webhookCertDir fl;
|}.

Section main.
Context `{RangeOracle} `{Multierr} `{Wildcard} {CRB : ClientList ClusterRoleBinding}.
Context {LS Quantity Dec Scopes LRS RestConfig Cluster : Type}.
Abbreviation Mgr := (Manager LS Quantity Dec Scopes LRS).
Abbreviation Conf := (Config LS Quantity Dec (ResourceQuotaSpec Quantity Scopes) LRS).

(** What the libraries and the system answer during the start. *)
Record Startup := {
  os_ReadFile : string -> error + string;
  os_Getenv : string -> string;
  yaml_Unmarshal : string -> error + Conf;
  zero_selector : LS;
  rest_Config : string -> string -> RestConfig;
  RESTConfigFromKubeConfig : string -> error + RestConfig;
  cluster_New : RestConfig -> error + Cluster;
  ctrl_GetConfig : option error;
  ctrl_NewManager : ManagerOptions -> option error;
  kubernetes_NewForConfig : option error;
  SetupWithManager : Controller LS Quantity Dec Scopes LRS -> option error;
  authentication_New : option error;
  SelfSubjectReviews_Create : error + UserInfo;
  AddHealthzCheck : option error;
  AddReadyzCheck : option error;
}.

Context (lib : Startup).

(** [mgr.GetWebhookServer().Register], which panics when the path is taken. *)
Definition Register (path : string) (w : Webhook LS Quantity Dec) : setup Mgr unit := fun m =>
  match mgr_Webhooks m !! path with
  | Some _ => inl (Panic ("can't register duplicate path: " +:+ path))
  | None => inr (tt, {| mgr_Webhooks := <[path := w]> (mgr_Webhooks m);
                        mgr_Controllers := mgr_Controllers m |})
  end.

Definition add_controller (c : Controller LS Quantity Dec Scopes LRS) : setup Mgr unit := fun m =>
  match SetupWithManager lib c with
  | Some _ => inl (Exit "unable to create controller")
  | None => inr (tt, {| mgr_Webhooks := mgr_Webhooks m; mgr_Controllers := mgr_Controllers m ++ [c] |})
  end.

(** The function [whoami] of main.go. *)
Definition whoami : setup Mgr UserInfo :=
  _ ← exit_if (WhoamiForConfigAndClient (authentication_New lib)) "unable to create whoami client";
  or_exit (Whoami (SelfSubjectReviews_Create lib)) "unable to get current user".

(** *** The handlers, with what they are given *)
Definition node_selector_handler (conf : Conf) : PodNodeSelectorMutator := {|
  pns_DefaultNodeSelector := Config.DefaultNodeSelector conf;
  pns_DefaultNamespaceNodeSelectorAnnotation := Config.DefaultNamespaceNodeSelectorAnnotation conf;
  pns_Skipper := to_Skipper {| ShouldSkip := false |} |}.

(** A nil list of limits has no entries. *)
Definition ratio_handler (conf : Conf) : RatioValidator LS Quantity Dec := {|
  rv_RatioLimits := default [] (Config.MemoryPerCoreLimits conf);
  rv_RatioWarnThreshold := Config.MemoryPerCoreWarnThreshold conf;
  rv_DefaultNodeSelector := Config.DefaultNodeSelector conf;
  rv_DefaultNamespaceNodeSelectorAnnotation := Config.DefaultNamespaceNodeSelectorAnnotation conf |}.

(** The skipper of privileged users, to whom the agent itself belongs. *)
Definition privileged_skipper (conf : Conf) (self : UserInfo) : Skipper := to_Skipper {|
  Skipper.PrivilegedGroups := Config.PrivilegedGroups conf;
  Skipper.PrivilegedUsers := Config.PrivilegedUsers conf ++ [Username self];
  Skipper.PrivilegedClusterRoles := Config.PrivilegedClusterRoles conf |}.

(** Skips everything when the webhook is not enabled, else the privileged users. *)
Definition enabled_skipper (enabled : bool) (psk : Skipper) : Skipper :=
  NewMultiSkipper [to_Skipper {| ShouldSkip := negb enabled |}; psk].

Definition quota_handler (fl : Flags) (conf : Conf) (psk : Skipper) : NamespaceQuotaValidator := {|
  nq_Skipper := psk;
  nq_SkipValidateQuota := disableUsageProfiles fl && negb (legacyNamespaceQuotaEnabled fl);
  nq_OrganizationLabel := Config.OrganizationLabel conf;
  nq_UserDefaultOrganizationAnnotation := Config.UserDefaultOrganizationAnnotation conf;
  nq_SelectedProfile := selectedUsageProfile fl;
  nq_QuotaOverrideNamespace := Config.QuotaOverrideNamespace conf;
  nq_EnableLegacyNamespaceQuota := legacyNamespaceQuotaEnabled fl;
  nq_LegacyNamespaceQuota := Config.LegacyNamespaceQuota conf |}.

Definition cloudscale_handler (fl : Flags) (psk : Skipper) : ServiceCloudscaleLBValidator := {|
  lb_Skipper := enabled_skipper (cloudscaleLoadbalancerValidationEnabled fl) psk |}.

Definition reserved_handler (fl : Flags) (conf : Conf) (psk : Skipper)
    : ReservedResourceQuotaLimitRangeValidator := {|
  rr_Skipper := enabled_skipper (legacyResourceQuotaEnabled fl) psk;
  rr_ReservedResourceQuotaNames := (range_map 0 (Config.LegacyDefaultResourceQuotas conf)).*1;
  rr_ReservedLimitRangeNames := [Config.LegacyLimitRangeName conf] |}.

Definition organization_handler (fl : Flags) (conf : Conf) (psk : Skipper)
    : NamespaceProjectOrganizationMutator := {|
  npo_Skipper := enabled_skipper (namespaceProjectOrganizationMutatorEnabled fl) psk;
  npo_OrganizationLabel := Config.OrganizationLabel conf;
  npo_UserDefaultOrganizationAnnotation := Config.UserDefaultOrganizationAnnotation conf |}.

Definition metadata_handler (fl : Flags) (conf : Conf) (psk : Skipper)
    : NamespaceMetadataValidator := {|
  nm_Skipper := enabled_skipper (namespaceMetadataValidatorEnabled fl) psk;
  nm_ReservedNamespaces := Config.ReservedNamespaces conf;
  nm_AllowedAnnotations := Config.AllowedAnnotations conf;
  nm_AllowedLabels := Config.AllowedLabels conf |}.

Definition deadline_handler (fl : Flags) (conf : Conf)
    : PodRunOnceActiveDeadlineSecondsMutator := {|
  pd_Skipper := to_Skipper {| ShouldSkip := negb (podRunOnceActiveDeadlineSecondsMutatorEnabled fl) |};
  pd_OverrideAnnotation := Config.PodRunOnceActiveDeadlineSecondsOverrideAnnotation conf;
  pd_DefaultActiveDeadlineSeconds := Config.PodRunOnceActiveDeadlineSecondsDefault conf |}.

(** *** The reconcilers, with what they are given *)
Definition profile_reconciler (fl : Flags) (conf : Conf)
    : ZoneUsageProfileApplyReconciler resourceQuotaTransformer := {|
  (** [Cache] is set here and [controller] by [SetupWithManager] *)
  ua_ready := true;
  ua_OrganizationLabel := Config.OrganizationLabel conf;
  ua_Transformers := [NewResourceQuotaTransformer "resourcequota.appuio.io"];
  ua_SelectedProfile := selectedUsageProfile fl |}.

Definition legacy_reconciler (conf : Conf) : LegacyResourceQuotaReconciler Quantity Scopes LRS := {|
  lq_OrganizationLabel := Config.OrganizationLabel conf;
  lq_ResourceQuotaAnnotationBase := Config.LegacyResourceQuotaAnnotationBase conf;
  lq_DefaultResourceQuotas := Config.LegacyDefaultResourceQuotas conf;
  lq_LimitRangeName := Config.LegacyLimitRangeName conf;
  lq_DefaultLimitRange := Config.LegacyDefaultLimitRange conf |}.

(** *** The steps of the start *)
Definition registerNodeSelectorValidationWebhooks (conf : Conf) : setup Mgr unit :=
  Register "/mutate-pod-node-selector" (NodeSelectorWebhook (node_selector_handler conf)).

Definition registerOrganizationRBACController (orgLabel : string)
    (defaultClusterRoles : gmap string string) : setup Mgr unit :=
  add_controller (OrganizationRBACController {|
    or_OrganizationLabel := orgLabel; or_DefaultClusterRoles := defaultClusterRoles |}).

Definition registerRatioController (conf : Conf) (orgLabel : string) : setup Mgr unit :=
  _ ← Register "/validate-request-ratio"
        (RatioWebhook (ratio_handler conf) {| f_OrganizationLabel := "" |});
  add_controller (RatioController {|
    rr_RatioLimits := default [] (Config.MemoryPerCoreLimits conf);
    rr_RatioWarnThreshold := Config.MemoryPerCoreWarnThreshold conf |}
    {| f_OrganizationLabel := orgLabel |}).

Definition registerZoneK8sVersionController (upstreamZoneIdentifier : string) : setup Mgr unit :=
  _ ← exit_if (kubernetes_NewForConfig lib) "unable to create clientset for config";
  add_controller (ZoneK8sVersionController {| ZoneID := upstreamZoneIdentifier |}).

(** The connection to the control API. *)
Definition setup_control_api (fl : Flags) : setup Mgr Cluster :=
  if negb (bool_decide (controlAPIURL fl = "")) then
    let tk := os_Getenv lib "CONTROL_API_BEARER_TOKEN" in
    _ ← exit_when (bool_decide (tk = "")) "CONTROL_API_BEARER_TOKEN env var not set";
    or_exit (FromURLAndBearerToken (rest_Config lib) (cluster_New lib) (controlAPIURL fl) tk)
      "unable to setup control-api manager"
  else
    cac ← or_exit (os_ReadFile lib (controlAPIKubeconfig fl))
      "unable to read control API kubeconfig";
    or_exit (FromKubeConfig (RESTConfigFromKubeConfig lib) (cluster_New lib) cac)
      "unable to setup control-api manager".

(** The controllers, in the order in which they are set up. *)
Definition setup_controllers (fl : Flags) (conf : Conf) : setup Mgr unit :=
  _ ← registerRatioController conf (Config.OrganizationLabel conf);
  _ ← registerOrganizationRBACController (Config.OrganizationLabel conf)
    (Config.DefaultOrganizationClusterRoles conf);
  _ ← registerZoneK8sVersionController (upstreamZoneIdentifier fl);
  _ ← when (negb (disableUserAttributeSync fl)) (add_controller UserAttributeSyncController);
  _ ← when (negb (disableGroupSync fl)) (add_controller (GroupSyncController
    {| ControlAPIFinalizerZoneName := upstreamZoneIdentifier fl |}));
  _ ← when (negb (disableUsageProfiles fl)) (
    _ ← add_controller ZoneUsageProfileSyncController;
    add_controller (ZoneUsageProfileApplyController (profile_reconciler fl conf)));
  when (legacyResourceQuotaEnabled fl)
    (add_controller (LegacyResourceQuotaController (legacy_reconciler conf))).

Definition register_webhooks (fl : Flags) (conf : Conf) (psk : Skipper) : setup Mgr unit :=
  _ ← Register "/validate-namespace-quota" (QuotaWebhook (quota_handler fl conf psk));
  _ ← Register "/validate-service-cloudscale-lb" (CloudscaleWebhook (cloudscale_handler fl psk));
  _ ← Register "/validate-reserved-resourcequota-limitrange"
        (ReservedWebhook (reserved_handler fl conf psk));
  _ ← Register "/mutate-namespace-project-organization"
        (OrganizationWebhook (organization_handler fl conf psk));
  _ ← Register "/validate-namespace-metadata" (MetadataWebhook (metadata_handler fl conf psk));
  Register "/mutate-pod-run-once-active-deadline" (DeadlineWebhook (deadline_handler fl conf)).

Definition read_config (fl : Flags) : error + (Conf * list string) :=
  ConfigFromFile (zero_selector lib) (os_ReadFile lib) (yaml_Unmarshal lib) (configFilePath fl).

Definition main (fl : Flags) : setup Mgr unit :=
  '(conf, _) ← or_exit (read_config fl) "unable to read config file";
  _ ← exit_if (Config.Validate conf) "invalid configuration";
  _ ← setup_control_api fl;
  (** [ctrl.GetConfigOrDie] *)
  _ ← exit_if (ctrl_GetConfig lib) "unable to get kubeconfig";
  _ ← exit_if (ctrl_NewManager lib (manager_options fl)) "unable to setup manager";
  _ ← exit_when (bool_decide (upstreamZoneIdentifier fl = "")) "upstream-zone-identifier must be set.";
  _ ← setup_controllers fl conf;
  self ← whoami;
  let psk := privileged_skipper conf self in
  _ ← registerNodeSelectorValidationWebhooks conf;
  _ ← register_webhooks fl conf psk;
  _ ← exit_if (AddHealthzCheck lib) "unable to setup health endpoint";
  exit_if (AddReadyzCheck lib) "unable to setup ready endpoint".

(** The process from its arguments on, with the flags that libraries declare. *)
Definition agent (library_flag : string -> option bool) (library_Set : string -> string -> option error)
    (args : list string) : setup Mgr unit :=
  match flag_Parse library_flag library_Set default_values args with
  | ExitCode _ message => fun _ => inl (Exit message)
  | Parsed values _ => main (flags_of values)
  end.
End main.
Arguments Startup : clear implicits.

(** ** Serving requests *)
Section serve.
Context `{RangeOracle} `{AdmissionLib} `{ApiErrors} `{Multierr} `{Wildcard} `{SetsLib}.
Context `{UnstructuredLib} `{LabelsLib} `{InfDec Dec} {Quantity : Type} {QL : QuantityLib Quantity Dec}.
Context `{LabelSelectorLib LS} {DJ : Decoder json} {DP : Decoder (Pod Quantity)}.
Context {DD : Decoder (Deployment Quantity)} {DS : Decoder (StatefulSet Quantity)}.
Context {DV : Decoder Service} {DR : Decoder RunOncePod}.
Context {GU : ClientGet User} {GG : ClientGet Group} {GN : ClientGet Namespace}.
Context {GZ : ClientGet ZoneUsageProfile} {GC : ClientGet ConfigMap}.
Context {LN : ClientList Namespace} {LP : ClientList (Pod Quantity)}.
Context {LR : ClientList ClusterRoleBinding}.

(** The method [Handle] of a webhook; [None] is a panic. *)
Definition webhook_Handle (w : Webhook LS Quantity Dec) (req : AdmissionRequest)
    : option AdmissionResponse :=
  match w with
  | RatioWebhook v f => RatioValidator_Handle (RF := Fetcher_ratioFetcher f) v req
  | NodeSelectorWebhook v => Some (PodNodeSelectorMutator_Handle v req)
  | QuotaWebhook v => Some (NamespaceQuotaValidator_Handle v req).2
  | CloudscaleWebhook v => Some (ServiceCloudscaleLBValidator_Handle v req).2
  | ReservedWebhook v => Some (ReservedResourceQuotaLimitRangeValidator_Handle v req).2
  | OrganizationWebhook v => Some (NamespaceProjectOrganizationMutator_Handle v req).2
  | MetadataWebhook v => Some (NamespaceMetadataValidator_Handle v req).2
  | DeadlineWebhook v => Some (PodRunOnceActiveDeadlineSecondsMutator_Handle v req).2
  end.
End serve.

(** ** Specification of the start *)
Section specification.
Context `{RangeOracle} `{Multierr} `{Wildcard} {CRB : ClientList ClusterRoleBinding}.
Context {LS Quantity Dec Scopes LRS RestConfig Cluster : Type}.
Context (lib : Startup LS Quantity Dec Scopes LRS RestConfig Cluster).
Implicit Types (fl : Flags) (psk : Skipper).
Implicit Types conf : Config LS Quantity Dec (ResourceQuotaSpec Quantity Scopes) LRS.

(** The webhooks of an agent, by path. *)
Definition webhook_table fl conf psk : list (string * Webhook LS Quantity Dec) := [
  ("/mutate-pod-run-once-active-deadline", DeadlineWebhook (deadline_handler fl conf));
  ("/validate-namespace-metadata", MetadataWebhook (metadata_handler fl conf psk));
  ("/mutate-namespace-project-organization", OrganizationWebhook (organization_handler fl conf psk));
  ("/validate-reserved-resourcequota-limitrange", ReservedWebhook (reserved_handler fl conf psk));
  ("/validate-service-cloudscale-lb", CloudscaleWebhook (cloudscale_handler fl psk));
  ("/validate-namespace-quota", QuotaWebhook (quota_handler fl conf psk));
  ("/mutate-pod-node-selector", NodeSelectorWebhook (node_selector_handler conf));
  ("/validate-request-ratio", RatioWebhook (ratio_handler conf) {| f_OrganizationLabel := "" |})].

Definition controller_if (b : bool) (l : list (Controller LS Quantity Dec Scopes LRS)) :=
  if b then l else [].

(** The controllers of an agent. *)
Definition controller_table fl conf : list (Controller LS Quantity Dec Scopes LRS) :=
  [RatioController {| rr_RatioLimits := default [] (Config.MemoryPerCoreLimits conf);
                      rr_RatioWarnThreshold := Config.MemoryPerCoreWarnThreshold conf |}
     {| f_OrganizationLabel := Config.OrganizationLabel conf |}] ++
  [OrganizationRBACController {|
    or_OrganizationLabel := Config.OrganizationLabel conf;
    or_DefaultClusterRoles := Config.DefaultOrganizationClusterRoles conf |}] ++
  [ZoneK8sVersionController {| ZoneID := upstreamZoneIdentifier fl |}] ++
  controller_if (negb (disableUserAttributeSync fl)) [UserAttributeSyncController] ++
  controller_if (negb (disableGroupSync fl))
    [GroupSyncController {| ControlAPIFinalizerZoneName := upstreamZoneIdentifier fl |}] ++
  controller_if (negb (disableUsageProfiles fl))
    [ZoneUsageProfileSyncController;
     ZoneUsageProfileApplyController (profile_reconciler fl conf)] ++
  controller_if (legacyResourceQuotaEnabled fl)
    [LegacyResourceQuotaController (legacy_reconciler conf)].

(** The control API can be connected to, with a token or with a file. *)
Inductive control_api_available fl : Prop :=
| by_token clst :
    controlAPIURL fl <> "" -> os_Getenv lib "CONTROL_API_BEARER_TOKEN" <> "" ->
    cluster_New lib (rest_Config lib (controlAPIURL fl)
      (os_Getenv lib "CONTROL_API_BEARER_TOKEN")) = inr clst -> control_api_available fl
| by_kubeconfig cac rc clst :
    controlAPIURL fl = "" -> os_ReadFile lib (controlAPIKubeconfig fl) = inr cac ->
    RESTConfigFromKubeConfig lib cac = inr rc -> cluster_New lib rc = inr clst ->
    control_api_available fl.

(** All that the start with a configuration, as a user, depends on. *)
Record startable fl conf (self : UserInfo) : Prop := {
  st_config : exists ws, read_config lib fl = inr (conf, ws);
  st_label : Config.OrganizationLabel conf <> "";
  st_control_api : control_api_available fl;
  st_manager : ctrl_GetConfig lib = None /\ ctrl_NewManager lib (manager_options fl) = None;
  st_zone : upstreamZoneIdentifier fl <> "";
  st_clientset : kubernetes_NewForConfig lib = None;
  st_controllers : Forall (fun c => SetupWithManager lib c = None) (controller_table fl conf);
  st_whoami : authentication_New lib = None /\ SelfSubjectReviews_Create lib = inr self;
  st_health : AddHealthzCheck lib = None /\ AddReadyzCheck lib = None;
}.

(** What one step of the start does: it succeeds exactly when [ok] holds, with a result and a
    manager as described, and does not panic. *)
Definition outcome {M A} (p : setup M A) (m : M) (ok : Prop) (Q : A -> M -> Prop) : Prop :=
  match p m with
  | inr (a, m') => ok /\ Q a m'
  | inl (Exit _) => ~ ok
  | inl (Panic _) => False
  end.
End specification.

(** ** Example: an agent with every webhook enabled, and one with none *)
Abbreviation mn_Config := (Config (gmap string string) Z Q (ResourceQuotaSpec Z unit) Z).
Abbreviation mn_Startup := (Startup (gmap string string) Z Q unit Z unit unit).

Definition mn_config : mn_Config := {|
  Config.OrganizationLabel := "organization"; Config.UserDefaultOrganizationAnnotation := DefaultOrganizationAnnotation;
  Config.QuotaOverrideNamespace := "appuio"; Config.MemoryPerCoreLimit := None;
  Config.MemoryPerCoreLimits := None; Config.MemoryPerCoreWarnThreshold := None;
  Config.PrivilegedGroups := ["admins"]; Config.PrivilegedUsers := [];
  Config.PrivilegedClusterRoles := []; Config.DefaultNodeSelector := ∅;
  Config.DefaultNamespaceNodeSelectorAnnotation := "node-selector";
  Config.DefaultOrganizationClusterRoles := ∅; Config.ReservedNamespaces := [];
  Config.AllowedAnnotations := []; Config.AllowedLabels := []; Config.LegacyNamespaceQuota := 25;
  Config.PodRunOnceActiveDeadlineSecondsOverrideAnnotation := "";
  Config.PodRunOnceActiveDeadlineSecondsDefault := 1800;
  Config.LegacyResourceQuotaAnnotationBase := "resourcequota.appuio.io";
  Config.LegacyDefaultResourceQuotas :=
    {["compute" := {| Hard := {["limits/cpu" := 4%Z]}; Scopes_ := () |}]};
  Config.LegacyLimitRangeName := "organization"; Config.LegacyDefaultLimitRange := 7%Z |}.

Definition mn_self : UserInfo := {| Username := "system:serviceaccount:appuio:agent"; Groups := [] |}.

Definition mn_lib : mn_Startup := {|
  os_ReadFile := inr; os_Getenv := fun _ => ""; yaml_Unmarshal := fun _ => inr mn_config;
  zero_selector := ∅; rest_Config := fun _ _ => (); RESTConfigFromKubeConfig := fun _ => inr ();
  cluster_New := inr; ctrl_GetConfig := None; ctrl_NewManager := fun _ => None; kubernetes_NewForConfig := None;
  SetupWithManager := fun _ => None; authentication_New := None;
  SelfSubjectReviews_Create := inr mn_self; AddHealthzCheck := None; AddReadyzCheck := None |}.

Definition mn_flags (enabled : bool) : Flags := {|
  metricsAddr := ":8080"; enableLeaderElection := false; probeAddr := ":8082"; webhookCertDir := "";
  webhookPort := 9443; qps := 20; burst := 100;
  configFilePath := "config.yaml"; controlAPIKubeconfig := "kubeconfig"; controlAPIURL := "";
  upstreamZoneIdentifier := "zone"; selectedUsageProfile := "";
  cloudscaleLoadbalancerValidationEnabled := enabled;
  namespaceProjectOrganizationMutatorEnabled := enabled;
  namespaceMetadataValidatorEnabled := enabled; legacyNamespaceQuotaEnabled := false;
  legacyResourceQuotaEnabled := enabled; podRunOnceActiveDeadlineSecondsMutatorEnabled := enabled;
  disableUserAttributeSync := false; disableGroupSync := false; disableUsageProfiles := false |}.

Definition mn_quantity : QuantityLib Z Q := {|
  AsDec := inject_Z; NewDecimalQuantity := fun d _ => Qfloor d;
  quantity_String := fun o => match o with Some q => pretty q | None => "<nil>" end;
  rl_Cpu := fun l => default 0%Z (l !! "cpu"); rl_Memory := fun l => default 0%Z (l !! "memory") |}.

Definition mn_selectors : LabelSelectorLib (gmap string string) := fun m =>
  inr (fun m' => bool_decide (m ⊆ m')).
Definition mn_get (T : Type) : ClientGet T := fun _ => inl (ErrorString "unavailable").
Definition mn_list (T : Type) : ClientList T := fun _ => inr [].
Definition mn_decoder (T : Type) : Decoder T := {|
  Decode := fun _ => inl (ErrorString "not an object");
  DecodeRaw := fun _ => inl (ErrorString "not an object") |}.

Definition mn_request (user kind name : string) : AdmissionRequest := {|
  req_Kind := {| gvk_Group := ""; gvk_Version := "v1"; gvk_Kind := kind |};
  req_Name := name; req_Namespace := "web"; req_Operation := Update;
  req_UserInfo := {| Username := user; Groups := [] |}; req_Object := "{}"; req_OldObject := "" |}.

(** ** Lemmas: the outcome of each step *)
Section outcomes.
Context {M : Type}.

Lemma outcome_bind {A B} (p : setup M A) (f : A -> setup M B) m ok1 ok2 Q1 Q2 :
  outcome p m ok1 Q1 -> (forall a m', Q1 a m' -> outcome (f a) m' ok2 Q2) ->
  outcome (p ≫= f) m (ok1 /\ ok2) Q2.
Proof.
  unfold outcome, mbind, setup_mbind. intros Hp Hf. destruct (p m) as [[]|[a m']]; [tauto|done|].
  destruct Hp as [Hok Hq]. specialize (Hf a m' Hq). destruct (f a m') as [[]|[b m'']]; tauto.
Qed.

Lemma outcome_iff {A} (p : setup M A) m (ok ok' : Prop) Q :
  (ok <-> ok') -> outcome p m ok Q -> outcome p m ok' Q.
Proof. unfold outcome. intros Ho. destruct (p m) as [[]|[]]; tauto. Qed.

Lemma outcome_post {A} (p : setup M A) m ok (Q Q' : A -> M -> Prop) :
  outcome p m ok Q -> (forall a m', Q a m' -> Q' a m') -> outcome p m ok Q'.
Proof. unfold outcome. intros Hp HQ. destruct (p m) as [[]|[]]; naive_solver. Qed.

Lemma outcome_exit_if err msg (m : M) :
  outcome (exit_if err msg) m (err = None) (fun _ m' => m' = m).
Proof. unfold outcome, exit_if. by destruct err. Qed.

Lemma outcome_exit_when b msg (m : M) :
  outcome (exit_when b msg) m (b = false) (fun _ m' => m' = m).
Proof. unfold outcome, exit_when. by destruct b. Qed.

Lemma outcome_or_exit {A} (r : error + A) msg (m : M) :
  outcome (or_exit r msg) m (exists a, r = inr a) (fun a m' => r = inr a /\ m' = m).
Proof. unfold outcome, or_exit. destruct r; [by intros []|eauto]. Qed.

Lemma outcome_when b (p : setup M unit) m ok Q :
  outcome p m ok Q ->
  outcome (when b p) m (b = true -> ok) (fun a m' => if b then Q a m' else m' = m).
Proof. unfold outcome, when. destruct b; [|by split]. destruct (p m) as [[]|[]]; tauto. Qed.
End outcomes.

Section start.
Context `{RangeOracle} `{MultierrLaws} `{Wildcard} {CRB : ClientList ClusterRoleBinding}.
Context {LS Quantity Dec Scopes LRS RestConfig Cluster : Type}.
Context (lib : Startup LS Quantity Dec Scopes LRS RestConfig Cluster).
Implicit Types (fl : Flags) (psk : Skipper) (m : Manager LS Quantity Dec Scopes LRS).
Implicit Types conf : Config LS Quantity Dec (ResourceQuotaSpec Quantity Scopes) LRS.

Lemma outcome_Register path w m :
  mgr_Webhooks m !! path = None ->
  outcome (Register path w) m True (fun _ m' =>
    m' = {| mgr_Webhooks := <[path := w]> (mgr_Webhooks m); mgr_Controllers := mgr_Controllers m |}).
Proof. unfold outcome, Register. by intros ->. Qed.

Lemma outcome_add_controller c m :
  outcome (add_controller lib c) m (SetupWithManager lib c = None) (fun _ m' =>
    m' = {| mgr_Webhooks := mgr_Webhooks m; mgr_Controllers := mgr_Controllers m ++ [c] |}).
Proof. unfold outcome, add_controller. by destruct (SetupWithManager lib c). Qed.

Lemma outcome_or_exit_bind {A B} (r : error + A) msg (f : A -> setup _ B) m ok Q :
  (forall a, r = inr a -> outcome (f a) m (ok a) Q) ->
  outcome (or_exit r msg ≫= f) m (exists a, r = inr a /\ ok a) Q.
Proof.
  intros Hf. unfold outcome, mbind, setup_mbind, or_exit. destruct r as [e|a]; [by intros (? & ? & _)|].
  specialize (Hf a eq_refl). unfold outcome in Hf. destruct (f a m) as [[]|[b m']]; naive_solver.
Qed.

Lemma outcome_control_api fl m :
  outcome (setup_control_api lib fl) m (control_api_available lib fl) (fun _ m' => m' = m).
Proof.
  unfold setup_control_api. case_bool_decide as Hurl; cbn [negb].
  - eapply outcome_iff; [|apply outcome_or_exit_bind with (ok := fun cac =>
      exists clst, FromKubeConfig (RESTConfigFromKubeConfig lib) (cluster_New lib) cac = inr clst)].
    + unfold FromKubeConfig. split.
      * intros (cac & Hcac & clst & Hc). repeat case_match; simplify_eq. by eapply by_kubeconfig.
      * intros [|cac rc clst _ Hcac Hrc Hc]; [done|]. exists cac. split; [done|]. exists clst.
        by rewrite Hrc, Hc.
    + intros cac _. unfold outcome, or_exit. destruct (FromKubeConfig _ _ _); [by intros []|eauto].
  - eapply outcome_iff; [|eapply outcome_bind; [apply outcome_exit_when|]].
    2:{ intros [] m' ->. unfold outcome, or_exit.
        instantiate (1 := exists clst, FromURLAndBearerToken (rest_Config lib) (cluster_New lib)
          (controlAPIURL fl) (os_Getenv lib "CONTROL_API_BEARER_TOKEN") = inr clst).
        destruct (FromURLAndBearerToken _ _ _ _); [by intros []|eauto]. }
    rewrite bool_decide_eq_false. unfold FromURLAndBearerToken. split.
    + intros (Htk & clst & Hc). case_match; simplify_eq. by eapply by_token.
    + intros [clst _ Htk Hc|]; [|done]. split; [done|]. exists clst. by rewrite Hc.
Qed.

(** A step that sets up a list of controllers. *)
Definition sets_up (p : setup (Manager LS Quantity Dec Scopes LRS) unit) l : Prop :=
  forall m, outcome p m (Forall (fun c => SetupWithManager lib c = None) l) (fun _ m' =>
    m' = {| mgr_Webhooks := mgr_Webhooks m; mgr_Controllers := mgr_Controllers m ++ l |}).

Lemma sets_up_one c : sets_up (add_controller lib c) [c].
Proof. intros m. eapply outcome_iff; [|apply outcome_add_controller]. by rewrite Forall_singleton. Qed.

Lemma sets_up_app p q l1 l2 :
  sets_up p l1 -> sets_up q l2 -> sets_up (_ ← p; q) (l1 ++ l2).
Proof.
  intros Hp Hq m. eapply outcome_iff; [symmetry; apply Forall_app|].
  eapply outcome_bind; [apply Hp|]. intros [] m' ->. rewrite app_assoc. apply (Hq {| mgr_Webhooks := _ |}).
Qed.

Lemma sets_up_when b p l : sets_up p l -> sets_up (when b p) (controller_if b l).
Proof.
  intros Hp m. destruct b; [apply Hp|]. unfold outcome. simpl. rewrite app_nil_r. by destruct m.
Qed.

Lemma outcome_controllers fl conf m :
  mgr_Webhooks m !! "/validate-request-ratio" = None ->
  outcome (setup_controllers lib fl conf) m
    (kubernetes_NewForConfig lib = None /\
     Forall (fun c => SetupWithManager lib c = None) (controller_table fl conf))
    (fun _ m' => m' = {|
      mgr_Webhooks := <["/validate-request-ratio" :=
        RatioWebhook (ratio_handler conf) {| f_OrganizationLabel := "" |}]> (mgr_Webhooks m);
      mgr_Controllers := mgr_Controllers m ++ controller_table fl conf |}).
Proof.
  intros Hm. unfold setup_controllers, registerRatioController, registerZoneK8sVersionController,
    controller_table.
  eapply outcome_iff; [|eapply outcome_bind; [eapply outcome_bind; [by apply outcome_Register|]|]].
  2:{ intros [] m' ->. apply sets_up_one. }
  2:{ intros [] m' ->. simpl mgr_Webhooks. simpl mgr_Controllers.
      eapply outcome_bind; [apply sets_up_one|]. intros [] m' ->.
      eapply outcome_bind; [eapply outcome_bind; [apply outcome_exit_if|]|].
      { intros [] m' ->. apply sets_up_one. }
      intros [] m' ->. eapply outcome_post; [apply (sets_up_app _ _ _ _ (sets_up_when _ _ _ (sets_up_one _))
        (sets_up_app _ _ _ _ (sets_up_when _ _ _ (sets_up_one _))
        (sets_up_app _ _ _ _ (sets_up_when _ _ _ (sets_up_app _ _ [_] [_] (sets_up_one _) (sets_up_one _)))
        (sets_up_when _ _ _ (sets_up_one _)))) {| mgr_Webhooks := _; mgr_Controllers := _ |})|].
      intros [] m' ->. simpl. by rewrite <- !app_assoc. }
  rewrite !Forall_app. tauto.
Qed.
(** Registering under a path that is not among those registered already. *)
Lemma outcome_Register_new path w l cs :
  bool_decide (path ∈ l.*1) = false ->
  outcome (Register path w) {| mgr_Webhooks := list_to_map l; mgr_Controllers := cs |} True
    (fun _ m' => m' = {| mgr_Webhooks := list_to_map ((path, w) :: l); mgr_Controllers := cs |}).
Proof.
  intros Hp%bool_decide_eq_false.
  eapply outcome_post; [apply outcome_Register; by apply not_elem_of_list_to_map_1|].
  by intros [] m' ->.
Qed.

Lemma outcome_webhooks fl conf psk cs :
  outcome (register_webhooks fl conf psk)
    {| mgr_Webhooks := list_to_map [
         ("/mutate-pod-node-selector", NodeSelectorWebhook (node_selector_handler conf));
         ("/validate-request-ratio", RatioWebhook (ratio_handler conf) {| f_OrganizationLabel := "" |})];
       mgr_Controllers := cs |} True
    (fun _ m' => m' = {| mgr_Webhooks := list_to_map (webhook_table fl conf psk);
                         mgr_Controllers := cs |}).
Proof.
  unfold register_webhooks. eapply outcome_iff; [|
    do 5 (eapply outcome_bind; [by apply outcome_Register_new|intros [] ? ->]);
    by apply outcome_Register_new].
  tauto.
Qed.

Lemma outcome_whoami m :
  outcome (whoami lib) m
    (authentication_New lib = None /\ exists self, SelfSubjectReviews_Create lib = inr self)
    (fun self m' => SelfSubjectReviews_Create lib = inr self /\ m' = m).
Proof.
  unfold whoami. eapply outcome_iff; [|eapply outcome_bind; [apply outcome_exit_if|]].
  2:{ intros [] m' ->. eapply outcome_post; [apply outcome_or_exit|].
      intros self m' [Hs ->]. unfold Whoami in Hs. split; [by repeat case_match; simplify_eq|done]. }
  unfold WhoamiForConfigAndClient, Whoami.
  destruct (authentication_New lib), (SelfSubjectReviews_Create lib); naive_solver.
Qed.

Lemma Validate_ok conf : Config.Validate conf = None <-> Config.OrganizationLabel conf <> "".
Proof.
  unfold Config.Validate. rewrite multierr_Combine_nil.
  case_bool_decide; [rewrite Forall_singleton; naive_solver|]. by split.
Qed.

(** What the start depends on, step by step. *)
Definition steps_ok fl conf : Prop :=
  Config.Validate conf = None /\ control_api_available lib fl /\ ctrl_GetConfig lib = None /\
  ctrl_NewManager lib (manager_options fl) = None /\
  bool_decide (upstreamZoneIdentifier fl = "") = false /\
  (kubernetes_NewForConfig lib = None /\
   Forall (fun c => SetupWithManager lib c = None) (controller_table fl conf)) /\
  (authentication_New lib = None /\ exists self, SelfSubjectReviews_Create lib = inr self) /\
  True /\ True /\ AddHealthzCheck lib = None /\ AddReadyzCheck lib = None.

Lemma steps_ok_startable fl :
  (exists cw, read_config lib fl = inr cw /\ steps_ok fl cw.1) <->
  (exists conf self, startable lib fl conf self).
Proof.
  unfold steps_ok. setoid_rewrite bool_decide_eq_false. setoid_rewrite Validate_ok. split.
  - intros ([conf ws] & Hc & ? & ? & ? & ? & ? & [? ?] & [? [self ?]] & _ & _ & ?).
    exists conf, self. split; eauto.
  - intros (conf & self & Hs). destruct (st_config _ _ _ _ Hs) as [ws Hc]. destruct Hs.
    exists (conf, ws). simpl. naive_solver.
Qed.

Lemma main_steps fl :
  outcome (main lib fl) new_manager (exists cw, read_config lib fl = inr cw /\ steps_ok fl cw.1)
    (fun _ m => exists cw self, read_config lib fl = inr cw /\
      SelfSubjectReviews_Create lib = inr self /\ m = {|
       mgr_Webhooks := list_to_map (webhook_table fl cw.1 (privileged_skipper cw.1 self));
       mgr_Controllers := controller_table fl cw.1 |}).
Proof.
  unfold main. apply outcome_or_exit_bind with (ok := fun cw => steps_ok fl cw.1).
  intros [conf ws] Hc.
  eapply outcome_bind; [apply outcome_exit_if|intros [] m' ->].
  eapply outcome_bind; [apply outcome_control_api|intros ? m' ->].
  eapply outcome_bind; [apply outcome_exit_if|intros [] m' ->].
  eapply outcome_bind; [apply outcome_exit_if|intros [] m' ->].
  eapply outcome_bind; [apply outcome_exit_when|intros [] m' ->].
  eapply outcome_bind; [by apply outcome_controllers|intros [] m' ->].
  eapply outcome_bind; [apply outcome_whoami|intros self m' [Hself ->]].
  eapply outcome_bind; [by apply (outcome_Register_new _ _
    [("/validate-request-ratio", RatioWebhook (ratio_handler conf) _)])|intros [] m' ->].
  eapply outcome_bind; [apply outcome_webhooks|intros [] m' ->].
  eapply outcome_bind; [apply outcome_exit_if|intros [] m' ->].
  eapply outcome_post; [apply outcome_exit_if|]. intros [] m' ->. by exists (conf, ws), self.
Qed.

(** An agent that has started. *)
Lemma main_started fl m :
  main lib fl new_manager = inr (tt, m) ->
  exists conf self, startable lib fl conf self /\ m = {|
    mgr_Webhooks := list_to_map (webhook_table fl conf (privileged_skipper conf self));
    mgr_Controllers := controller_table fl conf |}.
Proof.
  intros E. pose proof (main_steps fl) as Ho. unfold outcome in Ho. rewrite E in Ho.
  destruct Ho as [Hok ([conf ws] & self & Hc & Hself & ->)].
  apply steps_ok_startable in Hok as (conf' & self' & Hst).
  destruct (st_config _ _ _ _ Hst) as [ws' Hc'], (st_whoami _ _ _ _ Hst) as [_ Hself'].
  rewrite Hc in Hc'. rewrite Hself in Hself'. simplify_eq. by exists conf', self'.
Qed.
End start.

(** ** Properties *)
Section properties.
Context `{RangeOracle} `{MultierrLaws} `{Wildcard} {CRB : ClientList ClusterRoleBinding}.
Context {LS Quantity Dec Scopes LRS RestConfig Cluster : Type}.
Context (lib : Startup LS Quantity Dec Scopes LRS RestConfig Cluster).

(** C36: the agent starts exactly when the configuration can be read and names the label of
    organizations, the control API can be connected to, the configuration of the local cluster can
    be loaded, its manager and its clientset can be made, a zone is given, every controller that is
    enabled can be set up, the agent's own user can be asked for and is known, and both health
    checks can be added; otherwise it exits with an error, and it never panics by registering two
    webhooks under one path. *)
Theorem main_outcome fl :
  ((exists m, main lib fl new_manager = inr (tt, m)) <->
   exists conf self, startable lib fl conf self) /\
  (~ (exists conf self, startable lib fl conf self) ->
   exists msg, main lib fl new_manager = inl (Exit msg)).
Proof.
  pose proof (outcome_iff _ _ _ _ _ (steps_ok_startable lib fl) (main_steps lib fl)) as Ho.
  unfold outcome in Ho. destruct (main lib fl new_manager) as [[msg|]|[[] m]]; [|done|].
  - split; [|by exists msg]. split; [by intros []|done].
  - destruct Ho as [Hok _]. split; [|intros Hn; by destruct Hn]. split; [done|eauto].
Qed.

(** An agent does not start with arguments of which none names the zone. *)
Theorem agent_needs_zone library_flag library_Set args m :
  (forall arg, arg ∈ args -> ~ names "upstream-zone-identifier" arg) ->
  agent lib library_flag library_Set args new_manager <> inr (tt, m).
Proof.
  unfold agent. intros Hno. destruct (flag_Parse _ _ _ _) as [|values rest] eqn:Hp; [done|].
  intros (conf & self & Hst & _)%main_started. apply (st_zone _ _ _ _ Hst).
  apply (parse_unnamed _ _ "upstream-zone-identifier") in Hp; [|done].
  unfold flags_of, upstreamZoneIdentifier, string_of. by rewrite Hp.
Qed.
End properties.

(** ** The webhooks of an agent that has started *)

(** Whether the flag of a webhook enables it; three webhooks have no flag. *)
Definition webhook_enabled (fl : Flags) (path : string) : bool :=
  if bool_decide (path = "/validate-service-cloudscale-lb")
  then cloudscaleLoadbalancerValidationEnabled fl
  else if bool_decide (path = "/validate-reserved-resourcequota-limitrange")
  then legacyResourceQuotaEnabled fl
  else if bool_decide (path = "/mutate-namespace-project-organization")
  then namespaceProjectOrganizationMutatorEnabled fl
  else if bool_decide (path = "/validate-namespace-metadata")
  then namespaceMetadataValidatorEnabled fl
  else if bool_decide (path = "/mutate-pod-run-once-active-deadline")
  then podRunOnceActiveDeadlineSecondsMutatorEnabled fl
  else true.

(** The webhooks that exempt privileged users. *)
Definition exempting_paths : list string := [
  "/validate-namespace-quota"; "/validate-service-cloudscale-lb";
  "/validate-reserved-resourcequota-limitrange"; "/mutate-namespace-project-organization";
  "/validate-namespace-metadata"].

(** The one kind of request that the skipper of its webhook does not exempt. *)
Definition never_exempt (path : string) (req : AdmissionRequest) : bool :=
  bool_decide (path = "/mutate-namespace-project-organization") && is_project req.

Section serving.
Context `{RangeOracle} `{AdmissionLaws} `{ApiErrors} `{MultierrLaws} `{WildcardLaws} `{SetsLib}.
Context `{UnstructuredLib} `{LabelsLib} `{InfDec Dec} {Quantity : Type} {QL : QuantityLib Quantity Dec}.
Context `{LabelSelectorLib LS} {DJ : Decoder json} {DP : Decoder (Pod Quantity)}.
Context {DD : Decoder (Deployment Quantity)} {DS : Decoder (StatefulSet Quantity)}.
Context {DV : Decoder Service} {DR : Decoder RunOncePod}.
Context {GU : ClientGet User} {GG : ClientGet Group} {GN : ClientGet Namespace}.
Context {GZ : ClientGet ZoneUsageProfile} {GC : ClientGet ConfigMap}.
Context {LN : ClientList Namespace} {LP : ClientList (Pod Quantity)}.
Context {LR : ClientList ClusterRoleBinding}.
Context {Scopes LRS RestConfig Cluster : Type}.
Context (lib : Startup LS Quantity Dec Scopes LRS RestConfig Cluster).
Implicit Types conf : Config LS Quantity Dec (ResourceQuotaSpec Quantity Scopes) LRS.

(** The agent's own user is privileged. *)
Lemma privileged_self conf self req :
  strings.ContainsRune (Username self) "*" = false ->
  strings.ContainsRune (Username self) "?" = false ->
  Username (req_UserInfo req) = Username self ->
  privileged_skipper conf self req = (true, None).
Proof.
  intros Hs Hq Hu. unfold privileged_skipper, to_Skipper, Skip, PrivilegedUserSkipper_Skip. simpl.
  rewrite existsb_app. simpl. rewrite wildcard_Match_literal, Hu, bool_decide_eq_true_2 by done.
  by rewrite orb_true_r.
Qed.

Lemma enabled_skipper_off psk req : enabled_skipper false psk req = (true, None).
Proof. done. Qed.

Lemma enabled_skipper_on psk req : enabled_skipper true psk req = psk req.
Proof. unfold enabled_skipper, NewMultiSkipper, to_Skipper, Skip, multiSkipper_Skip. simpl.
  destruct (psk req) as [[] [e|]]; done. Qed.

Lemma enabled_skipper_skips (b : bool) psk req :
  (b = false \/ psk req = (true, None)) -> enabled_skipper b psk req = (true, None).
Proof. destruct b; [rewrite enabled_skipper_on|by rewrite enabled_skipper_off]. by intros []. Qed.

(** A webhook that has been registered is one of the table. *)
Lemma started_webhook fl m path w :
  main lib fl new_manager = inr (tt, m) -> mgr_Webhooks m !! path = Some w ->
  exists conf self, startable lib fl conf self /\
    (path, w) ∈ webhook_table fl conf (privileged_skipper conf self).
Proof.
  intros (conf & self & Hst & ->)%main_started Hw. exists conf, self. split; [done|].
  by apply elem_of_list_to_map_2 in Hw.
Qed.

(** The webhook registered under a path of the table. *)
Lemma started_at i fl m path w :
  main lib fl new_manager = inr (tt, m) -> mgr_Webhooks m !! path = Some w ->
  exists conf self, startable lib fl conf self /\ mgr_Controllers m = controller_table fl conf /\
    forall w0, webhook_table fl conf (privileged_skipper conf self) !! i = Some (path, w0) -> w = w0.
Proof.
  intros (conf & self & Hst & ->)%main_started Hw. exists conf, self. do 2 (split; [done|]).
  intros w0 Hi%list_elem_of_lookup_2. cbn [mgr_Webhooks] in Hw.
  apply (elem_of_list_to_map_1 (M := gmap string)) in Hi; [congruence|].
  apply (bool_decide_unpack _). by vm_compute.
Qed.

(** C24: once the agent has started, a webhook whose flag is off, and, where privileged users are
    exempt, also one that is asked by the agent's own user, skips every request but those for
    projects at the webhook for organizations. *)
Theorem main_exempts fl m path w self req :
  main lib fl new_manager = inr (tt, m) -> mgr_Webhooks m !! path = Some w ->
  SelfSubjectReviews_Create lib = inr self ->
  strings.ContainsRune (Username self) "*" = false ->
  strings.ContainsRune (Username self) "?" = false ->
  webhook_enabled fl path = false \/
    (path ∈ exempting_paths /\ Username (req_UserInfo req) = Username self) ->
  never_exempt path req = false ->
  webhook_Handle w req = Some (admission_Allowed "skipped").
Proof.
  intros Hm Hw Hself Hs Hq Hex Hne.
  destruct (started_webhook _ _ _ _ Hm Hw) as (conf & self' & Hst & Hin).
  destruct (st_whoami _ _ _ _ Hst) as [_ Hself']. rewrite Hself in Hself'. simplify_eq.
  set (psk := privileged_skipper conf self') in Hin.
  assert (Hex' : webhook_enabled fl path = false \/
    bool_decide (path ∈ exempting_paths) = true /\ psk req = (true, None)).
  { destruct Hex as [|[? Hu]]; [by left|right]. rewrite bool_decide_eq_true. by split; [|apply privileged_self]. }
  assert (Hskip : forall b, (webhook_enabled fl path = b) -> enabled_skipper b psk req = (true, None)).
  { intros b <-. apply enabled_skipper_skips. naive_solver. }
  clear Hex. repeat (apply elem_of_cons in Hin as [[= -> ->]|Hin]); [..|by apply not_elem_of_nil in Hin];
    unfold webhook_Handle, NamespaceQuotaValidator_Handle, ServiceCloudscaleLBValidator_Handle,
      ReservedResourceQuotaLimitRangeValidator_Handle, NamespaceProjectOrganizationMutator_Handle,
      NamespaceMetadataValidator_Handle, PodRunOnceActiveDeadlineSecondsMutator_Handle,
      logAdmissionResponse; cbn [snd].
  - unfold PodRunOnceActiveDeadlineSecondsMutator_handle. destruct Hex' as [Hoff|[[=] _]].
    cbn [pd_Skipper deadline_handler]. unfold to_Skipper, Skip, StaticSkipper_Skip. cbn [ShouldSkip].
    change (podRunOnceActiveDeadlineSecondsMutatorEnabled fl = false) in Hoff. by rewrite Hoff.
  - unfold NamespaceMetadataValidator_handle. cbn [nm_Skipper metadata_handler]. by rewrite Hskip.
  - unfold NamespaceProjectOrganizationMutator_handle. cbn [npo_Skipper organization_handler].
    rewrite Hskip by done. change (is_project req = false) in Hne. by rewrite Hne.
  - unfold ReservedResourceQuotaLimitRangeValidator_handle. cbn [rr_Skipper reserved_handler]. by rewrite Hskip.
  - unfold ServiceCloudscaleLBValidator_handle. cbn [lb_Skipper cloudscale_handler]. by rewrite Hskip.
  - unfold NamespaceQuotaValidator_handle. cbn [nq_Skipper quota_handler].
    by destruct Hex' as [[=]|[_ ->]].
  - by destruct Hex' as [[=]|[[=] _]].
  - by destruct Hex' as [[=]|[[=] _]].
Qed.
(** With the flag of the webhook for organizations off, requests for projects are still
    answered as if nobody were exempt. *)
Theorem main_projects_checked fl m w req :
  main lib fl new_manager = inr (tt, m) ->
  mgr_Webhooks m !! "/mutate-namespace-project-organization" = Some w ->
  namespaceProjectOrganizationMutatorEnabled fl = false -> is_project req = true ->
  exists conf ws, read_config lib fl = inr (conf, ws) /\
    webhook_Handle w req = Some (NamespaceProjectOrganizationMutator_handle {|
      npo_Skipper := fun _ => (false, None);
      npo_OrganizationLabel := Config.OrganizationLabel conf;
      npo_UserDefaultOrganizationAnnotation := Config.UserDefaultOrganizationAnnotation conf |} req).
Proof.
  intros Hm Hw Hoff Hp. destruct (started_at 2 _ _ _ _ Hm Hw) as (conf & self & Hst & _ & Heq).
  destruct (st_config _ _ _ _ Hst) as [ws Hc]. exists conf, ws. split; [done|].
  specialize (Heq _ eq_refl).
  subst w. unfold webhook_Handle, NamespaceProjectOrganizationMutator_Handle, logAdmissionResponse.
  cbn [snd]. unfold NamespaceProjectOrganizationMutator_handle.
  cbn [npo_Skipper organization_handler]. rewrite Hoff, enabled_skipper_off, Hp. cbn [andb negb].
  destruct (Decode req); reflexivity.
Qed.

(** C22: the legacy controller and the webhook of its objects agree on their names: whatever
    quota or limit range a run of the controller changes, also one that fails or stops halfway,
    is one whose change the webhook denies to those who are not exempt. *)
Theorem legacy_objects_reserved `{ControllerReference} `{ParseLib Quantity} fl m v r key s s' req k :
  main lib fl new_manager = inr (tt, m) ->
  LegacyResourceQuotaController r ∈ mgr_Controllers m ->
  mgr_Webhooks m !! "/validate-reserved-resourcequota-limitrange" = Some (ReservedWebhook v) ->
  reach legacy_step alone (LegacyResourceQuotaReconciler_Reconcile r key) s s' ->
  rr_Skipper v req = (false, None) -> req_Name req = key_Name k ->
  gvk_Kind (req_Kind req) = "ResourceQuota" /\ ls_quotas s' !! k <> ls_quotas s !! k \/
  gvk_Kind (req_Kind req) = "LimitRange" /\ ls_limits s' !! k <> ls_limits s !! k ->
  exists resp, webhook_Handle (LS := LS) (Dec := Dec) (ReservedWebhook v) req = Some resp /\
    resp_Allowed resp = false.
Proof.
  intros Hm Hr Hw Hreach Hskip Hname Hch. eexists. split; [done|].
  destruct (started_at 3 _ _ _ _ Hm Hw) as (conf & self & Hst & Hcs & Heq).
  specialize (Heq _ eq_refl). injection Heq as ->. rewrite Hcs in Hr.
  assert (r = legacy_reconciler conf) as ->.
  { unfold controller_table, controller_if in Hr. revert Hr. repeat case_match; set_solver. }
  destruct (reconcile_writes (legacy_reconciler conf) key s s s') as [Hq Hl]; [by split|done|].
  unfold ReservedResourceQuotaLimitRangeValidator_Handle, logAdmissionResponse. cbn [snd].
  unfold ReservedResourceQuotaLimitRangeValidator_handle. rewrite Hskip, Hname.
  destruct Hch as [[-> Hch]|[-> Hch]].
  - destruct (Hq _ Hch) as [spec Hspec]. rewrite bool_decide_eq_true_2 by done.
    rewrite (proj2 (slices_Contains_spec _ _)); [simpl; auto with agent|].
    apply list_elem_of_fmap. exists (key_Name k, spec). by rewrite range_map_elem.
  - rewrite bool_decide_eq_false_2, bool_decide_eq_true_2 by done.
    rewrite (Hl _ Hch). cbn [andb reserved_handler rr_ReservedLimitRangeNames].
    rewrite (proj2 (slices_Contains_spec _ _)); [auto with agent|left].
Qed.

(** An agent with usage profiles but without a selected profile and without the legacy quota
    denies every namespace of requesters that are not exempt. *)
Theorem quota_without_profile fl m v req :
  main lib fl new_manager = inr (tt, m) ->
  mgr_Webhooks m !! "/validate-namespace-quota" = Some (QuotaWebhook v) ->
  selectedUsageProfile fl = "" -> legacyNamespaceQuotaEnabled fl = false ->
  disableUsageProfiles fl = false -> nq_Skipper v req = (false, None) ->
  exists resp, webhook_Handle (LS := LS) (Dec := Dec) (Quantity := Quantity) (QuotaWebhook v) req = Some resp /\
    resp_Allowed resp = false.
Proof.
  intros Hm Hw Hp Hl Hd Hskip. eexists. split; [done|].
  destruct (started_at 5 _ _ _ _ Hm Hw) as (conf & self & Hst & _ & Heq).
  specialize (Heq _ eq_refl). injection Heq as ->.
  unfold NamespaceQuotaValidator_Handle, logAdmissionResponse. cbn [snd].
  unfold NamespaceQuotaValidator_handle. rewrite Hskip. destruct (Decode req) as [|raw]; [auto with agent|].
  set (v := quota_handler _ _ _).
  destruct (NamespaceQuotaValidator_organization v req raw) as [resp|org] eqn:Eo;
    [by apply organization_denies in Eo|].
  assert (nq_SkipValidateQuota v = false) as -> by (simpl; by rewrite Hd).
  destruct (NamespaceQuotaValidator_base_limit v) as [resp|limit] eqn:Eb;
    [by apply base_limit_denies in Eb|].
  apply base_limit_spec in Eb as [E|profile _ Hne _]; simpl in *; congruence.
Qed.
End serving.

(** ** The theorems on an example: an agent in an empty cluster *)
Import Fake FakeDec.
#[local] Existing Instances fake_parse lq_owned.
#[local] Existing Instances mn_quantity mn_selectors mn_get mn_list mn_decoder.

Definition mn_manager (enabled : bool) : Manager (gmap string string) Z Q unit Z := {|
  mgr_Webhooks := list_to_map (webhook_table (mn_flags enabled) mn_config
    (privileged_skipper mn_config mn_self));
  mgr_Controllers := controller_table (mn_flags enabled) mn_config |}.

Lemma mn_startable enabled : startable mn_lib (mn_flags enabled) mn_config mn_self.
Proof.
  split; [by eexists|done|by eapply by_kubeconfig|done|done|done| |done|done].
  by apply Forall_forall.
Qed.

Lemma mn_started enabled : main mn_lib (mn_flags enabled) new_manager = inr (tt, mn_manager enabled).
Proof.
  pose proof (outcome_iff _ _ _ _ _ (steps_ok_startable mn_lib (mn_flags enabled))
    (main_steps mn_lib (mn_flags enabled))) as Ho. unfold outcome in Ho.
  destruct (main _ _ _) as [[]|[[] m]]; [|done|].
  - destruct Ho. exists mn_config, mn_self. apply mn_startable.
  - destruct Ho as (_ & [conf ws] & self & [= <- _] & [= <-] & ->). done.
Qed.

(** The entry of the table under a path. *)
Lemma mn_served enabled i path w :
  webhook_table (mn_flags enabled) mn_config (privileged_skipper mn_config mn_self) !! i = Some (path, w) ->
  mgr_Webhooks (mn_manager enabled) !! path = Some w.
Proof.
  intros Hi%list_elem_of_lookup_2. apply (elem_of_list_to_map_1 (M := gmap string)); [|done].
  apply (bool_decide_unpack _). by vm_compute.
Qed.

Lemma main_outcome_witness : exists m, main mn_lib (mn_flags true) new_manager = inr (tt, m).
Proof.
  apply (main_outcome mn_lib (mn_flags true)). exists mn_config, mn_self. apply mn_startable.
Defined.

(** The agent updates one of its own quotas. *)
Lemma main_exempts_witness :
  webhook_Handle (Dec := Q) (LS := gmap string string) (ReservedWebhook
      (reserved_handler (mn_flags true) mn_config (privileged_skipper mn_config mn_self)))
    (mn_request (Username mn_self) "ResourceQuota" "compute") =
  Some (admission_Allowed "skipped").
Proof.
  apply (main_exempts mn_lib (mn_flags true) (mn_manager true)
    "/validate-reserved-resourcequota-limitrange" _ mn_self).
  - apply mn_started.
  - by apply (mn_served true 3).
  - reflexivity.
  - reflexivity.
  - reflexivity.
  - right. split; [|reflexivity]. apply (bool_decide_unpack _). by vm_compute.
  - reflexivity.
Defined.

Lemma main_projects_checked_witness :
  exists conf ws, read_config mn_lib (mn_flags false) = inr (conf, ws) /\
    webhook_Handle (Dec := Q) (LS := gmap string string) (OrganizationWebhook
        (organization_handler (mn_flags false) mn_config (privileged_skipper mn_config mn_self)))
      (mn_request "alice" "Project" "web") =
    Some (NamespaceProjectOrganizationMutator_handle {|
      npo_Skipper := fun _ => (false, None);
      npo_OrganizationLabel := Config.OrganizationLabel conf;
      npo_UserDefaultOrganizationAnnotation := Config.UserDefaultOrganizationAnnotation conf |}
      (mn_request "alice" "Project" "web")).
Proof.
  apply (main_projects_checked mn_lib (mn_flags false) (mn_manager false)).
  - apply mn_started.
  - by apply (mn_served false 2).
  - reflexivity.
  - reflexivity.
Defined.

(** Alice may not change the quota that the controller writes for her namespace. *)
Lemma legacy_objects_reserved_witness :
  exists resp, webhook_Handle (Dec := Q) (LS := gmap string string) (ReservedWebhook
      (reserved_handler (mn_flags true) mn_config (privileged_skipper mn_config mn_self)))
    (mn_request "alice" "ResourceQuota" "compute") = Some resp /\ resp_Allowed resp = false.
Proof.
  apply (legacy_objects_reserved mn_lib (mn_flags true) (mn_manager true) _ lq_reconciler
    (name_key "web") lq_before lq_after _ (lq_key "compute")).
  - apply mn_started.
  - unfold mn_manager, controller_table. cbn [mgr_Controllers]. repeat (apply elem_of_app; right). by apply list_elem_of_singleton.
  - by apply (mn_served true 3).
  - eapply exec_reach, lq_run.
  - by vm_compute.
  - reflexivity.
  - left. split; [reflexivity|]. by vm_compute.
Defined.

Lemma quota_without_profile_witness :
  exists resp, webhook_Handle (Dec := Q) (LS := gmap string string) (Quantity := Z) (QuotaWebhook
      (quota_handler (mn_flags true) mn_config (privileged_skipper mn_config mn_self)))
    (mn_request "alice" "Namespace" "web") = Some resp /\ resp_Allowed resp = false.
Proof.
  apply (quota_without_profile mn_lib (mn_flags true) (mn_manager true)).
  - apply mn_started.
  - by apply (mn_served true 5).
  - reflexivity.
  - reflexivity.
  - reflexivity.
  - by vm_compute.
Defined.
