(* ===== verification/NamespaceAdmission.v ===== *)
(** * The admission of a namespace

    What decides whether a user gets a namespace is spread over the agent: controllers copy
    groups, default organizations and usage profiles from the control API; the organization
    webhook (webhooks/namespace_project_organization_mutator.go) reads the first two, and the
    quota webhook (webhooks/namespace_quota_validator.go) the third, on the object that the first
    webhook has patched.  Here they are put together: when the controllers rest, the decision is
    one about the objects of the control API. *)
From S2P Require Import Prelude GoStd Kube Fake Skipper Api Webhook NamespaceQuota.
From S2P Require Import ProjectOrganization Effects Workqueue Drain GroupSync GroupController UserSync.
From S2P Require Import UserController Limits LegacyQuota Config CommandLine Main.

(** The reads of a webhook, from the objects that a controller maintains. *)
Definition stored {V} (not_found : error) (store : gmap string V) : ClientGet V := fun k =>
  match store !! key_Name k with Some v => inr v | None => inl not_found end.

(** The object of a request, however it is encoded. *)
Definition decoded (raw : json) : Decoder json := {|
  Decode := fun _ => inr raw; DecodeRaw := fun _ => inr raw |}.

(** [NestedString] of a string, and where [GetKind] looks. *)
Class NestedLaws `{UnstructuredLib} : Prop := {
  NestedString_found j p s : json_path p j = Some (JStr s) -> u_NestedString j p = (s, true, None);
  GetKind_path j j' : json_path ["kind"] j' = json_path ["kind"] j -> u_GetKind j' = u_GetKind j;
}.

Section admission.
Context `{AdmissionLib} `{ApiErrors} `{UnstructuredLib}.
Context `{ClientGet User} `{ClientGet Group} `{ClientGet Namespace}.
Context `{ClientGet ZoneUsageProfile} `{ClientGet ConfigMap}.

(** The API server calls mutating webhooks first, applies their patches, and calls validating
    webhooks with the result; the request is admitted when all of them allow it. *)
Definition namespace_admitted (m : NamespaceProjectOrganizationMutator)
    (v : NamespaceQuotaValidator) (nss : list Namespace) (req : AdmissionRequest) (raw : json) : bool :=
  let mutated := let D := decoded raw in NamespaceProjectOrganizationMutator_handle m req in
  resp_Allowed mutated &&
  match apply_patch (resp_Patches mutated) raw with
  | Some raw' =>
      let D := decoded raw' in
      let LN : ClientList Namespace := cluster_list nss in
      resp_Allowed (NamespaceQuotaValidator_handle v req)
  | None => false
  end.
End admission.

(** ** The clusters

    The objects of the three controllers that copy from the control API, when they rest. *)
Record copies := {
  cp_groups : group_state;
  cp_users : user_state;
  cp_profiles : profile_state;
}.

Section copies.
Context `{ApiErrors} `{FinalizerLib}.

Record copied (r : GroupSyncReconciler) (zero : ZoneUsageProfileSpec) (c : copies) : Prop := {
  copied_groups : rests group_step anything (GroupSyncReconciler_Reconcile r) group_watch
    group_requests (cp_groups c);
  copied_users : rests user_step anything UserAttributeSyncReconciler_Reconcile user_watch
    user_requests (cp_users c);
  copied_profiles : rests profile_step anything (ZoneUsageProfileSyncReconciler_Reconcile zero)
    profile_watch profile_requests (cp_profiles c);
}.
End copies.

(** *** What the control API says *)

(** The organization that the object names, or else the default of the requester. *)
Definition wanted_organization (requested : string) (up : UpstreamUser) : string :=
  if bool_decide (requested = "") then DefaultOrganizationRef up else requested.

(** The organization (or the team) of the name is in the control API, or has no group in the
    cluster: that is, its group is none that the controller leaked (theorem [group_leak]). *)
Definition not_leaked (s : group_state) (org : string) : Prop :=
  is_Some (gs_upstream s !! upstream_ref org) \/ gs_groups s !! org = None.

(** The user is a member of the organization (or the team) of the name. *)
Definition upstream_member (s : group_state) (org user : string) : Prop :=
  exists g, gs_upstream s !! upstream_ref org = Some g /\ up_DeletionTimestamp g = None /\
    user ∈ ref_Name <$> up_ResolvedUserRefs g.

(** ** Lemmas *)
Section lemmas.
Context `{AdmissionLaws} `{ApiErrorsLaws} `{FinalizerLaws} `{UnstructuredLaws}.
Implicit Types (m : NamespaceProjectOrganizationMutator) (req : AdmissionRequest).

(** A group has the members that the control API says. *)
Lemma stored_member r nf s org user :
  group_synced r org s -> not_leaked s org ->
  (exists group, stored nf (gs_groups s) (name_key org) = inr group /\ user ∈ group_Users group) <->
  upstream_member s org user.
Proof.
  unfold group_synced, upstream_member, stored, not_leaked. simpl. intros Hs Hk.
  destruct (gs_upstream s !! upstream_ref org) as [g|] eqn:Hg.
  2: { destruct Hk as [[? ?]|Hk]; [done|]. rewrite Hk. naive_solver. }
  split.
  - intros (group & Hget & Hin). exists g. split; [done|].
    destruct (gs_groups s !! org) as [group'|] eqn:Eg; [|done]. injection Hget as ->.
    destruct (up_DeletionTimestamp g); [by destruct Hs|]. split; [done|].
    destruct Hs as [Hu _]. injection Hu as Hu. by rewrite Hu, Sort_perm in Hin.
  - intros (g' & [= <-] & Hdel & Hin). rewrite Hdel in Hs. destruct Hs as [Hu _].
    apply fmap_Some in Hu as (group & -> & Hu). exists group. split; [done|].
    rewrite <- Hu. by rewrite Sort_perm.
Qed.

(** The patch leaves the kind alone. *)
Lemma orgLabelPatch_kind m raw org md raw' :
  json_path ["metadata"] raw = Some (JObj md) ->
  apply_patch [orgLabelPatch m raw org] raw = Some raw' -> json_path ["kind"] raw' = json_path ["kind"] raw.
Proof.
  intros Hmd. rewrite apply_patch_single. unfold orgLabelPatch.
  destruct (u_NestedStringMap raw _) as [[ls []] e] eqn:E.
  - rewrite (apply_op_add _ ["metadata"; "labels"; npo_OrganizationLabel m])
      by apply (parse_pointer_escaped "metadata/labels").
    intros Ha. eapply json_add_other; [exact Ha|..]; by intros [? ?].
  - rewrite (apply_op_add _ ["metadata"; "labels"]) by done.
    intros Ha. eapply json_add_other; [exact Ha|..]; by intros [? ?].
Qed.

(** A user's default organization is the one that the control API says. *)
Lemma stored_default s user up u :
  user_synced user s -> us_upstream s !! user = Some up -> us_users s !! user = Some u ->
  user_Name u = user ->
  nilmap_get (user_Annotations u) DefaultOrganizationAnnotation = DefaultOrganizationRef up.
Proof.
  unfold user_synced, has_organization, nilmap_get. intros Hs Hup Hu. rewrite Hup, Hu in Hs.
  intros Hname. specialize (Hs Hname). by destruct (user_Annotations u).
Qed.
End lemmas.

(** ** The decision on the data of the control API *)

(** The agent runs with the webhook for organizations and with usage profiles, and does not exempt
    the request. *)
Record profile_mode (fl : Flags) (annotation : string) (psk : Skipper) (req : AdmissionRequest) : Prop := {
  mode_skipper : psk req = (false, None);
  mode_organizations : namespaceProjectOrganizationMutatorEnabled fl = true;
  mode_profiles : disableUsageProfiles fl = false;
  mode_legacy : legacyNamespaceQuotaEnabled fl = false;
  mode_selected : selectedUsageProfile fl <> "";
  mode_annotation : annotation = DefaultOrganizationAnnotation;
}.

(** A user asks for a namespace. *)
Record namespace_request `{UnstructuredLib} (req : AdmissionRequest) (raw : json) : Prop := {
  request_kind : is_project req = false;
  request_object : u_GetKind raw = "Namespace";
  request_metadata : exists md, json_path ["metadata"] raw = Some (JObj md);
  request_user : is_service_account (Username (req_UserInfo req)) = false;
}.

Section decision.
Context `{AdmissionLib} {HA : AdmissionLaws} `{ApiErrors} {HE : ApiErrorsLaws}.
Context `{FinalizerLib} {HF : FinalizerLaws}.
Context `{UnstructuredLib} {HU : UnstructuredLaws} {HN : NestedLaws}.
Context `{ClientGet ConfigMap} `{ClientGet Namespace}.
Context {LS Quantity Dec Scopes LRS : Type}.
Context (not_found : error) (r : GroupSyncReconciler) (zero : ZoneUsageProfileSpec) (c : copies).
Context (fl : Flags) (conf : Config LS Quantity Dec (ResourceQuotaSpec Quantity Scopes) LRS).
Context (psk : Skipper) (req : AdmissionRequest) (raw : json).

Abbreviation user := (Username (req_UserInfo req)).
Abbreviation label := (Config.OrganizationLabel conf).
#[local] Instance users : ClientGet User := stored not_found (us_users (cp_users c)).
#[local] Instance groups : ClientGet Group := stored not_found (gs_groups (cp_groups c)).
#[local] Instance profiles : ClientGet ZoneUsageProfile := stored not_found (ps_profiles (cp_profiles c)).
Abbreviation mutator := (organization_handler fl conf psk).
Abbreviation validator := (quota_handler fl conf psk).

Context (Hcopied : copied r zero c).
Context (Hmode : profile_mode fl (Config.UserDefaultOrganizationAnnotation conf) psk req).
Context (Hreq : namespace_request req raw).

(** What the control API says about the requester and the organization. *)
Context (up : UpstreamUser) (u : User).
Context (Hup : us_upstream (cp_users c) !! user = Some up).
Context (Hu : us_users (cp_users c) !! user = Some u) (Hname : user_Name u = user).

Definition target : string :=
  wanted_organization (map_get (u_GetLabels raw) label) up.

Context (Hknown : not_leaked (cp_groups c) target).

Abbreviation mutated := (let D := decoded raw in NamespaceProjectOrganizationMutator_handle mutator req).

Lemma requester_user : requester req raw = user.
Proof using Hreq. unfold requester. by rewrite (request_kind _ _ Hreq). Qed.

Lemma mutated_user : mutated = handleUserRequested mutator (requester req raw) raw.
Proof using Hmode Hreq.
  rewrite requester_user. unfold NamespaceProjectOrganizationMutator_handle. destruct Hmode, Hreq.
  cbn [npo_Skipper organization_handler]. rewrite mode_organizations0, enabled_skipper_on.
  rewrite mode_skipper0, request_kind0. simpl. unfold handleNamespace.
  unfold is_service_account in request_user0. by rewrite request_user0.
Qed.

(** Being authorized is to be a member of the organization that is asked for. *)
Lemma authorized_target org :
  authorized mutator req raw org <-> org = target /\ target <> "" /\ upstream_member (cp_groups c) target user.
Proof using HF Hcopied Hmode Hreq Hup Hu Hname Hknown.
  pose proof (stored_member r not_found (cp_groups c) target user
    (rests_synced _ _ _ _ _ _ _ (copied_groups _ _ _ Hcopied) target) Hknown) as Hmember.
  pose proof (stored_default _ _ _ _ (rests_synced _ _ _ _ _ _ _ (copied_users _ _ _ Hcopied) user) Hup Hu Hname)
    as Hdefault.
  assert (Hget : client_Get (name_key user) = inr u).
  { unfold client_Get, users, stored. simpl. by rewrite Hu. }
  assert (Hreq_org : requested_org mutator raw = map_get (u_GetLabels raw) label) by done.
  assert (Hann : npo_UserDefaultOrganizationAnnotation mutator = DefaultOrganizationAnnotation)
    by apply (mode_annotation _ _ _ _ Hmode).
  rewrite <- Hmember. unfold target, wanted_organization. rewrite <- Hreq_org. split.
  - intros [user' group org' Hsa Hg Ho Hne Hgg Hin|a b nsName d ns org' _ Hsa]; rewrite requester_user in *;
      [|by rewrite (request_user _ _ Hreq) in Hsa].
    assert (user' = u) as -> by congruence. rewrite Hann, Hdefault in Ho.
    assert ((if bool_decide (requested_org mutator raw = "") then DefaultOrganizationRef up
             else requested_org mutator raw) = org') as ->
      by (destruct Ho as [<-|[-> <-]]; [by rewrite bool_decide_eq_false_2|done]).
    split_and!; [done..|]. by exists group.
  - intros (-> & Hne & group & Hgg & Hin). eapply (auth_member _ _ _ u group); rewrite ?requester_user; try done.
    + apply (request_user _ _ Hreq).
    + rewrite Hann, Hdefault. case_bool_decide; auto.
Qed.

(** The webhook for organizations, and the object that it makes of the one that is asked for. *)
Lemma mutated_allowed :
  resp_Allowed mutated = true <-> target <> "" /\ upstream_member (cp_groups c) target user.
Proof using HA HF HU Hcopied Hmode Hreq Hup Hu Hname Hknown.
  rewrite mutated_user.
  assert (Hsa : is_service_account (requester req raw) = false)
    by (rewrite requester_user; apply (request_user _ _ Hreq)).
  split.
  - intros (org & Ha%authorized_target & _)%handleUserRequested_allowed; [by destruct Ha as [_ ?]|done].
  - intros Hm. apply (handleUserRequested_complete _ _ _ target); [by apply authorized_target|done].
Qed.

Lemma mutated_object :
  resp_Allowed mutated = true -> exists raw', apply_patch (resp_Patches mutated) raw = Some raw' /\
    u_GetLabels raw' !! label = Some target /\ u_GetKind raw' = "Namespace".
Proof using HA HF HU HN Hcopied Hmode Hreq Hup Hu Hname Hknown.
  rewrite mutated_user. intros Ha. destruct (request_metadata _ _ Hreq) as [md Hmd].
  apply handleUserRequested_allowed in Ha as (org & Hauth & Hops);
    [|rewrite requester_user; apply (request_user _ _ Hreq)].
  pose proof (authorized_nonempty _ _ _ _ Hauth) as Hne.
  apply authorized_target in Hauth as [-> _].
  destruct (label_after_patches _ _ _ _ _ Hmd Hne Hops) as (raw' & Hp & Hl).
  exists raw'. split; [done|]. rewrite Hl, lookup_insert_eq. split; [done|].
  rewrite <- (request_object _ _ Hreq). apply GetKind_path.
  destruct Hops as [[_ Hops]|[_ Hops]]; rewrite Hops in Hp; [by injection Hp as ->|].
  by eapply orgLabelPatch_kind.
Qed.

(** The webhook for the quota, on the object that the first webhook has made. *)
Context (upp : UsageProfile).
Context (Hupp : ps_upstream (cp_profiles c) !! selectedUsageProfile fl = Some upp).
Context (Huppname : up_Name upp = selectedUsageProfile fl).

Lemma base_upstream :
  NamespaceQuotaValidator_base_limit validator = inr (NamespaceCount (up_Spec upp)).
Proof using HE Hcopied Hmode Hupp Huppname.
  pose proof (rests_synced _ _ _ _ _ _ _ (copied_profiles _ _ _ Hcopied) (selectedUsageProfile fl)) as Hs.
  unfold profile_in_order in Hs. rewrite Hupp in Hs. specialize (Hs Huppname).
  apply fmap_Some in Hs as (p & Hp & Hspec).
  unfold NamespaceQuotaValidator_base_limit. cbn [nq_EnableLegacyNamespaceQuota quota_handler nq_SelectedProfile].
  rewrite (mode_legacy _ _ _ _ Hmode), bool_decide_eq_false_2 by apply (mode_selected _ _ _ _ Hmode).
  unfold client_Get, profiles, stored. simpl. by rewrite Hp, Hspec.
Qed.

(** Below the limit of the organization: that of the override, or else of the control API. *)
Definition below_limit (nss : list Namespace) : Prop :=
  exists limit,
    NamespaceQuotaValidator_override validator target (NamespaceCount (up_Spec upp)) = inr limit /\
    (Z.of_nat (org_count label target nss) < limit)%Z.

Lemma labelled_organization raw' :
  u_GetLabels raw' !! label = Some target -> u_GetKind raw' = "Namespace" -> target <> "" ->
  NamespaceQuotaValidator_organization validator req raw' = inr target.
Proof using HU HN.
  intros Hl Hk Ht. apply organization_spec. apply (org_from_label _ _ _ _ true); [done| |done].
  apply NestedString_found. cbn [nq_OrganizationLabel quota_handler].
  assert (exists m, json_path ["metadata"; "labels"] raw' = Some (json_of_map m) /\ m !! label = Some target)
    as (m & Hm & Hlm).
  { rewrite GetLabels_spec in Hl. destruct (u_NestedStringMap _ _) as [[m []] e] eqn:E; [|by rewrite lookup_empty in Hl].
    apply NestedStringMap_found in E as [E _]. by exists m. }
  change ["metadata"; "labels"; label] with (["metadata"; "labels"] ++ [label]).
  rewrite json_path_app, Hm. simpl. by rewrite lookup_fmap, Hlm.
Qed.

Lemma quota_below nss raw' :
  u_GetLabels raw' !! label = Some target -> u_GetKind raw' = "Namespace" -> target <> "" ->
  (let D := decoded raw' in let LN : ClientList Namespace := cluster_list nss in
   resp_Allowed (NamespaceQuotaValidator_handle validator req)) = true <-> below_limit nss.
Proof using HA HE HU HN Hcopied Hmode Hupp Huppname.
  intros Hl Hk Ht. cbv zeta. pose proof (labelled_organization raw' Hl Hk Ht) as Ho.
  assert (Hsk : nq_SkipValidateQuota validator = false).
  { cbn [nq_SkipValidateQuota quota_handler]. by rewrite (mode_profiles _ _ _ _ Hmode). }
  rewrite (quota_allowed validator req (mode_skipper _ _ _ _ Hmode) Hsk). unfold below_limit.
  destruct (cluster_list_count label target nss) as (l & Hlist & Hlen).
  split.
  - intros (raw'' & org & limit & nsl & [= <-] & Horg & Hlim & Hls & Hlt).
    apply organization_spec in Horg. assert (org = target) as -> by congruence.
    apply limit_spec in Hlim as (base & Hb & Hov). rewrite base_upstream in Hb. injection Hb as <-.
    exists limit. split; [done|]. change (cluster_list nss [MatchingLabels {[label := target]}] = inr nsl) in Hls.
    rewrite Hlist in Hls. injection Hls as <-. by rewrite <- Hlen.
  - intros (limit & Hov & Hlt). exists raw', target, limit, l.
    split_and!; [done|by apply organization_spec| |exact Hlist|by rewrite Hlen].
    apply limit_spec. eexists. split; [apply base_upstream|done].
Qed.

(** C1: the webhook for organizations and the usage profiles are enabled, the legacy quota is not, a
    profile is selected that is in the control API, the annotation configured for default
    organizations is the one that the agent writes, and the controllers that copy from the control
    API have nothing to do. Then a user (no service account) whom neither webhook exempts, who is
    known to the control API and to the cluster, and who asks for a Namespace, gets it exactly when
    the organization that they ask for, or else their default one, has them as a member and has
    fewer namespaces than its limit: all of it as the control API says, apart from the override of
    the limit. The organization is one that the control API has or that has no group in the cluster,
    so not that of a leaked group, which this does not claim to be refused. *)
Theorem namespace_admission nss :
  namespace_admitted mutator validator nss req raw = true <->
  target <> "" /\ upstream_member (cp_groups c) target user /\ below_limit nss.
Proof using HA HE HF HU HN Hcopied Hmode Hreq Hup Hu Hname Hknown Hupp Huppname.
  unfold namespace_admitted. cbv zeta. rewrite andb_true_iff.
  pose proof mutated_allowed as Hm. pose proof mutated_object as Ho. cbv zeta in Hm, Ho. split.
  - intros [Ha Hq]. destruct (Ho Ha) as (raw' & Hp & Hl & Hk). rewrite Hp in Hq.
    destruct (proj1 Hm Ha) as [Ht Hmem]. split_and!; [done..|]. by apply (quota_below nss raw').
  - intros (Ht & Hmem & Hb). assert (Ha := proj2 Hm (conj Ht Hmem)). split; [exact Ha|].
    destruct (Ho Ha) as (raw' & Hp & Hl & Hk). rewrite Hp. by apply (quota_below nss raw').
Qed.
End decision.

(** ** The theorem on an example: Alice asks for the first namespace of [acme] *)
Import Fake.
#[local] Existing Instances fake_finalizers fake_finalizers_laws.

#[local] Instance na_nested : NestedLaws.
Proof.
  split; [intros j p s E|intros j j' E]; cbn [u_NestedString u_GetKind fake_unstructured]; by rewrite E.
Qed.

#[local] Instance na_configmaps : ClientGet ConfigMap := fun _ => inl gs_not_found.
#[local] Instance na_namespaces : ClientGet Namespace := fun _ => inl gs_not_found.

(** The clusters when the agent starts, and when its controllers have come to rest. *)
Definition na_groups : group_state := {|
  gs_groups := ∅; gs_upstream := {[upstream_ref "acme" := gs_team [] None]} |}.

Definition na_copies : copies := {|
  cp_groups := sys_state (drain (GroupSyncReconciler_Reconcile gs_reconciler) group_watch
    (group_answer gs_not_found) (take_first "") (2 * size (group_requests na_groups))
    {| sys_state := na_groups; sys_queue := group_requests na_groups |});
  cp_users := sys_state (drain UserAttributeSyncReconciler_Reconcile user_watch
    (user_answer gs_not_found) (take_first "") (2 * size (user_requests us_before))
    {| sys_state := us_before; sys_queue := user_requests us_before |});
  cp_profiles := sys_state (drain (ZoneUsageProfileSyncReconciler_Reconcile pc_zero) profile_watch
    (profile_answer gs_not_found) (take_first "") (2 * size (profile_requests ps_before))
    {| sys_state := ps_before; sys_queue := profile_requests ps_before |}) |}.

Lemma na_copied : copied gs_reconciler pc_zero na_copies.
Proof.
  pose proof (group_settles gs_not_found gs_reconciler eq_refl).
  pose proof (user_settles gs_not_found eq_refl).
  pose proof (profile_settles gs_not_found pc_zero eq_refl).
  split.
  - exact (drain_rests group_step anything (GroupSyncReconciler_Reconcile gs_reconciler) group_watch
      group_requests (group_answer gs_not_found) (group_synced gs_reconciler) any_state
      (take_first "") na_groups (takes_first "") I).
  - exact (drain_rests user_step anything UserAttributeSyncReconciler_Reconcile user_watch
      user_requests (user_answer gs_not_found) user_synced users_named
      (take_first "") us_before (takes_first "") uc_named).
  - exact (drain_rests profile_step anything (ZoneUsageProfileSyncReconciler_Reconcile pc_zero)
      profile_watch profile_requests (profile_answer gs_not_found) profile_in_order profiles_named
      (take_first "") ps_before (takes_first "") pc_named).
Qed.

Definition na_flags : Flags := {|
  metricsAddr := ":8080"; enableLeaderElection := false; probeAddr := ":8082"; webhookCertDir := "";
  webhookPort := 9443; qps := 20; burst := 100;
  configFilePath := "config.yaml"; controlAPIKubeconfig := "kubeconfig"; controlAPIURL := "";
  upstreamZoneIdentifier := "z1"; selectedUsageProfile := "default";
  cloudscaleLoadbalancerValidationEnabled := true;
  namespaceProjectOrganizationMutatorEnabled := true; namespaceMetadataValidatorEnabled := true;
  legacyNamespaceQuotaEnabled := false; legacyResourceQuotaEnabled := false;
  podRunOnceActiveDeadlineSecondsMutatorEnabled := true;
  disableUserAttributeSync := false; disableGroupSync := false; disableUsageProfiles := false |}.

Definition na_skipper : Skipper := fun _ => (false, None).

Definition na_object : json := JObj {["kind" := JStr "Namespace"; "metadata" := JObj ∅]}.

Definition na_request : AdmissionRequest := mn_request "alice" "Namespace" "web".

Lemma na_up : us_upstream (cp_users na_copies) !! "alice" = Some {| DefaultOrganizationRef := "acme" |}.
Proof. by vm_compute. Qed.

#[local] Instance na_users : ClientGet User := users gs_not_found na_copies.
#[local] Instance na_group_reads : ClientGet Group := groups gs_not_found na_copies.
#[local] Instance na_profiles : ClientGet ZoneUsageProfile := profiles gs_not_found na_copies.

Lemma namespace_admission_witness :
  namespace_admitted (organization_handler na_flags mn_config na_skipper)
    (quota_handler na_flags mn_config na_skipper) [] na_request na_object = true.
Proof.
  refine (proj2 (namespace_admission gs_not_found gs_reconciler pc_zero na_copies na_flags mn_config
    na_skipper na_request na_object na_copied _ _ {| DefaultOrganizationRef := "acme" |}
    us_patched na_up _ eq_refl _ {| up_Name := "default"; up_Spec := ps_spec |} _ eq_refl []) _).
  - by split.
  - split; [reflexivity|reflexivity|by eexists|reflexivity].
  - by vm_compute.
  - left. eexists. by vm_compute.
  - by vm_compute.
  - split; [by vm_compute|]. split.
    + eexists. split; [by vm_compute|]. split; [done|]. by right; left.
    + eexists. split; [by vm_compute|]. by vm_compute.
Defined.
