(* ===== verification/NamespaceAccess.v ===== *)
(** * Access to the namespaces of an organization

    The groups that one controller copies from the control API (controllers/groupsync_controller.go)
    are the subjects of the role bindings that another one makes
    (controllers/org_rbac_controller.go).  Together they give the members of an organization, as
    the control API says, access to its namespaces. *)
From S2P Require Import Prelude GoStd Kube Fake Effects Workqueue Drain GroupSync GroupController.
From S2P Require Import Api OrgRBAC RbacController NamespaceAdmission.

(** Kubernetes gives a user the cluster role [cr] in a namespace by the role binding [rb] when a
    group is a subject of the binding and the user a member of the group. *)
Definition granted (groups : gmap string Group) (bindings : gmap (string * string) RoleBinding)
    (name rb cr user : string) : Prop :=
  exists b subject group, bindings !! (name, rb) = Some b /\
    ref_Kind (rb_RoleRef b) = "ClusterRole" /\ ref_Name (rb_RoleRef b) = cr /\
    subject ∈ rb_Subjects b /\ subj_Kind subject = "Group" /\
    groups !! subj_Name subject = Some group /\ user ∈ group_Users group.

(** What the reconciler makes of a binding that does not exist. *)
Record grants (org cr : string) (b : RoleBinding) : Prop := {
  grants_kind : ref_Kind (rb_RoleRef b) = "ClusterRole";
  grants_role : ref_Name (rb_RoleRef b) = cr;
  grants_subjects : rb_Subjects b = [group_subject org];
  grants_initialized : rolebindingIsUninitialized b = false;
}.

(** Others leave the organization of the namespace as it is, and write no default role binding for
    it, but they may delete one. *)
Record careful (r : OrganizationRBACReconciler) (name org rb : string) (s s' : rbac_state) : Prop := {
  careful_named k ns : rs_namespaces s' !! k = Some ns -> ns_Name ns = k;
  careful_organization ns : rs_namespaces s' !! name = Some ns -> getOrganization r ns = org;
  careful_binding : rs_bindings s' !! (name, rb) = rs_bindings s !! (name, rb) \/
    rs_bindings s' !! (name, rb) = None;
}.

Section access.
Context `{RangeOracle} `{ApiErrorsLaws} `{MultierrLaws} `{ControllerLaws}.
Context (r : OrganizationRBACReconciler) (name org rb cr : string).
Context (Hcr : or_DefaultClusterRoles r !! rb = Some cr).

(** The namespace belongs to the organization, and its binding was made for it, if there is one. *)
Record granting (s : rbac_state) : Prop := {
  granting_named k ns : rs_namespaces s !! k = Some ns -> ns_Name ns = k;
  granting_organization ns : rs_namespaces s !! name = Some ns -> getOrganization r ns = org;
  granting_binding b : rs_bindings s !! (name, rb) = Some b -> grants org cr b;
}.

Abbreviation others := (careful r name org rb).
Abbreviation kept_by_all p := (invariant rbac_step others granting p).

Lemma granting_stable : stable others granting.
Proof using Type.
  intros s s' [Hn Ho Hb] [_ _ Hg]. split; [exact Hn|exact Ho|]. intros b Eb.
  destruct Hb as [Hb|Hb]; rewrite Hb in Eb; [by apply Hg|done].
Qed.

Lemma initialize_grants ns old b :
  (forall b', old = Some b' -> grants org cr b') ->
  initialize ns org (default (new_rolebinding ns rb cr) old) = inr b -> grants org cr b.
Proof using Type*.
  intros Hold Hb. pose proof (initialize_in_order _ _ _ _ Hb) as [Hu _].
  apply initialize_put in Hb as [Hnew _ Hsame]. destruct old as [b'|].
  - destruct (Hold b' eq_refl) as [Hk Hr Hs Hi]. destruct (Hsame b' eq_refl Hi) as (Er & Es & _).
    split; [by rewrite Er|by rewrite Er|by rewrite Es|done].
  - destruct (Hnew eq_refl) as (Hk & Hr & Hs & _). by split.
Qed.

(** A call for a binding keeps what the controller gives. *)
Lemma put_default_granting ns org' entry :
  or_DefaultClusterRoles r !! entry.1 = Some entry.2 -> (ns_Name ns = name -> org' = org) ->
  kept_by_all (put_default ns org' entry).
Proof using Type*.
  destruct entry as [rb' cr']. cbn [fst snd]. intros Hcr' Horg.
  apply invariant_bind.
  - apply invariant_call; [exact granting_stable|]. intros s res s' [Hn Ho Hb] [res' m Hm].
    split; [exact Hn|exact Ho|]. intros b Eb. cbn [rs_bindings] in Eb.
    destruct (created_or_updated_cases _ _ _ _ _ _ Hm) as [[_ ->]|(v & Hv & ->)]; [by apply Hb|].
    cbn [rb_Namespace rb_Name new_rolebinding] in *.
    destruct (decide ((ns_Name ns, rb') = (name, rb))) as [[= En Erb]|Hne].
    + rewrite Erb in *. assert (cr' = cr) as -> by congruence. rewrite (Horg En) in Hv.
      rewrite En, lookup_insert_eq in Eb. injection Eb as <-. eapply initialize_grants; [|exact Hv].
      rewrite En. exact Hb.
    + rewrite lookup_insert_ne in Eb by done. by apply Hb.
  - intros [err|]; [|apply invariant_ret, granting_stable]. apply invariant_bind.
    + apply invariant_call; [exact granting_stable|]. by intros s [] s' [Hn Ho Hb] [].
    + intros _. apply invariant_ret, granting_stable.
Qed.

Lemma reconcile_granting k : kept_by_all (OrganizationRBACReconciler_Reconcile r k).
Proof using Type*.
  apply (invariant_trigger _ _ _ granting_stable _ (fun got =>
    forall ns, got = inr ns -> ns_Name ns = k /\ (k = name -> getOrganization r ns = org))).
  - intros s got s' Hs Hg. destruct Hg as [ns Hns|err ?|err ?]; (split; [exact Hs|]); [|done..].
    intros ns' [= <-]. split; [by apply (granting_named _ Hs)|]. intros ->.
    by apply (granting_organization _ Hs).
  - intros [err|ns] Hgot; [apply invariant_ret, granting_stable|].
    destruct (Hgot ns eq_refl) as [Hn Ho].
    destruct (ns_DeletionTimestamp ns); [apply invariant_ret, granting_stable|]. cbv zeta.
    case_bool_decide; [apply invariant_ret, granting_stable|].
    destruct (skipRBACManagement r ns); [apply invariant_ret, granting_stable|].
    apply invariant_bind; [|intros ?; apply invariant_ret, granting_stable].
    apply invariant_for_each; [exact granting_stable|]. intros [rb' cr'] Hin%range_map_elem.
    apply put_default_granting; [exact Hin|]. rewrite Hn. exact Ho.
Qed.

(** C2: when the controllers of groups and of role bindings have nothing to do, exactly those who
    are members of an organization in the control API have the role of a default role binding in a
    namespace of it, whatever happened since the agent started. This is so of a namespace that the
    reconciler manages (it is not being deleted and not opted out by its label) and whose
    organization never changed, of a binding that did not exist or was made for the organization
    when the agent started and that others may delete but do not write, and of an organization that
    the control API has or that has no group in the cluster: the members of a leaked group keep the
    role. *)
Theorem namespace_access g gs sys sys' ns `{!FinalizerLib} `{!FinalizerLaws} :
  rests group_step anything (GroupSyncReconciler_Reconcile g) group_watch group_requests gs ->
  not_leaked gs org ->
  granting (sys_state sys) -> started rbac_requests sys ->
  rtc (controller_step rbac_step others (OrganizationRBACReconciler_Reconcile r) rbac_watch
        rbac_requests id) sys sys' ->
  sys_queue sys' = ∅ ->
  rs_namespaces (sys_state sys') !! name = Some ns -> managed r ns ->
  forall user, granted (gs_groups gs) (rs_bindings (sys_state sys')) name rb cr user <->
    upstream_member gs org user.
Proof using Type*.
  intros Hrest Hup Hg Hs Hr Hq Hns Hm user.
  pose proof (controller_keeps rbac_step others (OrganizationRBACReconciler_Reconcile r) rbac_watch
    rbac_requests id granting sys sys' granting_stable reconcile_granting (fun _ h => h) Hr Hg) as Hg'.
  apply (controller_mono _ _ anything) in Hr; [|done].
  pose proof (always_at_rest _ _ _ _ _ _ sys sys' Hs Hr Hq name ns Hns
    (granting_named _ Hg' _ _ Hns) Hm rb (ex_intro _ cr Hcr)) as (b & Hb & _).
  pose proof (granting_binding _ Hg' _ Hb) as [Hk Hrole Hsub _].
  rewrite <- (stored_member g (ErrorString "") gs org user
    (rests_synced _ _ _ _ _ _ _ Hrest org) Hup). unfold stored. split.
  - intros (b' & subject & group & Hb' & _ & _ & Hin & _ & Hgroup & Huser). assert (b' = b) as -> by congruence.
    rewrite Hsub in Hin. apply list_elem_of_singleton in Hin as ->. exists group. simpl in *. by rewrite Hgroup.
  - intros (group & Hgroup & Huser). simpl in Hgroup. destruct (gs_groups gs !! org) as [group'|] eqn:Eg; [|done].
    injection Hgroup as ->. exists b, (group_subject org), group. rewrite Hsub. split_and!; try done. left.
Qed.
End access.

(** ** The theorem on an example: the namespace [web] of [acme], whose member is Alice *)
Import Fake.
#[local] Existing Instances fake_finalizers fake_finalizers_laws rb_owned rc_controller rc_laws rc_set_laws.

Lemma nx_granting : granting rb_reconciler "web" "acme" "admin" "admin" rb_old.
Proof.
  split; cbn [rb_old rs_namespaces rs_bindings].
  - intros k ns. rewrite lookup_singleton_Some. by intros [<- <-].
  - intros ns. rewrite lookup_singleton_Some. by intros [_ <-].
  - intros b. by rewrite lookup_empty.
Qed.

Lemma nx_rest_empty : sys_queue rc_rest = ∅.
Proof. by vm_compute. Qed.

Lemma namespace_access_witness :
  granted (gs_groups (cp_groups na_copies)) (rs_bindings (sys_state rc_rest)) "web" "admin" "admin" "alice".
Proof.
  refine (proj2 (namespace_access rb_reconciler "web" "acme" "admin" "admin" eq_refl gs_reconciler
    (cp_groups na_copies) rc_started rc_rest rb_namespace _ _ nx_granting _ _ nx_rest_empty _ _ "alice") _).
  - exact (copied_groups _ _ _ na_copied).
  - left. eexists. by vm_compute.
  - unfold started. reflexivity.
  - pose proof (rbac_settles rc_not_found eq_refl rb_reconciler) as HS.
    eapply drain_steps; [by eapply settles_answer|apply takes_first].
  - by vm_compute.
  - by repeat split; vm_compute.
  - eexists. split; [by vm_compute|]. split; [done|]. by right; left.
Defined.
