(* ===== verification/ZoneController.v ===== *)
(** * The controller of zone versions (controllers/zonek8sversion_controller.go)

    What the controller watches, and that the zones of the control API have the versions of this
    cluster when its queue is empty, as far as others leave alone what it does not watch: neither
    the zones nor the version of the API server are watched. *)
From S2P Require Import Prelude GoStd Kube Fake Effects Workqueue ZoneVersion.

#[export] Instance UpdateHistory_eq_dec : EqDecision UpdateHistory.
Proof. solve_decision. Defined.
#[export] Instance ClusterVersion_eq_dec : EqDecision ClusterVersion.
Proof. solve_decision. Defined.

(** ** The watches ([SetupWithManager]) *)
Definition zone_watch (s s' : zone_state) : gset string :=
  watching always for_object (zs_versions s) (zs_versions s').

Definition zone_requests (s : zone_state) : gset string := existing always for_object (zs_versions s).

(** The library recovers a panic of the reconciler, as an error. *)
Definition recovered (panic : error) (p : prog zone_call outcome) : prog zone_call (option error) :=
  res ← p; mret (match res with Returned err => err | Panicked => Some panic end).

(** ** Specification *)
Section zone_specification.
Context (json_Unmarshal : string -> error + VersionInfo) (r : ZoneK8sVersionReconciler).

Definition labelled (z : Zone) : Prop := zone_Labels z !! upstreamZoneIdentifierLabelKey = Some (ZoneID r).

Definition feature (z : Zone) (k : string) : option string := features ← zone_Features z; features !! k.

Record has_versions (k8sVersion ocpVersion : VersionInfo) (z : Zone) : Prop := {
  has_kubernetes : feature z kubernetesVersionFeatureKey = Some (formatVersion k8sVersion);
  has_openshift : feature z openshiftVersionFeatureKey = Some (formatVersion ocpVersion);
}.

(** The only cluster version of an OpenShift cluster; zones are found under their names. *)
Record zone_named (s : zone_state) : Prop := {
  named_version k cv : zs_versions s !! k = Some cv -> k = "version";
  named_zones k z : zs_zones s !! k = Some z -> zone_Name z = k;
}.

(** Others change the cluster version in any way.  They may change the zones of the control API, but
    add none with the label and leave the features alone that the reconciler writes. *)
Record zone_env (s s' : zone_state) : Prop := {
  env_named : zone_named s -> zone_named s';
  env_server : zs_server s' = zs_server s;
  env_zones k z' : zs_zones s' !! k = Some z' -> labelled z' ->
    exists z, zs_zones s !! k = Some z /\ labelled z /\
      feature z' kubernetesVersionFeatureKey = feature z kubernetesVersionFeatureKey /\
      feature z' openshiftVersionFeatureKey = feature z openshiftVersionFeatureKey;
}.

(** The versions of the cluster are in the zones that have its label. *)
Definition zones_synced (name : string) (s : zone_state) : Prop :=
  name = "version" -> forall cv, zs_versions s !! name = Some cv ->
  exists ocpVersion k8sVersion,
    extractOpenShiftVersion cv = Some (inr ocpVersion) /\ json_Unmarshal (zs_server s) = inr k8sVersion /\
    forall k z, zs_zones s !! k = Some z -> labelled z -> has_versions k8sVersion ocpVersion z.
End zone_specification.

(** ** Lemmas *)
Section zones.
Context `{ApiErrorsLaws} `{MultierrLaws}.
Context (json_Unmarshal : string -> error + VersionInfo) (r : ZoneK8sVersionReconciler) (panic : error).

Abbreviation reconcile := (fun name => recovered panic (ZoneK8sVersionReconciler_Reconcile json_Unmarshal r name)).
Abbreviation quiet name := (exec (quiet_step zone_step zone_watch name) (quiet_env (zone_env r) zone_watch name)).
Abbreviation quiet_changes name := (quiet_env (zone_env r) zone_watch name).

Lemma zone_watch_version name s s' : name ∉ zone_watch s s' -> zs_versions s' !! name = zs_versions s !! name.
Proof using Type. intros Hw. eapply watching_same; [|exact Hw]. intros v. apply list_elem_of_here. Qed.

(** Calls read, or write one zone under its name. *)
Lemma zone_step_cases X (c : zone_call X) s x s' :
  zone_step X c s x s' -> s' = s \/ exists z, s' = write_zone z s.
Proof using Type. intros Hx. destruct c; destruct Hx; eauto. Qed.

Lemma zone_named_kept : kept zone_step (zone_env r) zone_named.
Proof using Type.
  split; [by intros s s' []|]. intros X c s x s' [->|[z ->]]%zone_step_cases; [done|]. intros [Hv Hz].
  split; [exact Hv|]. intros k z'. cbn [write_zone zs_zones].
  intros [[<- <-]|[_ Hk]]%lookup_insert_Some; [done|by apply Hz].
Qed.

Lemma server_kept name v :
  kept (quiet_step zone_step zone_watch name) (quiet_changes name) (fun s => zs_server s = v).
Proof using Type.
  split; [intros s s' [[_ E _] _]; by rewrite E|].
  by intros X c s x s' [[->|[z ->]]%zone_step_cases _].
Qed.

Section versions.
Context (k8sVersion ocpVersion : VersionInfo).

Definition good_at (k : string) (s : zone_state) : Prop :=
  forall z, zs_zones s !! k = Some z -> labelled r z -> has_versions k8sVersion ocpVersion z.

(** Only the zones with these names have the label. *)
Definition confined (names : list string) (s : zone_state) : Prop :=
  forall k z, zs_zones s !! k = Some z -> labelled r z -> k ∈ names.

Lemma good_at_env k s s' : zone_env r s s' -> good_at k s -> good_at k s'.
Proof using Type.
  intros He Hg z Hz Hl. destruct (env_zones _ _ _ He _ _ Hz Hl) as (z0 & Hz0 & Hl0 & E1 & E2).
  destruct (Hg z0 Hz0 Hl0) as [H1' H2']. split; congruence.
Qed.

Lemma confined_env names s s' : zone_env r s s' -> confined names s -> confined names s'.
Proof using Type.
  intros He Hc k z Hz Hl. destruct (env_zones _ _ _ He _ _ Hz Hl) as (z0 & Hz0 & Hl0 & _). by eapply Hc.
Qed.

(** What the reconciler writes has the versions. *)
Lemma write_good k z features s :
  let w := with_features (<[openshiftVersionFeatureKey := formatVersion ocpVersion]>
    (<[kubernetesVersionFeatureKey := formatVersion k8sVersion]> features)) z in
  (k = zone_Name z \/ good_at k s) -> good_at k (write_zone w s).
Proof using Type.
  intros w Hk z'. cbn [w write_zone with_features zs_zones zone_Name zone_Labels zone_Features zone_Version].
  intros [[<- <-]|[Hne Hz]]%lookup_insert_Some Hl; [|by destruct Hk as [->|Hk]; [|apply Hk]].
  split; unfold feature; cbn [zone_Features mbind option_bind].
  - rewrite lookup_insert_ne by done. by rewrite lookup_insert_eq.
  - by rewrite lookup_insert_eq.
Qed.

Lemma write_confined names z features s :
  zone_Name z ∈ names -> confined names s -> confined names (write_zone (with_features features z) s).
Proof using Type.
  intros Hin Hc k z'. cbn [write_zone with_features zs_zones zone_Name].
  intros [[<- <-]|[_ Hz]]%lookup_insert_Some; [done|by apply Hc].
Qed.

Lemma good_at_stable name k : stable (quiet_changes name) (good_at k).
Proof using Type. intros s s' [He _]. by apply good_at_env. Qed.

Lemma confined_stable name names : stable (quiet_changes name) (confined names).
Proof using Type. intros s s' [He _]. by apply confined_env. Qed.

(** The loop: the zones get their versions and keep them. *)
Lemma update_zones_quiet name names errs zones s res s' :
  zone_Name <$> zones ⊆ names -> confined names s ->
  quiet name (update_zones k8sVersion ocpVersion errs zones) s res s' ->
  confined names s' /\ (forall k, good_at k s -> good_at k s') /\
  (res = Returned None -> Forall (fun e => e = None) errs /\
    forall z, z ∈ zones -> good_at (zone_Name z) s').
Proof using Type*.
  revert errs s. induction zones as [|z zones IH]; intros errs s Hin Hc Hx.
  { apply exec_ret in Hx as [-> Hr]. split_and!.
    - eapply stable_rtc; [apply confined_stable|exact Hr|done].
    - intros k. eapply stable_rtc; [apply good_at_stable|exact Hr].
    - intros [= E]. split; [by apply multierr_Combine_nil|by intros ? ?%not_elem_of_nil]. }
  cbn [update_zones] in Hx. rewrite fmap_cons in Hin.
  destruct (zone_Features z) as [features|].
  2:{ apply exec_ret in Hx as [-> Hr]. split_and!; [|intros k|done].
      - eapply stable_rtc; [apply confined_stable|exact Hr|done].
      - eapply stable_rtc; [apply good_at_stable|exact Hr]. }
  cbv zeta in Hx. apply exec_trigger in Hx as (s0 & err & s1 & Hr & [Hu _] & Hx).
  assert (Hc0 : confined names s0) by (eapply stable_rtc; [apply confined_stable|exact Hr|done]).
  assert (Hg0 : forall k, good_at k s -> good_at k s0)
    by (intros k; eapply stable_rtc; [apply good_at_stable|exact Hr]).
  assert (Hstep : confined names s1 /\ (forall k, good_at k s0 -> good_at k s1) /\
    (err = None -> good_at (zone_Name z) s1)).
  { assert (Hz : zone_Name z ∈ names) by (apply Hin; left).
    destruct Hu as [cur Hcur Hv|err|cur err Hcur Hv]; [|by split_and!|]; split_and!; try done;
      try (by apply write_confined); intros; apply write_good; auto. }
  destruct Hstep as (Hc1 & Hg1 & Hnew).
  assert (Hgo : exists errs', quiet name (update_zones k8sVersion ocpVersion errs' zones) s1 res s' /\
    (Forall (fun e => e = None) errs' -> Forall (fun e => e = None) errs /\ err = None)).
  { destruct err as [e|]; eexists; (split; [exact Hx|]); [|done].
    intros [_ He]%Forall_app. rewrite Forall_singleton in He. discriminate He. }
  destruct Hgo as (errs' & Hx' & Herrs).
  destruct (IH errs' s1) as (Hc' & Hg' & Hall); [|done|done|].
  { intros k Hk. apply Hin. by right. }
  split_and!; [done|auto|]. intros Er. destruct (Hall Er) as [He Hzs]. destruct (Herrs He) as [? Herr].
  split; [done|]. intros z' [->|Hz']%elem_of_cons; auto.
Qed.
End versions.

Lemma zones_synced_stays name s s' :
  zone_env r s s' -> name ∉ zone_watch s s' -> zones_synced json_Unmarshal r name s ->
  zones_synced json_Unmarshal r name s'.
Proof using Type.
  intros He Hq Hs Hname cv. rewrite (zone_watch_version _ _ _ Hq), (env_server _ _ _ He). intros Hcv.
  destruct (Hs Hname cv Hcv) as (ocp & k8s & Ho & Hk & Hz). exists ocp, k8s. split_and!; [done..|].
  intros k. apply (good_at_env k8s ocp k s s' He). intros z. apply Hz.
Qed.

(** A run that succeeds and does not see the cluster version change. *)
Lemma reconcile_synced name s s' :
  zone_named s -> quiet name (reconcile name) s None s' -> zones_synced json_Unmarshal r name s'.
Proof using Type*.
  intros Hnamed Hx. unfold recovered in Hx.
  apply exec_bind in Hx as (res & s1 & s2 & Hx & Hr2 & [Hres Hr3]).
  assert (res = Returned None) as -> by (destruct res as [[]|]; congruence). clear Hres.
  assert (Hst : stable (quiet_changes name) (zones_synced json_Unmarshal r name))
    by (intros t t' [He Hq]; by apply zones_synced_stays).
  eapply stable_rtc; [exact Hst|exact Hr3|]. eapply stable_rtc; [exact Hst|exact Hr2|].
  clear Hst Hr2 Hr3 s2 s'. intros _ cv Hcv.
  assert (Hnst : stable (quiet_changes name) zone_named) by (intros t t' [[He _ _] _]; exact He).
  unfold ZoneK8sVersionReconciler_Reconcile in Hx.
  rewrite exec_trigger in Hx. destruct Hx as (s2 & got & s3 & Hr2 & [Hg _] & Hx).
  pose proof (quiet_exec_view _ _ _ (fun t => zs_versions t !! name) _ (zone_watch_version name) _ _ _ _ Hx)
    as Hsame.
  cbv beta in Hsame. rewrite Hcv in Hsame.
  destruct Hg as [cv' Hcv'|err Hnone ?|err Hn]; [|by rewrite Hnone in Hsame|by apply exec_ret in Hx as [[=] _]].
  rewrite <- Hsame in Hcv'. injection Hcv' as <-.
  destruct (extractOpenShiftVersion cv) as [[err|ocp]|] eqn:Eo; [by apply exec_ret in Hx as [[=] _]| |
    by apply exec_ret in Hx as [[=] _]].
  rewrite exec_trigger in Hx. destruct Hx as (s4 & body & s5 & Hr4 & [Hb _] & Hx).
  destruct Hb as [|err]; [|by apply exec_ret in Hx as [[=] _]].
  destruct (json_Unmarshal (zs_server _)) as [err|k8s] eqn:Ej; [by apply exec_ret in Hx as [[=] _]|].
  pose proof (exec_keeps _ _ _ _ _ _ _ (server_kept name _) Hx eq_refl) as Hserver.
  rewrite exec_trigger in Hx. destruct Hx as (s6 & zones & s7 & Hr6 & [Hl _] & Hx).
  destruct Hl as [zones Hnd Hzones|err]; [|by apply exec_ret in Hx as [[=] _]].
  assert (Hn6 : zone_named s6).
  { eapply stable_rtc; [exact Hnst|exact Hr6|]. eapply stable_rtc; [exact Hnst|exact Hr4|].
    by eapply stable_rtc; [exact Hnst|exact Hr2|]. }
  assert (Hlisted : confined (zone_Name <$> zones) s6).
  { intros k z Hz Hlab. apply list_elem_of_fmap. exists z. pose proof (named_zones _ Hn6 _ _ Hz) as Ek.
    split; [done|]. apply Hzones. rewrite Ek. split; [done|]. apply Forall_singleton. by apply map_singleton_subseteq_l. }
  destruct (update_zones_quiet k8s ocp name (zone_Name <$> zones) [] zones s6 (Returned None) s1)
    as (Hconf & _ & Hall); [done..|].
  exists ocp, k8s. split_and!; [done|by rewrite Hserver|]. intros k z Hz Hlab.
  pose proof (Hconf k z Hz Hlab) as (z0 & -> & Hz0)%list_elem_of_fmap.
  by apply (proj2 (Hall eq_refl) z0 Hz0).
Qed.

(** A run for another name reads that there is no such cluster version. *)
Lemma reconcile_other name k s res s' :
  k <> "version" -> zone_named s -> quiet name (reconcile k) s res s' -> rtc (quiet_changes name) s s'.
Proof using Type*.
  intros Hk Hnamed Hx. unfold recovered in Hx.
  apply exec_bind in Hx as (out & s1 & s2 & Hx & Hr2 & [_ Hr3]).
  assert (Hr : rtc (quiet_changes name) s1 s') by (by etrans). clear Hr2 Hr3.
  unfold ZoneK8sVersionReconciler_Reconcile in Hx.
  rewrite exec_trigger in Hx. destruct Hx as (s3 & got & s4 & Hr3 & [Hg _] & Hx).
  assert (Hn : zone_named s3).
  { eapply stable_rtc; [|exact Hr3|exact Hnamed]. intros t t' [[He _ _] _]. exact He. }
  destruct Hg as [cv Hcv|err Hnone ?|err ?]; [by destruct (Hk (named_version _ Hn _ _ Hcv))|..];
    (apply exec_ret in Hx as [_ Hx]; etrans; [exact Hr3|]; by etrans).
Qed.

#[export] Instance zone_level :
  Level zone_step (zone_env r) reconcile zone_watch zone_requests id zone_named
    (zones_synced json_Unmarshal r).
Proof using Type*.
  destruct zone_named_kept as [Henv Hstep]. split.
  - exact Henv.
  - intros k s res s' Hx. by apply (exec_keeps _ _ _ _ _ _ _ zone_named_kept Hx).
  - intros k s s' Hx. by apply (reach_keeps _ _ _ _ _ _ zone_named_kept Hx).
  - done.
  - intros name s s' He Hs Hq. by apply (zones_synced_stays name s s').
  - intros j k s res s' Hjk Hnamed Hx Hs Hj. subst j. apply reconcile_other in Hx; [|done..].
    eapply (stable_rtc _ (zones_synced json_Unmarshal r "version")); [|exact Hx|exact Hs|done].
    intros t t' [He Hq]. by apply zones_synced_stays.
  - intros name s s'. apply reconcile_synced.
  - intros name s. destruct (zs_versions s !! name) as [cv|] eqn:E.
    + right. by eapply existing_object.
    + left. intros _ cv. by rewrite E.
Qed.
End zones.

(** ** Properties *)
Section properties.
Context `{ApiErrorsLaws} `{MultierrLaws}.
Context (json_Unmarshal : string -> error + VersionInfo) (panic : error).

(** C35: whatever happens after the agent has started, when no request is queued every zone of the
    control API with the label of this zone has the current version of OpenShift and that of the API
    server: as long as others add no zone with the label and leave these two features alone, and the
    API server keeps its version, none of which the controller watches. *)
Theorem zones_in_order r sys sys' :
  zone_named (sys_state sys) -> started zone_requests sys ->
  rtc (controller_step zone_step (zone_env r)
        (fun name => recovered panic (ZoneK8sVersionReconciler_Reconcile json_Unmarshal r name))
        zone_watch zone_requests id) sys sys' ->
  sys_queue sys' = ∅ ->
  forall cv, zs_versions (sys_state sys') !! "version" = Some cv ->
  exists version rest ocpVersion k8sVersion,
    current_version cv version /\ strings.Split version "." = Major ocpVersion :: Minor ocpVersion :: rest /\
    json_Unmarshal (zs_server (sys_state sys')) = inr k8sVersion /\
    forall k z, zs_zones (sys_state sys') !! k = Some z -> labelled r z -> has_versions k8sVersion ocpVersion z.
Proof.
  intros Hn Hs Hr Hq cv Hcv.
  pose proof (at_rest _ _ _ _ _ _ _ (zones_synced json_Unmarshal r) sys sys' Hn Hs Hr Hq "version") as Hsynced.
  destruct (Hsynced eq_refl cv Hcv) as (ocp & k8s & Ho & Hk & Hz).
  destruct (extractOpenShiftVersion_spec cv _ Ho) as (v & Hv & _ & rest & Hrest). by exists v, rest, ocp, k8s.
Qed.
End properties.

(** ** The theorem on the example *)
Import Fake.

Definition zc_panic : error := ErrorString "panic: index out of range [recovered]".

Definition zc_zone (features : gmap string string) (version : nat) : system zone_state string :=
  {| sys_state := zv_state (zv_zone features version); sys_queue := ∅ |}.

Lemma zc_run :
  exec (queued_step zone_step zone_watch) (queued_env (zone_env {| ZoneID := "z1" |}) zone_watch)
    (recovered zc_panic (ZoneK8sVersionReconciler_Reconcile zv_unmarshal {| ZoneID := "z1" |} "version"))
    (zc_zone ∅ 0) None (zc_zone zv_features 1).
Proof.
  apply queued_calm. eapply (exec_mono zone_step _ alone).
  - intros X c s x s' Hx. split; [done|]. unfold zone_watch.
    by destruct (zone_step_cases _ _ _ _ _ Hx) as [->|[z ->]]; apply watching_id.
  - done.
  - eapply alone_bind; [exact zv_run|]. by apply alone_ret.
Qed.

Lemma zones_in_order_witness :
  exists version, current_version zv_cluster version /\
    feature (zv_zone zv_features 1) kubernetesVersionFeatureKey = Some "1.28".
Proof.
  destruct (zones_in_order zv_unmarshal zc_panic {| ZoneID := "z1" |}
    {| sys_state := zv_state (zv_zone ∅ 0); sys_queue := {["version"]} |} (zc_zone zv_features 1))
    with (cv := zv_cluster) as (v & _ & ocp & k8s & Hv & _ & Hk & Hz).
  - split; cbn [sys_state zv_state zs_versions zs_zones].
    + intros k cv [<- _]%lookup_singleton_Some. done.
    + intros k z [[<- <-]|[_ Hz]]%lookup_insert_Some; [done|]. by rewrite lookup_empty in Hz.
  - unfold started. by vm_compute.
  - apply rtc_once. refine (process_step _ _ _ _ _ _ "version" _ {["version"]} None _ ∅ _ _); [set_solver|].
    replace ({["version"]} ∖ {["version"]}) with (∅ : gset string) by set_solver. exact zc_run.
  - done.
  - by vm_compute.
  - exists v. split; [exact Hv|]. rewrite (has_kubernetes _ _ _ (Hz "lpg" (zv_zone zv_features 1) eq_refl eq_refl)).
    injection Hk as <-. done.
Defined.
