(* ===== verification/Scheme.v ===== *)
(** * The registration of types (api/v1/groupversion_info.go, main.go) and the test utilities

    Which group, version and kind a Go type has: the scheme that the agent builds before [main], and
    [EnsureGroupVersionKind] of testutils/testutils.go, which reads it. *)
From S2P Require Import Prelude GoStd Kube Transformers UsageProfile ApplyController.

(** A named Go type: the path of its package, the package's name and its own. *)
Record GoType := { type_Path : string; type_Package : string; type_Name : string }.

#[export] Instance GoType_eq_dec : EqDecision GoType.
Proof. solve_decision. Defined.

#[export] Instance GoType_countable : Countable GoType :=
  inj_countable' (fun t => (type_Path t, type_Package t, type_Name t))
    (fun '(p, n, t) => {| type_Path := p; type_Package := n; type_Name := t |})
    ltac:(by intros []).

(** [%T] of a pointer to a value of the type. *)
Definition Sprint_type (t : GoType) : string := "*" +:+ type_Package t +:+ "." +:+ type_Name t.

Record GroupVersion := { gv_Group : string; gv_Version : string }.

Definition WithKind (gv : GroupVersion) (kind : string) : GroupVersionKind :=
  {| gvk_Group := gv_Group gv; gvk_Version := gv_Version gv; gvk_Kind := kind |}.

(** A function that adds types to a scheme: it changes the scheme, and may fail. *)
Definition adder (Scheme : Type) : Type := Scheme -> option error * Scheme.

(** [runtime.Scheme] (of [ObjectKinds] the kinds only) and controller-runtime's [scheme.Builder]. *)
Class SchemeLib (Scheme Builder : Type) := {
  NewScheme : Scheme;
  ObjectKinds : Scheme -> GoType -> error + list GroupVersionKind;
  APIVersionInternal : string;
  new_Builder : GroupVersion -> Builder;
  Builder_Register : list GoType -> Builder -> Builder;
  Builder_AddToScheme : Builder -> adder Scheme;
}.

(** Interface [client.Object], as far as types and kinds go. *)
Class ClientObject (O : Type) := {
  TypeOf : O -> GoType;
  GetGroupVersionKind : O -> GroupVersionKind;
  SetGroupVersionKind : GroupVersionKind -> O -> O;
}.

(** ** Package [api/v1] *)
Section api.
Context {Scheme Builder : Type} `{SchemeLib Scheme Builder}.

Definition apiv1_GroupVersion : GroupVersion := {| gv_Group := "cloudagent.appuio.io"; gv_Version := "v1" |}.

Definition ZoneUsageProfile_type : GoType := {|
  type_Path := "github.com/appuio/appuio-cloud-agent/api/v1"; type_Package := "v1";
  type_Name := "ZoneUsageProfile" |}.

Definition ZoneUsageProfileList_type : GoType := {|
  type_Path := "github.com/appuio/appuio-cloud-agent/api/v1"; type_Package := "v1";
  type_Name := "ZoneUsageProfileList" |}.

(** The package's variables are set before its [init] runs. *)
Definition SchemeBuilder_var : Builder := new_Builder apiv1_GroupVersion.

(** The package's [init]. *)
Definition apiv1_init (builder : Builder) : Builder :=
  Builder_Register [ZoneUsageProfile_type; ZoneUsageProfileList_type] builder.

(** [SchemeBuilder] is a pointer, and [AddToScheme] a method of it: what [init] registers is added. *)
Definition SchemeBuilder : Builder := apiv1_init SchemeBuilder_var.

Definition apiv1_AddToScheme : adder Scheme := Builder_AddToScheme SchemeBuilder.
End api.

(** ** The [init] of main.go *)
Section init.
Context {Scheme Builder : Type} `{SchemeLib Scheme Builder}.
(** [AddToScheme] of the packages of Kubernetes, OpenShift and the control API. *)
Context (clientgoscheme userv1 projectv1 controlv1 configv1 : adder Scheme).

(** [utilruntime.Must] panics on an error. *)
Definition Must (add : adder Scheme) (s : Scheme) : option Scheme :=
  match add s with (Some _, _) => None | (None, s') => Some s' end.

Definition main_init : option Scheme :=
  s ← Must clientgoscheme NewScheme;
  s ← Must userv1 s;
  s ← Must projectv1 s;
  s ← Must apiv1_AddToScheme s;
  s ← Must controlv1 s;
  Must configv1 s.
End init.

(** ** Package [testutils] *)
Section testutils.
Context {Scheme Builder : Type} `{SchemeLib Scheme Builder} {O : Type} `{ClientObject O} `{MetadataLib}.

Fixpoint valid_kind (gvks : list GroupVersionKind) : option GroupVersionKind :=
  match gvks with
  | [] => None
  | gvk :: gvks =>
      if bool_decide (gvk_Kind gvk = "") then valid_kind gvks
      else if bool_decide (gvk_Version gvk = "") || bool_decide (gvk_Version gvk = APIVersionInternal)
      then valid_kind gvks
      else Some gvk
  end.

Definition findGVKForObject (scheme : Scheme) (obj : O) : error + GroupVersionKind :=
  try gvks <- ObjectKinds scheme (TypeOf obj) catch err => inl err;;
  match valid_kind gvks with
  | Some gvk => inr gvk
  | None => inl (ErrorString ("no valid GVK found for object " +:+ Sprint_type (TypeOf obj)))
  end.

(** An error fails the test ([require.NoError]). *)
Definition EnsureGroupVersionKind (scheme : Scheme) (obj : O) : error + O :=
  if negb (gvk_Empty (GetGroupVersionKind obj)) then inr obj else
  try gvk <- findGVKForObject scheme obj catch err => inl err;;
  inr (SetGroupVersionKind gvk obj).
End testutils.

(** ** What the libraries promise *)

(** The types that have kinds are those that have been added. *)
Definition registered {Scheme Builder} `{SchemeLib Scheme Builder} (s : Scheme) (t : GoType) : Prop :=
  exists kinds, ObjectKinds s t = inr kinds.

(** A builder adds the types that are registered with it, each with its name as its kind. *)
Class SchemeLaws (Scheme Builder : Type) `{SchemeLib Scheme Builder} : Prop := {
  ObjectKinds_new t : ~ registered NewScheme t;
  AddToScheme_registered gv ts s s' t :
    Builder_AddToScheme (Builder_Register ts (new_Builder gv)) s = (None, s') ->
    t ∈ ts -> ~ registered s t -> ObjectKinds s' t = inr [WithKind gv (type_Name t)];
  APIVersionInternal_v1 : APIVersionInternal <> "v1";
}.

(** A function that adds no types of a package. *)
Definition adds_none_of {Scheme Builder} `{SchemeLib Scheme Builder} (path : string) (add : adder Scheme) : Prop :=
  forall s s' t, add s = (None, s') -> type_Path t = path -> ObjectKinds s' t = ObjectKinds s t.

(** ** Lemmas *)
Section lemmas.
Context {Scheme Builder : Type} `{SchemeLaws Scheme Builder}.

Lemma Must_spec (add : adder Scheme) s s' : Must add s = Some s' <-> add s = (None, s').
Proof. unfold Must. split; [intros Hm|intros ->; done]. by destruct (add s) as [[e|] s1]; simplify_eq. Qed.

Lemma Must_kinds path (add : adder Scheme) s s' t :
  adds_none_of path add -> Must add s = Some s' -> type_Path t = path ->
  ObjectKinds s' t = ObjectKinds s t.
Proof. intros Ha Hm%Must_spec Hp. by eapply Ha. Qed.

Lemma valid_kind_first gvks : valid_kind gvks =
  head (filter (fun g => gvk_Kind g <> "" /\ gvk_Version g <> "" /\ gvk_Version g <> APIVersionInternal) gvks).
Proof.
  induction gvks as [|g gvks IH]; [done|]. simpl. rewrite filter_cons.
  repeat (case_bool_decide; simpl); case_decide; try done; tauto.
Qed.

(** What the scheme of the agent says about the agent's own types. *)
Lemma main_init_kinds (clientgo user project control config : adder Scheme) scheme t :
  Forall (adds_none_of (type_Path ZoneUsageProfile_type)) [clientgo; user; project; control; config] ->
  main_init clientgo user project control config = Some scheme ->
  t ∈ [ZoneUsageProfile_type; ZoneUsageProfileList_type] ->
  ObjectKinds scheme t = inr [WithKind apiv1_GroupVersion (type_Name t)].
Proof.
  rewrite !Forall_cons. intros (H1 & H2 & H3 & H4 & H5 & _) Hi Ht.
  assert (Hp : type_Path t = type_Path ZoneUsageProfile_type) 
    by (by apply elem_of_cons in Ht as [-> | ->%list_elem_of_singleton]).
  apply bind_Some in Hi as (s1 & Hs1 & (s2 & Hs2 & (s3 & Hs3 & (s4 & Hs4 & (s5 & Hs5 &
    Hs6)%bind_Some)%bind_Some)%bind_Some)%bind_Some).
  rewrite (Must_kinds _ _ _ _ t H5 Hs6 Hp), (Must_kinds _ _ _ _ t H4 Hs5 Hp).
  apply Must_spec in Hs4. eapply AddToScheme_registered; [exact Hs4|done|].
  unfold registered. rewrite (Must_kinds _ _ _ _ t H3 Hs3 Hp), (Must_kinds _ _ _ _ t H2 Hs2 Hp),
    (Must_kinds _ _ _ _ t H1 Hs1 Hp). apply ObjectKinds_new.
Qed.
End lemmas.

(** ** Properties *)
Section properties.
Context {Scheme Builder : Type} `{SchemeLaws Scheme Builder} {O : Type} `{ClientObject O} `{MetadataLib}.

(** C40: when the start of the agent does not panic, its scheme gives its own types the kinds of the
    group cloudagent.appuio.io/v1, whatever the packages of the other APIs add to it;
    [EnsureGroupVersionKind] then sets this kind on objects of these types that have none, and
    leaves objects that have a kind as they are. *)
Theorem agent_kinds (clientgo user project control config : adder Scheme) scheme :
  Forall (adds_none_of (type_Path ZoneUsageProfile_type)) [clientgo; user; project; control; config] ->
  main_init clientgo user project control config = Some scheme ->
  forall obj : O,
    (gvk_Empty (GetGroupVersionKind obj) = false -> EnsureGroupVersionKind scheme obj = inr obj) /\
    (gvk_Empty (GetGroupVersionKind obj) = true ->
     TypeOf obj ∈ [ZoneUsageProfile_type; ZoneUsageProfileList_type] ->
     EnsureGroupVersionKind scheme obj = inr (SetGroupVersionKind
       {| gvk_Group := "cloudagent.appuio.io"; gvk_Version := "v1"; gvk_Kind := type_Name (TypeOf obj) |} obj)).
Proof.
  intros Hlibs Hi obj. unfold EnsureGroupVersionKind. split; intros He; rewrite He; [done|]. intros Ht.
  unfold findGVKForObject. rewrite (main_init_kinds _ _ _ _ _ _ _ Hlibs Hi Ht), valid_kind_first.
  rewrite filter_cons_True; [done|]. split_and!; [|done|exact (not_eq_sym APIVersionInternal_v1)].
  by apply elem_of_cons in Ht as [-> | ->%list_elem_of_singleton].
Qed.
End properties.

(** ** The theorem on an example *)

(** A scheme as a map, a builder as the types that are registered. *)
Definition sc_add (gv : GroupVersion) (s : gmap GoType (list GroupVersionKind)) (t : GoType)
    : gmap GoType (list GroupVersionKind) :=
  if decide (WithKind gv (type_Name t) ∈ default [] (s !! t)) then s
  else <[t := default [] (s !! t) ++ [WithKind gv (type_Name t)]]> s.

#[local] Instance sc_lib : SchemeLib (gmap GoType (list GroupVersionKind)) (GroupVersion * list GoType) := {|
  NewScheme := ∅;
  ObjectKinds := fun s t => match s !! t with
    | Some kinds => inr kinds
    | None => inl (ErrorString ("no kind is registered for the type " +:+ Sprint_type t)) end;
  APIVersionInternal := "__internal";
  new_Builder := fun gv => (gv, []);
  Builder_Register := fun ts b => (b.1, b.2 ++ ts);
  Builder_AddToScheme := fun b s => (None, foldl (sc_add b.1) s b.2);
|}.

Lemma sc_add_all gv ts s t : t ∈ ts -> s !! t = None \/ s !! t = Some [WithKind gv (type_Name t)] ->
  foldl (sc_add gv) s ts !! t = Some [WithKind gv (type_Name t)].
Proof.
  assert (Hkeep : forall ts s, s !! t = Some [WithKind gv (type_Name t)] ->
    foldl (sc_add gv) s ts !! t = Some [WithKind gv (type_Name t)]).
  { clear. induction ts as [|u ts IH]; intros s Hs; [done|]. apply IH. unfold sc_add.
    case_decide as Hd; [done|]. destruct (decide (u = t)) as [->|]; [|by rewrite lookup_insert_ne].
    rewrite Hs in Hd. destruct Hd. left. }
  revert s. induction ts as [|u ts IH]; intros s Ht Hs; [by apply not_elem_of_nil in Ht|]. cbn [foldl].
  destruct (decide (u = t)) as [->|Hu].
  - apply Hkeep. unfold sc_add. case_decide as Hd; destruct Hs as [Hs|Hs]; rewrite Hs in Hd |- *.
    + by apply not_elem_of_nil in Hd.
    + done.
    + by rewrite lookup_insert_eq.
    + destruct Hd. left.
  - apply elem_of_cons in Ht as [->|Ht]; [done|]. apply IH; [done|]. unfold sc_add.
    case_decide; [done|]. by rewrite lookup_insert_ne.
Qed.

#[local] Instance sc_laws : SchemeLaws (gmap GoType (list GroupVersionKind)) (GroupVersion * list GoType).
Proof.
  split; [|..|done].
  - intros t [kinds Hk]. simpl in Hk. by rewrite lookup_empty in Hk.
  - intros gv ts s s' t [= <-] Ht Hs. simpl. rewrite sc_add_all; [done|done|]. left.
    destruct (s !! t) as [kinds|] eqn:E; [|done]. destruct Hs. exists kinds. simpl. by rewrite E.
Qed.

(** An object is its type and its kind. *)
#[local] Instance sc_object : ClientObject (GoType * GroupVersionKind) := {|
  TypeOf := fst; GetGroupVersionKind := snd; SetGroupVersionKind := fun gvk obj => (obj.1, gvk) |}.

Definition sc_pods : adder (gmap GoType (list GroupVersionKind)) := fun s =>
  (None, <[{| type_Path := "k8s.io/api/core/v1"; type_Package := "v1"; type_Name := "Pod" |} :=
    [{| gvk_Group := ""; gvk_Version := "v1"; gvk_Kind := "Pod" |}]]> s).

#[local] Existing Instance ac_metadata.

Lemma agent_kinds_witness :
  exists scheme, main_init sc_pods sc_pods sc_pods sc_pods sc_pods = Some scheme /\
    EnsureGroupVersionKind scheme (ZoneUsageProfile_type, {| gvk_Group := ""; gvk_Version := ""; gvk_Kind := "" |}) =
      inr (ZoneUsageProfile_type, {| gvk_Group := "cloudagent.appuio.io"; gvk_Version := "v1";
                                     gvk_Kind := "ZoneUsageProfile" |}).
Proof.
  eexists. split; [reflexivity|].
  refine (proj2 (agent_kinds sc_pods sc_pods sc_pods sc_pods sc_pods _ _ eq_refl
    (ZoneUsageProfile_type, {| gvk_Group := ""; gvk_Version := ""; gvk_Kind := "" |})) eq_refl _); [|left].
  repeat (constructor; [intros s s' t [= <-] Hp; simpl; rewrite lookup_insert_ne; [done|by intros <-]|]).
  constructor.
Defined.

Example sc_other_version :
  valid_kind [{| gvk_Group := "g"; gvk_Version := "__internal"; gvk_Kind := "A" |};
              {| gvk_Group := "g"; gvk_Version := "v2"; gvk_Kind := "A" |}] =
  Some {| gvk_Group := "g"; gvk_Version := "v2"; gvk_Kind := "A" |}.
Proof. reflexivity. Qed.
